(** * Vortex-lattice solvers of PteraSoftware: a shallow embedding

    The three solver classes of the package
    ([steady_horseshoe_vortex_lattice_method.py],
    [steady_ring_vortex_lattice_method.py],
    [unsteady_ring_vortex_lattice_method.py]) and the wake-vertex routine of
    the legacy unsteady solver are transcribed below as functions over an
    explicit solver state.

    Conventions.
    - Floating-point numbers are idealised as exact rationals ([Q]); a vector
      of three floats is a [Vec3].  Equalities that hold because the code
      evaluates the very same expression are stated with [=]; equalities
      that hold by arithmetic are stated with [==] (componentwise: [veq]).
    - A Python exception is a [Raise e] result; the state reached before the
      exception is dropped, since every exception aborts the run.
    - numpy arrays of rank two are lists of rows together with the length
      of the second axis, which an array without rows still has.
    - Objects mutated in place live in the solver state and are read and
      written through their position in it, so that aliases of one object
      (the current airplane and the last airplane at step zero) see the
      same writes. *)

From Stdlib Require Import QArith Qfield Lia List String.
From stdpp Require Import base list option.

(** ** Exceptions and results *)

Inductive exn : Type :=
  | TypeError
  | AttributeError
  | IndexError
  | ValueError
  | LinAlgError
  | GeometryDegenerateError.

Inductive result (A : Type) : Type :=
  | Ok (a : A)
  | Raise (e : exn).
Arguments Ok {A} a.
Arguments Raise {A} e.

#[global] Instance result_ret : MRet result := fun A a => Ok a.
#[global] Instance result_bind : MBind result := fun A B f m =>
  match m with
  | Ok a => f a
  | Raise e => Raise e
  end.

Definition of_option {A : Type} (e : exn) (o : option A) : result A :=
  match o with
  | Some a => Ok a
  | None => Raise e
  end.

(** [for x in xs: st = body(x, st)] *)
Fixpoint for_each {X S : Type} (xs : list X) (body : X -> S -> result S)
    (st : S) : result S :=
  match xs with
  | [] => Ok st
  | x :: xs' => st' ← body x st; for_each xs' body st'
  end.

(** Python's [range(n)] *)
Definition range (n : nat) : list nat := seq 0 n.

(** ** Vectors of three floats *)

Record Vec3 : Type := mk_vec { vx : Q; vy : Q; vz : Q }.

Definition vzero : Vec3 := mk_vec 0 0 0.

Definition vadd (u v : Vec3) : Vec3 :=
  mk_vec (vx u + vx v) (vy u + vy v) (vz u + vz v).

Definition vsub (u v : Vec3) : Vec3 :=
  mk_vec (vx u - vx v) (vy u - vy v) (vz u - vz v).

Definition vneg (u : Vec3) : Vec3 := mk_vec (- vx u) (- vy u) (- vz u).

(** [k * v] with the scalar on the left *)
Definition vscale (k : Q) (v : Vec3) : Vec3 :=
  mk_vec (k * vx v) (k * vy v) (k * vz v).

(** [v * k] with the scalar on the right *)
Definition vscale_r (v : Vec3) (k : Q) : Vec3 :=
  mk_vec (vx v * k) (vy v * k) (vz v * k).

(** [np.dot] of two vectors *)
Definition dot (u v : Vec3) : Q := vx u * vx v + vy u * vy v + vz u * vz v.

(** [np.cross] *)
Definition cross (u v : Vec3) : Vec3 :=
  mk_vec (vy u * vz v - vz u * vy v)
         (vz u * vx v - vx u * vz v)
         (vx u * vy v - vy u * vx v).


Definition veqb (u v : Vec3) : bool :=
  Qeq_bool (vx u) (vx v) && Qeq_bool (vy u) (vy v) && Qeq_bool (vz u) (vz v).

(** [x != 0] on floats *)
Definition nonzero (x : Q) : bool := negb (Qeq_bool x 0).

(** A 3 x 3 matrix, by rows, its transpose and the product [m @ v]. *)
Record Mat3 : Type := mk_mat3 { m_row0 : Vec3; m_row1 : Vec3; m_row2 : Vec3 }.

Definition transpose3 (m : Mat3) : Mat3 :=
  mk_mat3 (mk_vec (vx (m_row0 m)) (vx (m_row1 m)) (vx (m_row2 m)))
          (mk_vec (vy (m_row0 m)) (vy (m_row1 m)) (vy (m_row2 m)))
          (mk_vec (vz (m_row0 m)) (vz (m_row1 m)) (vz (m_row2 m))).

Definition mat3_vec (m : Mat3) (v : Vec3) : Vec3 :=
  mk_vec (dot (m_row0 m) v) (dot (m_row1 m) v) (dot (m_row2 m) v).

(** ** numpy arrays *)

(** A vector: [np.zeros(n)] and an indexed store, which raises
    [IndexError] out of range. *)
Definition np_zeros (n : nat) : list Q := replicate n 0%Q.

Definition get_item {A : Type} (l : list A) (i : nat) : result A :=
  of_option IndexError (l !! i).

Definition set_item {A : Type} (l : list A) (i : nat) (x : A)
    : result (list A) :=
  if decide (i < length l) then Ok (<[i := x]> l) else Raise IndexError.

(** An array of rank two (or of rank three whose last axis is a [Vec3]):
    [shape1] is the length of the second axis, [rows] the first axis. *)
Record ndarray (A : Type) : Type := mk_ndarray {
  shape1 : nat;
  rows : list (list A)
}.
Arguments mk_ndarray {A} shape1 rows.
Arguments shape1 {A} _.
Arguments rows {A} _.

Definition shape0 {A : Type} (a : ndarray A) : nat := length (rows a).

(** The rows of a real array all have [shape1] entries. *)
Definition wf_ndarray {A : Type} (a : ndarray A) : Prop :=
  Forall (fun r => length r = shape1 a) (rows a).

(** [np.zeros((r, c, 3))], [np.empty((r, c), dtype=object)] *)
Definition np_full {A : Type} (r c : nat) (x : A) : ndarray A :=
  mk_ndarray c (replicate r (replicate c x)).

(** [a[i, j]] for indices that are not negative *)
Definition get2 {A : Type} (a : ndarray A) (i j : nat) : result A :=
  row ← of_option IndexError (rows a !! i);
  of_option IndexError (row !! j).

(** [a[i, j] = x] *)
Definition set2 {A : Type} (a : ndarray A) (i j : nat) (x : A)
    : result (ndarray A) :=
  row ← of_option IndexError (rows a !! i);
  row' ← set_item row j x;
  Ok (mk_ndarray (shape1 a) (<[i := row']> (rows a))).

(** Python resolves an index [i] of an axis of length [n]: a negative
    index counts from the end. *)
Definition py_index (n : nat) (i : Z) : result nat :=
  if decide (0 <= i < Z.of_nat n)%Z then Ok (Z.to_nat i)
  else if decide (- Z.of_nat n <= i < 0)%Z then Ok (Z.to_nat (i + Z.of_nat n))
  else Raise IndexError.

(** [a[i, j]] for indices that may be negative *)
Definition get2_py {A : Type} (a : ndarray A) (i j : Z) : result A :=
  i' ← py_index (shape0 a) i;
  j' ← py_index (shape1 a) j;
  get2 a i' j'.

(** [np.vstack((a, b))]: the second axes must agree. *)
Definition vstack {A : Type} (a b : ndarray A) : result (ndarray A) :=
  if decide (shape1 a = shape1 b)
  then Ok (mk_ndarray (shape1 a) (rows a ++ rows b))
  else Raise ValueError.

(** Two arrays of one shape *)
Definition same_shape {A B : Type} (a : ndarray A) (b : ndarray B) : Prop :=
  shape1 a = shape1 b /\ (length <$> rows a) = (length <$> rows b).

(** [np.ravel(a)] of an array in row-major order *)
Definition ravel {A : Type} (a : ndarray A) : list A := concat (rows a).

(** The array of the shape of [a] whose raveled entries are [l]. *)
Fixpoint unravel_rows {A : Type} (rs : list (list A)) (l : list A)
    : list (list A) :=
  match rs with
  | [] => []
  | r :: rs' => take (length r) l :: unravel_rows rs' (drop (length r) l)
  end.

Definition unravel {A : Type} (a : ndarray A) (l : list A) : ndarray A :=
  mk_ndarray (shape1 a) (unravel_rows (rows a) l).

(** ** Data model

    The classes of [aerodynamics.py], [geometry.py] and [performance.py]
    are not part of the solver modules; they are represented by records
    with the attributes the solvers read and write. *)

(** Modelled from the spec: a vortex filament has an origin, a termination
    and a strength, and derives its midpoint and its vector from the two
    points.  [near_field_force] is the attribute the steady ring solver
    attaches to a leg. *)
Module LineVortex.
Record t : Type := make {
    origin : Vec3;
    termination : Vec3;
    strength : option Q;
    near_field_force : option Vec3
  }.

Definition vector (l : t) : Vec3 := vsub (termination l) (origin l).

Definition center (l : t) : Vec3 :=
    vadd (origin l) (vscale (1 # 2) (vector l)).

Definition update_strength (g : Q) (l : t) : t :=
    make (origin l) (termination l) (Some g) (near_field_force l).

Definition set_near_field_force (f : Vec3) (l : t) : t :=
    make (origin l) (termination l) (strength l) (Some f).
End LineVortex.

(** Modelled from the spec: a ring vortex is four connected finite legs
    (front, right, back, left) forming a closed quadrilateral loop of one
    strength.  [update_strength] sets the strength on the ring and on all
    its legs; [update_position] replaces the four vertices and recomputes
    the legs, the strength staying what it was. *)
Module RingVortex.
Record t : Type := make {
    front_left_vertex : Vec3;
    front_right_vertex : Vec3;
    back_left_vertex : Vec3;
    back_right_vertex : Vec3;
    strength : option Q;
    front_leg : LineVortex.t;
    left_leg : LineVortex.t;
    back_leg : LineVortex.t;
    right_leg : LineVortex.t
  }.

  (** [RingVortex(front_left_vertex=.., front_right_vertex=..,
      back_left_vertex=.., back_right_vertex=.., strength=..)] *)
Definition new (fl fr bl br : Vec3) (g : option Q) : t :=
    make fl fr bl br g
      (LineVortex.make fr fl g None)
      (LineVortex.make fl bl g None)
      (LineVortex.make bl br g None)
      (LineVortex.make br fr g None).

Definition update_strength (g : Q) (r : t) : t :=
    make (front_left_vertex r) (front_right_vertex r)
      (back_left_vertex r) (back_right_vertex r) (Some g)
      (LineVortex.update_strength g (front_leg r))
      (LineVortex.update_strength g (left_leg r))
      (LineVortex.update_strength g (back_leg r))
      (LineVortex.update_strength g (right_leg r)).

Definition update_position (fl fr bl br : Vec3) (r : t) : t :=
    new fl fr bl br (strength r).

Definition set_front_leg (l : LineVortex.t) (r : t) : t :=
    make (front_left_vertex r) (front_right_vertex r)
      (back_left_vertex r) (back_right_vertex r) (strength r)
      l (left_leg r) (back_leg r) (right_leg r).

Definition set_left_leg (l : LineVortex.t) (r : t) : t :=
    make (front_left_vertex r) (front_right_vertex r)
      (back_left_vertex r) (back_right_vertex r) (strength r)
      (front_leg r) l (back_leg r) (right_leg r).

Definition set_right_leg (l : LineVortex.t) (r : t) : t :=
    make (front_left_vertex r) (front_right_vertex r)
      (back_left_vertex r) (back_right_vertex r) (strength r)
      (front_leg r) (left_leg r) (back_leg r) l.
End RingVortex.

(** Modelled from the spec: a horseshoe vortex is one finite leg and two
    semi-infinite legs along a fixed direction; [update_strength] sets the
    strength on all of them. *)
Module HorseshoeVortex.
Record t : Type := make {
    finite_leg : LineVortex.t;
    strength : option Q;
    infinite_leg_direction : Vec3;
    infinite_leg_length : Q
  }.

Definition new (o tm : Vec3) (g : option Q) (d : Vec3) (len : Q) : t :=
    make (LineVortex.make o tm g None) g d len.

Definition update_strength (g : Q) (h : t) : t :=
    make (LineVortex.update_strength g (finite_leg h)) (Some g)
      (infinite_leg_direction h) (infinite_leg_length h).
End HorseshoeVortex.

Module Panel.
Record t : Type := make {
    front_left_vertex : Vec3;
    front_right_vertex : Vec3;
    back_left_vertex : Vec3;
    back_right_vertex : Vec3;
    front_left_vortex_vertex : Vec3;
    front_right_vortex_vertex : Vec3;
    collocation_point : Vec3;
    normal_direction : Vec3;
    area : Q;
    is_leading_edge : bool;
    is_trailing_edge : bool;
    ring_vortex : option RingVortex.t;
    horseshoe_vortex : option HorseshoeVortex.t;
    near_field_force_geometry_axes : Vec3;
    near_field_moment_geometry_axes : Vec3;
    delta_pressure : Q
  }.

Definition set_ring_vortex (r : option RingVortex.t) (p : t) : t :=
    make (front_left_vertex p) (front_right_vertex p) (back_left_vertex p)
      (back_right_vertex p) (front_left_vortex_vertex p)
      (front_right_vortex_vertex p) (collocation_point p)
      (normal_direction p) (area p) (is_leading_edge p) (is_trailing_edge p)
      r (horseshoe_vortex p)
      (near_field_force_geometry_axes p) (near_field_moment_geometry_axes p)
      (delta_pressure p).

Definition set_horseshoe_vortex (h : option HorseshoeVortex.t) (p : t) : t :=
    make (front_left_vertex p) (front_right_vertex p) (back_left_vertex p)
      (back_right_vertex p) (front_left_vortex_vertex p)
      (front_right_vortex_vertex p) (collocation_point p)
      (normal_direction p) (area p) (is_leading_edge p) (is_trailing_edge p)
      (ring_vortex p) h
      (near_field_force_geometry_axes p) (near_field_moment_geometry_axes p)
      (delta_pressure p).

  (** The three result attributes of a panel *)
Definition set_results (f m : Vec3) (dp : Q) (p : t) : t :=
    make (front_left_vertex p) (front_right_vertex p) (back_left_vertex p)
      (back_right_vertex p) (front_left_vortex_vertex p)
      (front_right_vortex_vertex p) (collocation_point p)
      (normal_direction p) (area p) (is_leading_edge p) (is_trailing_edge p)
      (ring_vortex p) (horseshoe_vortex p) f m dp.
End Panel.

Module Wing.
Record t : Type := make {
    num_chordwise_panels : nat;
    num_spanwise_panels : nat;
    panels : ndarray Panel.t;
    wake_ring_vortex_vertices : ndarray Vec3;
    wake_ring_vortices : ndarray (option RingVortex.t);
    streamline_points : ndarray Vec3
  }.

Definition set_panels (ps : ndarray Panel.t) (w : t) : t :=
    make (num_chordwise_panels w) (num_spanwise_panels w) ps
      (wake_ring_vortex_vertices w) (wake_ring_vortices w)
      (streamline_points w).

Definition set_wake_ring_vortex_vertices (vs : ndarray Vec3) (w : t) : t :=
    make (num_chordwise_panels w) (num_spanwise_panels w) (panels w)
      vs (wake_ring_vortices w) (streamline_points w).

Definition set_wake_ring_vortices (rs : ndarray (option RingVortex.t))
      (w : t) : t :=
    make (num_chordwise_panels w) (num_spanwise_panels w) (panels w)
      (wake_ring_vortex_vertices w) rs (streamline_points w).

Definition set_streamline_points (sp : ndarray Vec3) (w : t) : t :=
    make (num_chordwise_panels w) (num_spanwise_panels w) (panels w)
      (wake_ring_vortex_vertices w) (wake_ring_vortices w) sp.
End Wing.

Module Airplane.
Record t : Type := make {
    wings : list Wing.t;
    num_panels : nat;
    xyz_ref : Vec3;
    s_ref : Q;
    b_ref : Q;
    c_ref : Q;
    total_near_field_force_wind_axes : Vec3;
    total_near_field_force_coefficients_wind_axes : Vec3;
    total_near_field_moment_wind_axes : Vec3;
    total_near_field_moment_coefficients_wind_axes : Vec3
  }.

Definition set_wings (ws : list Wing.t) (a : t) : t :=
    make ws (num_panels a) (xyz_ref a) (s_ref a) (b_ref a) (c_ref a)
      (total_near_field_force_wind_axes a)
      (total_near_field_force_coefficients_wind_axes a)
      (total_near_field_moment_wind_axes a)
      (total_near_field_moment_coefficients_wind_axes a).

Definition set_totals (f fc m mc : Vec3) (a : t) : t :=
    make (wings a) (num_panels a) (xyz_ref a) (s_ref a) (b_ref a) (c_ref a)
      f fc m mc.
End Airplane.

(** The operating point, by the values its methods return. *)
Module OperatingPoint.
Record t : Type := make {
    density : Q;
    calculate_freestream_velocity_geometry_axes : Vec3;
    calculate_freestream_direction_geometry_axes : Vec3;
    calculate_dynamic_pressure : Q;
    calculate_rotation_matrix_wind_axes_to_geometry_axes : Mat3
  }.
End OperatingPoint.

(** What the solvers take from the vortex and panel classes and from the
    movement: the Biot-Savart velocities of the vortex elements, the
    velocity of a named point of a panel due to the motion of the
    geometry, the centre of a ring vortex, and the methods by which a
    panel refreshes its results. *)
Class Aerodynamics : Type := {
  (** [Panel.calculate_normalized_induced_velocity(point)]: the velocity
      the bound vortices of a panel induce at unit strength *)
  panel_normalized_induced_velocity :
    option RingVortex.t -> option HorseshoeVortex.t -> Vec3 -> Vec3;
  (** [Panel.calculate_induced_velocity(point)] *)
  panel_induced_velocity :
    option RingVortex.t -> option HorseshoeVortex.t -> Vec3 -> Vec3;
  (** [RingVortex.calculate_induced_velocity(point)] *)
  ring_induced_velocity : RingVortex.t -> Vec3 -> Vec3;
  (** [RingVortex.center] *)
  ring_center : RingVortex.t -> Vec3;
  (** [movement.get_flapping_velocity_at_point_on_panel(wing_position,
      panel_chordwise_position, panel_spanwise_position, point_name,
      current_step)] *)
  get_flapping_velocity_at_point_on_panel :
    nat -> Z -> Z -> string -> nat -> Vec3;
  (** the pressure [Panel.update_pressure()] stores, from the panel's
      force, normal and area *)
  pressure_of : Vec3 -> Vec3 -> Q -> Q;
  (** [Panel.update_force_moment_and_pressure()] *)
  update_force_moment_and_pressure : Panel.t -> Panel.t
}.

(** ** The dense linear solve

    [np.linalg.solve(a, b)] in exact arithmetic: the unknowns are
    eliminated one at a time on a pivot equation whose leading coefficient
    is not zero, and a system without such a pivot is singular, for which
    numpy raises [LinAlgError].  The solution of a system that is not
    singular is unique, so the order in which pivots are taken does not
    show in the result.  The floats of numpy agree with this where the
    pivots are exact, as for a zero column, which stays zero under the
    elimination; where a pivot that is zero here is rounded to a small
    number there, numpy returns large values and raises nothing. *)

Definition equation : Type := (list Q * Q)%type.

(** The sum of the products of a row with the unknowns *)
Fixpoint dotl (r x : list Q) : Q :=
  match r, x with
  | a :: r', b :: x' => (a * b + dotl r' x')%Q
  | _, _ => 0%Q
  end.

Definition leading (e : equation) : Q := hd 0%Q (fst e).

(** The unknowns [x] satisfy the equation [e]. *)
Definition satisfies (x : list Q) (e : equation) : Prop :=
  (dotl (fst e) x == snd e)%Q.

(** The first equation whose leading coefficient is not zero, and the
    other equations. *)
Fixpoint find_pivot (eqs : list equation) : option (equation * list equation) :=
  match eqs with
  | [] => None
  | e :: eqs' =>
      if nonzero (leading e) then Some (e, eqs')
      else match find_pivot eqs' with
           | Some (p, rest) => Some (p, e :: rest)
           | None => None
           end
  end.

(** Equation [e] with its first unknown eliminated by the pivot [p] *)
Definition eliminate (p e : equation) : equation :=
  let f := (leading e / leading p)%Q in
  (zip_with (fun a b => (a - f * b)%Q) (tl (fst e)) (tl (fst p)),
   (snd e - f * snd p)%Q).

Fixpoint solve_equations (n : nat) (eqs : list equation) : result (list Q) :=
  match n with
  | O => Ok []
  | S n' =>
      match find_pivot eqs with
      | None => Raise LinAlgError
      | Some (p, rest) =>
          x' ← solve_equations n' (map (eliminate p) rest);
          Ok (((snd p - dotl (tl (fst p)) x') / leading p)%Q :: x')
      end
  end.

Definition is_square (a : list (list Q)) : bool :=
  forallb (fun r => Nat.eqb (length r) (length a)) a.

Definition linalg_solve (a : list (list Q)) (b : list Q) : result (list Q) :=
  if negb (is_square a) then Raise LinAlgError
  else if negb (Nat.eqb (length b) (length a)) then Raise ValueError
  else solve_equations (length a) (zip a b).

(** [a @ x] and the negation of a vector *)
Definition mat_vec (a : list (list Q)) (x : list Q) : list Q :=
  map (fun r => dotl r x) a.

Definition neg_list (v : list Q) : list Q := map Qopp v.

(** [u - v] of two numpy vectors: entry by entry when the lengths agree,
    a vector of one entry being broadcast, [ValueError] otherwise. *)
Definition np_sub (u v : list Q) : result (list Q) :=
  if decide (length u = length v) then Ok (zip_with Qminus u v)
  else match u, v with
       | [a], _ => Ok (map (fun b => (a - b)%Q) v)
       | _, [b] => Ok (map (fun a => (a - b)%Q) u)
       | _, _ => Raise ValueError
       end.

(** [m[i, j] = x] on a matrix given by its rows *)
Definition set_matrix (m : list (list Q)) (i j : nat) (x : Q)
    : result (list (list Q)) :=
  row ← get_item m i;
  row' ← set_item row j x;
  Ok (<[i := row']> m).

(** [enumerate(l)], which is also [np.ndenumerate] of a vector *)
Definition enumerate {A : Type} (l : list A) : list (nat * A) :=
  zip (seq 0 (length l)) l.

(** [[f(i, x) for i, x in enumerate(l)]], stopping at the first exception *)
Fixpoint imapM_from {A B : Type} (i : nat) (f : nat -> A -> result B)
    (l : list A) : result (list B) :=
  match l with
  | [] => Ok []
  | x :: l' => y ← f i x; ys ← imapM_from (S i) f l'; Ok (y :: ys)
  end.

Definition imapM {A B : Type} (f : nat -> A -> result B) (l : list A)
    : result (list B) := imapM_from 0 f l.

(** Python values that are a float or [None]: arithmetic on [None] raises
    [TypeError], and [None != 0] holds. *)
Definition py_float (o : option Q) : result Q := of_option TypeError o.

Definition py_sub (a b : option Q) : result (option Q) :=
  x ← py_float a; y ← py_float b; Ok (Some (x - y)%Q).

Definition py_nonzero (o : option Q) : bool :=
  match o with
  | Some x => nonzero x
  | None => true
  end.

(** The attribute of an object that may be [None] *)
Definition attr {A : Type} (o : option A) : result A :=
  of_option AttributeError o.

(** ** What the solvers share *)

(** A panel of a wing and a wing of an airplane replaced in place *)
Definition modify_panel (c sp : nat) (f : Panel.t -> Panel.t) (w : Wing.t)
    : Wing.t :=
  Wing.set_panels
    (mk_ndarray (shape1 (Wing.panels w))
       (alter (alter f sp) c (rows (Wing.panels w)))) w.

Definition modify_wing (wi : nat) (f : Wing.t -> Wing.t) (a : Airplane.t)
    : Airplane.t :=
  Airplane.set_wings (alter f wi (Airplane.wings a)) a.

(** [wing.num_chordwise_panels - 1], a Python integer *)
Definition trailing_edge_position (w : Wing.t) : Z :=
  (Z.of_nat (Wing.num_chordwise_panels w) - 1)%Z.

(** [for wing in wings: wings[i] = f(wing)], stopping at the first
    exception *)
Fixpoint mapM {A B : Type} (f : A -> result B) (l : list A)
    : result (list B) :=
  match l with
  | [] => Ok []
  | x :: l' => y ← f x; ys ← mapM f l'; Ok (y :: ys)
  end.

(** What a wing keeps of its wake, and its panel counts *)
Definition wake_of_wing (w : Wing.t)
    : nat * nat * ndarray Vec3 * ndarray (option RingVortex.t) :=
  (Wing.num_chordwise_panels w, Wing.num_spanwise_panels w,
   Wing.wake_ring_vortex_vertices w, Wing.wake_ring_vortices w).

Definition wake_of_airplane (a : Airplane.t)
    : list (nat * nat * ndarray Vec3 * ndarray (option RingVortex.t)) :=
  wake_of_wing <$> Airplane.wings a.

(** The number of panels of a wing *)
Definition panel_count (w : Wing.t) : nat :=
  Wing.num_chordwise_panels w * Wing.num_spanwise_panels w.

(** *** The strengths of the bound legs

    The steady ring solver and the unsteady solver compute the strengths
    of the right, front and left legs of a panel with the same lines. *)

(** The strength of the ring vortex of a panel: a float or [None]. *)
Definition ring_strength (panel : Panel.t) : result (option Q) :=
  ring_vortex ← attr (Panel.ring_vortex panel);
  Ok (RingVortex.strength ring_vortex).

(** The strengths of the right, front and left bound legs of the panel at
    [(c, sp)]. *)
Definition right_bound_vortex_strength (wing : Wing.t) (c sp : nat)
    (panel : Panel.t) : result (option Q) :=
  let is_right_edge := bool_decide (sp + 1 = Wing.num_spanwise_panels wing) in
  if is_right_edge then ring_strength panel else Ok (Some 0%Q).

Definition front_bound_vortex_strength (wing : Wing.t) (c sp : nat)
    (panel : Panel.t) : result (option Q) :=
  let is_leading_edge := Panel.is_leading_edge panel in
  if is_leading_edge then ring_strength panel
  else
    g ← ring_strength panel;
    neighbour ← get2_py (Wing.panels wing) (Z.of_nat c - 1) (Z.of_nat sp);
    g' ← ring_strength neighbour;
    py_sub g g'.

Definition left_bound_vortex_strength (wing : Wing.t) (c sp : nat)
    (panel : Panel.t) : result (option Q) :=
  let is_left_edge := bool_decide (sp = 0) in
  if is_left_edge then ring_strength panel
  else
    g ← ring_strength panel;
    neighbour ← get2_py (Wing.panels wing) (Z.of_nat c) (Z.of_nat sp - 1);
    g' ← ring_strength neighbour;
    py_sub g g'.

(** The strength of the right leg as the specification words it, to be
    compared with [right_bound_vortex_strength]: the strength of the
    panel on the right edge, and otherwise the strength of the panel
    minus that of the panel to its right, with which it shares the
    leg. *)
Definition spec_right_bound_vortex_strength (wing : Wing.t) (c sp : nat)
    (panel : Panel.t) : result (option Q) :=
  let is_right_edge := bool_decide (sp + 1 = Wing.num_spanwise_panels wing) in
  if is_right_edge then ring_strength panel
  else
    g ← ring_strength panel;
    neighbour ← get2_py (Wing.panels wing) (Z.of_nat c) (Z.of_nat sp + 1);
    g' ← ring_strength neighbour;
    py_sub g g'.

(** *** The strengths handed back to the panels

    The steady ring solver and the unsteady solver hand the solved
    strengths back to the panels with the same lines. *)

(** The body of the loop over the raveled panels of a wing: the strength
    at the index of the panel within its wing goes to the ring vortex and,
    if there is one, to the horseshoe vortex. *)
Definition update_panel_strength (strengths : list Q) (panel_index : nat)
    (panel : Panel.t) : result Panel.t :=
  ring_vortex ← attr (Panel.ring_vortex panel);
  g ← get_item strengths panel_index;
  let panel :=
    Panel.set_ring_vortex (Some (RingVortex.update_strength g ring_vortex))
      panel in
  match Panel.horseshoe_vortex panel with
  | Some horseshoe_vortex =>
      g ← get_item strengths panel_index;
      Ok (Panel.set_horseshoe_vortex
            (Some (HorseshoeVortex.update_strength g horseshoe_vortex)) panel)
  | None => Ok panel
  end.

Definition update_wing_strengths (strengths : list Q) (wing : Wing.t)
    : result Wing.t :=
  wing_panels ← imapM (update_panel_strength strengths)
                  (ravel (Wing.panels wing));
  Ok (Wing.set_panels (unravel (Wing.panels wing) wing_panels) wing).

(** ** The unsteady ring vortex lattice solver
    ([unsteady_ring_vortex_lattice_method.py]) *)

Module Unsteady.

(** The solver object together with the movement of its problem.  The
    airplanes of the movement are the objects the solver mutates;
    [current_airplane] is the one at [current_step]. *)
Record solver : Type := make {
  airplanes : list Airplane.t;
  operating_points : list OperatingPoint.t;
  num_steps : nat;
  delta_time : Q;
  current_step : option nat;
  current_operating_point : option OperatingPoint.t;
  current_wing_wing_influences : option (list (list Q));
  current_freestream_wing_influences : option (list Q);
  current_freestream_velocity : option Vec3;
  current_wake_wing_influences : option (list Q);
  current_vortex_strengths : option (list Q);
  total_near_field_force_wind_axes : Vec3;
  total_near_field_moment_wind_axes : Vec3;
  CL : option Q;
  CDi : option Q;
  CY : option Q;
  Cl : option Q;
  Cm : option Q;
  Cn : option Q
}.

(** [UnsteadyRingVortexLatticeMethodSolver(unsteady_problem)] *)
Definition init (airplanes : list Airplane.t)
    (operating_points : list OperatingPoint.t) (num_steps : nat)
    (delta_time : Q) : solver :=
  make airplanes operating_points num_steps delta_time
    None None None None None None None vzero vzero
    None None None None None None.

Definition set_airplanes (l : list Airplane.t) (s : solver) : solver :=
  make l (operating_points s) (num_steps s) (delta_time s)
    (current_step s) (current_operating_point s)
    (current_wing_wing_influences s) (current_freestream_wing_influences s)
    (current_freestream_velocity s) (current_wake_wing_influences s)
    (current_vortex_strengths s)
    (total_near_field_force_wind_axes s) (total_near_field_moment_wind_axes s)
    (CL s) (CDi s) (CY s) (Cl s) (Cm s) (Cn s).

Definition set_current (step : nat) (op : OperatingPoint.t) (v : Vec3)
    (s : solver) : solver :=
  make (airplanes s) (operating_points s) (num_steps s) (delta_time s)
    (Some step) (Some op)
    (current_wing_wing_influences s) (current_freestream_wing_influences s)
    (Some v) (current_wake_wing_influences s)
    (current_vortex_strengths s)
    (total_near_field_force_wind_axes s) (total_near_field_moment_wind_axes s)
    (CL s) (CDi s) (CY s) (Cl s) (Cm s) (Cn s).

Definition set_aerodynamic_data (aic : option (list (list Q)))
    (fs wake gamma : option (list Q)) (s : solver) : solver :=
  make (airplanes s) (operating_points s) (num_steps s) (delta_time s)
    (current_step s) (current_operating_point s)
    aic fs (current_freestream_velocity s) wake gamma
    (total_near_field_force_wind_axes s) (total_near_field_moment_wind_axes s)
    (CL s) (CDi s) (CY s) (Cl s) (Cm s) (Cn s).

Definition set_wing_wing_influences (m : list (list Q)) (s : solver)
    : solver :=
  set_aerodynamic_data (Some m) (current_freestream_wing_influences s)
    (current_wake_wing_influences s) (current_vortex_strengths s) s.

Definition set_freestream_wing_influences (v : list Q) (s : solver)
    : solver :=
  set_aerodynamic_data (current_wing_wing_influences s) (Some v)
    (current_wake_wing_influences s) (current_vortex_strengths s) s.

Definition set_wake_wing_influences (v : list Q) (s : solver) : solver :=
  set_aerodynamic_data (current_wing_wing_influences s)
    (current_freestream_wing_influences s) (Some v)
    (current_vortex_strengths s) s.

Definition set_vortex_strengths (v : list Q) (s : solver) : solver :=
  set_aerodynamic_data (current_wing_wing_influences s)
    (current_freestream_wing_influences s)
    (current_wake_wing_influences s) (Some v) s.

Definition set_totals (f m : Vec3) (cdi cy cl rl cm cn : Q) (s : solver)
    : solver :=
  make (airplanes s) (operating_points s) (num_steps s) (delta_time s)
    (current_step s) (current_operating_point s)
    (current_wing_wing_influences s) (current_freestream_wing_influences s)
    (current_freestream_velocity s) (current_wake_wing_influences s)
    (current_vortex_strengths s)
    f m (Some cl) (Some cdi) (Some cy) (Some rl) (Some cm) (Some cn).

(** *** Reading and writing the objects of the movement *)

Definition modify_airplane (k : nat) (f : Airplane.t -> Airplane.t)
    (s : solver) : solver :=
  set_airplanes (alter f k (airplanes s)) s.

Definition modify_panel_at (k wi c sp : nat) (f : Panel.t -> Panel.t)
    (s : solver) : solver :=
  modify_airplane k (modify_wing wi (modify_panel c sp f)) s.

Definition modify_wing_at (k wi : nat) (f : Wing.t -> Wing.t) (s : solver)
    : solver :=
  modify_airplane k (modify_wing wi f) s.

Definition airplane_at (k : nat) (s : solver) : result Airplane.t :=
  get_item (airplanes s) k.

Definition wing_at (k wi : nat) (s : solver) : result Wing.t :=
  a ← airplane_at k s; get_item (Airplane.wings a) wi.

(** [self.current_step] once the run has set it *)
Definition the_step (s : solver) : result nat := attr (current_step s).

(** [self.current_step] where the source compares it with an integer *)
Definition compared_step (s : solver) : result nat :=
  of_option TypeError (current_step s).

(** [self.current_airplane], an alias of the airplane at the current
    step *)
Definition current_airplane (s : solver) : result Airplane.t :=
  k ← the_step s; airplane_at k s.

Definition the_freestream_velocity (s : solver) : result Vec3 :=
  of_option TypeError (current_freestream_velocity s).

Definition the_operating_point (s : solver) : result OperatingPoint.t :=
  attr (current_operating_point s).

Section Solver.
Context {aero : Aerodynamics}.

(** *** initialize_panel_vortices *)

Definition initialize_panel (k wi c sp : nat) (s : solver) : result solver :=
  wing ← wing_at k wi s;
  panel ← get2 (Wing.panels wing) c sp;
  let front_left_vortex_vertex := Panel.front_left_vortex_vertex panel in
  let front_right_vortex_vertex := Panel.front_right_vortex_vertex panel in
  '(back_left_vortex_vertex, back_right_vortex_vertex) ←
    (if negb (Panel.is_trailing_edge panel) then
       next_chordwise_panel ← get2 (Wing.panels wing) (c + 1) sp;
       Ok (Panel.front_left_vortex_vertex next_chordwise_panel,
           Panel.front_right_vortex_vertex next_chordwise_panel)
     else
       Ok (vadd front_left_vortex_vertex
             (vsub (Panel.back_left_vertex panel)
                   (Panel.front_left_vertex panel)),
           vadd front_right_vortex_vertex
             (vsub (Panel.back_right_vertex panel)
                   (Panel.front_right_vertex panel))));
  Ok (modify_panel_at k wi c sp
        (Panel.set_ring_vortex
           (Some (RingVortex.new front_left_vortex_vertex
                    front_right_vortex_vertex back_left_vortex_vertex
                    back_right_vortex_vertex None))) s).

Definition initialize_wing (k wi : nat) (s : solver) : result solver :=
  wing ← wing_at k wi s;
  for_each (range (Wing.num_chordwise_panels wing))
    (fun c => for_each (range (Wing.num_spanwise_panels wing))
                (fun sp => initialize_panel k wi c sp)) s.

Definition initialize_panel_vortices (s : solver) : result solver :=
  for_each (range (length (airplanes s)))
    (fun k s =>
       airplane ← airplane_at k s;
       for_each (range (length (Airplane.wings airplane)))
         (fun wi => initialize_wing k wi) s) s.

(** *** calculate_wing_wing_influences *)

(** The entry the innermost loop stores: the normal component, at the
    collocation point of [collocation_panel], of the velocity the vortices
    of [vortex_panel] induce at unit strength. *)
Definition wing_wing_influence (collocation_panel vortex_panel : Panel.t)
    : Q :=
  dot (panel_normalized_induced_velocity
         (Panel.ring_vortex vortex_panel)
         (Panel.horseshoe_vortex vortex_panel)
         (Panel.collocation_point collocation_panel))
      (Panel.normal_direction collocation_panel).

Definition calculate_wing_wing_influences (s : solver) : result solver :=
  airplane ← current_airplane s;
  let n := Airplane.num_panels airplane in
  m ← for_each (Airplane.wings airplane)
    (fun collocation_panel_wing =>
       for_each (enumerate (ravel (Wing.panels collocation_panel_wing)))
         (fun '(collocation_panel_index, collocation_panel) =>
            for_each (Airplane.wings airplane)
              (fun vortex_panel_wing =>
                 for_each (enumerate (ravel (Wing.panels vortex_panel_wing)))
                   (fun '(vortex_panel_index, vortex_panel) m =>
                      set_matrix m collocation_panel_index vortex_panel_index
                        (wing_wing_influence collocation_panel
                           vortex_panel)))))
    (replicate n (np_zeros n));
  Ok (set_wing_wing_influences m s).

(** *** calculate_freestream_wing_influences *)

(** The value stored for the panel at [(c, sp)] of the wing at [wi] *)
Definition freestream_wing_influence (step : nat) (freestream : Vec3)
    (wi c sp : nat) (collocation_panel : Panel.t) : Q :=
  dot (vadd freestream
         (get_flapping_velocity_at_point_on_panel wi (Z.of_nat c)
            (Z.of_nat sp) "collocation_point" step))
      (Panel.normal_direction collocation_panel).

(** The two loops over the panels of one wing that the freestream and the
    wake influences share: the value of the panel at [(c, sp)] is stored at
    [c * num_spanwise_panels + sp] of the vector being filled. *)
Definition fill_influences_of_wing
    (value : nat -> nat -> Panel.t -> result Q) (wing : Wing.t)
    (v : list Q) : result (list Q) :=
  for_each (range (Wing.num_chordwise_panels wing))
    (fun c =>
       for_each (range (Wing.num_spanwise_panels wing))
         (fun sp v =>
            let collocation_panel_position :=
              c * Wing.num_spanwise_panels wing + sp in
            collocation_panel ← get2 (Wing.panels wing) c sp;
            x ← value c sp collocation_panel;
            set_item v collocation_panel_position x)) v.

Definition freestream_wing_influences_of (step : nat)
    (freestream : option Vec3) (wings : list Wing.t) (v : list Q)
    : result (list Q) :=
  for_each (enumerate wings)
    (fun '(wi, wing) =>
       fill_influences_of_wing
         (fun c sp collocation_panel =>
            fs ← of_option TypeError freestream;
            Ok (freestream_wing_influence step fs wi c sp collocation_panel))
         wing) v.

Definition calculate_freestream_wing_influences (s : solver)
    : result solver :=
  airplane ← current_airplane s;
  step ← the_step s;
  v ← freestream_wing_influences_of step (current_freestream_velocity s)
         (Airplane.wings airplane) (np_zeros (Airplane.num_panels airplane));
  Ok (set_freestream_wing_influences v s).

(** *** calculate_wake_wing_influences *)

(** The velocity all wake ring vortices of the airplane induce at
    [point], summed wing by wing in raveled order, [None] entries being
    skipped. *)
Definition wake_velocity_of_wing (point : Vec3) (acc : Vec3) (wing : Wing.t)
    : Vec3 :=
  fold_left
    (fun acc wake_ring_vortex =>
       match wake_ring_vortex with
       | Some r => vadd acc (ring_induced_velocity r point)
       | None => acc
       end)
    (ravel (Wing.wake_ring_vortices wing)) acc.

Definition wake_velocity (airplane : Airplane.t) (point : Vec3) : Vec3 :=
  fold_left (wake_velocity_of_wing point) (Airplane.wings airplane) vzero.

Definition wake_wing_influence (airplane : Airplane.t)
    (collocation_panel : Panel.t) : Q :=
  dot (wake_velocity airplane (Panel.collocation_point collocation_panel))
      (Panel.normal_direction collocation_panel).

Definition wake_wing_influences_of (airplane : Airplane.t)
    (wings : list Wing.t) (v : list Q) : result (list Q) :=
  for_each wings
    (fun wing =>
       fill_influences_of_wing
         (fun c sp collocation_panel =>
            Ok (wake_wing_influence airplane collocation_panel))
         wing) v.

Definition calculate_wake_wing_influences (s : solver) : result solver :=
  airplane ← current_airplane s;
  v ← wake_wing_influences_of airplane (Airplane.wings airplane)
         (np_zeros (Airplane.num_panels airplane));
  Ok (set_wake_wing_influences v s).

(** *** calculate_vortex_strengths *)

Definition calculate_vortex_strengths (s : solver) : result solver :=
  wake ← of_option TypeError (current_wake_wing_influences s);
  fs ← of_option TypeError (current_freestream_wing_influences s);
  rhs ← np_sub (neg_list wake) fs;
  aic ← of_option LinAlgError (current_wing_wing_influences s);
  strengths ← linalg_solve aic rhs;
  let s := set_vortex_strengths strengths s in
  k ← the_step s;
  airplane ← airplane_at k s;
  wings ← mapM (update_wing_strengths strengths) (Airplane.wings airplane);
  Ok (modify_airplane k (Airplane.set_wings wings) s).

(** *** calculate_solution_velocity *)

Definition induced_velocity_of_wing (point : Vec3) (acc : Vec3)
    (wing : Wing.t) : Vec3 :=
  let acc :=
    fold_left
      (fun acc panel =>
         vadd acc (panel_induced_velocity (Panel.ring_vortex panel)
                     (Panel.horseshoe_vortex panel) point))
      (ravel (Wing.panels wing)) acc in
  wake_velocity_of_wing point acc wing.

Definition calculate_solution_velocity (s : solver) (point : Vec3)
    : result Vec3 :=
  airplane ← current_airplane s;
  let velocity_induced_by_vortices :=
    fold_left (induced_velocity_of_wing point) (Airplane.wings airplane)
      vzero in
  freestream ← the_freestream_velocity s;
  Ok (vadd velocity_induced_by_vortices freestream).

(** *** calculate_near_field_forces_and_moments *)

(** The Kutta-Joukowski force on one leg, and the force and moment of the
    panel with the leg added when its strength is not zero.  [point_name]
    is the name under which the movement is asked for the velocity of the
    centre of the leg. *)
Definition leg_force (s : solver) (wi c sp : nat) (point_name : string)
    (leg : LineVortex.t) (strength : option Q) : result Vec3 :=
  velocity ← calculate_solution_velocity s (LineVortex.center leg);
  step ← the_step s;
  let velocity :=
    vadd velocity
      (get_flapping_velocity_at_point_on_panel wi (Z.of_nat c) (Z.of_nat sp)
         point_name step) in
  op ← the_operating_point s;
  g ← py_float strength;
  Ok (vscale (OperatingPoint.density op * g)
        (cross velocity (LineVortex.vector leg))).

Definition add_leg (s : solver) (wi c sp : nat) (point_name : string)
    (leg : LineVortex.t) (strength : option Q) (xyz_ref : Vec3)
    (fm : Vec3 * Vec3) : result (Vec3 * Vec3) :=
  if py_nonzero strength then
    force ← leg_force s wi c sp point_name leg strength;
    Ok (vadd (fst fm) force,
        vadd (snd fm) (cross (vsub (LineVortex.center leg) xyz_ref) force))
  else Ok fm.

(** The unsteady force on a panel from the change of its strength since
    the last step. *)
Definition unsteady_force (density : Q) (vortex_strength
    last_vortex_strength area : Q) (normal : Vec3) : Vec3 :=
  vscale (density * (vortex_strength - last_vortex_strength) * area) normal.

(** The three [if ..._bound_vortex_strength != 0:] blocks of a panel,
    from a force and a moment of zero *)
Definition legs_near_field (s : solver) (wi c sp : nat)
    (ring_vortex : RingVortex.t) (right front left : option Q)
    (xyz_ref : Vec3) : result (Vec3 * Vec3) :=
  fm ← add_leg s wi c sp "ring_vortex.right_leg.center"
         (RingVortex.right_leg ring_vortex) right xyz_ref (vzero, vzero);
  fm ← add_leg s wi c sp "ring_vortex.front_leg.center"
         (RingVortex.front_leg ring_vortex) front xyz_ref fm;
  add_leg s wi c sp "ring_vortex.left_leg.center"
    (RingVortex.left_leg ring_vortex) left xyz_ref fm.

(** [step - 1] after the first step, [step] at the first step *)
Definition last_step_of (step : nat) : nat :=
  if decide (0 < step) then step - 1 else step.

(** The body of the loops over the panels: the force and the moment the
    panel at [(c, sp)] of wing [wi] receives. *)
Definition panel_near_field (s : solver) (wi c sp : nat)
    : result (Vec3 * Vec3) :=
  step ← the_step s;
  wing ← wing_at step wi s;
  last_wing ← wing_at (last_step_of step) wi s;
  airplane ← current_airplane s;
  panel ← get2 (Wing.panels wing) c sp;
  last_panel ← get2 (Wing.panels last_wing) c sp;
  right ← right_bound_vortex_strength wing c sp panel;
  front ← front_bound_vortex_strength wing c sp panel;
  left ← left_bound_vortex_strength wing c sp panel;
  ring_vortex ← attr (Panel.ring_vortex panel);
  let xyz_ref := Airplane.xyz_ref airplane in
  fm ← legs_near_field s wi c sp ring_vortex right front left xyz_ref;
  last_ring_vortex ← attr (Panel.ring_vortex last_panel);
  op ← the_operating_point s;
  vortex_strength ← py_float (RingVortex.strength ring_vortex);
  last_vortex_strength ← py_float (RingVortex.strength last_ring_vortex);
  let unsteady_force_geometry_axes :=
    unsteady_force (OperatingPoint.density op) vortex_strength
      last_vortex_strength (Panel.area panel)
      (Panel.normal_direction panel) in
  Ok (vadd (fst fm) unsteady_force_geometry_axes,
      vadd (snd fm)
        (cross (vsub (ring_center ring_vortex) xyz_ref)
           unsteady_force_geometry_axes)).

(** [panel.update_pressure()] after the force and the moment are stored *)
Definition store_panel_results (f m : Vec3) (p : Panel.t) : Panel.t :=
  Panel.set_results f m
    (pressure_of f (Panel.normal_direction p) (Panel.area p)) p.

(** The state of the loops: the solver and the two running totals. *)
Definition near_field_panel (wi c sp : nat) (st : solver * (Vec3 * Vec3))
    : result (solver * (Vec3 * Vec3)) :=
  let '(s, (total_force, total_moment)) := st in
  step ← the_step s;
  '(f, m) ← panel_near_field s wi c sp;
  Ok (modify_panel_at step wi c sp (store_panel_results f m) s,
      (vadd total_force f, vadd total_moment m)).

Definition near_field_wing (wi : nat) (st : solver * (Vec3 * Vec3))
    : result (solver * (Vec3 * Vec3)) :=
  step ← the_step (fst st);
  wing ← wing_at step wi (fst st);
  _ ← wing_at (last_step_of step) wi (fst st);
  for_each (range (Wing.num_chordwise_panels wing))
    (fun c => for_each (range (Wing.num_spanwise_panels wing))
                (fun sp => near_field_panel wi c sp)) st.

Definition calculate_near_field_forces_and_moments (s : solver)
    : result solver :=
  step ← compared_step s;
  _ ← airplane_at (last_step_of step) s;
  airplane ← current_airplane s;
  '(s, (total_force, total_moment)) ←
    for_each (range (length (Airplane.wings airplane))) near_field_wing
      (s, (vzero, vzero));
  op ← the_operating_point s;
  let rotation :=
    transpose3
      (OperatingPoint.calculate_rotation_matrix_wind_axes_to_geometry_axes op)
  in
  let force_wind_axes := mat3_vec rotation total_force in
  let moment_wind_axes := mat3_vec rotation total_moment in
  airplane ← current_airplane s;
  let q := OperatingPoint.calculate_dynamic_pressure op in
  let s_ref := Airplane.s_ref airplane in
  let b_ref := Airplane.b_ref airplane in
  let c_ref := Airplane.c_ref airplane in
  let cdi := (- vx force_wind_axes / q / s_ref)%Q in
  let cy := (vy force_wind_axes / q / s_ref)%Q in
  let cl := (- vz force_wind_axes / q / s_ref)%Q in
  let rl := (vx moment_wind_axes / q / s_ref / b_ref)%Q in
  let cm := (vy moment_wind_axes / q / s_ref / c_ref)%Q in
  let cn := (vz moment_wind_axes / q / s_ref / b_ref)%Q in
  let s := set_totals force_wind_axes moment_wind_axes cdi cy cl rl cm cn s in
  Ok (modify_airplane step
        (Airplane.set_totals force_wind_axes (mk_vec cdi cy cl)
           moment_wind_axes (mk_vec rl cm cn)) s).

(** *** calculate_streamlines *)

(** The seed point of the streamline of the trailing-edge panel at [sp]:
    a quarter of a time step of freestream behind the centre of the back
    leg of its ring vortex *)
Definition seed_point (s : solver) (wing : Wing.t) (sp : nat)
    : result Vec3 :=
  panel ← get2_py (Wing.panels wing) (trailing_edge_position wing)
            (Z.of_nat sp);
  ring_vortex ← attr (Panel.ring_vortex panel);
  freestream ← the_freestream_velocity s;
  Ok (vadd (LineVortex.center (RingVortex.back_leg ring_vortex))
        (vscale_r (vscale_r freestream (delta_time s)) (1 # 4))).

Definition streamline_of_panel (streamline_num_steps : nat)
    (streamline_delta_time : Q) (k wi sp : nat) (s : solver)
    : result solver :=
  wing ← wing_at k wi s;
  seed_point ← seed_point s wing sp;
  points ← set2 (Wing.streamline_points wing) 0 sp seed_point;
  let s := modify_wing_at k wi (Wing.set_streamline_points points) s in
  for_each (range streamline_num_steps)
    (fun step s =>
       wing ← wing_at k wi s;
       last_point ← get2 (Wing.streamline_points wing) step sp;
       velocity ← calculate_solution_velocity s last_point;
       points ← set2 (Wing.streamline_points wing) (step + 1) sp
                  (vadd last_point (vscale streamline_delta_time velocity));
       Ok (modify_wing_at k wi (Wing.set_streamline_points points) s)) s.

Definition streamlines_of_wing (streamline_num_steps : nat)
    (streamline_delta_time : Q) (k wi : nat) (s : solver) : result solver :=
  wing ← wing_at k wi s;
  let s :=
    modify_wing_at k wi
      (Wing.set_streamline_points
         (np_full (streamline_num_steps + 1) (Wing.num_spanwise_panels wing)
            vzero)) s in
  for_each (range (Wing.num_spanwise_panels wing))
    (streamline_of_panel streamline_num_steps streamline_delta_time k wi) s.

(** [calculate_streamlines(num_steps=10, delta_time=0.1)] *)
Definition calculate_streamlines (streamline_num_steps : nat)
    (streamline_delta_time : Q) (s : solver) : result solver :=
  k ← the_step s;
  airplane ← airplane_at k s;
  for_each (range (length (Airplane.wings airplane)))
    (streamlines_of_wing streamline_num_steps streamline_delta_time k) s.

(** *** populate_next_airplanes_wake_vortex_vertices *)

(** The position of a trailing-edge vertex of the next panel, a quarter of
    a time step downstream at the velocity of the named vertex. *)
Definition shed_vertex (s : solver) (freestream : Vec3) (step wi : nat)
    (chordwise_position : Z) (sp : nat) (point_name : string)
    (vertex : Vec3) : Vec3 :=
  let velocity_here :=
    vadd freestream
      (get_flapping_velocity_at_point_on_panel wi chordwise_position
         (Z.of_nat sp) point_name step) in
  vadd vertex (vscale_r (vscale (1 # 4) velocity_here) (delta_time s)).

(** The loop that fills the new row of vertices from the trailing edge of
    the next wing.  The row starts as [np.zeros] at the first step and as
    [np.empty] later; an entry the loop does not write is taken as zero. *)
Definition new_row_of_vertices (s : solver) (step wi : nat)
    (this_wing : Wing.t) : result (ndarray Vec3) :=
  let num_spanwise_panels := Wing.num_spanwise_panels this_wing in
  let chordwise_position := trailing_edge_position this_wing in
  for_each (range num_spanwise_panels)
    (fun sp row =>
       next_wing ← wing_at (step + 1) wi s;
       next_panel ← get2_py (Wing.panels next_wing) chordwise_position
                      (Z.of_nat sp);
       freestream ← the_freestream_velocity s;
       row ← set2 row 0 sp
               (shed_vertex s freestream step wi chordwise_position sp
                  "back_left_vertex" (Panel.back_left_vertex next_panel));
       if decide (sp = num_spanwise_panels - 1) then
         set2 row 0 (sp + 1)
           (shed_vertex s freestream step wi chordwise_position sp
              "back_right_vertex" (Panel.back_right_vertex next_panel))
       else Ok row)
    (np_full 1 (num_spanwise_panels + 1) vzero).

(** The loop that moves the back vertices of the trailing-edge ring
    vortices of the next wing onto the new row. *)
Definition attach_trailing_edge_rings (step wi : nat) (this_wing : Wing.t)
    (new_row : ndarray Vec3) (s : solver) : result solver :=
  let chordwise_position := trailing_edge_position this_wing in
  for_each (range (Wing.num_spanwise_panels this_wing))
    (fun sp s =>
       next_wing ← wing_at (step + 1) wi s;
       c ← py_index (shape0 (Wing.panels next_wing)) chordwise_position;
       _ ← py_index (shape1 (Wing.panels next_wing)) (Z.of_nat sp);
       next_panel ← get2 (Wing.panels next_wing) c sp;
       new_back_left_vortex_vertex ← get2 new_row 0 sp;
       new_back_right_vortex_vertex ← get2 new_row 0 (sp + 1);
       next_ring_vortex ← attr (Panel.ring_vortex next_panel);
       Ok (modify_panel_at (step + 1) wi c sp
             (Panel.set_ring_vortex
                (Some (RingVortex.update_position
                         (RingVortex.front_left_vertex next_ring_vortex)
                         (RingVortex.front_right_vertex next_ring_vortex)
                         new_back_left_vortex_vertex
                         new_back_right_vortex_vertex next_ring_vortex)))
             s)) s.

(** Every vertex of [vertices] moved by the freestream over one time
    step, each into the one row [new_row]. *)
Definition convect_into_row (freestream : option Vec3) (dt : Q)
    (vertices : ndarray Vec3) (new_row : ndarray Vec3)
    : result (ndarray Vec3) :=
  for_each (range (shape0 vertices))
    (fun cv =>
       for_each (range (shape1 vertices))
         (fun sv row =>
            wing_wake_ring_vortex_vertex ← get2 vertices cv sv;
            freestream ← of_option TypeError freestream;
            set2 row 0 sv
              (vadd wing_wake_ring_vortex_vertex (vscale_r freestream dt))))
    new_row.

(** Every vertex of [vertices] moved in place. *)
Definition convect_in_place (freestream : option Vec3) (dt : Q)
    (vertices : ndarray Vec3) : result (ndarray Vec3) :=
  for_each (range (shape0 vertices))
    (fun cv =>
       for_each (range (shape1 vertices))
         (fun sv vertices =>
            wing_wake_ring_vortex_vertex ← get2 vertices cv sv;
            freestream ← of_option TypeError freestream;
            set2 vertices cv sv
              (vadd wing_wake_ring_vortex_vertex (vscale_r freestream dt))))
    vertices.

Definition populate_vertices_of_wing (step wi : nat) (s : solver)
    : result solver :=
  this_wing ← wing_at step wi s;
  next_wing ← wing_at (step + 1) wi s;
  if decide (step = 0) then
    new_row ← new_row_of_vertices s step wi this_wing;
    s ← attach_trailing_edge_rings step wi this_wing new_row s;
    next_wing ← wing_at (step + 1) wi s;
    vertices ← vstack (Wing.wake_ring_vortex_vertices next_wing) new_row;
    new_row ← convect_into_row (current_freestream_velocity s)
                 (delta_time s) vertices
                 (np_full 1 (Wing.num_spanwise_panels this_wing + 1) vzero);
    vertices ← vstack vertices new_row;
    Ok (modify_wing_at (step + 1) wi
          (Wing.set_wake_ring_vortex_vertices vertices) s)
  else
    vertices ← convect_in_place (current_freestream_velocity s)
                 (delta_time s) (Wing.wake_ring_vortex_vertices this_wing);
    new_row ← new_row_of_vertices s step wi this_wing;
    s ← attach_trailing_edge_rings step wi this_wing new_row s;
    vertices ← vstack new_row vertices;
    Ok (modify_wing_at (step + 1) wi
          (Wing.set_wake_ring_vortex_vertices vertices) s).

Definition populate_next_airplanes_wake_vortex_vertices (s : solver)
    : result solver :=
  step ← compared_step s;
  if decide (step < num_steps s - 1) then
    _ ← airplane_at (step + 1) s;
    this_airplane ← airplane_at step s;
    for_each (range (length (Airplane.wings this_airplane)))
      (populate_vertices_of_wing step) s
  else Ok s.

(** *** populate_next_airplanes_wake_vortices *)

(** The body of the loops over the vertex positions of the next wing.
    [this_wing_copy] is the wing of the deep copy of the current
    airplane. *)
Definition populate_vortex (this_wing_copy : Wing.t)
    (vertices : ndarray Vec3) (cv sv : nat)
    (rings : ndarray (option RingVortex.t))
    : result (ndarray (option RingVortex.t)) :=
  let has_right_vertex := bool_decide (sv + 1 < shape1 vertices) in
  let has_back_vertex := bool_decide (cv + 1 < shape0 vertices) in
  if has_right_vertex && has_back_vertex then
    front_left_vertex ← get2 vertices cv sv;
    front_right_vertex ← get2 vertices cv (sv + 1);
    back_left_vertex ← get2 vertices (cv + 1) sv;
    back_right_vertex ← get2 vertices (cv + 1) (sv + 1);
    rings ←
      (if bool_decide (0 < cv) then
         ring ← get2 rings cv sv;
         ring ← attr ring;
         set2 rings cv sv
           (Some (RingVortex.update_position front_left_vertex
                    front_right_vertex back_left_vertex back_right_vertex
                    ring))
       else Ok rings);
    if bool_decide (cv = 0) then
      panel ← get2_py (Wing.panels this_wing_copy)
                (trailing_edge_position this_wing_copy) (Z.of_nat sv);
      this_strength_copy ← ring_strength panel;
      set2 rings cv sv
        (Some (RingVortex.new front_left_vertex front_right_vertex
                 back_left_vertex back_right_vertex this_strength_copy))
    else Ok rings
  else Ok rings.

Definition populate_vortices_of_wing (step wi : nat)
    (this_airplane_copy : Airplane.t) (s : solver) : result solver :=
  this_wing_copy ← get_item (Airplane.wings this_airplane_copy) wi;
  next_wing ← wing_at (step + 1) wi s;
  let vertices := Wing.wake_ring_vortex_vertices next_wing in
  let num_chordwise_vertices := shape0 vertices in
  let num_spanwise_vertices := shape1 vertices in
  _ ← (if decide (num_spanwise_vertices = 0) then Raise ValueError
       else Ok tt);
  rings ← vstack (np_full 1 (num_spanwise_vertices - 1) None)
             (Wing.wake_ring_vortices this_wing_copy);
  rings ← for_each (range num_chordwise_vertices)
             (fun cv =>
                for_each (range num_spanwise_vertices)
                  (fun sv => populate_vortex this_wing_copy vertices cv sv))
             rings;
  Ok (modify_wing_at (step + 1) wi (Wing.set_wake_ring_vortices rings) s).

Definition populate_next_airplanes_wake_vortices (s : solver)
    : result solver :=
  step ← compared_step s;
  if decide (step < num_steps s - 1) then
    _ ← airplane_at (step + 1) s;
    this_airplane_copy ← airplane_at step s;
    for_each (range (length (Airplane.wings this_airplane_copy)))
      (fun wi => populate_vortices_of_wing step wi this_airplane_copy) s
  else Ok s.

(** *** populate_next_airplanes_wake *)

Definition populate_next_airplanes_wake (s : solver) : result solver :=
  s ← populate_next_airplanes_wake_vortex_vertices s;
  populate_next_airplanes_wake_vortices s.

(** *** debug_wake_vortices

    What is printed is left out; what can raise is kept: every panel of
    the current airplane and every entry of its wake must have a ring
    vortex with a strength. *)
Definition debug_wake_vortices (s : solver) : result unit :=
  airplane ← current_airplane s;
  for_each (Airplane.wings airplane)
    (fun wing (_ : unit) =>
       _ ← for_each (range (Wing.num_chordwise_panels wing))
         (fun c =>
            for_each (range (Wing.num_spanwise_panels wing))
              (fun sp (_ : unit) =>
                 panel ← get2 (Wing.panels wing) c sp;
                 strength ← ring_strength panel;
                 _ ← py_float strength;
                 Ok tt)) tt;
       for_each (range (shape0 (Wing.wake_ring_vortices wing)))
         (fun c =>
            for_each (range (shape1 (Wing.wake_ring_vortices wing)))
              (fun sp (_ : unit) =>
                 ring_vortex ← get2 (Wing.wake_ring_vortices wing) c sp;
                 ring_vortex ← attr ring_vortex;
                 _ ← py_float (RingVortex.strength ring_vortex);
                 Ok tt)) tt) tt.

(** *** run *)

(** One pass of the loop over the time steps *)
Definition time_step (verbose : bool) (step : nat) (s : solver)
    : result solver :=
  _ ← airplane_at step s;
  op ← get_item (operating_points s) step;
  let s :=
    set_current step op
      (OperatingPoint.calculate_freestream_velocity_geometry_axes op) s in
  let s := set_aerodynamic_data None None None None s in
  s ← calculate_wing_wing_influences s;
  s ← calculate_freestream_wing_influences s;
  s ← calculate_wake_wing_influences s;
  s ← calculate_vortex_strengths s;
  s ← calculate_near_field_forces_and_moments s;
  s ← populate_next_airplanes_wake s;
  _ ← (if verbose then debug_wake_vortices s else Ok tt);
  Ok s.

(** The first [n] passes of the loop *)
Definition run_steps (verbose : bool) (n : nat) (s : solver)
    : result solver :=
  for_each (range n) (time_step verbose) s.

Definition run (verbose : bool) (s : solver) : result solver :=
  s ← initialize_panel_vortices s;
  s ← run_steps verbose (num_steps s) s;
  calculate_streamlines 10 (1 # 10) s.

End Solver.
End Unsteady.

(** ** The steady solvers
    ([steady_horseshoe_vortex_lattice_method.py],
    [steady_ring_vortex_lattice_method.py])

    The two classes keep the same attributes and have the same
    [set_up_geometry], [set_up_operating_point] and
    [calculate_solution_velocity]. *)

Module Steady.

Record solver : Type := make {
  airplane : Airplane.t;
  operating_point : OperatingPoint.t;
  aerodynamic_influence_coefficients : list (list Q);
  freestream_velocity : Vec3;
  normal_directions : list Vec3;
  freestream_influences : list Q;
  vortex_strengths : list Q
}.

(** [__init__] *)
Definition init (airplane : Airplane.t) (op : OperatingPoint.t) : solver :=
  let n := Airplane.num_panels airplane in
  make airplane op (replicate n (np_zeros n)) vzero (replicate n vzero)
    (np_zeros n) (np_zeros n).

Definition set_airplane (a : Airplane.t) (s : solver) : solver :=
  make a (operating_point s) (aerodynamic_influence_coefficients s)
    (freestream_velocity s) (normal_directions s) (freestream_influences s)
    (vortex_strengths s).

Definition set_vortex_strengths (g : list Q) (s : solver) : solver :=
  make (airplane s) (operating_point s) (aerodynamic_influence_coefficients s)
    (freestream_velocity s) (normal_directions s) (freestream_influences s)
    g.

Section Solver.
Context {aero : Aerodynamics}.

Definition set_up_geometry (s : solver) : result solver :=
  m ← for_each (Airplane.wings (airplane s))
    (fun collocation_panel_wing =>
       for_each (enumerate (ravel (Wing.panels collocation_panel_wing)))
         (fun '(collocation_panel_index, collocation_panel) =>
            for_each (Airplane.wings (airplane s))
              (fun vortex_panel_wing =>
                 for_each (enumerate (ravel (Wing.panels vortex_panel_wing)))
                   (fun '(vortex_panel_index, vortex_panel) m =>
                      set_matrix m collocation_panel_index vortex_panel_index
                        (dot (panel_normalized_induced_velocity
                                (Panel.ring_vortex vortex_panel)
                                (Panel.horseshoe_vortex vortex_panel)
                                (Panel.collocation_point collocation_panel))
                             (Panel.normal_direction collocation_panel))))))
    (aerodynamic_influence_coefficients s);
  Ok (make (airplane s) (operating_point s) m (freestream_velocity s)
        (normal_directions s) (freestream_influences s) (vortex_strengths s)).

Definition set_up_operating_point (s : solver) : result solver :=
  let freestream_velocity :=
    OperatingPoint.calculate_freestream_velocity_geometry_axes
      (operating_point s) in
  '(normals, influences) ← for_each (Airplane.wings (airplane s))
    (fun collocation_panel_wing =>
       for_each (enumerate (ravel (Wing.panels collocation_panel_wing)))
         (fun '(collocation_panel_index, collocation_panel) st =>
            normals ← set_item (fst st) collocation_panel_index
                        (Panel.normal_direction collocation_panel);
            influences ← set_item (snd st) collocation_panel_index
                           (dot freestream_velocity
                              (Panel.normal_direction collocation_panel));
            Ok (normals, influences)))
    (normal_directions s, freestream_influences s);
  Ok (make (airplane s) (operating_point s)
        (aerodynamic_influence_coefficients s) freestream_velocity
        normals influences (vortex_strengths s)).

Definition calculate_solution_velocity (s : solver) (point : Vec3) : Vec3 :=
  let velocity_induced_by_vortices :=
    fold_left
      (fun acc wing =>
         fold_left
           (fun acc panel =>
              vadd acc (panel_induced_velocity (Panel.ring_vortex panel)
                          (Panel.horseshoe_vortex panel) point))
           (ravel (Wing.panels wing)) acc)
      (Airplane.wings (airplane s)) vzero in
  let freestream :=
    OperatingPoint.calculate_freestream_velocity_geometry_axes
      (operating_point s) in
  vadd velocity_induced_by_vortices freestream.

(** [calculate_streamlines] of the two steady solvers, which differ in
    the number of steps and in the time between them only *)
(** The seed point of the streamline of the trailing-edge panel at [sp]:
    the midpoint of the back of the panel *)
Definition seed_point (wing : Wing.t) (sp : nat) : result Vec3 :=
  panel ← get2_py (Wing.panels wing) (trailing_edge_position wing)
            (Z.of_nat sp);
  Ok (vadd (Panel.back_left_vertex panel)
        (vscale (1 # 2)
           (vsub (Panel.back_right_vertex panel)
                 (Panel.back_left_vertex panel)))).

Definition streamline_of_panel (num_steps : nat) (delta_time : Q)
    (wi sp : nat) (s : solver) : result solver :=
  wing ← get_item (Airplane.wings (airplane s)) wi;
  seed_point ← seed_point wing sp;
  points ← set2 (Wing.streamline_points wing) 0 sp seed_point;
  let s :=
    set_airplane
      (modify_wing wi (Wing.set_streamline_points points) (airplane s)) s in
  for_each (range num_steps)
    (fun step s =>
       wing ← get_item (Airplane.wings (airplane s)) wi;
       last_point ← get2 (Wing.streamline_points wing) step sp;
       points ← set2 (Wing.streamline_points wing) (step + 1) sp
                  (vadd last_point
                     (vscale delta_time
                        (calculate_solution_velocity s last_point)));
       Ok (set_airplane
             (modify_wing wi (Wing.set_streamline_points points)
                (airplane s)) s)) s.

Definition streamlines_of_wing (num_steps : nat) (delta_time : Q)
    (wi : nat) (s : solver) : result solver :=
  wing ← get_item (Airplane.wings (airplane s)) wi;
  let s :=
    set_airplane
      (modify_wing wi
         (Wing.set_streamline_points
            (np_full (num_steps + 1) (Wing.num_spanwise_panels wing) vzero))
         (airplane s)) s in
  for_each (range (Wing.num_spanwise_panels wing))
    (streamline_of_panel num_steps delta_time wi) s.

Definition calculate_streamlines_with (num_steps : nat) (delta_time : Q)
    (s : solver) : result solver :=
  for_each (range (length (Airplane.wings (airplane s))))
    (streamlines_of_wing num_steps delta_time) s.

End Solver.
End Steady.

Module SteadyHorseshoe.
Section Solver.
Context {aero : Aerodynamics}.

Definition update_panel_strength (strengths : list Q) (panel_index : nat)
    (panel : Panel.t) : result Panel.t :=
  horseshoe_vortex ← attr (Panel.horseshoe_vortex panel);
  g ← get_item strengths panel_index;
  Ok (Panel.set_horseshoe_vortex
        (Some (HorseshoeVortex.update_strength g horseshoe_vortex)) panel).

Definition update_wing_strengths (strengths : list Q) (wing : Wing.t)
    : result Wing.t :=
  wing_panels ← imapM (update_panel_strength strengths)
                  (ravel (Wing.panels wing));
  Ok (Wing.set_panels (unravel (Wing.panels wing) wing_panels) wing).

Definition calculate_vortex_strengths (s : Steady.solver)
    : result Steady.solver :=
  strengths ← linalg_solve (Steady.aerodynamic_influence_coefficients s)
                 (neg_list (Steady.freestream_influences s));
  let s := Steady.set_vortex_strengths strengths s in
  wings ← mapM (update_wing_strengths strengths)
             (Airplane.wings (Steady.airplane s));
  Ok (Steady.set_airplane (Airplane.set_wings wings (Steady.airplane s)) s).

(** [num_steps = 100], [delta_time = 0.01] *)
Definition calculate_streamlines (s : Steady.solver)
    : result Steady.solver :=
  Steady.calculate_streamlines_with 100 (1 # 100) s.

End Solver.
End SteadyHorseshoe.

Module SteadyRing.
Section Solver.
Context {aero : Aerodynamics}.

Definition calculate_vortex_strengths (s : Steady.solver)
    : result Steady.solver :=
  strengths ← linalg_solve (Steady.aerodynamic_influence_coefficients s)
                 (neg_list (Steady.freestream_influences s));
  let s := Steady.set_vortex_strengths strengths s in
  wings ← mapM (update_wing_strengths strengths)
             (Airplane.wings (Steady.airplane s));
  Ok (Steady.set_airplane (Airplane.set_wings wings (Steady.airplane s)) s).

(** *** calculate_near_field_forces_and_moments *)

Definition modify_panel_at (wi c sp : nat) (f : Panel.t -> Panel.t)
    (s : Steady.solver) : Steady.solver :=
  Steady.set_airplane
    (modify_wing wi (modify_panel c sp f) (Steady.airplane s)) s.

Definition panel_at (wi c sp : nat) (s : Steady.solver) : result Panel.t :=
  wing ← get_item (Airplane.wings (Steady.airplane s)) wi;
  get2 (Wing.panels wing) c sp.

(** One of the three [if ..._bound_vortex_strength != 0:] blocks: the
    force is attached to the leg [get_leg] of the ring vortex of the
    panel.  The velocity is evaluated at [panel.ring_vortex.right_leg.center]
    in each of the three blocks of the source. *)
Definition near_field_leg (wi c sp : nat) (strength : option Q)
    (get_leg : RingVortex.t -> LineVortex.t)
    (set_leg : LineVortex.t -> RingVortex.t -> RingVortex.t)
    (s : Steady.solver) : result Steady.solver :=
  if py_nonzero strength then
    panel ← panel_at wi c sp s;
    ring_vortex ← attr (Panel.ring_vortex panel);
    let velocity :=
      Steady.calculate_solution_velocity s
        (LineVortex.center (RingVortex.right_leg ring_vortex)) in
    let density := OperatingPoint.density (Steady.operating_point s) in
    g ← py_float strength;
    let force :=
      vscale (density * g)
        (cross velocity (LineVortex.vector (get_leg ring_vortex))) in
    Ok (modify_panel_at wi c sp
          (Panel.set_ring_vortex
             (Some (set_leg
                      (LineVortex.set_near_field_force force
                         (get_leg ring_vortex))
                      ring_vortex))) s)
  else Ok s.

(** The body of the loops over the panels *)
Definition near_field_panel (wi c sp : nat) (s : Steady.solver)
    : result Steady.solver :=
  wing ← get_item (Airplane.wings (Steady.airplane s)) wi;
  panel ← get2 (Wing.panels wing) c sp;
  right ← right_bound_vortex_strength wing c sp panel;
  front ← front_bound_vortex_strength wing c sp panel;
  left ← left_bound_vortex_strength wing c sp panel;
  s ← near_field_leg wi c sp right RingVortex.right_leg
         RingVortex.set_right_leg s;
  s ← near_field_leg wi c sp front RingVortex.front_leg
         RingVortex.set_front_leg s;
  s ← near_field_leg wi c sp left RingVortex.left_leg
         RingVortex.set_left_leg s;
  Ok (modify_panel_at wi c sp update_force_moment_and_pressure s).

Definition calculate_near_field_forces_and_moments (s : Steady.solver)
    : result Steady.solver :=
  for_each (enumerate (Airplane.wings (Steady.airplane s)))
    (fun '(wi, wing) =>
       for_each (range (Wing.num_chordwise_panels wing))
         (fun c =>
            for_each (range (Wing.num_spanwise_panels wing))
              (fun sp => near_field_panel wi c sp))) s.

End Solver.
End SteadyRing.

(** ** The wake vertices of the legacy unsteady solver
    ([legacy_unsteady_ring_vortex_lattice_method.py])

    The legacy class keeps the state of the unsteady solver (its
    [steady_problems[k].airplane] is [airplanes[k]] here) and has the same
    [calculate_solution_velocity] and
    [populate_next_airplanes_wake_vortices].  Its [run(verbose,
    prescribed_wake)] hands [prescribed_wake] to
    [populate_next_airplanes_wake], which hands it to the routine
    below. *)

Module Legacy.
Section Solver.
Context {aero : Aerodynamics}.

(** The velocity at which a wake vertex is moved *)
Definition wake_vertex_velocity (prescribed_wake : bool)
    (s : Unsteady.solver) (vertex : Vec3) : result Vec3 :=
  if prescribed_wake then Unsteady.the_freestream_velocity s
  else Unsteady.calculate_solution_velocity s vertex.

(** The loop that fills the first row of vertices from the back vertices
    of the trailing-edge ring vortices of the next wing *)
Definition first_row_of_vertices (s : Unsteady.solver) (step wi : nat)
    (this_wing : Wing.t) : result (ndarray Vec3) :=
  let num_spanwise_panels := Wing.num_spanwise_panels this_wing in
  let chordwise_position := trailing_edge_position this_wing in
  for_each (range num_spanwise_panels)
    (fun sp row =>
       next_wing ← Unsteady.wing_at (step + 1) wi s;
       next_panel ← get2_py (Wing.panels next_wing) chordwise_position
                      (Z.of_nat sp);
       ring_vortex ← attr (Panel.ring_vortex next_panel);
       row ← set2 row 0 sp (RingVortex.back_left_vertex ring_vortex);
       if decide (sp = num_spanwise_panels - 1) then
         ring_vortex ← attr (Panel.ring_vortex next_panel);
         set2 row 0 (sp + 1) (RingVortex.back_right_vertex ring_vortex)
       else Ok row)
    (np_full 1 (num_spanwise_panels + 1) vzero).

(** The second row of the first step: the first row moved over one time
    step *)
Definition second_row_of_vertices (prescribed_wake : bool)
    (s : Unsteady.solver) (first_row : ndarray Vec3)
    (num_spanwise_vertices : nat) : result (ndarray Vec3) :=
  for_each (range num_spanwise_vertices)
    (fun sv row =>
       wake_ring_vortex_vertex ← get2 first_row 0 sv;
       velocity ← wake_vertex_velocity prescribed_wake s
                    wake_ring_vortex_vertex;
       set2 row 0 sv
         (vadd wake_ring_vortex_vertex
            (vscale_r velocity (Unsteady.delta_time s))))
    (np_full 1 num_spanwise_vertices vzero).

(** Every vertex of the copied grid moved in place over one time step *)
Definition convect_in_place (prescribed_wake : bool) (s : Unsteady.solver)
    (vertices : ndarray Vec3) : result (ndarray Vec3) :=
  for_each (range (shape0 vertices))
    (fun cv =>
       for_each (range (shape1 vertices))
         (fun sv vertices =>
            wake_ring_vortex_vertex ← get2 vertices cv sv;
            velocity ← wake_vertex_velocity prescribed_wake s
                         wake_ring_vortex_vertex;
            set2 vertices cv sv
              (vadd wake_ring_vortex_vertex
                 (vscale_r velocity (Unsteady.delta_time s)))))
    vertices.

Definition populate_vertices_of_wing (prescribed_wake : bool)
    (step wi : nat) (s : Unsteady.solver) : result Unsteady.solver :=
  this_wing ← Unsteady.wing_at step wi s;
  next_wing ← Unsteady.wing_at (step + 1) wi s;
  if decide (step = 0) then
    first_row ← first_row_of_vertices s step wi this_wing;
    let num_spanwise_vertices := Wing.num_spanwise_panels this_wing + 1 in
    second_row ← second_row_of_vertices prescribed_wake s first_row
                    num_spanwise_vertices;
    vertices ← vstack first_row second_row;
    Ok (Unsteady.modify_wing_at (step + 1) wi
          (Wing.set_wake_ring_vortex_vertices vertices) s)
  else
    vertices ← convect_in_place prescribed_wake s
                 (Wing.wake_ring_vortex_vertices this_wing);
    first_row ← first_row_of_vertices s step wi this_wing;
    vertices ← vstack first_row vertices;
    Ok (Unsteady.modify_wing_at (step + 1) wi
          (Wing.set_wake_ring_vortex_vertices vertices) s).

Definition populate_next_airplanes_wake_vortex_vertices
    (prescribed_wake : bool) (s : Unsteady.solver)
    : result Unsteady.solver :=
  step ← Unsteady.compared_step s;
  if decide (step < Unsteady.num_steps s - 1) then
    _ ← Unsteady.airplane_at (step + 1) s;
    this_airplane ← Unsteady.airplane_at step s;
    for_each (range (length (Airplane.wings this_airplane)))
      (populate_vertices_of_wing prescribed_wake step) s
  else Ok s.

(** [populate_next_airplanes_wake(prescribed_wake=True)] *)
Definition populate_next_airplanes_wake (prescribed_wake : bool)
    (s : Unsteady.solver) : result Unsteady.solver :=
  s ← populate_next_airplanes_wake_vortex_vertices prescribed_wake s;
  Unsteady.populate_next_airplanes_wake_vortices s.

End Solver.
End Legacy.

(** ** Relations between states of the unsteady solver *)

(** The parts of the solver a time step sets once and then only reads *)
Definition same_settings (s s' : Unsteady.solver) : Prop :=
  Unsteady.num_steps s' = Unsteady.num_steps s /\
  Unsteady.delta_time s' = Unsteady.delta_time s /\
  Unsteady.operating_points s' = Unsteady.operating_points s /\
  Unsteady.current_step s' = Unsteady.current_step s /\
  Unsteady.current_operating_point s' = Unsteady.current_operating_point s /\
  Unsteady.current_freestream_velocity s'
    = Unsteady.current_freestream_velocity s.

(** [s'] differs from [s] in the airplane at [k] at most, and there not
    in what [view] shows of it. *)
Definition frame_at {T : Type} (view : Airplane.t -> T) (k : nat)
    (s s' : Unsteady.solver) : Prop :=
  same_settings s s' /\
  (forall j, j <> k -> Unsteady.airplanes s' !! j = Unsteady.airplanes s !! j) /\
  view <$> Unsteady.airplanes s' !! k = view <$> Unsteady.airplanes s !! k.

(** The ring vortices of the panels of a wing, in the shape of its array
    of panels, and those of the wings of an airplane *)
Definition rings_of_wing (w : Wing.t)
    : nat * list (list (option RingVortex.t)) :=
  (shape1 (Wing.panels w),
   map (map Panel.ring_vortex) (rows (Wing.panels w))).

Definition rings_of_airplane (a : Airplane.t)
    : list (nat * list (list (option RingVortex.t))) :=
  map rings_of_wing (Airplane.wings a).

(** What the near-field forces leave of an airplane: its wake and its
    ring vortices *)
Definition forces_view (a : Airplane.t) :=
  (wake_of_airplane a, rings_of_airplane a).

(** A panel, a wing and an airplane without the results the near-field
    forces store in them *)
Definition panel_but_results (p : Panel.t) :=
  (Panel.front_left_vertex p, Panel.front_right_vertex p,
   Panel.back_left_vertex p, Panel.back_right_vertex p,
   Panel.front_left_vortex_vertex p, Panel.front_right_vortex_vertex p,
   Panel.collocation_point p, Panel.normal_direction p, Panel.area p,
   Panel.is_leading_edge p, Panel.is_trailing_edge p,
   Panel.ring_vortex p, Panel.horseshoe_vortex p).

Definition wing_but_results (w : Wing.t) :=
  (Wing.num_chordwise_panels w, Wing.num_spanwise_panels w,
   shape1 (Wing.panels w),
   map (map panel_but_results) (rows (Wing.panels w)),
   Wing.wake_ring_vortex_vertices w, Wing.wake_ring_vortices w,
   Wing.streamline_points w).

Definition airplane_but_results (a : Airplane.t) :=
  (map wing_but_results (Airplane.wings a), Airplane.num_panels a,
   Airplane.xyz_ref a, Airplane.s_ref a, Airplane.b_ref a,
   Airplane.c_ref a).

(** The panel at [(c, sp)] of the wing [wi] of the airplane at [k] *)
Definition unsteady_panel_at (k wi c sp : nat) (s : Unsteady.solver)
    : result Panel.t :=
  wing ← Unsteady.wing_at k wi s; get2 (Wing.panels wing) c sp.

(** The panels of [st] are those of [s] with other ring vortices. *)
Definition rings_only (s st : Unsteady.solver) : Prop :=
  forall k wi c sp,
    match unsteady_panel_at k wi c sp s, unsteady_panel_at k wi c sp st with
    | Ok p, Ok p' => exists r, p' = Panel.set_ring_vortex r p
    | Raise _, Raise _ => True
    | _, _ => False
    end.

(** The ring vortex [initialize_panel_vortices] gives the panel [panel]
    at [(c, sp)] of [wing]: its front vertices are the front vortex
    vertices of the panel; its back vertices are the front vortex
    vertices of the next panel along the chord, or, on the trailing
    edge, the front vortex vertices moved by the sides of the panel; it
    has no strength yet. *)
Definition initial_ring (wing : Wing.t) (c sp : nat) (panel : Panel.t)
    (ring : RingVortex.t) : Prop :=
  exists bl br,
    ring = RingVortex.new (Panel.front_left_vortex_vertex panel)
             (Panel.front_right_vortex_vertex panel) bl br None /\
    if Panel.is_trailing_edge panel then
      bl = vadd (Panel.front_left_vortex_vertex panel)
             (vsub (Panel.back_left_vertex panel)
                   (Panel.front_left_vertex panel)) /\
      br = vadd (Panel.front_right_vortex_vertex panel)
             (vsub (Panel.back_right_vertex panel)
                   (Panel.front_right_vertex panel))
    else
      exists next_panel,
        get2 (Wing.panels wing) (c + 1) sp = Ok next_panel /\
        bl = Panel.front_left_vortex_vertex next_panel /\
        br = Panel.front_right_vortex_vertex next_panel.

(** The wakes of all airplanes stay what they are. *)
Definition same_wakes (s s' : Unsteady.solver) : Prop :=
  same_settings s s' /\
  forall j, wake_of_airplane <$> Unsteady.airplanes s' !! j
            = wake_of_airplane <$> Unsteady.airplanes s !! j.

(** The arrays of panels of an airplane *)
Definition panels_of_airplane (a : Airplane.t) : list (ndarray Panel.t) :=
  Wing.panels <$> Airplane.wings a.

(** The panel counts of the wings of an airplane *)
Definition dims_of_airplane (a : Airplane.t) : list (nat * nat) :=
  (fun w => (Wing.num_chordwise_panels w, Wing.num_spanwise_panels w))
    <$> Airplane.wings a.

(** A ring vortex and the same ring vortex at another position *)
Definition moved (r r' : RingVortex.t) : Prop :=
  r' = r \/
  exists fl fr bl br, r' = RingVortex.update_position fl fr bl br r.

(** An entry of an array of wake ring vortices and the entry it becomes:
    no ring vortex stays none, and a ring vortex is at most moved. *)
Definition ring_rel (o o' : option RingVortex.t) : Prop :=
  match o, o' with
  | None, None => True
  | Some r, Some r' => moved r r'
  | _, _ => False
  end.

(** [s'] differs from [s] in the wing [wi] of the airplane at [K] at most,
    and that wing and what it has become are related by [R]. *)
Definition wing_step (K wi : nat) (R : Wing.t -> Wing.t -> Prop)
    (s s' : Unsteady.solver) : Prop :=
  same_settings s s' /\
  length (Unsteady.airplanes s') = length (Unsteady.airplanes s) /\
  (forall j, j <> K -> Unsteady.airplanes s' !! j = Unsteady.airplanes s !! j) /\
  (forall a, Unsteady.airplanes s !! K = Some a ->
     exists a', Unsteady.airplanes s' !! K = Some a' /\
       length (Airplane.wings a') = length (Airplane.wings a) /\
       (forall i, i <> wi -> Airplane.wings a' !! i = Airplane.wings a !! i) /\
       (forall w, Airplane.wings a !! wi = Some w ->
          exists w', Airplane.wings a' !! wi = Some w' /\ R w w')).

(** [s'] differs from [s] in the first [n] wings of the airplane at [K] at
    most, and each of them and what it has become are related by [R]. *)
Definition wings_step (K n : nat) (R : nat -> Wing.t -> Wing.t -> Prop)
    (s s' : Unsteady.solver) : Prop :=
  same_settings s s' /\
  length (Unsteady.airplanes s') = length (Unsteady.airplanes s) /\
  (forall j, j <> K -> Unsteady.airplanes s' !! j = Unsteady.airplanes s !! j) /\
  (forall a, Unsteady.airplanes s !! K = Some a ->
     exists a', Unsteady.airplanes s' !! K = Some a' /\
       length (Airplane.wings a') = length (Airplane.wings a) /\
       (forall i, n <= i -> Airplane.wings a' !! i = Airplane.wings a !! i) /\
       (forall i w, i < n -> Airplane.wings a !! i = Some w ->
          exists w', Airplane.wings a' !! i = Some w' /\ R i w w')).

(** What [populate_next_airplanes_wake_vortex_vertices] makes of a wing
    [w] of the next airplane at step [step], [this_wing] being the same
    wing of the current airplane: only the array of wake vertices is
    new; it has one row more than that of [this_wing], or at the first
    step two rows more than it had. *)
Definition vertices_shed (step : nat) (this_wing w w' : Wing.t) : Prop :=
  let old := if decide (step = 0) then Wing.wake_ring_vortex_vertices w
             else Wing.wake_ring_vortex_vertices this_wing in
  let vertices := Wing.wake_ring_vortex_vertices w' in
  Wing.num_chordwise_panels w' = Wing.num_chordwise_panels w /\
  Wing.num_spanwise_panels w' = Wing.num_spanwise_panels w /\
  Wing.wake_ring_vortices w' = Wing.wake_ring_vortices w /\
  shape1 vertices = Wing.num_spanwise_panels this_wing + 1 /\
  shape0 vertices
    = (if decide (step = 0) then shape0 old + 2 else shape0 old + 1) /\
  (wf_ndarray old -> wf_ndarray vertices).

(** What [populate_next_airplanes_wake_vortices] makes of a wing [w] of
    the next airplane, [this_wing] being the same wing of the current
    airplane: only the array of wake ring vortices is new; its first row
    has the strengths of the trailing-edge panels of [this_wing], and
    under it are the wake ring vortices of [this_wing], moved. *)
Definition rings_shed (this_wing w w' : Wing.t) : Prop :=
  let rings := Wing.wake_ring_vortices w' in
  Wing.num_chordwise_panels w' = Wing.num_chordwise_panels w /\
  Wing.num_spanwise_panels w' = Wing.num_spanwise_panels w /\
  Wing.wake_ring_vortex_vertices w' = Wing.wake_ring_vortex_vertices w /\
  shape1 rings = shape1 (Wing.wake_ring_vortex_vertices w) - 1 /\
  shape1 rings = shape1 (Wing.wake_ring_vortices this_wing) /\
  shape0 rings = S (shape0 (Wing.wake_ring_vortices this_wing)) /\
  (wf_ndarray (Wing.wake_ring_vortices this_wing) -> wf_ndarray rings) /\
  (forall r c o,
     get2 (Wing.wake_ring_vortices this_wing) r c = Ok o ->
     exists o', get2 rings (S r) c = Ok o' /\ ring_rel o o') /\
  (forall c ring,
     get2 rings 0 c = Ok (Some ring) ->
     exists panel,
       get2_py (Wing.panels this_wing) (trailing_edge_position this_wing)
         (Z.of_nat c) = Ok panel /\
       ring_strength panel = Ok (RingVortex.strength ring)).

(** A wing and the same wing with other streamline points *)
Definition streamlines_only (w w' : Wing.t) : Prop :=
  w' = Wing.set_streamline_points (Wing.streamline_points w') w.

(** The column [sp] of [points] is a streamline of [n] forward Euler
    steps of length [dt] from [seed] in the velocity field [velocity]. *)
Definition euler_column (velocity : Vec3 -> result Vec3) (dt : Q) (n : nat)
    (points : ndarray Vec3) (sp : nat) (seed : Vec3) : Prop :=
  get2 points 0 sp = Ok seed /\
  forall step, step < n ->
    exists last v,
      get2 points step sp = Ok last /\ velocity last = Ok v /\
      get2 points (step + 1) sp = Ok (vadd last (vscale dt v)).

(** What [calculate_streamlines] makes of a wing [w]: only the array of
    streamline points is new; it has [n + 1] rows and a column for every
    spanwise position, and each column is a streamline from the seed
    point of that position. *)
Definition streamlines_of (velocity : Vec3 -> result Vec3)
    (seed : nat -> result Vec3) (dt : Q) (n : nat) (w w' : Wing.t) : Prop :=
  let points := Wing.streamline_points w' in
  streamlines_only w w' /\
  shape0 points = n + 1 /\
  shape1 points = Wing.num_spanwise_panels w /\
  wf_ndarray points /\
  forall sp, sp < Wing.num_spanwise_panels w ->
    exists seed_point,
      seed sp = Ok seed_point /\
      euler_column velocity dt n points sp seed_point.

(** What the loop over the steps of a streamline has made of the array
    [p0] after [t] steps in the column [sp]: only that column has changed,
    in the rows after the first, and each of its first [t] steps is a
    forward Euler step. *)
Definition column_steps (velocity : Vec3 -> result Vec3) (dt : Q) (t : nat)
    (p0 points : ndarray Vec3) (sp : nat) : Prop :=
  same_shape p0 points /\
  (forall i j, j <> sp \/ i = 0 -> get2 points i j = get2 p0 i j) /\
  forall step, step < t ->
    exists last v,
      get2 points step sp = Ok last /\ velocity last = Ok v /\
      get2 points (step + 1) sp = Ok (vadd last (vscale dt v)).

(** What the loop over the spanwise positions has made of the array
    [base] when the first [i] columns are done. *)
Definition columns_done (velocity : Vec3 -> result Vec3)
    (seed : nat -> result Vec3) (dt : Q) (n i : nat)
    (base points : ndarray Vec3) : Prop :=
  same_shape base points /\
  forall sp, sp < i ->
    exists seed_point,
      seed sp = Ok seed_point /\
      euler_column velocity dt n points sp seed_point.

(** Of the unsteady solver and its movement only wings have changed. *)
Definition only_wings (s s' : Unsteady.solver) : Prop :=
  s' = Unsteady.set_airplanes (Unsteady.airplanes s') s /\
  forall j a,
    Unsteady.airplanes s !! j = Some a ->
    exists a', Unsteady.airplanes s' !! j = Some a' /\
               a' = Airplane.set_wings (Airplane.wings a') a.

(** The first [n] wings of [l] have become those of [l'], each related to
    what it was by [R], and the other wings are what they were. *)
Definition wings_rel (n : nat) (R : nat -> Wing.t -> Wing.t -> Prop)
    (l l' : list Wing.t) : Prop :=
  length l' = length l /\
  (forall i, n <= i -> l' !! i = l !! i) /\
  (forall i w, i < n -> l !! i = Some w ->
     exists w', l' !! i = Some w' /\ R i w w').

(** What the loops of [populate_next_airplanes_wake_vortices] keep true
    of the array [rings] they fill, started from [rings0]: the shape, the
    ring vortices below the first row up to a move, and the strengths of
    the first row. *)
Definition shed_rings_inv (this_wing : Wing.t)
    (rings0 rings : ndarray (option RingVortex.t)) : Prop :=
  same_shape rings0 rings /\
  (forall r c o,
     get2 rings0 (S r) c = Ok o ->
     exists o', get2 rings (S r) c = Ok o' /\ ring_rel o o') /\
  (forall c ring,
     get2 rings 0 c = Ok (Some ring) ->
     exists panel,
       get2_py (Wing.panels this_wing) (trailing_edge_position this_wing)
         (Z.of_nat c) = Ok panel /\
       ring_strength panel = Ok (RingVortex.strength ring)).

(** What [populate_next_airplanes_wake] makes of a wing [w] of the next
    airplane: first the vertices, then the ring vortices. *)
Definition shed (step : nat) (this_wing w w' : Wing.t) : Prop :=
  exists w1, vertices_shed step this_wing w w1 /\ rings_shed this_wing w1 w'.

(** What the time step [k] makes of the movement: the airplane at [k]
    keeps its wake, the wings of the airplane at [k + 1] get theirs, and
    the other airplanes stay what they are. *)
Definition time_step_rel (k : nat) (s s' : Unsteady.solver) : Prop :=
  Unsteady.num_steps s' = Unsteady.num_steps s /\
  (forall j, j <> k -> j <> k + 1 ->
     Unsteady.airplanes s' !! j = Unsteady.airplanes s !! j) /\
  exists this this' next next',
    Unsteady.airplanes s !! k = Some this /\
    Unsteady.airplanes s' !! k = Some this' /\
    Unsteady.airplanes s !! (k + 1) = Some next /\
    Unsteady.airplanes s' !! (k + 1) = Some next' /\
    wake_of_airplane this' = wake_of_airplane this /\
    length (Airplane.wings next') = length (Airplane.wings next) /\
    (forall i, length (Airplane.wings this') <= i ->
       Airplane.wings next' !! i = Airplane.wings next !! i) /\
    (forall i w,
       i < length (Airplane.wings this') ->
       Airplane.wings next !! i = Some w ->
       exists this_wing w',
         Airplane.wings this' !! i = Some this_wing /\
         Airplane.wings next' !! i = Some w' /\
         shed k this_wing w w').

(** The entry [o] at [(r, c)] of the array of wake ring vortices made
    for the next wing is a ring vortex on the cell [(r, c)] of the grid
    of wake vertices; in the first row it has the strength of the
    trailing-edge panel of [this_wing] above it, and further down that of
    the wake ring vortex of [this_wing] one row up. *)
Definition wake_ring_of (this_wing : Wing.t) (vertices : ndarray Vec3)
    (r c : nat) (o : option RingVortex.t) : Prop :=
  exists fl fr bl br g,
    get2 vertices r c = Ok fl /\
    get2 vertices r (c + 1) = Ok fr /\
    get2 vertices (r + 1) c = Ok bl /\
    get2 vertices (r + 1) (c + 1) = Ok br /\
    o = Some (RingVortex.new fl fr bl br g) /\
    match r with
    | 0 =>
        exists panel,
          get2_py (Wing.panels this_wing) (trailing_edge_position this_wing)
            (Z.of_nat c) = Ok panel /\
          ring_strength panel = Ok g
    | S r' =>
        exists ring,
          get2 (Wing.wake_ring_vortices this_wing) r' c = Ok (Some ring) /\
          g = RingVortex.strength ring
    end.

(** The cells the loops over the wake vertices have passed when they are
    at [(cv, sv)] *)
Definition cell_before (cv sv r c : nat) : Prop :=
  r < cv \/ (r = cv /\ c < sv).

(** What holds of the array [rings], started as [rings0], when the loops
    over the wake vertices are at [(cv, sv)] *)
Definition grid_filled (this_wing : Wing.t) (vertices : ndarray Vec3)
    (rings0 rings : ndarray (option RingVortex.t)) (cv sv : nat) : Prop :=
  same_shape rings0 rings /\
  (forall r c,
     cell_before cv sv r c ->
     r + 1 < shape0 vertices -> c + 1 < shape1 vertices ->
     exists o, get2 rings r c = Ok o /\ wake_ring_of this_wing vertices r c o) /\
  (forall r c, ~ cell_before cv sv r c -> get2 rings r c = get2 rings0 r c).

(** The shape the wake of a wing has after the wake of [n] steps has been
    shed into it: [n + 1] rows of vertices and [n] rows of ring vortices,
    with one more vertex than ring vortices along the span. *)
Definition wake_shape (n : nat) (w : Wing.t) : Prop :=
  let vertices := Wing.wake_ring_vortex_vertices w in
  let rings := Wing.wake_ring_vortices w in
  shape0 vertices = n + 1 /\
  shape1 vertices = Wing.num_spanwise_panels w + 1 /\
  wf_ndarray vertices /\
  shape0 rings = n /\
  shape1 rings = Wing.num_spanwise_panels w /\
  wf_ndarray rings.

(** Every pose of the movement has the same wings with the same panel
    counts. *)
Definition dims_agree (s : Unsteady.solver) : Prop :=
  forall j j' a a',
    Unsteady.airplanes s !! j = Some a ->
    Unsteady.airplanes s !! j' = Some a' ->
    dims_of_airplane a = dims_of_airplane a'.

(** No wing has a wake yet. *)
Definition no_wake (s : Unsteady.solver) : Prop :=
  forall j a w,
    Unsteady.airplanes s !! j = Some a -> w ∈ Airplane.wings a ->
    shape0 (Wing.wake_ring_vortex_vertices w) = 0 /\
    shape0 (Wing.wake_ring_vortices w) = 0.

(** The movement a run starts from *)
Definition initial_movement (s : Unsteady.solver) : Prop :=
  dims_agree s /\ no_wake s.

(** What holds of the wakes when [n] time steps are done: the wings of
    the airplane at [n] have the wake of [n] steps. *)
Definition wake_inv (n : nat) (s : Unsteady.solver) : Prop :=
  dims_agree s /\
  match n with
  | 0 => no_wake s
  | S _ =>
      forall a w,
        Unsteady.airplanes s !! n = Some a -> w ∈ Airplane.wings a ->
        wake_shape n w
  end.

(** Every panel of the array of panels of [w] has a ring vortex whose
    strength is a float. *)
Definition panels_have_strengths (w : Wing.t) : Prop :=
  forall c sp p,
    get2 (Wing.panels w) c sp = Ok p ->
    exists ring g,
      Panel.ring_vortex p = Some ring /\ RingVortex.strength ring = Some g.

(** Every entry of the array of wake ring vortices of [w] is a ring
    vortex whose strength is a float. *)
Definition wake_has_strengths (w : Wing.t) : Prop :=
  forall r c o,
    get2 (Wing.wake_ring_vortices w) r c = Ok o ->
    exists ring g, o = Some ring /\ RingVortex.strength ring = Some g.

(** The wakes of the wings of the airplane at [n] have their strengths. *)
Definition wakes_have_strengths (n : nat) (s : Unsteady.solver) : Prop :=
  forall a w,
    Unsteady.airplanes s !! n = Some a -> w ∈ Airplane.wings a ->
    wake_has_strengths w.

(** The array of panels of [w] has a panel at every position the panel
    counts of [w] give. *)
Definition panels_in_range (w : Wing.t) : Prop :=
  forall c sp,
    c < Wing.num_chordwise_panels w -> sp < Wing.num_spanwise_panels w ->
    exists p, get2 (Wing.panels w) c sp = Ok p.

(** The force and the moment stored on a panel, added to running totals,
    and the totals over the panels of an airplane in the order in which
    the near-field forces visit them: wing by wing, and in a wing the
    positions its panel counts give, row by row. *)
Definition add_panel_results (totals : Vec3 * Vec3) (p : Panel.t)
    : Vec3 * Vec3 :=
  (vadd (fst totals) (Panel.near_field_force_geometry_axes p),
   vadd (snd totals) (Panel.near_field_moment_geometry_axes p)).

Definition add_cell_results (w : Wing.t) (c : nat) (totals : Vec3 * Vec3)
    (sp : nat) : Vec3 * Vec3 :=
  match get2 (Wing.panels w) c sp with
  | Ok p => add_panel_results totals p
  | Raise _ => totals
  end.

Definition add_row_results (w : Wing.t) (totals : Vec3 * Vec3) (c : nat)
    : Vec3 * Vec3 :=
  fold_left (add_cell_results w c) (range (Wing.num_spanwise_panels w))
    totals.

Definition add_wing_results (totals : Vec3 * Vec3) (w : Wing.t)
    : Vec3 * Vec3 :=
  fold_left (add_row_results w) (range (Wing.num_chordwise_panels w)) totals.

Definition sum_of_panel_results (a : Airplane.t) : Vec3 * Vec3 :=
  fold_left add_wing_results (Airplane.wings a) (vzero, vzero).

(** Where the loops over the panels stand when they come to the panel at
    [(c, sp)] of wing [wi] of the airplane of step [k]: the running
    totals are the results stored so far, and every position passed holds
    a panel. *)
Definition totals_so_far (k n nc ns wi c sp : nat)
    (st : Unsteady.solver * (Vec3 * Vec3)) : Prop :=
  Unsteady.current_step (fst st) = Some k /\
  exists a w,
    Unsteady.airplanes (fst st) !! k = Some a /\
    length (Airplane.wings a) = n /\
    Airplane.wings a !! wi = Some w /\
    Wing.num_chordwise_panels w = nc /\
    Wing.num_spanwise_panels w = ns /\
    snd st = fold_left (add_cell_results w c) (range sp)
               (fold_left (add_row_results w) (range c)
                  (fold_left add_wing_results (take wi (Airplane.wings a))
                     (vzero, vzero))) /\
    (forall j w', j < wi -> Airplane.wings a !! j = Some w' ->
       panels_in_range w') /\
    (forall c' sp', c' < c -> sp' < ns ->
       exists p, get2 (Wing.panels w) c' sp' = Ok p) /\
    (forall sp', sp' < sp -> exists p, get2 (Wing.panels w) c sp' = Ok p).

(** The same between two wings *)
Definition wings_so_far (k n wi : nat)
    (st : Unsteady.solver * (Vec3 * Vec3)) : Prop :=
  Unsteady.current_step (fst st) = Some k /\
  exists a,
    Unsteady.airplanes (fst st) !! k = Some a /\
    length (Airplane.wings a) = n /\
    snd st = fold_left add_wing_results (take wi (Airplane.wings a))
               (vzero, vzero) /\
    (forall j w', j < wi -> Airplane.wings a !! j = Some w' ->
       panels_in_range w').

(** The matrix [a] has a column [j] and that column is zero: a vortex
    that induces no normal velocity at any collocation point. *)
Definition zero_column (j : nat) (a : list (list Q)) : Prop :=
  j < length a /\
  Forall (fun row => exists x, row !! j = Some x /\ (x == 0)%Q) a.

(** ** A small problem to run the solvers on

    One wing of one chordwise row of two panels side by side, in three
    poses that do not move.  The Biot-Savart law is not rational, so the
    induced velocities are a stand-in that keeps what matters here: a
    vortex induces a downwash proportional to its strength, twice as
    large strictly inside its own span as elsewhere. *)

Module Example.

Definition v3 (a b c : Z) : Vec3 :=
  mk_vec (inject_Z a) (inject_Z b) (inject_Z c).

Definition downwash (left right : Vec3) (point : Vec3) : Vec3 :=
  if Qlt_le_dec (vy left) (vy point) then
    if Qlt_le_dec (vy point) (vy right) then v3 0 0 2 else v3 0 0 1
  else v3 0 0 1.

Definition ring_unit_velocity (r : RingVortex.t) (point : Vec3) : Vec3 :=
  downwash (RingVortex.front_left_vertex r) (RingVortex.front_right_vertex r)
    point.

Definition ring_velocity (r : RingVortex.t) (point : Vec3) : Vec3 :=
  match RingVortex.strength r with
  | Some g => vscale g (ring_unit_velocity r point)
  | None => vzero
  end.

Definition horseshoe_unit_velocity (h : HorseshoeVortex.t) (point : Vec3)
    : Vec3 :=
  downwash (LineVortex.termination (HorseshoeVortex.finite_leg h))
    (LineVortex.origin (HorseshoeVortex.finite_leg h)) point.

Definition horseshoe_velocity (h : HorseshoeVortex.t) (point : Vec3)
    : Vec3 :=
  match HorseshoeVortex.strength h with
  | Some g => vscale g (horseshoe_unit_velocity h point)
  | None => vzero
  end.

Definition aero : Aerodynamics := {|
  panel_normalized_induced_velocity := fun r h point =>
    vadd (from_option (fun r => ring_unit_velocity r point) vzero r)
         (from_option (fun h => horseshoe_unit_velocity h point) vzero h);
  panel_induced_velocity := fun r h point =>
    vadd (from_option (fun r => ring_velocity r point) vzero r)
         (from_option (fun h => horseshoe_velocity h point) vzero h);
  ring_induced_velocity := ring_velocity;
  ring_center := fun r =>
    vscale (1 # 4)
      (vadd (vadd (RingVortex.front_left_vertex r)
                  (RingVortex.front_right_vertex r))
            (vadd (RingVortex.back_left_vertex r)
                  (RingVortex.back_right_vertex r)));
  get_flapping_velocity_at_point_on_panel := fun _ _ _ _ _ => vzero;
  pressure_of := fun f n a => (dot f n / a)%Q;
  update_force_moment_and_pressure := fun p => p
|}.

(** The panel between [y = y0] and [y = y0 + 1], from [x = 0] to [x = 1],
    with the ring and horseshoe vortices given *)
Definition panel (y0 : Z) (r : option RingVortex.t)
    (h : option HorseshoeVortex.t) : Panel.t :=
  Panel.make (v3 0 y0 0) (v3 0 (y0 + 1) 0) (v3 1 y0 0) (v3 1 (y0 + 1) 0)
    (mk_vec (1 # 4) (inject_Z y0) 0) (mk_vec (1 # 4) (inject_Z (y0 + 1)) 0)
    (mk_vec (3 # 4) (inject_Z y0 + (1 # 2)) 0) (v3 0 0 1) 1
    true true r h vzero vzero 0.

(** The ring vortex [initialize_panel_vortices] gives that panel, with
    strength [g] *)
Definition ring (y0 : Z) (g : option Q) : RingVortex.t :=
  RingVortex.new (mk_vec (1 # 4) (inject_Z y0) 0)
    (mk_vec (1 # 4) (inject_Z (y0 + 1)) 0)
    (mk_vec (5 # 4) (inject_Z y0) 0) (mk_vec (5 # 4) (inject_Z (y0 + 1)) 0)
    g.

Definition horseshoe (y0 : Z) (g : option Q) : HorseshoeVortex.t :=
  HorseshoeVortex.new (mk_vec (1 # 4) (inject_Z (y0 + 1)) 0)
    (mk_vec (1 # 4) (inject_Z y0) 0) g (v3 1 0 0) 40.

(** A wing of the two panels [p0] and [p1] with an empty wake *)
Definition wing (p0 p1 : Panel.t) : Wing.t :=
  Wing.make 1 2 (mk_ndarray 2 [[p0; p1]])
    (mk_ndarray 3 []) (mk_ndarray 2 []) (mk_ndarray 2 []).

Definition airplane (p0 p1 : Panel.t) : Airplane.t :=
  Airplane.make [wing p0 p1] 2 vzero 2 2 1 vzero vzero vzero vzero.

Definition operating_point : OperatingPoint.t :=
  OperatingPoint.make 1 (v3 1 0 (-1)) (v3 1 0 0) 1
    (mk_mat3 (v3 1 0 0) (v3 0 1 0) (v3 0 0 1)).

(** The unsteady problem: three poses of the bare wing, a time step of
    one *)
Definition bare_airplane : Airplane.t :=
  airplane (panel 0 None None) (panel 1 None None).

Definition unsteady_solver : Unsteady.solver :=
  Unsteady.init (replicate 3 bare_airplane) (replicate 3 operating_point)
    3 1.

(** The value a call returns, or [d] if it raises *)
Definition value {A : Type} (d : A) (r : result A) : A :=
  match r with
  | Ok a => a
  | Raise _ => d
  end.

(** The unsteady problem after [initialize_panel_vortices], and after the
    first [n] time steps of the run *)
Definition initialized : Unsteady.solver :=
  value unsteady_solver (Unsteady.initialize_panel_vortices unsteady_solver).

Definition after_steps (n : nat) : Unsteady.solver :=
  value initialized (Unsteady.run_steps (aero := aero) true n initialized).

(** The wing of the airplane at [n] after [n] time steps *)
Definition wing_after (n : nat) : Wing.t :=
  value (wing (panel 0 None None) (panel 1 None None))
    (Unsteady.wing_at n 0 (after_steps n)).

(** The first time step as it starts, with its influences assembled, and
    with its vortex strengths found *)
Definition started : Unsteady.solver :=
  Unsteady.set_aerodynamic_data None None None None
    (Unsteady.set_current 0 operating_point
       (OperatingPoint.calculate_freestream_velocity_geometry_axes
          operating_point) initialized).

Definition assembled : Unsteady.solver :=
  value started
    (s ← Unsteady.calculate_wing_wing_influences (aero := aero) started;
     s ← Unsteady.calculate_freestream_wing_influences (aero := aero) s;
     Unsteady.calculate_wake_wing_influences (aero := aero) s).

Definition solved : Unsteady.solver :=
  value assembled (Unsteady.calculate_vortex_strengths assembled).

(** The wing with ring vortices of strengths [g0] and [g1] *)
Definition ring_airplane (g0 g1 : Q) : Airplane.t :=
  airplane (panel 0 (Some (ring 0 (Some g0))) None)
           (panel 1 (Some (ring 1 (Some g1))) None).

(** The wing with ring vortices of strengths one and three, and its
    first panel *)
Definition first_ring_panel : Panel.t :=
  panel 0 (Some (ring 0 (Some 1%Q))) None.

Definition ring_wing : Wing.t :=
  wing first_ring_panel (panel 1 (Some (ring 1 (Some 3%Q))) None).

(** The steady ring problem of that wing with strengths one and three *)
Definition steady_ring_solver : Steady.solver :=
  Steady.init (ring_airplane 1 3) operating_point.

(** That problem with the force attached to the front leg of its first
    panel, and with the forces of all the legs of that panel *)
Definition front_leg_done : Steady.solver :=
  value steady_ring_solver
    (SteadyRing.near_field_leg (aero := aero) 0 0 0 (Some 1%Q)
       RingVortex.front_leg RingVortex.set_front_leg steady_ring_solver).

Definition first_panel_done : Steady.solver :=
  value steady_ring_solver
    (SteadyRing.near_field_panel (aero := aero) 0 0 0 steady_ring_solver).

(** The first time step with an influence matrix of two equal rows *)
Definition singular : Unsteady.solver :=
  Unsteady.set_aerodynamic_data (Some [[1%Q; 1%Q]; [1%Q; 1%Q]])
    (Some [(-1)%Q; (-1)%Q]) (Some [0%Q; 0%Q]) None started.


(** The first time step with its freestream influences found *)
Definition freestream_done : Unsteady.solver :=
  value started
    (Unsteady.calculate_freestream_wing_influences (aero := aero) started).

(** The ring vortex shed by the first time step behind the first panel,
    and the wake vertices after that step *)
Definition shed_ring : RingVortex.t :=
  from_option id (ring 0 None)
    (value None (get2 (Wing.wake_ring_vortices (wing_after 1)) 0 0)).

Definition shed_vertices : ndarray Vec3 :=
  Wing.wake_ring_vortex_vertices (wing_after 1).

(** The streamlines of one step of a tenth of a second after the first
    time step is solved *)
Definition streamlines_done : Unsteady.solver :=
  value solved (Unsteady.calculate_streamlines (aero := aero) 1 (1 # 10) solved).

(** The first time step with its forces found, and then with the wake
    vertices of the next airplane shed *)
Definition forces_done : Unsteady.solver :=
  value solved
    (Unsteady.calculate_near_field_forces_and_moments (aero := aero) solved).

Definition vertices_shed : Unsteady.solver :=
  value forces_done
    (Unsteady.populate_next_airplanes_wake_vortex_vertices (aero := aero)
       forces_done).

(** The current airplane and the first wings of the current and of the
    next airplane at that point *)
Definition this_airplane : Airplane.t :=
  value bare_airplane (Unsteady.airplane_at 0 vertices_shed).

Definition this_wing : Wing.t :=
  value ring_wing (Unsteady.wing_at 0 0 vertices_shed).

Definition next_wing : Wing.t :=
  value ring_wing (Unsteady.wing_at 1 0 vertices_shed).

(** The unsteady problem of two poses, and its run *)
Definition two_step_solver : Unsteady.solver :=
  Unsteady.init (replicate 2 bare_airplane) (replicate 2 operating_point)
    2 1.

Definition two_steps_run : Unsteady.solver :=
  value two_step_solver (Unsteady.run (aero := aero) true two_step_solver).

(** The wing with horseshoe vortices whose strengths are not yet set *)
Definition horseshoe_airplane : Airplane.t :=
  airplane (panel 0 None (Some (horseshoe 0 None)))
           (panel 1 None (Some (horseshoe 1 None))).

(** The steady horseshoe problem of that wing, with its influence matrix
    set up, with its freestream influences set up as well, and solved *)
Definition steady_horseshoe_solver : Steady.solver :=
  Steady.init horseshoe_airplane operating_point.

Definition geometry_set_up : Steady.solver :=
  value steady_horseshoe_solver
    (Steady.set_up_geometry (aero := aero) steady_horseshoe_solver).

Definition operating_point_set_up : Steady.solver :=
  value geometry_set_up (Steady.set_up_operating_point geometry_set_up).

Definition horseshoe_solved : Steady.solver :=
  value operating_point_set_up
    (SteadyHorseshoe.calculate_vortex_strengths operating_point_set_up).

(** The first time step with its influence matrix found, and then with
    its freestream influences *)
Definition matrix_done : Unsteady.solver :=
  value started
    (Unsteady.calculate_wing_wing_influences (aero := aero) started).

Definition freestream_after_matrix : Unsteady.solver :=
  value matrix_done
    (Unsteady.calculate_freestream_wing_influences (aero := aero)
       matrix_done).

(** Two wings of two panels each, side by side, and the steady problem
    of that airplane *)
Definition two_wing_airplane : Airplane.t :=
  Airplane.make
    [wing (panel 0 None (Some (horseshoe 0 None)))
          (panel 1 None (Some (horseshoe 1 None)));
     wing (panel 2 None (Some (horseshoe 2 None)))
          (panel 3 None (Some (horseshoe 3 None)))]
    4 vzero 4 4 1 vzero vzero vzero vzero.

Definition two_wing_solver : Steady.solver :=
  Steady.init two_wing_airplane operating_point.

Definition two_wing_geometry : Steady.solver :=
  value two_wing_solver
    (Steady.set_up_geometry (aero := aero) two_wing_solver).

Definition two_wing_operating_point : Steady.solver :=
  value two_wing_solver (Steady.set_up_operating_point two_wing_solver).

(** Vortices that induce nothing at unit strength, and the first time
    step of the unsteady problem with them: its influence matrix, its
    freestream influences and its wake influences *)
Definition degenerate_aero : Aerodynamics := {|
  panel_normalized_induced_velocity := fun _ _ _ => vzero;
  panel_induced_velocity := @panel_induced_velocity aero;
  ring_induced_velocity := @ring_induced_velocity aero;
  ring_center := @ring_center aero;
  get_flapping_velocity_at_point_on_panel :=
    @get_flapping_velocity_at_point_on_panel aero;
  pressure_of := @pressure_of aero;
  update_force_moment_and_pressure := @update_force_moment_and_pressure aero
|}.

Definition degenerate_matrix_done : Unsteady.solver :=
  value started
    (Unsteady.calculate_wing_wing_influences (aero := degenerate_aero)
       started).

Definition degenerate_freestream_done : Unsteady.solver :=
  value degenerate_matrix_done
    (Unsteady.calculate_freestream_wing_influences (aero := degenerate_aero)
       degenerate_matrix_done).

Definition degenerate_assembled : Unsteady.solver :=
  value degenerate_freestream_done
    (Unsteady.calculate_wake_wing_influences (aero := degenerate_aero)
       degenerate_freestream_done).

End Example.

(** * Properties *)

(** ** Results and loops *)

Lemma bind_Ok_inv {A B : Type} (k : A -> result B) (m : result A) (b : B) :
  mbind k m = Ok b -> exists a, m = Ok a /\ k a = Ok b.
Proof. destruct m as [a|e]; simpl; [eauto | discriminate]. Qed.

Lemma bind_Ok_eq {A B : Type} (k : A -> result B) (m : result A) (a : A) :
  m = Ok a -> mbind k m = k a.
Proof. intros ->. reflexivity. Qed.

Lemma bind_Raise_eq {A B : Type} (k : A -> result B) (m : result A) e :
  m = Raise e -> mbind k m = Raise e.
Proof. intros ->. reflexivity. Qed.

Lemma of_option_Ok {A : Type} (e : exn) (o : option A) (a : A) :
  of_option e o = Ok a <-> o = Some a.
Proof. destruct o; simpl; split; congruence. Qed.

(** [ok_inv H] splits a successful sequence of binds into its steps. *)
Ltac ok_inv H :=
  repeat match type of H with
  | mbind _ _ = Ok _ =>
      let a := fresh "a" in
      let E := fresh "E" in
      apply bind_Ok_inv in H as (a & E & H)
  | Ok _ = Ok _ => injection H as H
  | Raise _ = Ok _ => discriminate H
  end.

Lemma for_each_app {X S : Type} (xs ys : list X) (body : X -> S -> result S)
    (st : S) :
  for_each (xs ++ ys) body st = (st' ← for_each xs body st; for_each ys body st').
Proof.
  revert st. induction xs as [|x xs IH]; intros st; simpl; [reflexivity|].
  destruct (body x st) as [st1|e]; simpl; [apply IH | reflexivity].
Qed.

Lemma for_each_inv {X S : Type} (P : S -> Prop) (xs : list X)
    (body : X -> S -> result S) :
  (forall x st st', x ∈ xs -> P st -> body x st = Ok st' -> P st') ->
  forall st st', P st -> for_each xs body st = Ok st' -> P st'.
Proof.
  induction xs as [|x xs IH]; intros Hbody st st' HP H; simpl in H.
  - congruence.
  - ok_inv H. eapply IH; [| |exact H].
    + intros y s1 s2 Hy. apply Hbody. by right.
    + eapply Hbody; [by left|exact HP|exact E].
Qed.

Lemma for_each_seq_inv {S : Type} (P : nat -> S -> Prop) (a n : nat)
    (body : nat -> S -> result S) :
  (forall i st st',
     a <= i < a + n -> P i st -> body i st = Ok st' -> P (Datatypes.S i) st') ->
  forall st st', P a st -> for_each (seq a n) body st = Ok st' -> P (a + n) st'.
Proof.
  revert a. induction n as [|n IH]; intros a Hbody st st' HP H; simpl in H.
  - replace (a + 0) with a by lia. congruence.
  - ok_inv H. replace (a + Datatypes.S n) with (Datatypes.S a + n) by lia.
    eapply IH; [| |exact H].
    + intros i s1 s2 Hi. apply Hbody. lia.
    + eapply Hbody; [|exact HP|exact E]. lia.
Qed.

Lemma for_each_range_inv {S : Type} (P : nat -> S -> Prop) (n : nat)
    (body : nat -> S -> result S) :
  (forall i st st',
     i < n -> P i st -> body i st = Ok st' -> P (Datatypes.S i) st') ->
  forall st st', P 0 st -> for_each (range n) body st = Ok st' -> P n st'.
Proof.
  intros Hbody st st' HP H.
  change n with (0 + n).
  eapply (for_each_seq_inv P 0 n body); [|exact HP|exact H].
  intros i s1 s2 Hi. apply Hbody. lia.
Qed.

Lemma for_each_indexed_inv {X S : Type} (P : nat -> S -> Prop) (xs : list X)
    (body : X -> S -> result S) :
  (forall i x st st',
     xs !! i = Some x -> P i st -> body x st = Ok st' -> P (Datatypes.S i) st') ->
  forall st st', P 0 st -> for_each xs body st = Ok st' -> P (length xs) st'.
Proof.
  intros Hbody.
  assert (forall pre post st st',
            xs = pre ++ post -> P (length pre) st ->
            for_each post body st = Ok st' -> P (length xs) st') as Hgen.
  { intros pre post. revert pre.
    induction post as [|x post IH]; intros pre st st' Hxs HP H; simpl in H.
    - subst xs. rewrite app_nil_r. congruence.
    - ok_inv H. apply (IH (pre ++ [x]) a st').
      + rewrite <- app_assoc. exact Hxs.
      + rewrite length_app. simpl.
        replace (length pre + 1) with (Datatypes.S (length pre)) by lia.
        eapply Hbody; [|exact HP|exact E].
        subst xs. rewrite lookup_app_r by lia.
        by rewrite Nat.sub_diag.
      + exact H. }
  intros st st' HP H. by apply (Hgen [] xs st st').
Qed.

Lemma enumerate_lookup {A : Type} (l : list A) (i : nat) (x : A) :
  l !! i = Some x -> enumerate l !! i = Some (i, x).
Proof.
  intros Hx. unfold enumerate.
  apply lookup_zip_with_Some. exists i, x. split; [reflexivity|].
  split; [|exact Hx].
  apply lookup_seq. split; [lia|]. by eapply lookup_lt_Some.
Qed.

Lemma enumerate_lookup_inv {A : Type} (l : list A) (i j : nat) (x : A) :
  enumerate l !! i = Some (j, x) -> j = i /\ l !! i = Some x.
Proof.
  unfold enumerate. intros H.
  apply lookup_zip_with_Some in H as (j' & x' & Heq & Hseq & Hx).
  injection Heq as -> ->. apply lookup_seq in Hseq as [-> _]. by split.
Qed.

Lemma length_enumerate {A : Type} (l : list A) :
  length (enumerate l) = length l.
Proof. unfold enumerate. rewrite length_zip_with, length_seq. lia. Qed.

Lemma for_each_enumerate_inv {X S : Type} (P : nat -> S -> Prop)
    (xs : list X) (body : nat * X -> S -> result S) :
  (forall i x st st',
     xs !! i = Some x -> P i st -> body (i, x) st = Ok st' ->
     P (Datatypes.S i) st') ->
  forall st st',
    P 0 st -> for_each (enumerate xs) body st = Ok st' -> P (length xs) st'.
Proof.
  intros Hbody st st' HP H.
  rewrite <- (length_enumerate xs).
  eapply (for_each_indexed_inv P (enumerate xs) body); [|exact HP|exact H].
  intros i [j x] s1 s2 Hix. apply enumerate_lookup_inv in Hix as [-> Hx].
  by apply Hbody.
Qed.

(** ** The linear solve *)

Section LinearSolve.
Local Open Scope Q_scope.

Lemma nonzero_true (x : Q) : nonzero x = true -> ~ x == 0.
Proof.
  unfold nonzero. intros H Hx. apply Qeq_bool_iff in Hx.
  rewrite Hx in H. discriminate.
Qed.

Lemma nonzero_false (x : Q) : nonzero x = false -> x == 0.
Proof.
  unfold nonzero. intros H. apply Qeq_bool_iff.
  destruct (Qeq_bool x 0); [reflexivity | discriminate].
Qed.

Lemma dotl_eliminate (f : Q) (u v x : list Q) :
  length u = length v ->
  dotl (zip_with (fun a b => a - f * b) u v) x == dotl u x - f * dotl v x.
Proof.
  revert v x. induction u as [|a u IH]; intros [|b v] [|c x] Hlen;
    simpl in *; try discriminate; try ring.
  rewrite IH by lia. ring.
Qed.

Lemma eliminate_arith (a b sp se d dp : Q) :
  ~ a == 0 ->
  d - (b / a) * dp == se - (b / a) * sp ->
  b * ((sp - dp) / a) + d == se.
Proof.
  intros Ha H.
  assert (d == se - (b / a) * sp + (b / a) * dp) as Hd.
  { rewrite <- H. ring. }
  rewrite Hd. field. exact Ha.
Qed.

Lemma find_pivot_Some (eqs : list equation) (p : equation)
    (rest : list equation) :
  find_pivot eqs = Some (p, rest) ->
  nonzero (leading p) = true /\
  length eqs = S (length rest) /\
  (forall e, e ∈ eqs <-> e = p \/ e ∈ rest).
Proof.
  revert p rest. induction eqs as [|e eqs IH]; intros p rest H; simpl in H.
  - discriminate.
  - destruct (nonzero (leading e)) eqn:Hnz.
    + injection H as <- <-. split; [exact Hnz|]. split; [reflexivity|].
      intros e'. rewrite elem_of_cons. tauto.
    + destruct (find_pivot eqs) as [[p' rest']|] eqn:Hfp; [|discriminate].
      injection H as <- <-.
      destruct (IH p' rest' eq_refl) as (Hp & Hlen & Hin).
      split; [exact Hp|]. split; [simpl; lia|].
      intros e'. rewrite !elem_of_cons, Hin. tauto.
Qed.

Lemma solve_equations_sound (n : nat) :
  forall (eqs : list equation) (x : list Q),
    length eqs = n ->
    Forall (fun e => length (fst e) = n) eqs ->
    solve_equations n eqs = Ok x ->
    length x = n /\ Forall (satisfies x) eqs.
Proof.
  induction n as [|n IH]; intros eqs x Hlen Hrows H; simpl in H.
  - injection H as <-. destruct eqs; [|discriminate]. by split.
  - destruct (find_pivot eqs) as [[p rest]|] eqn:Hfp; [|discriminate].
    ok_inv H. subst x.
    apply find_pivot_Some in Hfp as (Hnz & Hlen' & Hin).
    apply nonzero_true in Hnz.
    assert (length (fst p) = S n) as Hp.
    { eapply list.Forall_forall in Hrows; [exact Hrows|]. apply Hin. by left. }
    assert (forall e, e ∈ rest -> length (fst e) = S n) as Hrest.
    { intros e He. eapply list.Forall_forall in Hrows; [exact Hrows|].
      apply Hin. by right. }
    destruct (IH (map (eliminate p) rest) a) as [Hla Hsat].
    + rewrite length_map. lia.
    + apply list.Forall_forall. intros e' He'.
      apply list_elem_of_fmap in He' as (e & -> & He).
      unfold eliminate. simpl. rewrite length_zip_with.
      specialize (Hrest e He).
      destruct (fst e) as [|b te]; [discriminate|].
      destruct (fst p) as [|c tp]; [discriminate|].
      simpl in *. lia.
    + exact E.
    + split; [simpl; lia|].
      apply list.Forall_forall. intros e He. apply Hin in He as [->|He].
      * unfold satisfies, leading in *.
        destruct (fst p) as [|c tp]; [discriminate|]. simpl in *.
        field. exact Hnz.
      * assert (satisfies a (eliminate p e)) as Hs.
        { eapply list.Forall_forall in Hsat; [exact Hsat|].
          apply list_elem_of_fmap. by exists e. }
        specialize (Hrest e He).
        unfold satisfies, eliminate, leading in *.
        destruct (fst e) as [|b te]; [discriminate|].
        destruct (fst p) as [|c tp]; [discriminate|].
        simpl in *. rewrite dotl_eliminate in Hs by lia.
        apply eliminate_arith; assumption.
Qed.

Lemma is_square_rows (a : list (list Q)) :
  is_square a = true -> Forall (fun r => length r = length a) a.
Proof.
  unfold is_square. intros H. apply list.Forall_forall. intros r Hr.
  rewrite forallb_forall in H. apply Nat.eqb_eq, H.
  by apply list_elem_of_In.
Qed.

(** A solution returned by [linalg_solve] has one entry per row of the
    matrix and satisfies every equation of the system. *)
Lemma linalg_solve_sound (a : list (list Q)) (b x : list Q) :
  linalg_solve a b = Ok x ->
  length x = length a /\ length b = length a /\
  Forall2 (fun row bi => dotl row x == bi) a b.
Proof.
  unfold linalg_solve. intros H.
  destruct (is_square a) eqn:Hsq; simpl in H; [|discriminate].
  destruct (Nat.eqb (length b) (length a)) eqn:Hb; simpl in H; [|discriminate].
  apply Nat.eqb_eq in Hb. apply is_square_rows in Hsq.
  destruct (solve_equations_sound (length a) (zip a b) x) as [Hlen Hsat].
  - rewrite length_zip_with. lia.
  - apply list.Forall_forall. intros [r bi] Hin.
    apply list_elem_of_lookup in Hin as [i Hi].
    apply lookup_zip_with_Some in Hi as (r' & b' & Heq & Hr & _).
    injection Heq as -> ->. simpl.
    eapply list.Forall_forall in Hsq; [exact Hsq|].
    by eapply list_elem_of_lookup_2.
  - exact H.
  - split; [exact Hlen|]. split; [exact Hb|].
    apply Forall2_same_length_lookup. split; [lia|].
    intros i r bi Hr Hbi.
    assert (satisfies x (r, bi)) as Hs.
    { eapply list.Forall_forall in Hsat; [exact Hsat|].
      apply list_elem_of_lookup. exists i.
      apply lookup_zip_with_Some. by exists r, bi. }
    exact Hs.
Qed.

Lemma solve_equations_raises (n : nat) (eqs : list equation) (e : exn) :
  solve_equations n eqs = Raise e -> e = LinAlgError.
Proof.
  revert eqs. induction n as [|n IH]; intros eqs H; simpl in H.
  - discriminate.
  - destruct (find_pivot eqs) as [[p rest]|]; [|congruence].
    destruct (solve_equations n (map (eliminate p) rest)) eqn:Hs;
      simpl in H; [discriminate|].
    injection H as <-. by eapply IH.
Qed.

Lemma linalg_solve_raises (a : list (list Q)) (b : list Q) (e : exn) :
  linalg_solve a b = Raise e -> e = LinAlgError \/ e = ValueError.
Proof.
  unfold linalg_solve. intros H.
  destruct (is_square a); simpl in H; [|left; congruence].
  destruct (Nat.eqb (length b) (length a)); simpl in H; [|right; congruence].
  left. by eapply solve_equations_raises.
Qed.

End LinearSolve.

(** ** Arrays *)

Lemma set_item_Ok {A : Type} (l l' : list A) (i : nat) (x : A) :
  set_item l i x = Ok l' -> i < length l /\ l' = <[i := x]> l.
Proof.
  unfold set_item. destruct (decide (i < length l)); [|discriminate].
  intros H. injection H as <-. by split.
Qed.

Lemma get_item_Ok {A : Type} (l : list A) (i : nat) (x : A) :
  get_item l i = Ok x <-> l !! i = Some x.
Proof. apply of_option_Ok. Qed.

Lemma get2_Ok {A : Type} (a : ndarray A) (i j : nat) (x : A) :
  get2 a i j = Ok x <->
  exists row, rows a !! i = Some row /\ row !! j = Some x.
Proof.
  unfold get2. split.
  - intros H. ok_inv H. apply of_option_Ok in E, H. eauto.
  - intros (row & Hr & Hx). rewrite Hr. simpl. by rewrite Hx.
Qed.

Lemma set2_Ok {A : Type} (a a' : ndarray A) (i j : nat) (x : A) :
  set2 a i j x = Ok a' ->
  exists row,
    rows a !! i = Some row /\ j < length row /\
    a' = mk_ndarray (shape1 a) (<[i := <[j := x]> row]> (rows a)).
Proof.
  unfold set2. intros H. ok_inv H. apply of_option_Ok in E.
  apply set_item_Ok in E0 as [Hj ->]. subst a'. eauto.
Qed.

Lemma py_index_nat (n i : nat) :
  i < n -> py_index n (Z.of_nat i) = Ok i.
Proof.
  intros Hi. unfold py_index.
  destruct (decide (0 <= Z.of_nat i < Z.of_nat n)%Z) as [_|Hn]; [|lia].
  by rewrite Nat2Z.id.
Qed.

Lemma get2_py_nat {A : Type} (a : ndarray A) (i j : nat) :
  i < shape0 a -> j < shape1 a ->
  get2_py a (Z.of_nat i) (Z.of_nat j) = get2 a i j.
Proof.
  intros Hi Hj. unfold get2_py.
  rewrite (py_index_nat _ _ Hi), (py_index_nat _ _ Hj). reflexivity.
Qed.

(** ** The strengths of the bound legs *)

Section BoundLegs.
Context {aero : Aerodynamics}.

Lemma ring_strength_Ok (panel : Panel.t) (r : RingVortex.t) :
  Panel.ring_vortex panel = Some r ->
  ring_strength panel = Ok (RingVortex.strength r).
Proof. intros H. unfold ring_strength. by rewrite H. Qed.

Lemma py_nonzero_zero (x : Q) : x == 0 -> py_nonzero (Some x) = false.
Proof.
  intros Hx. simpl. unfold nonzero.
  apply Qeq_bool_iff in Hx. by rewrite Hx.
Qed.

(** C6, as the code has it.  For the panel at [(c, sp)] of a wing: the
    strength of the front leg is the strength of the panel on the leading
    edge and otherwise the strength of the panel minus that of the panel
    in front of it; the strength of the left leg is the strength of the
    panel on the left edge and otherwise the strength of the panel minus
    that of the panel to its left; the strength of the right leg is the
    strength of the panel on the right edge and zero otherwise.  A leg
    whose strength is zero leaves the force and the moment of the panel
    as they are in the unsteady solver and attaches no force in the
    steady ring solver, without an exception in either. *)
Theorem bound_leg_strengths (wing : Wing.t) (c sp : nat) (panel : Panel.t)
    (r : RingVortex.t) (g : Q) :
  wf_ndarray (Wing.panels wing) ->
  get2 (Wing.panels wing) c sp = Ok panel ->
  Panel.ring_vortex panel = Some r ->
  RingVortex.strength r = Some g ->
  right_bound_vortex_strength wing c sp panel =
    Ok (Some (if decide (sp + 1 = Wing.num_spanwise_panels wing)
              then g else 0%Q)) /\
  (Panel.is_leading_edge panel = true ->
   front_bound_vortex_strength wing c sp panel = Ok (Some g)) /\
  (Panel.is_leading_edge panel = false ->
   forall c' neighbour r' g',
     c = S c' ->
     get2 (Wing.panels wing) c' sp = Ok neighbour ->
     Panel.ring_vortex neighbour = Some r' ->
     RingVortex.strength r' = Some g' ->
     front_bound_vortex_strength wing c sp panel = Ok (Some (g - g')%Q)) /\
  (sp = 0 -> left_bound_vortex_strength wing c sp panel = Ok (Some g)) /\
  (forall sp' neighbour r' g',
     sp = S sp' ->
     get2 (Wing.panels wing) c sp' = Ok neighbour ->
     Panel.ring_vortex neighbour = Some r' ->
     RingVortex.strength r' = Some g' ->
     left_bound_vortex_strength wing c sp panel = Ok (Some (g - g')%Q)) /\
  (forall x, (x == 0)%Q ->
     (forall s wi name leg xyz_ref fm,
        Unsteady.add_leg s wi c sp name leg (Some x) xyz_ref fm = Ok fm) /\
     (forall s wi get_leg set_leg,
        SteadyRing.near_field_leg wi c sp (Some x) get_leg set_leg s = Ok s)).
Proof.
  intros Hwf Hpanel Hr Hg.
  pose proof (ring_strength_Ok panel r Hr) as Hs. rewrite Hg in Hs.
  assert (forall i j (p : Panel.t),
            get2 (Wing.panels wing) i j = Ok p ->
            get2_py (Wing.panels wing) (Z.of_nat i) (Z.of_nat j) = Ok p)
    as Hpy.
  { intros i j p Hp. rewrite get2_py_nat; [exact Hp| |].
    - apply get2_Ok in Hp as (row & Hrow & _).
      unfold shape0. by eapply lookup_lt_Some.
    - apply get2_Ok in Hp as (row & Hrow & Hx).
      assert (length row = shape1 (Wing.panels wing)) as <-.
      { eapply list.Forall_forall in Hwf; [exact Hwf|].
        by eapply list_elem_of_lookup_2. }
      by eapply lookup_lt_Some. }
  repeat split.
  - unfold right_bound_vortex_strength.
    destruct (decide (sp + 1 = Wing.num_spanwise_panels wing)) as [He|He].
    + by rewrite (bool_decide_eq_true_2 _ He).
    + by rewrite (bool_decide_eq_false_2 _ He).
  - intros Hle. unfold front_bound_vortex_strength. by rewrite Hle.
  - intros Hle c' nb r' g' -> Hnb Hr' Hg'.
    unfold front_bound_vortex_strength. rewrite Hle, Hs. simpl.
    replace (Z.of_nat (S c') - 1)%Z with (Z.of_nat c') by lia.
    rewrite (Hpy _ _ _ Hnb). simpl.
    rewrite (ring_strength_Ok nb r' Hr'), Hg'. reflexivity.
  - intros ->. unfold left_bound_vortex_strength. by simpl.
  - intros sp' nb r' g' -> Hnb Hr' Hg'.
    unfold left_bound_vortex_strength. simpl. rewrite Hs. simpl.
    replace (Z.of_nat (S sp') - 1)%Z with (Z.of_nat sp') by lia.
    rewrite (Hpy _ _ _ Hnb). simpl.
    rewrite (ring_strength_Ok nb r' Hr'), Hg'. reflexivity.
  - intros s wi name leg xyz_ref fm. unfold Unsteady.add_leg.
    by rewrite (py_nonzero_zero x).
  - intros s wi get_leg set_leg. unfold SteadyRing.near_field_leg.
    by rewrite (py_nonzero_zero x).
Qed.

End BoundLegs.

(** ** The near-field forces of the unsteady solver *)

Section UnsteadyForces.
Context {aero : Aerodynamics}.

Lemma alter_lookup_Some {A : Type} (f : A -> A) (l : list A) (i : nat)
    (x : A) :
  l !! i = Some x -> alter f i l !! i = Some (f x).
Proof.
  intros H. rewrite list_lookup_alter.
  destruct (decide (i = i)); [|congruence]. by rewrite H.
Qed.

Lemma get2_modify_panel (w : Wing.t) (c sp : nat) (f : Panel.t -> Panel.t)
    (p : Panel.t) :
  get2 (Wing.panels w) c sp = Ok p ->
  get2 (Wing.panels (modify_panel c sp f w)) c sp = Ok (f p).
Proof.
  intros H. apply get2_Ok in H as (row & Hrow & Hp).
  apply get2_Ok. exists (alter f sp row). simpl. split.
  - by apply alter_lookup_Some.
  - by apply alter_lookup_Some.
Qed.

Lemma wing_at_Ok (k wi : nat) (s : Unsteady.solver) (w : Wing.t) :
  Unsteady.wing_at k wi s = Ok w <->
  exists a, Unsteady.airplanes s !! k = Some a /\
            Airplane.wings a !! wi = Some w.
Proof.
  unfold Unsteady.wing_at, Unsteady.airplane_at. split.
  - intros H. ok_inv H. apply get_item_Ok in E, H. eauto.
  - intros (a & Ha & Hw). unfold get_item. rewrite Ha. simpl. by rewrite Hw.
Qed.

Lemma wing_at_modify_wing_at (k wi : nat) (f : Wing.t -> Wing.t)
    (s : Unsteady.solver) (w : Wing.t) :
  Unsteady.wing_at k wi s = Ok w ->
  Unsteady.wing_at k wi (Unsteady.modify_wing_at k wi f s) = Ok (f w).
Proof.
  intros H. apply wing_at_Ok in H as (a & Ha & Hw).
  apply wing_at_Ok. exists (modify_wing wi f a). simpl. split.
  - by apply alter_lookup_Some.
  - simpl. by apply alter_lookup_Some.
Qed.

(** C1 in the unsteady solver: the force on a leg whose strength [g] is
    not zero is [density * g * (velocity x leg.vector)], the velocity
    being the solution velocity at the centre of that leg plus the
    velocity of that point of the panel due to the motion; the moment
    added is [(leg.center - xyz_ref) x force]. *)
Lemma unsteady_leg_force (s : Unsteady.solver) (wi c sp : nat)
    (name : string) (leg : LineVortex.t) (g : Q) (xyz_ref : Vec3)
    (fm fm' : Vec3 * Vec3) :
  nonzero g = true ->
  Unsteady.add_leg s wi c sp name leg (Some g) xyz_ref fm = Ok fm' ->
  exists step op velocity,
    Unsteady.current_step s = Some step /\
    Unsteady.current_operating_point s = Some op /\
    Unsteady.calculate_solution_velocity s (LineVortex.center leg)
      = Ok velocity /\
    let force :=
      vscale (OperatingPoint.density op * g)
        (cross (vadd velocity
                  (get_flapping_velocity_at_point_on_panel wi (Z.of_nat c)
                     (Z.of_nat sp) name step))
               (LineVortex.vector leg)) in
    fm' = (vadd (fst fm) force,
           vadd (snd fm) (cross (vsub (LineVortex.center leg) xyz_ref) force)).
Proof.
  intros Hg H. unfold Unsteady.add_leg in H. simpl in H. rewrite Hg in H.
  apply bind_Ok_inv in H as (force & Hforce & H). injection H as <-.
  unfold Unsteady.leg_force in Hforce.
  apply bind_Ok_inv in Hforce as (velocity & Hv & Hforce).
  apply bind_Ok_inv in Hforce as (step & Hstep & Hforce).
  apply bind_Ok_inv in Hforce as (op & Hop & Hforce).
  simpl in Hforce. injection Hforce as <-.
  apply of_option_Ok in Hstep, Hop.
  exists step, op, velocity. by repeat split.
Qed.


End UnsteadyForces.

(** ** The vortex strengths *)

Section VortexStrengths.
Context {aero : Aerodynamics}.

Lemma imapM_from_lookup {A B : Type} (f : nat -> A -> result B) :
  forall (l : list A) (i : nat) (l' : list B),
    imapM_from i f l = Ok l' ->
    length l' = length l /\
    forall j x, l !! j = Some x ->
      exists y, f (i + j) x = Ok y /\ l' !! j = Some y.
Proof.
  induction l as [|x l IH]; intros i l' H; simpl in H.
  - injection H as <-. split; [reflexivity|]. intros j y Hj. discriminate.
  - apply bind_Ok_inv in H as (y & Hy & H).
    apply bind_Ok_inv in H as (ys & Hys & H). injection H as <-.
    destruct (IH _ _ Hys) as [Hlen Hl]. split; [simpl; lia|].
    intros [|j] z Hz; simpl in Hz.
    + injection Hz as <-. exists y. rewrite Nat.add_0_r. by split.
    + destruct (Hl j z Hz) as (y' & Hy' & Hj). exists y'.
      replace (i + S j) with (S i + j) by lia. by split.
Qed.

Lemma mapM_lookup {A B : Type} (f : A -> result B) :
  forall (l : list A) (l' : list B),
    mapM f l = Ok l' ->
    length l' = length l /\
    forall j x, l !! j = Some x -> exists y, f x = Ok y /\ l' !! j = Some y.
Proof.
  induction l as [|x l IH]; intros l' H; simpl in H.
  - injection H as <-. split; [reflexivity|]. intros j y Hj. discriminate.
  - apply bind_Ok_inv in H as (y & Hy & H).
    apply bind_Ok_inv in H as (ys & Hys & H). injection H as <-.
    destruct (IH _ Hys) as [Hlen Hl]. split; [simpl; lia|].
    intros [|j] z Hz; simpl in Hz.
    + injection Hz as <-. exists y. by split.
    + exact (Hl j z Hz).
Qed.

(** The raveled index of the entry at [(c, sp)] of an array with [n]
    columns is [c * n + sp]. *)
Lemma ravel_lookup {A : Type} (n : nat) :
  forall (rs : list (list A)) (c sp : nat) (r : list A) (x : A),
    Forall (fun r => length r = n) rs ->
    rs !! c = Some r -> r !! sp = Some x ->
    concat rs !! (c * n + sp) = Some x.
Proof.
  induction rs as [|r0 rs IH]; intros c sp r x Hwf Hr Hx.
  - discriminate.
  - apply list.Forall_cons in Hwf as [Hr0 Hwf]. destruct c as [|c]; simpl in *.
    + injection Hr as ->. rewrite lookup_app_l; [exact Hx|].
      by eapply lookup_lt_Some.
    + rewrite lookup_app_r by lia.
      replace (n + c * n + sp - length r0) with (c * n + sp) by lia.
      by eapply IH.
Qed.

Lemma unravel_rows_lookup {A : Type} (n : nat) :
  forall (rs : list (list A)) (l : list A) (c sp : nat) (r : list A),
    Forall (fun r => length r = n) rs ->
    rs !! c = Some r -> sp < n ->
    exists row, unravel_rows rs l !! c = Some row /\
                row !! sp = l !! (c * n + sp).
Proof.
  induction rs as [|r0 rs IH]; intros l c sp r Hwf Hr Hsp.
  - discriminate.
  - apply list.Forall_cons in Hwf as [Hr0 Hwf]. destruct c as [|c]; simpl in *.
    + eexists. split; [reflexivity|]. rewrite Hr0.
      by rewrite lookup_take_lt.
    + destruct (IH (drop (length r0) l) c sp r Hwf Hr Hsp)
        as (row & Hrow & Hlk).
      exists row. split; [exact Hrow|]. rewrite Hlk, lookup_drop, Hr0.
      f_equal. lia.
Qed.

Lemma update_panel_strength_Ok (strengths : list Q) (i : nat)
    (panel panel' : Panel.t) :
  update_panel_strength strengths i panel = Ok panel' ->
  exists r g,
    strengths !! i = Some g /\
    Panel.ring_vortex panel = Some r /\
    Panel.ring_vortex panel' = Some (RingVortex.update_strength g r) /\
    Panel.horseshoe_vortex panel'
      = HorseshoeVortex.update_strength g <$> Panel.horseshoe_vortex panel.
Proof.
  unfold update_panel_strength. intros H.
  apply bind_Ok_inv in H as (r & Hr & H).
  apply bind_Ok_inv in H as (g & Hg & H).
  apply of_option_Ok in Hr. apply get_item_Ok in Hg.
  exists r, g. split; [exact Hg|]. split; [exact Hr|].
  simpl in H. destruct (Panel.horseshoe_vortex panel) as [h|] eqn:Hh.
  - apply bind_Ok_inv in H as (g' & Hg' & H). apply get_item_Ok in Hg'.
    rewrite Hg in Hg'. injection Hg' as <-. injection H as <-.
    simpl. by split.
  - injection H as <-. simpl. by split.
Qed.

(** The panel at [(c, sp)] of a wing receives the entry of the solved
    vector at its raveled index within that wing. *)
Lemma update_wing_strengths_Ok (strengths : list Q) (wing wing' : Wing.t)
    (c sp : nat) (panel : Panel.t) :
  update_wing_strengths strengths wing = Ok wing' ->
  wf_ndarray (Wing.panels wing) ->
  get2 (Wing.panels wing) c sp = Ok panel ->
  exists panel' r g,
    get2 (Wing.panels wing') c sp = Ok panel' /\
    strengths !! (c * shape1 (Wing.panels wing) + sp) = Some g /\
    Panel.ring_vortex panel = Some r /\
    Panel.ring_vortex panel' = Some (RingVortex.update_strength g r) /\
    Panel.horseshoe_vortex panel'
      = HorseshoeVortex.update_strength g <$> Panel.horseshoe_vortex panel.
Proof.
  unfold update_wing_strengths. intros H Hwf Hpanel.
  apply bind_Ok_inv in H as (flat & Hflat & H). injection H as <-.
  apply get2_Ok in Hpanel as (row & Hrow & Hp).
  set (n := shape1 (Wing.panels wing)) in *.
  assert (sp < n) as Hsp.
  { assert (length row = n) as <-.
    { eapply list.Forall_forall in Hwf; [exact Hwf|].
      by eapply list_elem_of_lookup_2. }
    by eapply lookup_lt_Some. }
  pose proof (ravel_lookup n _ c sp row panel Hwf Hrow Hp) as Hravel.
  apply imapM_from_lookup in Hflat as [_ Hflat].
  destruct (Hflat _ _ Hravel) as (panel' & Hupd & Hflat').
  simpl in Hupd.
  apply update_panel_strength_Ok in Hupd as (r & g & Hg & Hr & Hr' & Hh).
  exists panel', r, g.
  split; [|by repeat split].
  apply get2_Ok. simpl.
  destruct (unravel_rows_lookup n (rows (Wing.panels wing)) flat c sp row
              Hwf Hrow Hsp) as (row' & Hrow' & Hlk).
  exists row'. split; [exact Hrow'|]. by rewrite Hlk.
Qed.

Lemma np_sub_lookup (u v w : list Q) (i : nat) (a b : Q) :
  np_sub u v = Ok w -> length u = length v ->
  u !! i = Some a -> v !! i = Some b -> w !! i = Some (a - b)%Q.
Proof.
  unfold np_sub. intros H Hlen Ha Hb.
  destruct (decide (length u = length v)); [|contradiction].
  injection H as <-. apply lookup_zip_with_Some. by exists a, b.
Qed.

(** C5.  [calculate_vortex_strengths] of the unsteady solver and of the
    steady ring solver hands the influence matrix and the negated
    influence vectors to the linear solve, whose result [strengths] has
    one entry per row of the matrix and satisfies every equation
    [row . strengths == rhs]; the right-hand side is [- wake - freestream]
    entry by entry in the unsteady solver and [- freestream] in the steady
    one.  Every panel then has the ring vortex it had with its strength
    set to the entry of [strengths] at the raveled index of the panel
    within its wing, and the horseshoe vortex of a panel that has one is
    given that same entry. *)
Theorem vortex_strengths_solved_and_scattered :
  (forall s s' : Unsteady.solver,
     Unsteady.calculate_vortex_strengths s = Ok s' ->
     exists aic wake fs rhs strengths step airplane airplane',
       Unsteady.current_wing_wing_influences s = Some aic /\
       Unsteady.current_wake_wing_influences s = Some wake /\
       Unsteady.current_freestream_wing_influences s = Some fs /\
       np_sub (neg_list wake) fs = Ok rhs /\
       (length wake = length fs ->
        forall i w f, wake !! i = Some w -> fs !! i = Some f ->
          rhs !! i = Some (- w - f)%Q) /\
       Unsteady.current_vortex_strengths s' = Some strengths /\
       length strengths = length aic /\
       Forall2 (fun row b => dotl row strengths == b)%Q aic rhs /\
       Unsteady.current_step s = Some step /\
       Unsteady.airplanes s !! step = Some airplane /\
       Unsteady.airplanes s' !! step = Some airplane' /\
       forall wi wing c sp panel,
         Airplane.wings airplane !! wi = Some wing ->
         wf_ndarray (Wing.panels wing) ->
         get2 (Wing.panels wing) c sp = Ok panel ->
         exists wing' panel' r g,
           Airplane.wings airplane' !! wi = Some wing' /\
           get2 (Wing.panels wing') c sp = Ok panel' /\
           strengths !! (c * shape1 (Wing.panels wing) + sp) = Some g /\
           Panel.ring_vortex panel = Some r /\
           Panel.ring_vortex panel' = Some (RingVortex.update_strength g r) /\
           Panel.horseshoe_vortex panel'
             = HorseshoeVortex.update_strength g
                 <$> Panel.horseshoe_vortex panel) /\
  (forall s s' : Steady.solver,
     SteadyRing.calculate_vortex_strengths s = Ok s' ->
     let aic := Steady.aerodynamic_influence_coefficients s in
     let rhs := neg_list (Steady.freestream_influences s) in
     let strengths := Steady.vortex_strengths s' in
     length strengths = length aic /\
     Forall2 (fun row b => dotl row strengths == b)%Q aic rhs /\
     forall wi wing c sp panel,
       Airplane.wings (Steady.airplane s) !! wi = Some wing ->
       wf_ndarray (Wing.panels wing) ->
       get2 (Wing.panels wing) c sp = Ok panel ->
       exists wing' panel' r g,
         Airplane.wings (Steady.airplane s') !! wi = Some wing' /\
         get2 (Wing.panels wing') c sp = Ok panel' /\
         strengths !! (c * shape1 (Wing.panels wing) + sp) = Some g /\
         Panel.ring_vortex panel = Some r /\
         Panel.ring_vortex panel' = Some (RingVortex.update_strength g r) /\
         Panel.horseshoe_vortex panel'
           = HorseshoeVortex.update_strength g
               <$> Panel.horseshoe_vortex panel).
Proof.
  split.
  - intros s s' H. unfold Unsteady.calculate_vortex_strengths in H.
    apply bind_Ok_inv in H as (wake & Hwake & H).
    apply bind_Ok_inv in H as (fs & Hfs & H).
    apply bind_Ok_inv in H as (rhs & Hrhs & H).
    apply bind_Ok_inv in H as (aic & Haic & H).
    apply bind_Ok_inv in H as (strengths & Hsolve & H).
    apply bind_Ok_inv in H as (step & Hstep & H).
    apply bind_Ok_inv in H as (airplane & Hairplane & H).
    apply bind_Ok_inv in H as (wings & Hwings & H).
    injection H as <-.
    apply of_option_Ok in Hwake, Hfs, Haic, Hstep.
    apply get_item_Ok in Hairplane. simpl in Hstep, Hairplane.
    apply linalg_solve_sound in Hsolve as (Hlen & _ & Hsat).
    exists aic, wake, fs, rhs, strengths, step, airplane,
      (Airplane.set_wings wings airplane).
    repeat (split; [eassumption || reflexivity || idtac|]).
    + intros Hl i w f Hw Hf.
      assert (neg_list wake !! i = Some (- w)%Q) as Hn.
      { unfold neg_list. by rewrite list_lookup_fmap, Hw. }
      eapply np_sub_lookup; [exact Hrhs| |exact Hn|exact Hf].
      unfold neg_list. by rewrite length_map.
    + simpl. by apply alter_lookup_Some.
    + intros wi wing c sp panel Hwing Hwf Hpanel.
      apply mapM_lookup in Hwings as [_ Hwings].
      destruct (Hwings _ _ Hwing) as (wing' & Hupd & Hwing').
      destruct (update_wing_strengths_Ok _ _ _ c sp panel Hupd Hwf Hpanel)
        as (panel' & r & g & Hp).
      by exists wing', panel', r, g.
  - intros s s' H. unfold SteadyRing.calculate_vortex_strengths in H.
    apply bind_Ok_inv in H as (strengths & Hsolve & H).
    apply bind_Ok_inv in H as (wings & Hwings & H).
    injection H as <-. simpl.
    apply linalg_solve_sound in Hsolve as (Hlen & _ & Hsat).
    split; [exact Hlen|]. split; [exact Hsat|].
    intros wi wing c sp panel Hwing Hwf Hpanel.
    apply mapM_lookup in Hwings as [_ Hwings]. simpl in Hwings.
    destruct (Hwings _ _ Hwing) as (wing' & Hupd & Hwing').
    destruct (update_wing_strengths_Ok _ _ _ c sp panel Hupd Hwf Hpanel)
      as (panel' & r & g & Hp).
    by exists wing', panel', r, g.
Qed.

End VortexStrengths.

(** ** What [calculate_vortex_strengths] raises *)

Section SolveErrors.
Context {aero : Aerodynamics}.

Lemma bind_Raise_inv {A B : Type} (k : A -> result B) (m : result A)
    (e : exn) :
  mbind k m = Raise e ->
  m = Raise e \/ exists a, m = Ok a /\ k a = Raise e.
Proof.
  destruct m as [a|e']; simpl; intros H.
  - right. by exists a.
  - left. injection H as ->. reflexivity.
Qed.

Lemma of_option_Raise {A : Type} (e e' : exn) (o : option A) :
  of_option e o = Raise e' -> e' = e.
Proof. destruct o; simpl; congruence. Qed.

Lemma mapM_Raise {A B : Type} (P : exn -> Prop) (f : A -> result B) :
  (forall x e, f x = Raise e -> P e) ->
  forall l e, mapM f l = Raise e -> P e.
Proof.
  intros Hf. induction l as [|x l IH]; intros e H; simpl in H.
  - discriminate.
  - apply bind_Raise_inv in H as [H|(y & _ & H)]; [by eapply Hf|].
    apply bind_Raise_inv in H as [H|(ys & _ & H)]; [by eapply IH|].
    discriminate.
Qed.

Lemma imapM_from_Raise {A B : Type} (P : exn -> Prop)
    (f : nat -> A -> result B) :
  (forall i x e, f i x = Raise e -> P e) ->
  forall l i e, imapM_from i f l = Raise e -> P e.
Proof.
  intros Hf. induction l as [|x l IH]; intros i e H; simpl in H.
  - discriminate.
  - apply bind_Raise_inv in H as [H|(y & _ & H)]; [by eapply Hf|].
    apply bind_Raise_inv in H as [H|(ys & _ & H)]; [by eapply IH|].
    discriminate.
Qed.

Lemma np_sub_Raise (u v : list Q) (e : exn) :
  np_sub u v = Raise e -> e = ValueError.
Proof.
  unfold np_sub. destruct (decide (length u = length v)); [discriminate|].
  destruct u as [|a [|a' u]], v as [|b [|b' v]]; simpl; congruence.
Qed.

Lemma update_panel_strength_Raise (strengths : list Q) (i : nat)
    (panel : Panel.t) (e : exn) :
  update_panel_strength strengths i panel = Raise e ->
  e = AttributeError \/ e = IndexError.
Proof.
  unfold update_panel_strength. intros H.
  apply bind_Raise_inv in H as [H|(r & _ & H)];
    [left; by eapply of_option_Raise|].
  apply bind_Raise_inv in H as [H|(g & _ & H)];
    [right; by eapply of_option_Raise|].
  simpl in H. destruct (Panel.horseshoe_vortex panel); [|discriminate].
  apply bind_Raise_inv in H as [H|(g' & _ & H)];
    [right; by eapply of_option_Raise | discriminate].
Qed.

Lemma update_wing_strengths_Raise (strengths : list Q) (wing : Wing.t)
    (e : exn) :
  update_wing_strengths strengths wing = Raise e ->
  e = AttributeError \/ e = IndexError.
Proof.
  unfold update_wing_strengths. intros H.
  apply bind_Raise_inv in H as [H|(ps & _ & H)]; [|discriminate].
  eapply (imapM_from_Raise (fun e => e = AttributeError \/ e = IndexError));
    [|exact H].
  intros i x e'. apply update_panel_strength_Raise.
Qed.

Lemma horseshoe_update_wing_strengths_Raise (strengths : list Q)
    (wing : Wing.t) (e : exn) :
  SteadyHorseshoe.update_wing_strengths strengths wing = Raise e ->
  e = AttributeError \/ e = IndexError.
Proof.
  unfold SteadyHorseshoe.update_wing_strengths. intros H.
  apply bind_Raise_inv in H as [H|(ps & _ & H)]; [|discriminate].
  eapply (imapM_from_Raise (fun e => e = AttributeError \/ e = IndexError));
    [|exact H].
  intros i x e' Hx. unfold SteadyHorseshoe.update_panel_strength in Hx.
  apply bind_Raise_inv in Hx as [Hx|(h & _ & Hx)];
    [left; by eapply of_option_Raise|].
  apply bind_Raise_inv in Hx as [Hx|(g & _ & Hx)];
    [right; by eapply of_option_Raise | discriminate].
Qed.

(** What leaves [calculate_vortex_strengths] when the linear solve
    raises, and what never does *)
Lemma solve_exception_propagates :
  (forall (s : Unsteady.solver) aic wake fs rhs e,
     Unsteady.current_wing_wing_influences s = Some aic ->
     Unsteady.current_wake_wing_influences s = Some wake ->
     Unsteady.current_freestream_wing_influences s = Some fs ->
     np_sub (neg_list wake) fs = Ok rhs ->
     linalg_solve aic rhs = Raise e ->
     Unsteady.calculate_vortex_strengths s = Raise e /\
     (is_square aic = true -> length rhs = length aic -> e = LinAlgError)) /\
  (forall (s : Steady.solver) e,
     linalg_solve (Steady.aerodynamic_influence_coefficients s)
       (neg_list (Steady.freestream_influences s)) = Raise e ->
     SteadyHorseshoe.calculate_vortex_strengths s = Raise e /\
     (is_square (Steady.aerodynamic_influence_coefficients s) = true ->
      length (Steady.freestream_influences s)
        = length (Steady.aerodynamic_influence_coefficients s) ->
      e = LinAlgError)) /\
  (forall s : Unsteady.solver,
     Unsteady.calculate_vortex_strengths s <> Raise GeometryDegenerateError) /\
  (forall s : Steady.solver,
     SteadyHorseshoe.calculate_vortex_strengths s
       <> Raise GeometryDegenerateError).
Proof.
  assert (forall a b e, linalg_solve a b = Raise e -> is_square a = true ->
            length b = length a -> e = LinAlgError) as Hsq.
  { intros a b e H Hs Hl. unfold linalg_solve in H. rewrite Hs in H.
    simpl in H. apply Nat.eqb_eq in Hl. rewrite Hl in H. simpl in H.
    by eapply solve_equations_raises. }
  split; [|split; [|split]].
  - intros s aic wake fs rhs e Haic Hwake Hfs Hrhs Hsolve. split.
    + unfold Unsteady.calculate_vortex_strengths.
      rewrite Hwake, Hfs. simpl. rewrite Hrhs. simpl. rewrite Haic. simpl.
      by rewrite Hsolve.
    + intros Hs Hl. by eapply Hsq.
  - intros s e Hsolve. split.
    + unfold SteadyHorseshoe.calculate_vortex_strengths. by rewrite Hsolve.
    + intros Hs Hl. eapply Hsq; [exact Hsolve|exact Hs|].
      unfold neg_list. by rewrite length_map.
  - intros s H. unfold Unsteady.calculate_vortex_strengths in H.
    apply bind_Raise_inv in H as [H|(wake & _ & H)];
      [by apply of_option_Raise in H|].
    apply bind_Raise_inv in H as [H|(fs & _ & H)];
      [by apply of_option_Raise in H|].
    apply bind_Raise_inv in H as [H|(rhs & _ & H)];
      [by apply np_sub_Raise in H|].
    apply bind_Raise_inv in H as [H|(aic & _ & H)];
      [by apply of_option_Raise in H|].
    apply bind_Raise_inv in H as [H|(strengths & _ & H)];
      [by apply linalg_solve_raises in H as [H|H]|].
    apply bind_Raise_inv in H as [H|(step & _ & H)];
      [by apply of_option_Raise in H|].
    apply bind_Raise_inv in H as [H|(airplane & _ & H)];
      [by apply of_option_Raise in H|].
    apply bind_Raise_inv in H as [H|(wings & _ & H)]; [|discriminate].
    eapply (mapM_Raise (fun e => e = AttributeError \/ e = IndexError)) in H
      as [H|H]; [discriminate|discriminate|].
    intros x e. apply update_wing_strengths_Raise.
  - intros s H. unfold SteadyHorseshoe.calculate_vortex_strengths in H.
    apply bind_Raise_inv in H as [H|(strengths & _ & H)];
      [by apply linalg_solve_raises in H as [H|H]|].
    apply bind_Raise_inv in H as [H|(wings & _ & H)]; [|discriminate].
    eapply (mapM_Raise (fun e => e = AttributeError \/ e = IndexError)) in H
      as [H|H]; [discriminate|discriminate|].
    intros x e. apply horseshoe_update_wing_strengths_Raise.
Qed.

End SolveErrors.

(** ** The influence vectors and the influence matrix *)

Section Influences.
Context {aero : Aerodynamics}.

Lemma row_major_unique (n c c' sp sp' : nat) :
  sp < n -> sp' < n -> c * n + sp = c' * n + sp' -> c = c' /\ sp = sp'.
Proof.
  intros H1 H2 H.
  assert (c = c') as ->.
  { destruct (lt_eq_lt_dec c c') as [[Hlt|Heq]|Hgt]; [|exact Heq|].
    - assert (S c * n <= c' * n) by (apply Nat.mul_le_mono_r; lia). lia.
    - assert (S c' * n <= c * n) by (apply Nat.mul_le_mono_r; lia). lia. }
  split; [reflexivity|lia].
Qed.

(** The loops over the panels of one wing write the value of the panel at
    [(c, sp)] at [c * num_spanwise_panels + sp] and leave the entries from
    the number of panels of the wing on as they were. *)
Lemma fill_influences_of_wing_Ok (value : nat -> nat -> Panel.t -> result Q)
    (wing : Wing.t) (v v' : list Q) :
  Unsteady.fill_influences_of_wing value wing v = Ok v' ->
  length v' = length v /\
  (forall c sp,
     c < Wing.num_chordwise_panels wing ->
     sp < Wing.num_spanwise_panels wing ->
     exists panel x,
       get2 (Wing.panels wing) c sp = Ok panel /\
       value c sp panel = Ok x /\
       v' !! (c * Wing.num_spanwise_panels wing + sp) = Some x) /\
  (forall i, panel_count wing <= i -> v' !! i = v !! i).
Proof.
  unfold Unsteady.fill_influences_of_wing, panel_count.
  set (nc := Wing.num_chordwise_panels wing).
  set (ns := Wing.num_spanwise_panels wing).
  set (written (m : nat) (u : list Q) :=
         length u = length v /\
         (forall c sp, sp < ns -> c * ns + sp < m ->
            exists panel x,
              get2 (Wing.panels wing) c sp = Ok panel /\
              value c sp panel = Ok x /\ u !! (c * ns + sp) = Some x) /\
         (forall i, m <= i -> u !! i = v !! i)).
  intros H.
  assert (written (nc * ns) v') as (Hlen & Hw & Hrest).
  { eapply (for_each_range_inv (fun c u => written (c * ns) u));
      [| |exact H].
    - intros c u u' Hc Hu Hrow.
      replace (S c * ns) with (c * ns + ns) by lia.
      eapply (for_each_range_inv (fun sp u => written (c * ns + sp) u));
        [| |exact Hrow].
      + intros sp w w' Hsp (Hl & Hwr & Hre) Hbody.
        apply bind_Ok_inv in Hbody as (panel & Hpanel & Hbody).
        apply bind_Ok_inv in Hbody as (x & Hx & Hbody).
        apply set_item_Ok in Hbody as [Hidx ->].
        split; [by rewrite length_insert|]. split.
        * intros c' sp' Hsp' Hlt.
          destruct (decide (c' * ns + sp' = c * ns + sp)) as [He|Hne].
          -- apply row_major_unique in He as [-> ->]; [|lia|lia].
             exists panel, x. split; [exact Hpanel|]. split; [exact Hx|].
             by apply list_lookup_insert_eq.
          -- destruct (Hwr c' sp' Hsp') as (p' & x' & Hp' & Hx' & Hlk);
               [lia|].
             exists p', x'. split; [exact Hp'|]. split; [exact Hx'|].
             rewrite list_lookup_insert_ne by lia. exact Hlk.
        * intros i Hi. rewrite list_lookup_insert_ne by lia.
          apply Hre. lia.
      + replace (c * ns + 0) with (c * ns) by lia. exact Hu.
    - split; [reflexivity|]. split; [|reflexivity].
      intros c sp _ Hlt. simpl in Hlt. lia. }
  split; [exact Hlen|]. split; [|exact Hrest].
  intros c sp Hc Hsp. apply Hw; [exact Hsp|]. nia.
Qed.

(** The loop over the wings: an entry holds the value of the last wing
    that has a panel at that index, and an entry at which no wing has a
    panel is left as it was. *)
Lemma fill_influences_of_wings_Ok
    (value : nat -> nat -> nat -> Panel.t -> result Q) :
  forall (wings : list Wing.t) (k : nat) (v v' : list Q),
    for_each (zip (seq k (length wings)) wings)
      (fun '(wi, wing) => Unsteady.fill_influences_of_wing (value wi) wing) v
      = Ok v' ->
    length v' = length v /\
    (forall pre wing post c sp,
       wings = pre ++ wing :: post ->
       c < Wing.num_chordwise_panels wing ->
       sp < Wing.num_spanwise_panels wing ->
       (forall w, w ∈ post ->
          panel_count w <= c * Wing.num_spanwise_panels wing + sp) ->
       exists panel x,
         get2 (Wing.panels wing) c sp = Ok panel /\
         value (k + length pre) c sp panel = Ok x /\
         v' !! (c * Wing.num_spanwise_panels wing + sp) = Some x) /\
    (forall i, (forall w, w ∈ wings -> panel_count w <= i) ->
       v' !! i = v !! i).
Proof.
  induction wings as [|w ws IH]; intros k v v' H; simpl in H.
  - injection H as <-. split; [reflexivity|]. split; [|reflexivity].
    intros [|? ?] ? ? ? ? Heq; discriminate.
  - apply bind_Ok_inv in H as (v1 & Hfill & H).
    apply fill_influences_of_wing_Ok in Hfill as (Hlen1 & Hw1 & Hrest1).
    destruct (IH (S k) v1 v' H) as (Hlen & Hw & Hrest).
    split; [congruence|]. split.
    + intros pre wing post c sp Heq Hc Hsp Hpost.
      destruct pre as [|w0 pre]; simpl in Heq; injection Heq as <- ->.
      * destruct (Hw1 c sp Hc Hsp) as (panel & x & Hp & Hx & Hlk).
        exists panel, x. split; [exact Hp|].
        split; [by rewrite Nat.add_0_r|].
        rewrite Hrest; [exact Hlk|exact Hpost].
      * destruct (Hw pre wing post c sp eq_refl Hc Hsp Hpost)
          as (panel & x & Hp & Hx & Hlk).
        exists panel, x. split; [exact Hp|]. split; [|exact Hlk].
        simpl. by replace (k + S (length pre)) with (S k + length pre) by lia.
    + intros i Hi. rewrite Hrest.
      * apply Hrest1, Hi. by left.
      * intros w' Hw'. apply Hi. by right.
Qed.

Lemma for_each_zip_seq {X S : Type} (body : X -> S -> result S) :
  forall (xs : list X) (k : nat) (st : S),
    for_each xs body st
    = for_each (zip (seq k (length xs)) xs) (fun '(_, x) => body x) st.
Proof.
  induction xs as [|x xs IH]; intros k st; simpl; [reflexivity|].
  destruct (body x st); simpl; [apply IH | reflexivity].
Qed.

Lemma set_matrix_Ok (m m' : list (list Q)) (i j : nat) (x : Q) :
  set_matrix m i j x = Ok m' ->
  exists row,
    m !! i = Some row /\ j < length row /\ m' = <[i := <[j := x]> row]> m.
Proof.
  unfold set_matrix. intros H.
  apply bind_Ok_inv in H as (row & Hrow & H).
  apply bind_Ok_inv in H as (row' & Hrow' & H). injection H as <-.
  apply get_item_Ok in Hrow. apply set_item_Ok in Hrow' as [Hj ->].
  by exists row.
Qed.

(** With one wing, the entry at [(i, j)] of the influence matrix is the
    influence of the panel at raveled index [j] on the panel at raveled
    index [i]. *)
Lemma wing_wing_influences_of_one_wing (s s' : Unsteady.solver)
    (airplane : Airplane.t) (wing : Wing.t) :
  Unsteady.current_airplane s = Ok airplane ->
  Airplane.wings airplane = [wing] ->
  Unsteady.calculate_wing_wing_influences s = Ok s' ->
  exists m,
    Unsteady.current_wing_wing_influences s' = Some m /\
    forall i j pi pj,
      ravel (Wing.panels wing) !! i = Some pi ->
      ravel (Wing.panels wing) !! j = Some pj ->
      exists row,
        m !! i = Some row /\
        row !! j = Some (Unsteady.wing_wing_influence pi pj).
Proof.
  intros Hairplane Hwings H.
  unfold Unsteady.calculate_wing_wing_influences in H.
  rewrite Hairplane in H. simpl in H. rewrite Hwings in H.
  apply bind_Ok_inv in H as (m & Hm & H). injection H as <-.
  exists m. split; [reflexivity|].
  simpl in Hm. apply bind_Ok_inv in Hm as (m1 & Hm1 & Hm).
  injection Hm as <-.
  set (panels := ravel (Wing.panels wing)) in *.
  set (done (i : nat) (m : list (list Q)) :=
         forall i' j pi pj,
           i' < i -> panels !! i' = Some pi -> panels !! j = Some pj ->
           exists row, m !! i' = Some row /\
             row !! j = Some (Unsteady.wing_wing_influence pi pj)).
  assert (done (length panels) m1) as Hdone.
  { eapply (for_each_enumerate_inv done); [| |exact Hm1].
    - intros i pi m2 m3 Hpi Hd Hrow. simpl in Hrow.
      apply bind_Ok_inv in Hrow as (m4 & Hrow & Hm4). injection Hm4 as <-.
      set (filled (j : nat) (m : list (list Q)) :=
             done i m /\
             forall j' pj, j' < j -> panels !! j' = Some pj ->
               exists row, m !! i = Some row /\
                 row !! j' = Some (Unsteady.wing_wing_influence pi pj)).
      assert (filled (length panels) m4) as [Hd4 Hf4].
      { eapply (for_each_enumerate_inv filled); [| |exact Hrow].
        - intros j pj m5 m6 Hpj [Hd5 Hf5] Hset.
          apply set_matrix_Ok in Hset as (row & Hrow5 & Hj & ->).
          split.
          + intros i' j' pi' pj' Hi' Hpi' Hpj'.
            destruct (Hd5 i' j' pi' pj' Hi' Hpi' Hpj') as (r & Hr & Hx).
            exists r. split; [|exact Hx].
            rewrite list_lookup_insert_ne by lia. exact Hr.
          + intros j' pj' Hj' Hpj'.
            exists (<[j := Unsteady.wing_wing_influence pi pj]> row).
            split.
            * apply list_lookup_insert_eq. by eapply lookup_lt_Some.
            * destruct (decide (j' = j)) as [->|Hne].
              -- rewrite Hpj in Hpj'. injection Hpj' as <-.
                 by apply list_lookup_insert_eq.
              -- rewrite list_lookup_insert_ne by lia.
                 destruct (Hf5 j' pj') as (r & Hr & Hx); [lia|exact Hpj'|].
                 rewrite Hrow5 in Hr. injection Hr as <-. exact Hx.
        - split; [exact Hd|]. intros j' pj Hj'. lia. }
      intros i' j pi' pj Hi' Hpi' Hpj.
      destruct (decide (i' = i)) as [->|Hne].
      + rewrite Hpi in Hpi'. injection Hpi' as <-.
        apply (Hf4 j pj); [|exact Hpj]. by eapply lookup_lt_Some.
      + apply Hd4; [lia|exact Hpi'|exact Hpj].
    - intros i' j pi pj Hi'. lia. }
  intros i j pi pj Hpi Hpj.
  eapply Hdone; [|exact Hpi|exact Hpj]. by eapply lookup_lt_Some.
Qed.

(** C10.  In the unsteady solver the freestream and the wake influence
    of the panel at [(c, sp)] of a wing are stored at
    [c * num_spanwise_panels + sp], whatever the position of the wing:
    an entry of either vector holds the value of the last wing that has a
    panel at that index, so that later wings overwrite earlier ones, and
    the entries at which no wing has a panel stay zero.  That index is
    the raveled index of the panel within its wing, and with one wing it
    is the index of the row and of the column of the panel in the
    influence matrix. *)
Theorem influence_vectors_indexed_within_wing (s : Unsteady.solver)
    (airplane : Airplane.t) (step : nat) (freestream : Vec3) :
  Unsteady.current_step s = Some step ->
  Unsteady.airplanes s !! step = Some airplane ->
  Unsteady.current_freestream_velocity s = Some freestream ->
  (forall s',
     Unsteady.calculate_freestream_wing_influences s = Ok s' ->
     exists v,
       Unsteady.current_freestream_wing_influences s' = Some v /\
       length v = Airplane.num_panels airplane /\
       (forall pre wing post c sp,
          Airplane.wings airplane = pre ++ wing :: post ->
          c < Wing.num_chordwise_panels wing ->
          sp < Wing.num_spanwise_panels wing ->
          (forall w, w ∈ post ->
             panel_count w <= c * Wing.num_spanwise_panels wing + sp) ->
          exists panel,
            get2 (Wing.panels wing) c sp = Ok panel /\
            v !! (c * Wing.num_spanwise_panels wing + sp)
              = Some (Unsteady.freestream_wing_influence step freestream
                        (length pre) c sp panel)) /\
       (forall i, i < Airplane.num_panels airplane ->
          (forall w, w ∈ Airplane.wings airplane -> panel_count w <= i) ->
          v !! i = Some 0%Q)) /\
  (forall s',
     Unsteady.calculate_wake_wing_influences s = Ok s' ->
     exists v,
       Unsteady.current_wake_wing_influences s' = Some v /\
       length v = Airplane.num_panels airplane /\
       (forall pre wing post c sp,
          Airplane.wings airplane = pre ++ wing :: post ->
          c < Wing.num_chordwise_panels wing ->
          sp < Wing.num_spanwise_panels wing ->
          (forall w, w ∈ post ->
             panel_count w <= c * Wing.num_spanwise_panels wing + sp) ->
          exists panel,
            get2 (Wing.panels wing) c sp = Ok panel /\
            v !! (c * Wing.num_spanwise_panels wing + sp)
              = Some (Unsteady.wake_wing_influence airplane panel)) /\
       (forall i, i < Airplane.num_panels airplane ->
          (forall w, w ∈ Airplane.wings airplane -> panel_count w <= i) ->
          v !! i = Some 0%Q)) /\
  (forall wing c sp panel,
     wing ∈ Airplane.wings airplane ->
     wf_ndarray (Wing.panels wing) ->
     shape1 (Wing.panels wing) = Wing.num_spanwise_panels wing ->
     get2 (Wing.panels wing) c sp = Ok panel ->
     ravel (Wing.panels wing) !! (c * Wing.num_spanwise_panels wing + sp)
       = Some panel) /\
  (forall wing s',
     Airplane.wings airplane = [wing] ->
     Unsteady.calculate_wing_wing_influences s = Ok s' ->
     exists m,
       Unsteady.current_wing_wing_influences s' = Some m /\
       forall i j pi pj,
         ravel (Wing.panels wing) !! i = Some pi ->
         ravel (Wing.panels wing) !! j = Some pj ->
         exists row,
           m !! i = Some row /\
           row !! j = Some (Unsteady.wing_wing_influence pi pj)).
Proof.
  intros Hstep Hairplane Hfs.
  assert (Unsteady.current_airplane s = Ok airplane) as Hcur.
  { unfold Unsteady.current_airplane, Unsteady.the_step, attr.
    rewrite Hstep. simpl. unfold Unsteady.airplane_at, get_item.
    by rewrite Hairplane. }
  assert (forall i, i < Airplane.num_panels airplane ->
            np_zeros (Airplane.num_panels airplane) !! i = Some 0%Q)
    as Hzero.
  { intros i Hi. unfold np_zeros. by apply lookup_replicate. }
  assert (length (np_zeros (Airplane.num_panels airplane))
          = Airplane.num_panels airplane) as Hlen0.
  { unfold np_zeros. by rewrite length_replicate. }
  split; [|split; [|split]].
  - intros s' H. unfold Unsteady.calculate_freestream_wing_influences in H.
    rewrite Hcur in H. simpl in H.
    unfold Unsteady.the_step, attr in H. rewrite Hstep in H. simpl in H.
    apply bind_Ok_inv in H as (v & Hv & H). injection H as <-.
    unfold Unsteady.freestream_wing_influences_of, enumerate in Hv.
    rewrite Hfs in Hv.
    apply (fill_influences_of_wings_Ok
             (fun wi c sp panel =>
                fs ← of_option TypeError (Some freestream);
                Ok (Unsteady.freestream_wing_influence step fs wi c sp
                      panel))) in Hv as (Hlen & Hw & Hrest).
    exists v. split; [reflexivity|].
    split; [by rewrite Hlen|]. split.
    + intros pre wing post c sp Heq Hc Hsp Hpost.
      destruct (Hw pre wing post c sp Heq Hc Hsp Hpost)
        as (panel & x & Hp & Hx & Hlk).
      simpl in Hx. injection Hx as <-. by exists panel.
    + intros i Hi Hall. rewrite (Hrest i Hall). by apply Hzero.
  - intros s' H. unfold Unsteady.calculate_wake_wing_influences in H.
    rewrite Hcur in H. simpl in H.
    apply bind_Ok_inv in H as (v & Hv & H). injection H as <-.
    unfold Unsteady.wake_wing_influences_of in Hv.
    rewrite (for_each_zip_seq _ _ 0) in Hv.
    apply (fill_influences_of_wings_Ok
             (fun wi c sp panel =>
                Ok (Unsteady.wake_wing_influence airplane panel)))
      in Hv as (Hlen & Hw & Hrest).
    exists v. split; [reflexivity|].
    split; [by rewrite Hlen|]. split.
    + intros pre wing post c sp Heq Hc Hsp Hpost.
      destruct (Hw pre wing post c sp Heq Hc Hsp Hpost)
        as (panel & x & Hp & Hx & Hlk).
      injection Hx as <-. by exists panel.
    + intros i Hi Hall. rewrite (Hrest i Hall). by apply Hzero.
  - intros wing c sp panel _ Hwf Hshape Hpanel.
    apply get2_Ok in Hpanel as (row & Hrow & Hp).
    rewrite <- Hshape. unfold ravel.
    by eapply (ravel_lookup (shape1 (Wing.panels wing))).
  - intros wing s' Hwings H.
    by eapply wing_wing_influences_of_one_wing.
Qed.

End Influences.

(** ** The solve on a matrix with a zero column *)

Section ZeroColumn.
Context {aero : Aerodynamics}.

Lemma nonzero_of_zero (x : Q) : x == 0 -> nonzero x = false.
Proof.
  intros Hx. unfold nonzero. apply Qeq_bool_iff in Hx. by rewrite Hx.
Qed.

(** No equation with a zero leading coefficient is a pivot. *)
Lemma find_pivot_zero_leading (eqs : list equation) :
  Forall (fun e => leading e == 0) eqs -> find_pivot eqs = None.
Proof.
  induction 1 as [|e eqs He _ IH]; simpl; [reflexivity|].
  by rewrite (nonzero_of_zero _ He), IH.
Qed.

Lemma find_pivot_elem_of (eqs : list equation) (p : equation)
    (rest : list equation) :
  find_pivot eqs = Some (p, rest) ->
  p ∈ eqs /\ forall e, e ∈ rest -> e ∈ eqs.
Proof.
  revert p rest. induction eqs as [|e eqs IH]; intros p rest H; simpl in H.
  - discriminate.
  - destruct (nonzero (leading e)).
    + injection H as <- <-. split; [by left|]. intros e' He'. by right.
    + destruct (find_pivot eqs) as [[p' rest']|]; [|discriminate].
      injection H as <- <-. destruct (IH p' rest' eq_refl) as [Hp Hrest].
      split; [by right|]. intros e' He'.
      apply elem_of_cons in He' as [->|He']; [by left|].
      right. by apply Hrest.
Qed.

(** The elimination keeps a zero column zero. *)
Lemma eliminate_zero_column (j : nat) (p e : equation) (x y : Q) :
  fst p !! S j = Some x -> x == 0 ->
  fst e !! S j = Some y -> y == 0 ->
  exists z, fst (eliminate p e) !! j = Some z /\ z == 0.
Proof.
  intros Hx Hx0 Hy Hy0. unfold eliminate. cbn [fst].
  destruct (fst p) as [|p0 ps] eqn:Ep; [discriminate|].
  destruct (fst e) as [|e0 es] eqn:Ee; [discriminate|].
  simpl in Hx, Hy. cbn [tl].
  exists (y - leading e / leading p * x)%Q.
  split.
  - apply lookup_zip_with_Some. by exists y, x.
  - rewrite Hx0, Hy0. ring.
Qed.

Lemma solve_equations_zero_column (n : nat) :
  forall (j : nat) (eqs : list equation),
    j < n ->
    Forall (fun e => exists x, fst e !! j = Some x /\ x == 0) eqs ->
    solve_equations n eqs = Raise LinAlgError.
Proof.
  induction n as [|n IH]; intros j eqs Hj Hcol; [lia|].
  simpl. destruct (find_pivot eqs) as [[p rest]|] eqn:Hfp; [|reflexivity].
  destruct j as [|j].
  - rewrite find_pivot_zero_leading in Hfp; [discriminate|].
    eapply List.Forall_impl; [|exact Hcol]. intros e (x & Hx & Hx0).
    unfold leading. destruct (fst e) as [|a r]; [discriminate|].
    simpl in *. by injection Hx as ->.
  - destruct (find_pivot_elem_of _ _ _ Hfp) as [Hp Hrest].
    rewrite list.Forall_forall in Hcol.
    destruct (Hcol p Hp) as (x & Hx & Hx0).
    rewrite (IH j); [reflexivity|lia|].
    apply list.Forall_forall. intros e' He'.
    apply list_elem_of_fmap in He' as (e & -> & He).
    destruct (Hcol e (Hrest e He)) as (y & Hy & Hy0).
    by eapply eliminate_zero_column.
Qed.

(** A matrix with a zero column is singular: it sends the unit vector of
    that column to zero. *)
Lemma dotl_unit_vector (row : list Q) :
  forall (j n : nat) (x : Q),
    row !! j = Some x -> j < n ->
    dotl row (<[j := 1%Q]> (replicate n 0%Q)) == x.
Proof.
  induction row as [|a row IH]; intros j n x Hx Hj; [discriminate|].
  destruct n as [|n]; [lia|]. destruct j as [|j]; simpl in *.
  - injection Hx as ->.
    assert (forall r : list Q, dotl r (replicate n 0%Q) == 0) as Hz.
    { clear. revert n. intros n r. revert n.
      induction r as [|b r IHr]; intros [|n]; simpl; try reflexivity.
      rewrite IHr. ring. }
    rewrite Hz. ring.
  - rewrite (IH j n x Hx) by lia. ring.
Qed.

Lemma zero_column_singular (j : nat) (a : list (list Q)) :
  zero_column j a ->
  Forall (fun row =>
            dotl row (<[j := 1%Q]> (replicate (length a) 0%Q)) == 0) a.
Proof.
  intros [Hj Hcol]. eapply List.Forall_impl; [|exact Hcol].
  intros row (x & Hx & Hx0). simpl.
  by rewrite (dotl_unit_vector row j (length a) x Hx Hj).
Qed.

(** [np.linalg.solve] on a matrix with a zero column *)
Lemma linalg_solve_zero_column (j : nat) (a : list (list Q)) (b : list Q) :
  length b = length a -> zero_column j a ->
  linalg_solve a b = Raise LinAlgError.
Proof.
  intros Hlen [Hj Hcol]. unfold linalg_solve.
  destruct (is_square a); [|reflexivity]. simpl.
  rewrite Hlen, Nat.eqb_refl. simpl.
  apply (solve_equations_zero_column _ j); [exact Hj|].
  apply list.Forall_forall. intros [row bi] He.
  apply elem_of_zip_l in He. rewrite list.Forall_forall in Hcol.
  by apply Hcol.
Qed.

Lemma unsteady_solve_zero_column (s : Unsteady.solver)
    (aic : list (list Q)) (wake fs : list Q) (j : nat) :
  Unsteady.current_wing_wing_influences s = Some aic ->
  Unsteady.current_wake_wing_influences s = Some wake ->
  Unsteady.current_freestream_wing_influences s = Some fs ->
  length wake = length aic -> length fs = length aic ->
  zero_column j aic ->
  Unsteady.calculate_vortex_strengths s = Raise LinAlgError.
Proof.
  intros Haic Hwake Hfs Hlw Hlf Hcol.
  unfold Unsteady.calculate_vortex_strengths.
  rewrite Hwake, Hfs. simpl. unfold np_sub, neg_list.
  rewrite length_map.
  destruct (decide (length wake = length fs)) as [_|Hne]; [|congruence].
  simpl. rewrite Haic. simpl.
  rewrite (linalg_solve_zero_column j); [reflexivity| |exact Hcol].
  rewrite length_zip_with, length_map. lia.
Qed.

(** The sizes of what the three influence phases leave *)
Lemma wing_wing_influences_size (s s1 : Unsteady.solver) :
  Unsteady.calculate_wing_wing_influences s = Ok s1 ->
  exists airplane m,
    Unsteady.current_airplane s = Ok airplane /\
    s1 = Unsteady.set_wing_wing_influences m s /\
    length m = Airplane.num_panels airplane.
Proof.
  intros H. unfold Unsteady.calculate_wing_wing_influences in H.
  apply bind_Ok_inv in H as (airplane & Ha & H). cbv zeta in H.
  apply bind_Ok_inv in H as (m & Hm & H). injection H as <-.
  exists airplane, m. split; [exact Ha|]. split; [reflexivity|].
  set (n := Airplane.num_panels airplane) in *.
  refine (for_each_inv (fun m => length m = n) _ _ _ _ _ _ Hm);
    [|by rewrite length_replicate].
  intros cw m1 m2 _ H1 Hb.
  refine (for_each_inv (fun m => length m = n) _ _ _ _ _ H1 Hb).
  intros [i cp] m3 m4 _ H3 Hb3.
  refine (for_each_inv (fun m => length m = n) _ _ _ _ _ H3 Hb3).
  intros vw m5 m6 _ H5 Hb5.
  refine (for_each_inv (fun m => length m = n) _ _ _ _ _ H5 Hb5).
  intros [j vp] m7 m8 _ H7 Hset.
  apply set_matrix_Ok in Hset as (row & _ & _ & ->).
  by rewrite length_insert.
Qed.

Lemma freestream_wing_influences_size (s s2 : Unsteady.solver) :
  Unsteady.calculate_freestream_wing_influences s = Ok s2 ->
  exists airplane v,
    Unsteady.current_airplane s = Ok airplane /\
    s2 = Unsteady.set_freestream_wing_influences v s /\
    length v = Airplane.num_panels airplane.
Proof.
  intros H. unfold Unsteady.calculate_freestream_wing_influences in H.
  apply bind_Ok_inv in H as (airplane & Ha & H).
  apply bind_Ok_inv in H as (step & _ & H).
  apply bind_Ok_inv in H as (v & Hv & H). injection H as <-.
  exists airplane, v. split; [exact Ha|]. split; [reflexivity|].
  unfold Unsteady.freestream_wing_influences_of in Hv.
  refine (for_each_inv
            (fun v => length v = Airplane.num_panels airplane)
            _ _ _ _ _ _ Hv);
    [|unfold np_zeros; by rewrite length_replicate].
  intros [wi wing] v1 v2 _ H1 Hb.
  apply fill_influences_of_wing_Ok in Hb as (Hl & _). congruence.
Qed.

Lemma wake_wing_influences_size (s s3 : Unsteady.solver) :
  Unsteady.calculate_wake_wing_influences s = Ok s3 ->
  exists airplane v,
    Unsteady.current_airplane s = Ok airplane /\
    s3 = Unsteady.set_wake_wing_influences v s /\
    length v = Airplane.num_panels airplane.
Proof.
  intros H. unfold Unsteady.calculate_wake_wing_influences in H.
  apply bind_Ok_inv in H as (airplane & Ha & H).
  apply bind_Ok_inv in H as (v & Hv & H). injection H as <-.
  exists airplane, v. split; [exact Ha|]. split; [reflexivity|].
  unfold Unsteady.wake_wing_influences_of in Hv.
  refine (for_each_inv
            (fun v => length v = Airplane.num_panels airplane)
            _ _ _ _ _ _ Hv);
    [|unfold np_zeros; by rewrite length_replicate].
  intros wing v1 v2 _ H1 Hb.
  apply fill_influences_of_wing_Ok in Hb as (Hl & _). congruence.
Qed.

(** The solve after the three influence phases, on a matrix with a zero
    column *)
Lemma assembled_solve_zero_column (s s1 s2 s3 : Unsteady.solver)
    (aic : list (list Q)) (j : nat) :
  Unsteady.calculate_wing_wing_influences s = Ok s1 ->
  Unsteady.calculate_freestream_wing_influences s1 = Ok s2 ->
  Unsteady.calculate_wake_wing_influences s2 = Ok s3 ->
  Unsteady.current_wing_wing_influences s3 = Some aic ->
  zero_column j aic ->
  Unsteady.calculate_vortex_strengths s3 = Raise LinAlgError.
Proof.
  intros H1 H2 H3 Haic Hcol.
  apply wing_wing_influences_size in H1 as (a1 & m & Ha1 & -> & Hm).
  apply freestream_wing_influences_size in H2 as (a2 & fs & Ha2 & -> & Hfs).
  apply wake_wing_influences_size in H3 as (a3 & wake & Ha3 & -> & Hwake).
  change (Unsteady.current_airplane s = Ok a2) in Ha2.
  change (Unsteady.current_airplane s = Ok a3) in Ha3.
  rewrite Ha1 in Ha2, Ha3. injection Ha2 as <-. injection Ha3 as <-.
  simpl in Haic. injection Haic as <-.
  apply (unsteady_solve_zero_column _ m wake fs j);
    [reflexivity|reflexivity|reflexivity|congruence|congruence|exact Hcol].
Qed.

Lemma ring_solve_never_degenerate (s : Steady.solver) :
  SteadyRing.calculate_vortex_strengths s <> Raise GeometryDegenerateError.
Proof.
  intros H. unfold SteadyRing.calculate_vortex_strengths in H.
  apply bind_Raise_inv in H as [H|(strengths & _ & H)];
    [by apply linalg_solve_raises in H as [H|H]|].
  apply bind_Raise_inv in H as [H|(wings & _ & H)]; [|discriminate].
  eapply (mapM_Raise (fun e => e = AttributeError \/ e = IndexError)) in H
    as [H|H]; [discriminate|discriminate|].
  intros x e. apply update_wing_strengths_Raise.
Qed.

(** A time step raises what its solve raises, and the run what a time
    step raises. *)
Lemma time_step_solve_raises (verbose : bool) (k : nat)
    (sk s1 s2 s3 : Unsteady.solver) (op : OperatingPoint.t) (e : exn) :
  k < length (Unsteady.airplanes sk) ->
  Unsteady.operating_points sk !! k = Some op ->
  Unsteady.calculate_wing_wing_influences
    (Unsteady.set_aerodynamic_data None None None None
       (Unsteady.set_current k op
          (OperatingPoint.calculate_freestream_velocity_geometry_axes op)
          sk)) = Ok s1 ->
  Unsteady.calculate_freestream_wing_influences s1 = Ok s2 ->
  Unsteady.calculate_wake_wing_influences s2 = Ok s3 ->
  Unsteady.calculate_vortex_strengths s3 = Raise e ->
  Unsteady.time_step verbose k sk = Raise e.
Proof.
  intros Hlt Hop H1 H2 H3 H4. unfold Unsteady.time_step.
  apply lookup_lt_is_Some_2 in Hlt as [a Ha].
  unfold Unsteady.airplane_at, get_item. rewrite Ha, Hop. simpl.
  rewrite H1. simpl. rewrite H2. simpl. rewrite H3. simpl.
  by rewrite H4.
Qed.

Lemma run_time_step_raises (verbose : bool) (k : nat)
    (s s0 sk : Unsteady.solver) (e : exn) :
  Unsteady.initialize_panel_vortices s = Ok s0 ->
  k < Unsteady.num_steps s0 ->
  Unsteady.run_steps verbose k s0 = Ok sk ->
  Unsteady.time_step verbose k sk = Raise e ->
  Unsteady.run verbose s = Raise e.
Proof.
  intros Hinit Hk Hsk Hstep. unfold Unsteady.run. rewrite Hinit. simpl.
  unfold Unsteady.run_steps, range in *.
  replace (Unsteady.num_steps s0)
    with (k + S (Unsteady.num_steps s0 - S k)) by lia.
  rewrite seq_app, for_each_app, Hsk. simpl. by rewrite Hstep.
Qed.

(** C4, as the code has it.  [calculate_vortex_strengths] checks nothing
    and handles nothing: the matrix goes to the linear solve as it is.
    A matrix with a zero column, the column of a vortex that induces no
    normal velocity at any collocation point, is singular (it sends the
    unit vector of that column to zero), and on it the solve finds no
    pivot: [calculate_vortex_strengths] of the unsteady solver and of
    both steady solvers raises [LinAlgError].  When the three influence
    phases of a time step of a run leave such a matrix, the time step
    raises [LinAlgError] and so does [run].  No path of
    [calculate_vortex_strengths] raises [GeometryDegenerateError]. *)
Theorem zero_column_raises_LinAlgError :
  (forall (a : list (list Q)) j,
     zero_column j a ->
     <[j := 1%Q]> (replicate (length a) 0%Q) !! j = Some 1%Q /\
     Forall (fun row =>
               dotl row (<[j := 1%Q]> (replicate (length a) 0%Q)) == 0) a) /\
  (forall (s : Unsteady.solver) aic wake fs j,
     Unsteady.current_wing_wing_influences s = Some aic ->
     Unsteady.current_wake_wing_influences s = Some wake ->
     Unsteady.current_freestream_wing_influences s = Some fs ->
     length wake = length aic -> length fs = length aic ->
     zero_column j aic ->
     Unsteady.calculate_vortex_strengths s = Raise LinAlgError) /\
  (forall (s : Steady.solver) j,
     length (Steady.freestream_influences s)
       = length (Steady.aerodynamic_influence_coefficients s) ->
     zero_column j (Steady.aerodynamic_influence_coefficients s) ->
     SteadyHorseshoe.calculate_vortex_strengths s = Raise LinAlgError /\
     SteadyRing.calculate_vortex_strengths s = Raise LinAlgError) /\
  (forall verbose (s s0 sk s1 s2 s3 : Unsteady.solver) k op aic j,
     Unsteady.initialize_panel_vortices s = Ok s0 ->
     k < Unsteady.num_steps s0 ->
     Unsteady.run_steps verbose k s0 = Ok sk ->
     k < length (Unsteady.airplanes sk) ->
     Unsteady.operating_points sk !! k = Some op ->
     Unsteady.calculate_wing_wing_influences
       (Unsteady.set_aerodynamic_data None None None None
          (Unsteady.set_current k op
             (OperatingPoint.calculate_freestream_velocity_geometry_axes op)
             sk)) = Ok s1 ->
     Unsteady.calculate_freestream_wing_influences s1 = Ok s2 ->
     Unsteady.calculate_wake_wing_influences s2 = Ok s3 ->
     Unsteady.current_wing_wing_influences s3 = Some aic ->
     zero_column j aic ->
     Unsteady.calculate_vortex_strengths s3 = Raise LinAlgError /\
     Unsteady.time_step verbose k sk = Raise LinAlgError /\
     Unsteady.run verbose s = Raise LinAlgError) /\
  (forall s : Unsteady.solver,
     Unsteady.calculate_vortex_strengths s <> Raise GeometryDegenerateError) /\
  (forall s : Steady.solver,
     SteadyHorseshoe.calculate_vortex_strengths s
       <> Raise GeometryDegenerateError /\
     SteadyRing.calculate_vortex_strengths s
       <> Raise GeometryDegenerateError).
Proof.
  split; [|split; [|split; [|split; [|split]]]].
  - intros a j Hcol. split; [|by apply zero_column_singular].
    apply list_lookup_insert_eq. rewrite length_replicate. apply Hcol.
  - intros s aic wake fs j. apply unsteady_solve_zero_column.
  - intros s j Hlen Hcol.
    assert (linalg_solve (Steady.aerodynamic_influence_coefficients s)
              (neg_list (Steady.freestream_influences s))
            = Raise LinAlgError) as Hsolve.
    { apply (linalg_solve_zero_column j); [|exact Hcol].
      unfold neg_list. by rewrite length_map. }
    split.
    + unfold SteadyHorseshoe.calculate_vortex_strengths. by rewrite Hsolve.
    + unfold SteadyRing.calculate_vortex_strengths. by rewrite Hsolve.
  - intros verbose s s0 sk s1 s2 s3 k op aic j
      Hinit Hk Hsk Ha Hop H1 H2 H3 Haic Hcol.
    assert (Unsteady.calculate_vortex_strengths s3 = Raise LinAlgError)
      as Hsolve by (by eapply assembled_solve_zero_column).
    assert (Unsteady.time_step verbose k sk = Raise LinAlgError) as Hstep
      by (by eapply time_step_solve_raises).
    split; [exact Hsolve|]. split; [exact Hstep|].
    by eapply run_time_step_raises.
  - apply solve_exception_propagates.
  - intros s. split.
    + apply solve_exception_propagates.
    + apply ring_solve_never_degenerate.
Qed.

End ZeroColumn.

(** ** Loops over the cells of an array *)

Section Grids.
Context {A : Type}.

Lemma same_shape_refl (a : ndarray A) : same_shape a a.
Proof. by split. Qed.

Lemma same_shape_trans (a b c : ndarray A) :
  same_shape a b -> same_shape b c -> same_shape a c.
Proof. intros [H1 H2] [H3 H4]. split; congruence. Qed.

Lemma same_shape_wf (a b : ndarray A) :
  same_shape a b -> wf_ndarray a -> wf_ndarray b.
Proof.
  intros [H1 H2] Hwf. unfold wf_ndarray in *. rewrite <- H1.
  apply list.Forall_forall. intros r Hr.
  apply list_elem_of_lookup in Hr as [i Hi].
  assert ((length <$> rows b) !! i = Some (length r)) as Hl
    by (by rewrite list_lookup_fmap, Hi).
  rewrite <- H2, list_lookup_fmap in Hl.
  destruct (rows a !! i) as [r'|] eqn:Hr'; [|discriminate].
  simpl in Hl. injection Hl as <-.
  eapply list.Forall_forall in Hwf; [exact Hwf|].
  by eapply list_elem_of_lookup_2.
Qed.

Lemma same_shape_shape0 (a b : ndarray A) :
  same_shape a b -> shape0 a = shape0 b.
Proof.
  intros [_ H]. unfold shape0.
  rewrite <- (length_fmap length (rows a)), H. by rewrite length_fmap.
Qed.

Lemma set2_same_shape (a a' : ndarray A) (i j : nat) (x : A) :
  set2 a i j x = Ok a' -> same_shape a a'.
Proof.
  intros H. apply set2_Ok in H as (row & Hrow & Hj & ->). split; simpl.
  - reflexivity.
  - rewrite list_fmap_insert, length_insert. symmetry.
    apply list_insert_id. by rewrite list_lookup_fmap, Hrow.
Qed.

Lemma get2_set2_eq (a a' : ndarray A) (i j : nat) (x : A) :
  set2 a i j x = Ok a' -> get2 a' i j = Ok x.
Proof.
  intros H. apply set2_Ok in H as (row & Hrow & Hj & ->).
  apply get2_Ok. exists (<[j := x]> row). simpl. split.
  - apply list_lookup_insert_eq. by eapply lookup_lt_Some.
  - by apply list_lookup_insert_eq.
Qed.

Lemma get2_set2_ne (a a' : ndarray A) (i j i' j' : nat) (x : A) :
  set2 a i j x = Ok a' -> (i', j') <> (i, j) ->
  get2 a' i' j' = get2 a i' j'.
Proof.
  intros H Hne. apply set2_Ok in H as (row & Hrow & Hj & ->).
  unfold get2. simpl. destruct (decide (i' = i)) as [->|Hi].
  - rewrite list_lookup_insert_eq by (by eapply lookup_lt_Some).
    rewrite Hrow. simpl.
    rewrite list_lookup_insert_ne by congruence. reflexivity.
  - by rewrite list_lookup_insert_ne by congruence.
Qed.

(** In an array whose rows have [shape1] entries, a cell that can be read
    lies within the shape. *)
Lemma get2_in_shape (a : ndarray A) (i j : nat) (x : A) :
  wf_ndarray a -> get2 a i j = Ok x -> i < shape0 a /\ j < shape1 a.
Proof.
  intros Hwf H. apply get2_Ok in H as (row & Hrow & Hx). split.
  - unfold shape0. by eapply lookup_lt_Some.
  - assert (length row = shape1 a) as <-.
    { eapply list.Forall_forall in Hwf; [exact Hwf|].
      by eapply list_elem_of_lookup_2. }
    by eapply lookup_lt_Some.
Qed.

Lemma get2_same_shape (a b : ndarray A) (i j : nat) (x : A) :
  same_shape a b -> get2 a i j = Ok x -> exists y, get2 b i j = Ok y.
Proof.
  intros [_ Hs] H. apply get2_Ok in H as (row & Hrow & Hx).
  assert ((length <$> rows a) !! i = Some (length row)) as Hl
    by (by rewrite list_lookup_fmap, Hrow).
  rewrite Hs, list_lookup_fmap in Hl.
  destruct (rows b !! i) as [row'|] eqn:Hrow'; [|discriminate].
  simpl in Hl. injection Hl as Hl.
  destruct (lookup_lt_is_Some_2 row' j) as [y Hy].
  { rewrite Hl. by eapply lookup_lt_Some. }
  exists y. apply get2_Ok. by exists row'.
Qed.

(** A pair of loops over the shape of an array whose body replaces the
    cell it visits by a value related to the one it reads there: every
    cell of the result is related to the cell of the array the loops
    started from. *)
Lemma for_each_cell_in_place (R : nat -> nat -> A -> A -> Prop)
    (body : nat -> nat -> ndarray A -> result (ndarray A))
    (a0 a' : ndarray A) :
  (forall cv sv a a1,
     body cv sv a = Ok a1 ->
     exists x y, get2 a cv sv = Ok x /\ R cv sv x y /\
                 set2 a cv sv y = Ok a1) ->
  wf_ndarray a0 ->
  for_each (range (shape0 a0))
    (fun cv => for_each (range (shape1 a0)) (fun sv => body cv sv)) a0
    = Ok a' ->
  same_shape a0 a' /\
  forall cv sv x,
    get2 a0 cv sv = Ok x -> exists y, R cv sv x y /\ get2 a' cv sv = Ok y.
Proof.
  intros Hbody Hwf H.
  set (n := shape1 a0) in *.
  set (visited (m : nat) (a : ndarray A) :=
         same_shape a0 a /\
         forall cv sv x, get2 a0 cv sv = Ok x ->
           (cv * n + sv < m -> exists y, R cv sv x y /\ get2 a cv sv = Ok y)
           /\ (m <= cv * n + sv -> get2 a cv sv = Ok x)).
  assert (visited (shape0 a0 * n) a') as [Hshape Hcells].
  { eapply (for_each_range_inv (fun cv a => visited (cv * n) a));
      [| |exact H].
    - intros cv a a1 Hcv Ha Hrow.
      replace (S cv * n) with (cv * n + n) by lia.
      eapply (for_each_range_inv (fun sv a => visited (cv * n + sv) a));
        [| |exact Hrow].
      + intros sv b b1 Hsv [Hsh Hb] Hstep.
        destruct (Hbody _ _ _ _ Hstep) as (x & y & Hx & HR & Hset).
        split; [eapply same_shape_trans; [exact Hsh|];
                by eapply set2_same_shape|].
        intros cv' sv' x' Hx'.
        destruct (get2_in_shape _ _ _ _ Hwf Hx') as [Hcv' Hsv'].
        fold n in Hsv'.
        destruct (decide ((cv', sv') = (cv, sv))) as [Heq|Hne].
        * injection Heq as -> ->.
          destruct (Hb cv sv x' Hx') as [_ Hsame].
          rewrite Hsame in Hx by lia. injection Hx as ->.
          split; [|lia]. intros _. exists y. split; [exact HR|].
          by eapply get2_set2_eq.
        * rewrite (get2_set2_ne _ _ _ _ _ _ _ Hset Hne).
          destruct (Hb cv' sv' x' Hx') as [Hdone Htodo].
          assert (cv' * n + sv' <> cv * n + sv) as Hidx.
          { intros He. apply row_major_unique in He as [-> ->];
              [congruence|lia|lia]. }
          split; [intros Hlt; apply Hdone; lia|intros Hle; apply Htodo; lia].
      + replace (cv * n + 0) with (cv * n) by lia. exact Ha.
    - split; [apply same_shape_refl|]. intros cv sv x Hx.
      split; [simpl; lia|by intros _]. }
  split; [exact Hshape|]. intros cv sv x Hx.
  destruct (get2_in_shape _ _ _ _ Hwf Hx) as [Hcv Hsv]. fold n in Hsv.
  apply (Hcells cv sv x Hx).
  assert (S cv * n <= shape0 a0 * n) by (apply Nat.mul_le_mono_r; lia). lia.
Qed.

End Grids.

(** ** The velocity at which the wake vertices move *)

Section WakeConvection.
Context {aero : Aerodynamics}.

(** The loops of the unsteady solver that move every vertex of the copied
    grid: each vertex is moved by the freestream velocity over one time
    step. *)
Lemma unsteady_convect_in_place (freestream : option Vec3) (dt : Q)
    (vertices vertices' : ndarray Vec3) :
  wf_ndarray vertices ->
  Unsteady.convect_in_place freestream dt vertices = Ok vertices' ->
  same_shape vertices vertices' /\
  forall cv sv x,
    get2 vertices cv sv = Ok x ->
    exists f, freestream = Some f /\
      get2 vertices' cv sv = Ok (vadd x (vscale_r f dt)).
Proof.
  intros Hwf H. unfold Unsteady.convect_in_place in H.
  eapply (for_each_cell_in_place
            (fun _ _ x y =>
               exists f, freestream = Some f /\ y = vadd x (vscale_r f dt)))
    in H; [|clear H|exact Hwf].
  - destruct H as [Hshape Hcells]. split; [exact Hshape|].
    intros cv sv x Hx.
    destruct (Hcells cv sv x Hx) as (y & (f & Hf & ->) & Hy). by exists f.
  - intros cv sv a a1 Hbody.
    apply bind_Ok_inv in Hbody as (x & Hx & Hbody).
    apply bind_Ok_inv in Hbody as (f & Hf & Hbody).
    apply of_option_Ok in Hf.
    exists x, (vadd x (vscale_r f dt)). split; [exact Hx|].
    split; [by exists f|exact Hbody].
Qed.

(** The loops of the legacy solver that move every vertex of the copied
    grid: each vertex is moved by the freestream velocity when the wake
    is prescribed and by the solution velocity at the vertex when it is
    free. *)
Lemma legacy_convect_in_place (prescribed_wake : bool) (s : Unsteady.solver)
    (vertices vertices' : ndarray Vec3) :
  wf_ndarray vertices ->
  Legacy.convect_in_place prescribed_wake s vertices = Ok vertices' ->
  same_shape vertices vertices' /\
  forall cv sv x,
    get2 vertices cv sv = Ok x ->
    exists velocity,
      (if prescribed_wake then Unsteady.the_freestream_velocity s
       else Unsteady.calculate_solution_velocity s x) = Ok velocity /\
      get2 vertices' cv sv
        = Ok (vadd x (vscale_r velocity (Unsteady.delta_time s))).
Proof.
  intros Hwf H. unfold Legacy.convect_in_place in H.
  eapply (for_each_cell_in_place
            (fun _ _ x y =>
               exists velocity,
                 Legacy.wake_vertex_velocity prescribed_wake s x
                   = Ok velocity /\
                 y = vadd x (vscale_r velocity (Unsteady.delta_time s))))
    in H; [|clear H|exact Hwf].
  - destruct H as [Hshape Hcells]. split; [exact Hshape|].
    intros cv sv x Hx.
    destruct (Hcells cv sv x Hx) as (y & (v & Hv & ->) & Hy). by exists v.
  - intros cv sv a a1 Hbody.
    apply bind_Ok_inv in Hbody as (x & Hx & Hbody).
    apply bind_Ok_inv in Hbody as (v & Hv & Hbody).
    exists x, (vadd x (vscale_r v (Unsteady.delta_time s))).
    split; [exact Hx|]. split; [by exists v|exact Hbody].
Qed.

(** The second row of the first step, in the legacy solver *)
Lemma legacy_second_row (prescribed_wake : bool) (s : Unsteady.solver)
    (first_row second_row : ndarray Vec3) (n : nat) :
  Legacy.second_row_of_vertices prescribed_wake s first_row n
    = Ok second_row ->
  same_shape (np_full 1 n vzero) second_row /\
  forall sv, sv < n ->
    exists x velocity,
      get2 first_row 0 sv = Ok x /\
      (if prescribed_wake then Unsteady.the_freestream_velocity s
       else Unsteady.calculate_solution_velocity s x) = Ok velocity /\
      get2 second_row 0 sv
        = Ok (vadd x (vscale_r velocity (Unsteady.delta_time s))).
Proof.
  unfold Legacy.second_row_of_vertices. intros H.
  set (moved (m : nat) (row : ndarray Vec3) :=
         same_shape (np_full 1 n vzero) row /\
         forall sv, sv < m ->
           exists x velocity,
             get2 first_row 0 sv = Ok x /\
             Legacy.wake_vertex_velocity prescribed_wake s x = Ok velocity /\
             get2 row 0 sv
               = Ok (vadd x (vscale_r velocity (Unsteady.delta_time s)))).
  assert (moved n second_row) as Hm.
  { eapply (for_each_range_inv moved); [| |exact H].
    - intros sv row row' Hsv [Hsh Hrow] Hbody.
      apply bind_Ok_inv in Hbody as (x & Hx & Hbody).
      apply bind_Ok_inv in Hbody as (v & Hv & Hbody).
      split; [eapply same_shape_trans; [exact Hsh|];
              by eapply set2_same_shape|].
      intros sv' Hsv'. destruct (decide (sv' = sv)) as [->|Hne].
      + exists x, v. split; [exact Hx|]. split; [exact Hv|].
        by eapply get2_set2_eq.
      + destruct (Hrow sv') as (x' & v' & Hx' & Hv' & Hg); [lia|].
        exists x', v'. split; [exact Hx'|]. split; [exact Hv'|].
        rewrite (get2_set2_ne _ _ _ _ _ _ _ Hbody); [exact Hg|congruence].
    - split; [apply same_shape_refl|]. intros sv Hsv. lia. }
  exact Hm.
Qed.

(** The second row of the first step, in the unsteady solver: the last
    row of the grid moved by the freestream velocity over one time
    step. *)
Lemma unsteady_convect_into_row (freestream : option Vec3) (dt : Q)
    (vertices new_row new_row' : ndarray Vec3) :
  wf_ndarray vertices ->
  Unsteady.convect_into_row freestream dt vertices new_row = Ok new_row' ->
  same_shape new_row new_row' /\
  forall cv sv x,
    S cv = shape0 vertices ->
    get2 vertices cv sv = Ok x ->
    exists f, freestream = Some f /\
      get2 new_row' 0 sv = Ok (vadd x (vscale_r f dt)).
Proof.
  intros Hwf H. unfold Unsteady.convect_into_row in H.
  set (row_moved (cv m : nat) (row : ndarray Vec3) :=
         forall sv x, sv < m -> get2 vertices cv sv = Ok x ->
           exists f, freestream = Some f /\
             get2 row 0 sv = Ok (vadd x (vscale_r f dt))).
  set (rows_moved (m : nat) (row : ndarray Vec3) :=
         same_shape new_row row /\
         forall cv, S cv = m -> row_moved cv (shape1 vertices) row).
  assert (rows_moved (shape0 vertices) new_row') as [Hsh Hrows].
  { eapply (for_each_range_inv rows_moved); [| |exact H].
    - intros cv row row' Hcv [Hsh _] Hrow.
      assert (same_shape new_row row' /\ row_moved cv (shape1 vertices) row')
        as [Hsh' Hmoved].
      { eapply (for_each_range_inv
                  (fun m r => same_shape new_row r /\ row_moved cv m r));
          [| |exact Hrow].
        - intros sv r r' Hsv [Hs Hr] Hbody.
          apply bind_Ok_inv in Hbody as (x & Hx & Hbody).
          apply bind_Ok_inv in Hbody as (f & Hf & Hbody).
          apply of_option_Ok in Hf.
          split; [eapply same_shape_trans; [exact Hs|];
                  by eapply set2_same_shape|].
          intros sv' x' Hsv' Hx'. destruct (decide (sv' = sv)) as [->|Hne].
          + rewrite Hx in Hx'. injection Hx' as <-. exists f.
            split; [exact Hf|]. by eapply get2_set2_eq.
          + destruct (Hr sv' x') as (f' & Hf' & Hg); [lia|exact Hx'|].
            exists f'. split; [exact Hf'|].
            rewrite (get2_set2_ne _ _ _ _ _ _ _ Hbody); [exact Hg|congruence].
        - split; [exact Hsh|]. intros sv x Hsv. lia. }
      split; [exact Hsh'|]. intros cv' Hcv'. injection Hcv' as ->.
      exact Hmoved.
    - split; [apply same_shape_refl|]. intros cv Hcv. discriminate. }
  split; [exact Hsh|]. intros cv sv x Hcv Hx.
  eapply (Hrows cv Hcv); [|exact Hx].
  by destruct (get2_in_shape _ _ _ _ Hwf Hx).
Qed.

(** C8, as the code has it.  The legacy unsteady solver moves the wake
    vertices at the freestream velocity when its [prescribed_wake] flag
    is set and at the solution velocity at the vertex when it is not,
    both for the second row of the first step and for the grid of the
    later steps.  The unsteady solver takes no such flag and moves the
    vertices at the freestream velocity. *)
Theorem wake_vertices_move_at (s : Unsteady.solver) :
  (forall prescribed_wake vertices vertices',
     wf_ndarray vertices ->
     Legacy.convect_in_place prescribed_wake s vertices = Ok vertices' ->
     forall cv sv x,
       get2 vertices cv sv = Ok x ->
       exists velocity,
         (if prescribed_wake then Unsteady.the_freestream_velocity s
          else Unsteady.calculate_solution_velocity s x) = Ok velocity /\
         get2 vertices' cv sv
           = Ok (vadd x (vscale_r velocity (Unsteady.delta_time s)))) /\
  (forall prescribed_wake first_row second_row n,
     Legacy.second_row_of_vertices prescribed_wake s first_row n
       = Ok second_row ->
     forall sv, sv < n ->
       exists x velocity,
         get2 first_row 0 sv = Ok x /\
         (if prescribed_wake then Unsteady.the_freestream_velocity s
          else Unsteady.calculate_solution_velocity s x) = Ok velocity /\
         get2 second_row 0 sv
           = Ok (vadd x (vscale_r velocity (Unsteady.delta_time s)))) /\
  (forall vertices vertices',
     wf_ndarray vertices ->
     Unsteady.convect_in_place (Unsteady.current_freestream_velocity s)
       (Unsteady.delta_time s) vertices = Ok vertices' ->
     forall cv sv x,
       get2 vertices cv sv = Ok x ->
       exists freestream,
         Unsteady.the_freestream_velocity s = Ok freestream /\
         get2 vertices' cv sv
           = Ok (vadd x (vscale_r freestream (Unsteady.delta_time s)))) /\
  (forall vertices new_row new_row',
     wf_ndarray vertices ->
     Unsteady.convect_into_row (Unsteady.current_freestream_velocity s)
       (Unsteady.delta_time s) vertices new_row = Ok new_row' ->
     forall cv sv x,
       S cv = shape0 vertices ->
       get2 vertices cv sv = Ok x ->
       exists freestream,
         Unsteady.the_freestream_velocity s = Ok freestream /\
         get2 new_row' 0 sv
           = Ok (vadd x (vscale_r freestream (Unsteady.delta_time s)))).
Proof.
  split; [|split; [|split]].
  - intros flag vertices vertices' Hwf H.
    by destruct (legacy_convect_in_place _ _ _ _ Hwf H).
  - intros flag first_row second_row n H.
    by destruct (legacy_second_row _ _ _ _ _ H).
  - intros vertices vertices' Hwf H cv sv x Hx.
    destruct (unsteady_convect_in_place _ _ _ _ Hwf H) as [_ Hc].
    destruct (Hc cv sv x Hx) as (f & Hf & Hg). exists f.
    split; [|exact Hg]. unfold Unsteady.the_freestream_velocity.
    by rewrite Hf.
  - intros vertices new_row new_row' Hwf H cv sv x Hcv Hx.
    destruct (unsteady_convect_into_row _ _ _ _ _ Hwf H) as [_ Hc].
    destruct (Hc cv sv x Hcv Hx) as (f & Hf & Hg). exists f.
    split; [|exact Hg]. unfold Unsteady.the_freestream_velocity.
    by rewrite Hf.
Qed.

End WakeConvection.

(** ** What the phases of a time step leave as it is *)

Section Frames.
Context {aero : Aerodynamics}.

Lemma same_settings_refl (s : Unsteady.solver) : same_settings s s.
Proof. by repeat split. Qed.

Lemma same_settings_trans (s1 s2 s3 : Unsteady.solver) :
  same_settings s1 s2 -> same_settings s2 s3 -> same_settings s1 s3.
Proof.
  intros (A1 & A2 & A3 & A4 & A5 & A6) (B1 & B2 & B3 & B4 & B5 & B6).
  repeat split; congruence.
Qed.

Lemma frame_at_refl {T : Type} (view : Airplane.t -> T) (k : nat)
    (s : Unsteady.solver) : frame_at view k s s.
Proof. split; [apply same_settings_refl|]. by split. Qed.

Lemma frame_at_trans {T : Type} (view : Airplane.t -> T) (k : nat)
    (s1 s2 s3 : Unsteady.solver) :
  frame_at view k s1 s2 -> frame_at view k s2 s3 -> frame_at view k s1 s3.
Proof.
  intros (A1 & A2 & A3) (B1 & B2 & B3).
  split; [by eapply same_settings_trans|]. split.
  - intros j Hj. rewrite B2, A2; done.
  - congruence.
Qed.

Lemma frame_at_weaken {T U : Type} (view : Airplane.t -> T)
    (view' : Airplane.t -> U) (k : nat) (s s' : Unsteady.solver) :
  (forall a a', view a = view a' -> view' a = view' a') ->
  frame_at view k s s' -> frame_at view' k s s'.
Proof.
  intros Hv (A1 & A2 & A3). split; [exact A1|]. split; [exact A2|].
  destruct (Unsteady.airplanes s' !! k) as [a'|],
           (Unsteady.airplanes s !! k) as [a|]; simpl in *;
    try discriminate; [|reflexivity].
  injection A3 as A3. f_equal. by apply Hv.
Qed.

Lemma fmap_alter_same {X Y : Type} (f : X -> Y) (g : X -> X) (i : nat)
    (l : list X) :
  (forall x, f (g x) = f x) -> f <$> alter g i l = f <$> l.
Proof.
  intros Hfg. apply list_eq. intros j.
  rewrite !list_lookup_fmap, list_lookup_alter.
  destruct (decide (i = j)) as [->|Hne]; [|reflexivity].
  destruct (l !! j); simpl; [by rewrite Hfg | reflexivity].
Qed.

Lemma frame_at_modify_airplane {T : Type} (view : Airplane.t -> T)
    (k : nat) (f : Airplane.t -> Airplane.t) (s : Unsteady.solver) :
  (forall a, view (f a) = view a) ->
  frame_at view k s (Unsteady.modify_airplane k f s).
Proof.
  intros Hv. split; [by repeat split|]. split; simpl.
  - intros j Hj. by rewrite list_lookup_alter_ne.
  - rewrite list_lookup_alter. destruct (decide (k = k)); [|congruence].
    destruct (Unsteady.airplanes s !! k); simpl; [by rewrite Hv|reflexivity].
Qed.

(** What a change of one panel leaves of an airplane *)
Lemma wake_of_modify_panel (wi c sp : nat) (f : Panel.t -> Panel.t)
    (a : Airplane.t) :
  wake_of_airplane (modify_wing wi (modify_panel c sp f) a)
    = wake_of_airplane a.
Proof.
  unfold wake_of_airplane, modify_wing. simpl.
  by apply fmap_alter_same.
Qed.

Lemma dims_of_modify_wing (wi : nat) (f : Wing.t -> Wing.t) (a : Airplane.t) :
  (forall w, Wing.num_chordwise_panels (f w) = Wing.num_chordwise_panels w /\
             Wing.num_spanwise_panels (f w) = Wing.num_spanwise_panels w) ->
  dims_of_airplane (modify_wing wi f a) = dims_of_airplane a.
Proof.
  intros Hf. unfold dims_of_airplane, modify_wing. simpl.
  apply fmap_alter_same. intros w. destruct (Hf w) as [-> ->]. reflexivity.
Qed.

Lemma rings_of_modify_panel (wi c sp : nat) (f : Panel.t -> Panel.t)
    (a : Airplane.t) :
  (forall p, Panel.ring_vortex (f p) = Panel.ring_vortex p) ->
  rings_of_airplane (modify_wing wi (modify_panel c sp f) a)
    = rings_of_airplane a.
Proof.
  intros Hf. unfold rings_of_airplane, modify_wing. simpl.
  apply (fmap_alter_same rings_of_wing).
  intros w. unfold rings_of_wing. simpl. f_equal.
  apply (fmap_alter_same (map Panel.ring_vortex)). intros row.
  by apply (fmap_alter_same Panel.ring_vortex).
Qed.

(** The three influence phases set attributes of the solver only. *)
Lemma influences_frame (s s' : Unsteady.solver) :
  Unsteady.calculate_wing_wing_influences s = Ok s' \/
  Unsteady.calculate_freestream_wing_influences s = Ok s' \/
  Unsteady.calculate_wake_wing_influences s = Ok s' ->
  same_settings s s' /\ Unsteady.airplanes s' = Unsteady.airplanes s.
Proof.
  intros [H|[H|H]].
  - unfold Unsteady.calculate_wing_wing_influences in H.
    apply bind_Ok_inv in H as (a & _ & H).
    apply bind_Ok_inv in H as (m & _ & H). injection H as <-.
    by repeat split.
  - unfold Unsteady.calculate_freestream_wing_influences in H.
    apply bind_Ok_inv in H as (a & _ & H).
    apply bind_Ok_inv in H as (k & _ & H).
    apply bind_Ok_inv in H as (v & _ & H). injection H as <-.
    by repeat split.
  - unfold Unsteady.calculate_wake_wing_influences in H.
    apply bind_Ok_inv in H as (a & _ & H).
    apply bind_Ok_inv in H as (v & _ & H). injection H as <-.
    by repeat split.
Qed.

Lemma update_wing_strengths_wake (strengths : list Q) (w w' : Wing.t) :
  update_wing_strengths strengths w = Ok w' ->
  wake_of_wing w' = wake_of_wing w.
Proof.
  unfold update_wing_strengths. intros H.
  apply bind_Ok_inv in H as (ps & _ & H). by injection H as <-.
Qed.

Lemma mapM_fmap {X Y Z : Type} (f : X -> result Y) (g : Y -> Z)
    (h : X -> Z) (l : list X) (l' : list Y) :
  (forall x y, f x = Ok y -> g y = h x) ->
  mapM f l = Ok l' -> g <$> l' = h <$> l.
Proof.
  intros Hfg. revert l'. induction l as [|x l IH]; intros l' H; simpl in H.
  - by injection H as <-.
  - apply bind_Ok_inv in H as (y & Hy & H).
    apply bind_Ok_inv in H as (ys & Hys & H). injection H as <-.
    simpl. f_equal; [by apply Hfg | by apply IH].
Qed.

(** [calculate_vortex_strengths] changes panels of the current airplane
    only. *)
Lemma vortex_strengths_frame (s s' : Unsteady.solver) (k : nat) :
  Unsteady.current_step s = Some k ->
  Unsteady.calculate_vortex_strengths s = Ok s' ->
  frame_at wake_of_airplane k s s'.
Proof.
  intros Hk H. unfold Unsteady.calculate_vortex_strengths in H.
  apply bind_Ok_inv in H as (wake & _ & H).
  apply bind_Ok_inv in H as (fs & _ & H).
  apply bind_Ok_inv in H as (rhs & _ & H).
  apply bind_Ok_inv in H as (aic & _ & H).
  apply bind_Ok_inv in H as (strengths & _ & H).
  apply bind_Ok_inv in H as (step & Hstep & H).
  apply bind_Ok_inv in H as (airplane & Hairplane & H).
  apply bind_Ok_inv in H as (wings & Hwings & H). injection H as <-.
  apply of_option_Ok in Hstep. simpl in Hstep. rewrite Hk in Hstep.
  injection Hstep as <-. apply get_item_Ok in Hairplane. simpl in Hairplane.
  split; [by repeat split|]. split; simpl.
  - intros j Hj. by rewrite list_lookup_alter_ne.
  - rewrite list_lookup_alter. destruct (decide (k = k)); [|congruence].
    rewrite Hairplane. simpl. f_equal. unfold wake_of_airplane. simpl.
    eapply mapM_fmap; [|exact Hwings].
    intros w w'. apply update_wing_strengths_wake.
Qed.

Lemma frame_at_same_wakes (k : nat) (s s' : Unsteady.solver) :
  frame_at wake_of_airplane k s s' -> same_wakes s s'.
Proof.
  intros (A1 & A2 & A3). split; [exact A1|]. intros j.
  destruct (decide (j = k)) as [->|Hne]; [exact A3|]. by rewrite A2.
Qed.

Lemma same_wakes_refl (s : Unsteady.solver) : same_wakes s s.
Proof. split; [apply same_settings_refl|done]. Qed.

Lemma same_wakes_trans (s1 s2 s3 : Unsteady.solver) :
  same_wakes s1 s2 -> same_wakes s2 s3 -> same_wakes s1 s3.
Proof.
  intros [A1 A2] [B1 B2]. split; [by eapply same_settings_trans|].
  intros j. by rewrite B2, A2.
Qed.

Lemma frame_at_modify_panel_at {T : Type} (view : Airplane.t -> T)
    (k wi c sp : nat) (f : Panel.t -> Panel.t) (s : Unsteady.solver) :
  (forall a, view (modify_wing wi (modify_panel c sp f) a) = view a) ->
  frame_at view k s (Unsteady.modify_panel_at k wi c sp f s).
Proof. intros Hv. by apply frame_at_modify_airplane. Qed.

(** [calculate_near_field_forces_and_moments] changes results of the
    panels and of the current airplane only. *)
Lemma near_field_forces_frame (s s' : Unsteady.solver) (k : nat) :
  Unsteady.current_step s = Some k ->
  Unsteady.calculate_near_field_forces_and_moments s = Ok s' ->
  frame_at forces_view k s s'.
Proof.
  intros Hk H. unfold Unsteady.calculate_near_field_forces_and_moments in H.
  apply bind_Ok_inv in H as (step & Hstep & H).
  apply of_option_Ok in Hstep. rewrite Hk in Hstep. injection Hstep as <-.
  apply bind_Ok_inv in H as (last & _ & H).
  apply bind_Ok_inv in H as (airplane & _ & H).
  apply bind_Ok_inv in H as ([s1 [tf tm]] & Hloop & H).
  apply bind_Ok_inv in H as (op & _ & H).
  apply bind_Ok_inv in H as (airplane1 & _ & H). injection H as <-.
  assert (frame_at forces_view k s s1) as Hs1.
  { change (frame_at forces_view k s (fst (s1, (tf, tm)))).
    eapply (for_each_inv (fun st => frame_at forces_view k s (fst st)));
      [| |exact Hloop]; [|apply frame_at_refl].
    intros wi st st' _ Hst Hwing. unfold Unsteady.near_field_wing in Hwing.
    apply bind_Ok_inv in Hwing as (step & _ & Hwing).
    apply bind_Ok_inv in Hwing as (wing & _ & Hwing).
    apply bind_Ok_inv in Hwing as (last_wing & _ & Hwing).
    eapply (for_each_inv (fun st => frame_at forces_view k s (fst st)));
      [| |exact Hwing]; [|exact Hst].
    intros c st1 st1' _ Hst1 Hrow.
    eapply (for_each_inv (fun st => frame_at forces_view k s (fst st)));
      [| |exact Hrow]; [|exact Hst1].
    intros sp [s2 [f2 m2]] st2' _ Hst2 Hpanel. simpl in Hst2.
    unfold Unsteady.near_field_panel in Hpanel.
    apply bind_Ok_inv in Hpanel as (step' & Hstep' & Hpanel).
    apply bind_Ok_inv in Hpanel as ([f m] & _ & Hpanel).
    injection Hpanel as <-. simpl.
    apply of_option_Ok in Hstep'.
    destruct Hst2 as (Hset & Hother & Hview).
    assert (step' = k) as ->.
    { destruct Hset as (_ & _ & _ & Hcs & _). rewrite Hcs, Hk in Hstep'.
      by injection Hstep'. }
    eapply frame_at_trans; [by split|].
    apply frame_at_modify_panel_at. intros a. unfold forces_view.
    rewrite wake_of_modify_panel, rings_of_modify_panel; done. }
  eapply frame_at_trans; [exact Hs1|].
  eapply (frame_at_trans _ _ _
            (Unsteady.set_totals _ _ _ _ _ _ _ _ s1));
    [by repeat split|].
  by apply frame_at_modify_airplane.
Qed.

(** [initialize_panel_vortices] changes panels only. *)
Lemma initialize_panel_vortices_frame (s s' : Unsteady.solver) :
  Unsteady.initialize_panel_vortices s = Ok s' -> same_wakes s s'.
Proof.
  unfold Unsteady.initialize_panel_vortices. intros H.
  eapply (for_each_inv (same_wakes s)); [| |exact H];
    [|apply same_wakes_refl].
  intros k s1 s1' _ Hs1 Hk.
  apply bind_Ok_inv in Hk as (airplane & _ & Hk).
  eapply (for_each_inv (same_wakes s)); [| |exact Hk]; [|exact Hs1].
  intros wi s2 s2' _ Hs2 Hwi. unfold Unsteady.initialize_wing in Hwi.
  apply bind_Ok_inv in Hwi as (wing & _ & Hwi).
  eapply (for_each_inv (same_wakes s)); [| |exact Hwi]; [|exact Hs2].
  intros c s3 s3' _ Hs3 Hc.
  eapply (for_each_inv (same_wakes s)); [| |exact Hc]; [|exact Hs3].
  intros sp s4 s4' _ Hs4 Hsp. unfold Unsteady.initialize_panel in Hsp.
  apply bind_Ok_inv in Hsp as (wing' & _ & Hsp).
  apply bind_Ok_inv in Hsp as (panel & _ & Hsp).
  apply bind_Ok_inv in Hsp as ([bl br] & _ & Hsp). injection Hsp as <-.
  eapply same_wakes_trans; [exact Hs4|].
  eapply frame_at_same_wakes, frame_at_modify_panel_at.
  intros a. apply wake_of_modify_panel.
Qed.

End Frames.

(** ** The wake that a time step sheds *)

Section Shedding.
Context {aero : Aerodynamics}.

Lemma moved_refl (r : RingVortex.t) : moved r r.
Proof. by left. Qed.

Lemma moved_update (fl fr bl br : Vec3) (r r' : RingVortex.t) :
  moved r r' -> moved r (RingVortex.update_position fl fr bl br r').
Proof.
  intros [->|(fl' & fr' & bl' & br' & ->)]; right; exists fl, fr, bl, br;
    reflexivity.
Qed.

Lemma moved_trans (r1 r2 r3 : RingVortex.t) :
  moved r1 r2 -> moved r2 r3 -> moved r1 r3.
Proof.
  intros H12 [->|(fl & fr & bl & br & ->)]; [exact H12|].
  by apply moved_update.
Qed.

Lemma moved_strength (r r' : RingVortex.t) :
  moved r r' -> RingVortex.strength r' = RingVortex.strength r.
Proof. intros [->|(fl & fr & bl & br & ->)]; reflexivity. Qed.

Lemma ring_rel_refl (o : option RingVortex.t) : ring_rel o o.
Proof. destruct o; simpl; [apply moved_refl|exact I]. Qed.

Lemma ring_rel_trans (o1 o2 o3 : option RingVortex.t) :
  ring_rel o1 o2 -> ring_rel o2 o3 -> ring_rel o1 o3.
Proof.
  destruct o1, o2, o3; simpl; try tauto. apply moved_trans.
Qed.

Lemma wing_step_refl (K wi : nat) (R : Wing.t -> Wing.t -> Prop)
    (s : Unsteady.solver) :
  (forall w, R w w) -> wing_step K wi R s s.
Proof.
  intros HR. split; [apply same_settings_refl|].
  split; [reflexivity|]. split; [done|].
  intros a Ha. exists a. repeat split; eauto.
Qed.

Lemma wing_step_trans (K wi : nat) (R1 R2 R3 : Wing.t -> Wing.t -> Prop)
    (s1 s2 s3 : Unsteady.solver) :
  (forall w1 w2 w3, R1 w1 w2 -> R2 w2 w3 -> R3 w1 w3) ->
  wing_step K wi R1 s1 s2 -> wing_step K wi R2 s2 s3 ->
  wing_step K wi R3 s1 s3.
Proof.
  intros HR (A1 & A2 & A3 & A4) (B1 & B2 & B3 & B4).
  split; [by eapply same_settings_trans|].
  split; [congruence|]. split.
  { intros j Hj. by rewrite B3, A3. }
  intros a Ha. destruct (A4 a Ha) as (a' & Ha' & Hl & Ho & Hw).
  destruct (B4 a' Ha') as (a'' & Ha'' & Hl' & Ho' & Hw').
  exists a''. split; [exact Ha''|]. split; [congruence|]. split.
  { intros i Hi. by rewrite Ho', Ho. }
  intros w Hwi. destruct (Hw w Hwi) as (w' & Hwi' & HR1).
  destruct (Hw' w' Hwi') as (w'' & Hwi'' & HR2). eauto.
Qed.

Lemma wing_step_weaken (K wi : nat) (R R' : Wing.t -> Wing.t -> Prop)
    (s s' : Unsteady.solver) :
  (forall w w', R w w' -> R' w w') ->
  wing_step K wi R s s' -> wing_step K wi R' s s'.
Proof.
  intros HR (A1 & A2 & A3 & A4). repeat (split; [assumption|]).
  intros a Ha. destruct (A4 a Ha) as (a' & Ha' & Hl & Ho & Hw).
  exists a'. repeat (split; [assumption|]).
  intros w Hwi. destruct (Hw w Hwi) as (w' & Hwi' & HR1). eauto.
Qed.

Lemma wing_step_modify (K wi : nat) (R : Wing.t -> Wing.t -> Prop)
    (f : Wing.t -> Wing.t) (s : Unsteady.solver) :
  (forall w, R w (f w)) ->
  wing_step K wi R s (Unsteady.modify_wing_at K wi f s).
Proof.
  intros HR. split; [by repeat split|]. simpl.
  split; [by rewrite length_alter|]. split.
  { intros j Hj. by rewrite list_lookup_alter_ne. }
  intros a Ha. exists (modify_wing wi f a).
  split; [by apply alter_lookup_Some|]. simpl.
  split; [by rewrite length_alter|]. split.
  { intros i Hi. by rewrite list_lookup_alter_ne. }
  intros w Hw. exists (f w). split; [by apply alter_lookup_Some|apply HR].
Qed.

Lemma wing_step_wing_at (K wi : nat) (R : Wing.t -> Wing.t -> Prop)
    (s s' : Unsteady.solver) (w : Wing.t) :
  wing_step K wi R s s' -> Unsteady.wing_at K wi s = Ok w ->
  exists w', Unsteady.wing_at K wi s' = Ok w' /\ R w w'.
Proof.
  intros (_ & _ & _ & A4) H. apply wing_at_Ok in H as (a & Ha & Hw).
  destruct (A4 a Ha) as (a' & Ha' & _ & _ & Hw').
  destruct (Hw' w Hw) as (w' & Hwi' & HR). exists w'.
  split; [|exact HR]. apply wing_at_Ok. eauto.
Qed.

Lemma wing_step_other (K wi j i : nat) (R : Wing.t -> Wing.t -> Prop)
    (s s' : Unsteady.solver) :
  wing_step K wi R s s' -> j <> K ->
  Unsteady.wing_at j i s' = Unsteady.wing_at j i s.
Proof.
  intros (_ & _ & A3 & _) Hj. unfold Unsteady.wing_at, Unsteady.airplane_at,
    get_item. by rewrite A3.
Qed.

(** *** Shapes *)

Lemma for_each_same_shape {X A : Type} (xs : list X)
    (body : X -> ndarray A -> result (ndarray A)) (a a' : ndarray A) :
  (forall x b b', body x b = Ok b' -> same_shape b b') ->
  for_each xs body a = Ok a' -> same_shape a a'.
Proof.
  intros Hbody H.
  eapply (for_each_inv (same_shape a)); [| |exact H];
    [|apply same_shape_refl].
  intros x b b' _ Hb Hx. eapply same_shape_trans; [exact Hb|by eapply Hbody].
Qed.

Lemma vstack_Ok {A : Type} (a b c : ndarray A) :
  vstack a b = Ok c ->
  shape1 a = shape1 b /\ c = mk_ndarray (shape1 a) (rows a ++ rows b).
Proof.
  unfold vstack. destruct (decide (shape1 a = shape1 b)); [|discriminate].
  intros H. injection H as <-. by split.
Qed.

Lemma vstack_wf {A : Type} (a b c : ndarray A) :
  vstack a b = Ok c -> wf_ndarray a -> wf_ndarray b -> wf_ndarray c.
Proof.
  intros H Ha Hb. apply vstack_Ok in H as [Hs ->]. unfold wf_ndarray in *.
  simpl. apply Forall_app. split; [exact Ha|]. by rewrite Hs.
Qed.

Lemma vstack_shape0 {A : Type} (a b c : ndarray A) :
  vstack a b = Ok c -> shape0 c = shape0 a + shape0 b.
Proof.
  intros H. apply vstack_Ok in H as [Hs ->]. unfold shape0. simpl.
  by rewrite length_app.
Qed.

Lemma np_full_wf {A : Type} (r c : nat) (x : A) : wf_ndarray (np_full r c x).
Proof.
  unfold wf_ndarray, np_full. simpl. apply list.Forall_forall.
  intros row Hrow. apply elem_of_replicate in Hrow as [-> _].
  by rewrite length_replicate.
Qed.

Lemma np_full_shape0 {A : Type} (r c : nat) (x : A) :
  shape0 (np_full r c x) = r.
Proof. unfold shape0, np_full. simpl. by rewrite length_replicate. Qed.

Lemma new_row_of_vertices_shape (s : Unsteady.solver) (step wi : nat)
    (this_wing : Wing.t) (row : ndarray Vec3) :
  Unsteady.new_row_of_vertices s step wi this_wing = Ok row ->
  same_shape (np_full 1 (Wing.num_spanwise_panels this_wing + 1) vzero) row.
Proof.
  unfold Unsteady.new_row_of_vertices.
  apply for_each_same_shape. intros sp b b' H.
  apply bind_Ok_inv in H as (next_wing & _ & H).
  apply bind_Ok_inv in H as (next_panel & _ & H).
  apply bind_Ok_inv in H as (freestream & _ & H).
  apply bind_Ok_inv in H as (b1 & H1 & H).
  apply set2_same_shape in H1.
  destruct (decide _); [|by injection H as <-].
  eapply same_shape_trans; [exact H1|by eapply set2_same_shape].
Qed.

Lemma convect_into_row_shape (freestream : option Vec3) (dt : Q)
    (vertices new_row row : ndarray Vec3) :
  Unsteady.convect_into_row freestream dt vertices new_row = Ok row ->
  same_shape new_row row.
Proof.
  unfold Unsteady.convect_into_row.
  apply for_each_same_shape. intros cv b b'.
  apply for_each_same_shape. intros sv b1 b1' H.
  apply bind_Ok_inv in H as (v & _ & H).
  apply bind_Ok_inv in H as (f & _ & H). by eapply set2_same_shape.
Qed.

Lemma convect_in_place_shape (freestream : option Vec3) (dt : Q)
    (vertices vertices' : ndarray Vec3) :
  Unsteady.convect_in_place freestream dt vertices = Ok vertices' ->
  same_shape vertices vertices'.
Proof.
  unfold Unsteady.convect_in_place.
  apply for_each_same_shape. intros cv b b'.
  apply for_each_same_shape. intros sv b1 b1' H.
  apply bind_Ok_inv in H as (v & _ & H).
  apply bind_Ok_inv in H as (f & _ & H). by eapply set2_same_shape.
Qed.

Lemma same_shape_np_full {A : Type} (r c : nat) (x : A) (a : ndarray A) :
  same_shape (np_full r c x) a ->
  shape1 a = c /\ shape0 a = r /\ wf_ndarray a.
Proof.
  intros H. split; [by destruct H as [<- _]|]. split.
  - rewrite <- (same_shape_shape0 _ _ H). apply np_full_shape0.
  - eapply same_shape_wf; [exact H|apply np_full_wf].
Qed.

Lemma wing_step_at (K wi : nat) (R : Wing.t -> Wing.t -> Prop)
    (s s' : Unsteady.solver) (w0 : Wing.t) :
  wing_step K wi R s s' -> Unsteady.wing_at K wi s = Ok w0 ->
  wing_step K wi (fun w w' => w = w0 /\ R w w') s s'.
Proof.
  intros (A1 & A2 & A3 & A4) H. apply wing_at_Ok in H as (a0 & Ha0 & Hw0).
  repeat (split; [assumption|]).
  intros a Ha. destruct (A4 a Ha) as (a' & Ha' & Hl & Ho & Hw).
  exists a'. repeat (split; [assumption|]).
  intros w Hwi. destruct (Hw w Hwi) as (w' & Hwi' & HR1).
  exists w'. repeat split; [assumption| |assumption]. congruence.
Qed.

(** *** The vertices *)

Lemma attach_trailing_edge_rings_frame (step wi : nat) (this_wing : Wing.t)
    (new_row : ndarray Vec3) (s s' : Unsteady.solver) :
  Unsteady.attach_trailing_edge_rings step wi this_wing new_row s = Ok s' ->
  wing_step (step + 1) wi (fun w w' => wake_of_wing w' = wake_of_wing w) s s'.
Proof.
  unfold Unsteady.attach_trailing_edge_rings. intros H.
  eapply (for_each_inv
            (wing_step (step + 1) wi
               (fun w w' => wake_of_wing w' = wake_of_wing w) s));
    [| |exact H]; [|by apply wing_step_refl].
  intros sp st st' _ Hst Hsp.
  apply bind_Ok_inv in Hsp as (next_wing & _ & Hsp).
  apply bind_Ok_inv in Hsp as (c & _ & Hsp).
  apply bind_Ok_inv in Hsp as (sp' & _ & Hsp).
  apply bind_Ok_inv in Hsp as (next_panel & _ & Hsp).
  apply bind_Ok_inv in Hsp as (bl & _ & Hsp).
  apply bind_Ok_inv in Hsp as (br & _ & Hsp).
  apply bind_Ok_inv in Hsp as (ring & _ & Hsp). injection Hsp as <-.
  eapply wing_step_trans; [|exact Hst|].
  2: { apply (wing_step_modify _ _
                (fun w w' => wake_of_wing w' = wake_of_wing w)).
       intros w. reflexivity. }
  simpl. intros w1 w2 w3 H12 H23. congruence.
Qed.

Lemma populate_vertices_of_wing_spec (step wi : nat) (this_wing : Wing.t)
    (s s' : Unsteady.solver) :
  Unsteady.wing_at step wi s = Ok this_wing ->
  Unsteady.populate_vertices_of_wing step wi s = Ok s' ->
  wing_step (step + 1) wi (vertices_shed step this_wing) s s'.
Proof.
  intros Hthis H. unfold Unsteady.populate_vertices_of_wing in H.
  rewrite Hthis in H. simpl in H.
  apply bind_Ok_inv in H as (next_wing & Hnext & H).
  destruct (decide (step = 0)) as [Hstep|Hstep].
  - apply bind_Ok_inv in H as (new_row & Hrow & H).
    apply bind_Ok_inv in H as (s1 & Hs1 & H).
    apply bind_Ok_inv in H as (next_wing' & Hnext' & H).
    apply bind_Ok_inv in H as (v1 & Hv1 & H).
    apply bind_Ok_inv in H as (row2 & Hrow2 & H).
    apply bind_Ok_inv in H as (v2 & Hv2 & H). injection H as <-.
    apply attach_trailing_edge_rings_frame in Hs1.
    destruct (wing_step_wing_at _ _ _ _ _ _ Hs1 Hnext) as (w' & Hw' & Hwake).
    rewrite Hnext' in Hw'. injection Hw' as <-.
    apply new_row_of_vertices_shape, same_shape_np_full in Hrow
      as (Hr1 & Hr0 & Hrwf).
    apply convect_into_row_shape, same_shape_np_full in Hrow2
      as (Hq1 & Hq0 & Hqwf).
    eapply wing_step_trans;
      [|exact (wing_step_at _ _ _ _ _ _ Hs1 Hnext)|].
    2: { apply (wing_step_modify _ _
                  (fun w w' =>
                     w' = Wing.set_wake_ring_vortex_vertices v2 w)).
         intros w. reflexivity. }
    simpl. intros w1 w2 w3 [-> H12] ->. unfold vertices_shed.
    destruct (decide (step = 0)); [|contradiction].
    unfold wake_of_wing in H12, Hwake.
    injection H12 as E1 E2 E3 E4. injection Hwake as F1 F2 F3 F4.
    simpl. repeat (split; [assumption|]).
    pose proof (vstack_shape0 _ _ _ Hv1) as S1.
    pose proof (vstack_shape0 _ _ _ Hv2) as S2.
    pose proof (vstack_Ok _ _ _ Hv1) as [T1 U1].
    pose proof (vstack_Ok _ _ _ Hv2) as [T2 U2].
    rewrite F3 in *.
    split; [|split].
    + rewrite U2. simpl. rewrite U1. simpl. congruence.
    + lia.
    + intros Hwf. eapply vstack_wf; [exact Hv2| |exact Hqwf].
      eapply vstack_wf; [exact Hv1|exact Hwf|exact Hrwf].
  - apply bind_Ok_inv in H as (conv & Hconv & H).
    apply bind_Ok_inv in H as (new_row & Hrow & H).
    apply bind_Ok_inv in H as (s1 & Hs1 & H).
    apply bind_Ok_inv in H as (v & Hv & H). injection H as <-.
    apply attach_trailing_edge_rings_frame in Hs1.
    apply new_row_of_vertices_shape, same_shape_np_full in Hrow
      as (Hr1 & Hr0 & Hrwf).
    apply convect_in_place_shape in Hconv.
    eapply wing_step_trans; [|exact Hs1|].
    2: { apply (wing_step_modify _ _
                  (fun w w' =>
                     w' = Wing.set_wake_ring_vortex_vertices v w)).
         intros w. reflexivity. }
    simpl. intros w1 w2 w3 H12 ->. unfold vertices_shed.
    destruct (decide (step = 0)); [contradiction|].
    unfold wake_of_wing in H12. injection H12 as E1 E2 E3 E4.
    simpl. repeat (split; [assumption|]).
    pose proof (vstack_shape0 _ _ _ Hv) as S1.
    pose proof (vstack_Ok _ _ _ Hv) as [T1 U1].
    pose proof (same_shape_shape0 _ _ Hconv) as S2.
    split; [|split].
    + rewrite U1. simpl. congruence.
    + lia.
    + intros Hwf. eapply vstack_wf; [exact Hv|exact Hrwf|].
      by eapply same_shape_wf.
Qed.

(** *** The ring vortices *)

Lemma shed_rings_inv_moved (this_wing : Wing.t)
    (rings0 rings rings' : ndarray (option RingVortex.t)) (r c : nat)
    (ring : RingVortex.t) (fl fr bl br : Vec3) :
  shed_rings_inv this_wing rings0 rings ->
  get2 rings (S r) c = Ok (Some ring) ->
  set2 rings (S r) c (Some (RingVortex.update_position fl fr bl br ring))
    = Ok rings' ->
  shed_rings_inv this_wing rings0 rings'.
Proof.
  intros (I1 & I2 & I3) Hget Hset. split; [|split].
  - eapply same_shape_trans; [exact I1|by eapply set2_same_shape].
  - intros r' c' o Ho. destruct (I2 r' c' o Ho) as (o' & Ho' & Hrel).
    destruct (decide ((S r', c') = (S r, c))) as [E|Hne].
    + injection E as -> ->. rewrite Hget in Ho'. injection Ho' as <-.
      eexists. split; [by eapply get2_set2_eq|].
      destruct o as [r0|]; simpl in *; [|done]. by apply moved_update.
    + exists o'. split; [|exact Hrel].
      by rewrite (get2_set2_ne _ _ _ _ _ _ _ Hset Hne).
  - intros c' ring' Hc'. apply I3.
    rewrite (get2_set2_ne _ _ _ _ 0 c' _ Hset) in Hc'; [exact Hc'|].
    intros E. discriminate E.
Qed.

Lemma shed_rings_inv_new (this_wing : Wing.t)
    (rings0 rings rings' : ndarray (option RingVortex.t)) (c : nat)
    (panel : Panel.t) (g : option Q) (fl fr bl br : Vec3) :
  shed_rings_inv this_wing rings0 rings ->
  get2_py (Wing.panels this_wing) (trailing_edge_position this_wing)
    (Z.of_nat c) = Ok panel ->
  ring_strength panel = Ok g ->
  set2 rings 0 c (Some (RingVortex.new fl fr bl br g)) = Ok rings' ->
  shed_rings_inv this_wing rings0 rings'.
Proof.
  intros (I1 & I2 & I3) Hpanel Hg Hset. split; [|split].
  - eapply same_shape_trans; [exact I1|by eapply set2_same_shape].
  - intros r' c' o Ho. destruct (I2 r' c' o Ho) as (o' & Ho' & Hrel).
    exists o'. split; [|exact Hrel].
    rewrite (get2_set2_ne _ _ _ _ (S r') c' _ Hset); [exact Ho'|].
    intros E. discriminate E.
  - intros c' ring' Hc'. destruct (decide (c' = c)) as [->|Hne].
    + rewrite (get2_set2_eq _ _ _ _ _ Hset) in Hc'. injection Hc' as <-.
      exists panel. by split.
    + apply I3. rewrite (get2_set2_ne _ _ _ _ 0 c' _ Hset) in Hc';
        [exact Hc'|]. intros E. injection E as E. contradiction.
Qed.

Lemma populate_vortex_inv (this_wing : Wing.t) (vertices : ndarray Vec3)
    (cv sv : nat) (rings0 rings rings' : ndarray (option RingVortex.t)) :
  shed_rings_inv this_wing rings0 rings ->
  Unsteady.populate_vortex this_wing vertices cv sv rings = Ok rings' ->
  shed_rings_inv this_wing rings0 rings'.
Proof.
  intros Hinv H. unfold Unsteady.populate_vortex in H.
  destruct (_ && _); [|by injection H as <-].
  apply bind_Ok_inv in H as (fl & _ & H).
  apply bind_Ok_inv in H as (fr & _ & H).
  apply bind_Ok_inv in H as (bl & _ & H).
  apply bind_Ok_inv in H as (br & _ & H).
  apply bind_Ok_inv in H as (rings1 & H1 & H).
  assert (shed_rings_inv this_wing rings0 rings1) as Hinv1.
  { destruct (bool_decide (0 < cv)) eqn:Hcv; [|by injection H1 as <-].
    apply bool_decide_eq_true in Hcv.
    destruct cv as [|r]; [lia|].
    apply bind_Ok_inv in H1 as (o & Ho & H1).
    apply bind_Ok_inv in H1 as (ring & Hring & H1).
    apply of_option_Ok in Hring. subst o.
    by eapply shed_rings_inv_moved. }
  destruct (bool_decide (cv = 0)) eqn:Hcv; [|by injection H as <-].
  apply bool_decide_eq_true in Hcv. subst cv.
  apply bind_Ok_inv in H as (panel & Hpanel & H).
  apply bind_Ok_inv in H as (g & Hg & H).
  by eapply shed_rings_inv_new.
Qed.

Lemma wing_step_modify_at (K wi : nat) (R : Wing.t -> Wing.t -> Prop)
    (f : Wing.t -> Wing.t) (s : Unsteady.solver) (w0 : Wing.t) :
  Unsteady.wing_at K wi s = Ok w0 -> R w0 (f w0) ->
  wing_step K wi R s (Unsteady.modify_wing_at K wi f s).
Proof.
  intros H HR.
  eapply wing_step_weaken;
    [|apply (wing_step_at _ _ (fun w w' => w' = f w) _ _ w0);
      [by apply wing_step_modify|exact H]].
  simpl. by intros w w' [-> ->].
Qed.

Lemma populate_vortices_of_wing_spec (step wi : nat)
    (this_airplane_copy : Airplane.t) (this_wing : Wing.t)
    (s s' : Unsteady.solver) :
  Airplane.wings this_airplane_copy !! wi = Some this_wing ->
  Unsteady.populate_vortices_of_wing step wi this_airplane_copy s = Ok s' ->
  wing_step (step + 1) wi (rings_shed this_wing) s s'.
Proof.
  intros Hthis H. unfold Unsteady.populate_vortices_of_wing in H.
  unfold get_item in H. rewrite Hthis in H. simpl in H.
  apply bind_Ok_inv in H as (next_wing & Hnext & H).
  apply bind_Ok_inv in H as (u & _ & H).
  apply bind_Ok_inv in H as (rings0 & Hrings0 & H).
  apply bind_Ok_inv in H as (rings & Hrings & H). injection H as <-.
  apply (wing_step_modify_at _ _ _ _ _ next_wing Hnext).
  pose proof (vstack_Ok _ _ _ Hrings0) as [T1 U1]. simpl in T1.
  assert (shed_rings_inv this_wing rings0 rings) as (I1 & I2 & I3).
  { eapply (for_each_inv (shed_rings_inv this_wing rings0));
      [| |exact Hrings].
    - intros cv b b' _ Hb Hcv.
      eapply (for_each_inv (shed_rings_inv this_wing rings0));
        [| |exact Hcv]; [|exact Hb].
      intros sv b1 b1' _ Hb1 Hsv. by eapply populate_vortex_inv.
    - split; [apply same_shape_refl|]. split.
      + intros r c o Ho. exists o. split; [exact Ho|apply ring_rel_refl].
      + intros c ring Hc. rewrite U1 in Hc. apply get2_Ok in Hc
          as (row & Hrow & Hc). simpl in Hrow. injection Hrow as <-.
        apply lookup_replicate in Hc as [Hc _]. discriminate Hc. }
  unfold rings_shed. simpl. repeat (split; [reflexivity|]).
  pose proof (same_shape_shape0 _ _ I1) as S1.
  destruct I1 as [J1 J2].
  split; [by rewrite <- J1, U1|]. split; [by rewrite <- J1, U1|].
  split; [by rewrite <- S1, U1|]. split.
  { intros Hwf. eapply same_shape_wf; [by split|].
    eapply vstack_wf; [exact Hrings0|apply np_full_wf|exact Hwf]. }
  split; [|exact I3].
  intros r c o Ho. apply I2. rewrite U1. apply get2_Ok in Ho
    as (row & Hrow & Ho). apply get2_Ok. exists row. by split.
Qed.

(** *** The loops over the wings *)

Lemma wings_step_refl (K : nat) (R : nat -> Wing.t -> Wing.t -> Prop)
    (s : Unsteady.solver) : wings_step K 0 R s s.
Proof.
  split; [apply same_settings_refl|]. split; [reflexivity|].
  split; [done|]. intros a Ha. exists a. repeat split; [done..|].
  intros i w Hi. lia.
Qed.

Lemma wings_loop (K n : nat) (R : nat -> Wing.t -> Wing.t -> Prop)
    (body : nat -> Unsteady.solver -> result Unsteady.solver)
    (s s' : Unsteady.solver) :
  (forall wi st st',
     wi < n -> wings_step K wi R s st ->
     body wi st = Ok st' -> wing_step K wi (R wi) st st') ->
  for_each (range n) body s = Ok s' -> wings_step K n R s s'.
Proof.
  intros Hbody H.
  eapply (for_each_range_inv (fun i st => wings_step K i R s st));
    [| |exact H]; [|apply wings_step_refl].
  intros i st st' Hi Hinv Hst.
  destruct (Hbody i st st' Hi Hinv Hst) as (B1 & B2 & B3 & B4).
  destruct Hinv as (A1 & A2 & A3 & A4).
  split; [by eapply same_settings_trans|]. split; [congruence|]. split.
  { intros j Hj. by rewrite B3, A3. }
  intros a Ha. destruct (A4 a Ha) as (a' & Ha' & Hl & Hge & Hlt).
  destruct (B4 a' Ha') as (a'' & Ha'' & Hl' & Ho & Hw).
  exists a''. split; [exact Ha''|]. split; [congruence|]. split.
  { intros j Hj. rewrite Ho by lia. apply Hge. lia. }
  intros j w Hj Hjw. destruct (decide (j = i)) as [->|Hne].
  - apply Hw. rewrite Hge by lia. exact Hjw.
  - destruct (Hlt j w) as (w' & Hw' & HR); [lia|exact Hjw|].
    exists w'. split; [|exact HR]. by rewrite Ho.
Qed.

Lemma wings_step_trans (K n : nat) (R1 R2 R3 : nat -> Wing.t -> Wing.t -> Prop)
    (s1 s2 s3 : Unsteady.solver) :
  (forall i w1 w2 w3, R1 i w1 w2 -> R2 i w2 w3 -> R3 i w1 w3) ->
  wings_step K n R1 s1 s2 -> wings_step K n R2 s2 s3 ->
  wings_step K n R3 s1 s3.
Proof.
  intros HR (A1 & A2 & A3 & A4) (B1 & B2 & B3 & B4).
  split; [by eapply same_settings_trans|].
  split; [congruence|]. split.
  { intros j Hj. by rewrite B3, A3. }
  intros a Ha. destruct (A4 a Ha) as (a' & Ha' & Hl & Ho & Hw).
  destruct (B4 a' Ha') as (a'' & Ha'' & Hl' & Ho' & Hw').
  exists a''. split; [exact Ha''|]. split; [congruence|]. split.
  { intros i Hi. by rewrite Ho', Ho. }
  intros i w Hi Hwi. destruct (Hw i w Hi Hwi) as (w' & Hwi' & HR1).
  destruct (Hw' i w' Hi Hwi') as (w'' & Hwi'' & HR2). eauto.
Qed.

Lemma populate_next_airplanes_wake_spec (s s' : Unsteady.solver) (k : nat)
    (this : Airplane.t) :
  Unsteady.current_step s = Some k ->
  k < Unsteady.num_steps s - 1 ->
  Unsteady.airplanes s !! k = Some this ->
  Unsteady.populate_next_airplanes_wake s = Ok s' ->
  (exists next, Unsteady.airplanes s !! (k + 1) = Some next) /\
  wings_step (k + 1) (length (Airplane.wings this))
    (fun i w w' =>
       exists this_wing,
         Airplane.wings this !! i = Some this_wing /\
         shed k this_wing w w') s s'.
Proof.
  intros Hk Hlt Hthis H. unfold Unsteady.populate_next_airplanes_wake in H.
  apply bind_Ok_inv in H as (s2 & Hverts & Hrings).
  unfold Unsteady.populate_next_airplanes_wake_vortex_vertices in Hverts.
  apply bind_Ok_inv in Hverts as (step & Hstep & Hverts).
  apply of_option_Ok in Hstep. rewrite Hk in Hstep. injection Hstep as <-.
  destruct (decide (k < Unsteady.num_steps s - 1)); [|lia].
  apply bind_Ok_inv in Hverts as (next & Hnext & Hverts).
  apply get_item_Ok in Hnext.
  apply bind_Ok_inv in Hverts as (this0 & Hthis0 & Hverts).
  apply get_item_Ok in Hthis0. rewrite Hthis in Hthis0.
  injection Hthis0 as <-.
  split; [by exists next|].
  apply (wings_loop (k + 1) _
           (fun i w w' =>
              exists this_wing,
                Airplane.wings this !! i = Some this_wing /\
                vertices_shed k this_wing w w')) in Hverts.
  2: { intros wi st st' Hwi (Hset & _ & Hother & _) Hbody.
       pose proof Hbody as Hbody'.
       unfold Unsteady.populate_vertices_of_wing in Hbody'.
       apply bind_Ok_inv in Hbody' as (this_wing & Hw & _).
       pose proof Hw as Hw'.
       apply wing_at_Ok in Hw' as (a & Ha & Hwa).
       rewrite Hother, Hthis in Ha by lia. injection Ha as <-.
       eapply wing_step_weaken;
         [|by eapply populate_vertices_of_wing_spec].
       simpl. intros w w' Hshed. by exists this_wing. }
  pose proof Hverts as (A1 & A2 & A3 & A4).
  unfold Unsteady.populate_next_airplanes_wake_vortices in Hrings.
  apply bind_Ok_inv in Hrings as (step & Hstep & Hrings).
  apply of_option_Ok in Hstep.
  destruct A1 as (N1 & N2 & N3 & N4 & N5 & N6).
  rewrite N4, Hk in Hstep. injection Hstep as <-.
  rewrite N1 in Hrings.
  destruct (decide (k < Unsteady.num_steps s - 1)); [|lia].
  apply bind_Ok_inv in Hrings as (next2 & Hnext2 & Hrings).
  apply bind_Ok_inv in Hrings as (this2 & Hthis2 & Hrings).
  apply get_item_Ok in Hthis2. rewrite A3, Hthis in Hthis2 by lia.
  injection Hthis2 as <-.
  apply (wings_loop (k + 1) _
           (fun i w w' =>
              exists this_wing,
                Airplane.wings this !! i = Some this_wing /\
                rings_shed this_wing w w')) in Hrings.
  2: { intros wi st st' Hwi _ Hbody.
       pose proof Hbody as Hbody'.
       unfold Unsteady.populate_vortices_of_wing in Hbody'.
       apply bind_Ok_inv in Hbody' as (this_wing & Hw & _).
       apply get_item_Ok in Hw.
       eapply wing_step_weaken;
         [|by eapply populate_vortices_of_wing_spec].
       simpl. intros w w' Hshed. by exists this_wing. }
  eapply wings_step_trans; [|exact Hverts|exact Hrings].
  simpl. intros i w1 w2 w3 (tw & Htw & Hv) (tw' & Htw' & Hr).
  rewrite Htw in Htw'. injection Htw' as <-.
  exists tw. split; [exact Htw|]. by exists w2.
Qed.

(** *** One time step *)

Lemma time_step_spec (verbose : bool) (k : nat) (s s' : Unsteady.solver) :
  k + 1 < Unsteady.num_steps s ->
  Unsteady.time_step verbose k s = Ok s' ->
  time_step_rel k s s'.
Proof.
  intros Hlt H. unfold Unsteady.time_step in H.
  apply bind_Ok_inv in H as (a0 & Ha0 & H). apply get_item_Ok in Ha0.
  apply bind_Ok_inv in H as (op & _ & H). cbv zeta in H.
  apply bind_Ok_inv in H as (s1 & H1 & H).
  apply bind_Ok_inv in H as (s2 & H2 & H).
  apply bind_Ok_inv in H as (s3 & H3 & H).
  apply bind_Ok_inv in H as (s4 & H4 & H).
  apply bind_Ok_inv in H as (s5 & H5 & H).
  apply bind_Ok_inv in H as (s6 & H6 & H).
  apply bind_Ok_inv in H as (u & _ & H). injection H as <-.
  destruct (influences_frame _ _ (or_introl H1))
    as [(a1 & _ & _ & a4 & _ & _) E1].
  simpl in a1, a4, E1.
  destruct (influences_frame _ _ (or_intror (or_introl H2)))
    as [(b1 & _ & _ & b4 & _ & _) E2].
  destruct (influences_frame _ _ (or_intror (or_intror H3)))
    as [(c1 & _ & _ & c4 & _ & _) E3].
  assert (Unsteady.current_step s3 = Some k) as Hk3 by congruence.
  destruct (vortex_strengths_frame _ _ _ Hk3 H4)
    as ((d1 & _ & _ & d4 & _ & _) & D2 & D3).
  assert (Unsteady.current_step s4 = Some k) as Hk4 by congruence.
  destruct (near_field_forces_frame _ _ _ Hk4 H5)
    as ((e1 & _ & _ & e4 & _ & _) & F2 & F3).
  assert (Unsteady.current_step s5 = Some k) as Hk5 by congruence.
  assert (Unsteady.airplanes s3 = Unsteady.airplanes s) as E by congruence.
  rewrite E in D2, D3. rewrite Ha0 in D3. simpl in D3.
  apply fmap_Some in D3 as (a4' & Ha4 & Hw4).
  rewrite Ha4 in F3. simpl in F3.
  apply fmap_Some in F3 as (a5 & Ha5 & Hw5).
  unfold forces_view in Hw5. injection Hw5 as Hw5 _.
  assert (k < Unsteady.num_steps s5 - 1) as Hlt5 by lia.
  destruct (populate_next_airplanes_wake_spec _ _ _ _ Hk5 Hlt5 Ha5 H6)
    as [[next Hnext] (G1 & G2 & G3 & G4)].
  destruct (G4 next Hnext) as (next' & Hnext' & Hl & Hge & Hshed).
  split; [destruct G1 as [g1 _]; lia|]. split.
  { intros j Hj Hj'. by rewrite G3, F2, D2. }
  exists a0, a5, next, next'.
  split; [exact Ha0|]. split; [by rewrite G3 by lia|].
  split; [by rewrite <- D2, <- F2 by lia|]. split; [exact Hnext'|].
  split; [congruence|]. split; [exact Hl|]. split; [exact Hge|].
  intros i w Hi Hw. destruct (Hshed i w Hi Hw) as (w' & Hw' & tw & Htw & Hs).
  by exists tw, w'.
Qed.

(** *** The run *)

Lemma run_steps_S (verbose : bool) (n : nat) (s s' : Unsteady.solver) :
  Unsteady.run_steps verbose (S n) s = Ok s' <->
  exists s1, Unsteady.run_steps verbose n s = Ok s1 /\
             Unsteady.time_step verbose n s1 = Ok s'.
Proof.
  unfold Unsteady.run_steps, range. rewrite seq_S, for_each_app. simpl.
  split.
  - intros H. apply bind_Ok_inv in H as (s1 & H1 & H). exists s1.
    split; [exact H1|]. by destruct (Unsteady.time_step verbose n s1).
  - intros (s1 & -> & H). simpl. by rewrite H.
Qed.

Lemma wake_of_airplane_lookup (a a' : Airplane.t) (i : nat) (w' : Wing.t) :
  wake_of_airplane a' = wake_of_airplane a ->
  Airplane.wings a' !! i = Some w' ->
  exists w, Airplane.wings a !! i = Some w /\
            wake_of_wing w' = wake_of_wing w.
Proof.
  unfold wake_of_airplane. intros E Hw'.
  assert ((wake_of_wing <$> Airplane.wings a') !! i
          = Some (wake_of_wing w')) as H
    by (by rewrite list_lookup_fmap, Hw').
  rewrite E, list_lookup_fmap in H.
  apply fmap_Some in H as (w & Hw & Hv). eauto.
Qed.

Lemma dims_of_airplane_lookup (a a' : Airplane.t) (i : nat) (w : Wing.t) :
  dims_of_airplane a = dims_of_airplane a' ->
  Airplane.wings a !! i = Some w ->
  exists w', Airplane.wings a' !! i = Some w' /\
    Wing.num_chordwise_panels w' = Wing.num_chordwise_panels w /\
    Wing.num_spanwise_panels w' = Wing.num_spanwise_panels w.
Proof.
  unfold dims_of_airplane. intros E Hw.
  assert ((let f w := (Wing.num_chordwise_panels w,
                       Wing.num_spanwise_panels w)
           in f <$> Airplane.wings a) !! i
          = Some (Wing.num_chordwise_panels w, Wing.num_spanwise_panels w))
    as H by (simpl; by rewrite list_lookup_fmap, Hw).
  simpl in H. rewrite E, list_lookup_fmap in H.
  apply fmap_Some in H as (w' & Hw' & Hv). injection Hv as E1 E2. eauto.
Qed.

Lemma dims_of_airplane_length (a a' : Airplane.t) :
  dims_of_airplane a = dims_of_airplane a' ->
  length (Airplane.wings a) = length (Airplane.wings a').
Proof.
  unfold dims_of_airplane. intros E.
  apply (f_equal length) in E. by rewrite !length_fmap in E.
Qed.

Lemma dims_of_wake (a a' : Airplane.t) :
  wake_of_airplane a = wake_of_airplane a' ->
  dims_of_airplane a = dims_of_airplane a'.
Proof.
  unfold wake_of_airplane, dims_of_airplane. intros E.
  apply (f_equal (fmap (fun v : nat * nat * ndarray Vec3
                                * ndarray (option RingVortex.t) =>
                          (v.1.1.1, v.1.1.2)))) in E.
  rewrite <- !list_fmap_compose in E. exact E.
Qed.

Lemma wf_no_rows {A : Type} (a : ndarray A) : shape0 a = 0 -> wf_ndarray a.
Proof.
  unfold shape0, wf_ndarray. intros H.
  apply length_zero_iff_nil in H. rewrite H. constructor.
Qed.

Lemma shed_dims (k : nat) (this_wing w w' : Wing.t) :
  shed k this_wing w w' ->
  Wing.num_chordwise_panels w' = Wing.num_chordwise_panels w /\
  Wing.num_spanwise_panels w' = Wing.num_spanwise_panels w.
Proof.
  intros (w1 & (A1 & A2 & _) & (B1 & B2 & _)). split; congruence.
Qed.

Lemma time_step_rel_dims (k : nat) (s s' : Unsteady.solver) :
  dims_agree s -> time_step_rel k s s' ->
  forall j, dims_of_airplane <$> Unsteady.airplanes s' !! j
            = dims_of_airplane <$> Unsteady.airplanes s !! j.
Proof.
  intros Hd (_ & Ho & this & this' & next & next' & Hthis & Hthis' & Hnext
             & Hnext' & Hwake & Hl & Hge & Hshed) j.
  destruct (decide (j = k)) as [->|Hk].
  { rewrite Hthis, Hthis'. simpl. f_equal. by apply dims_of_wake. }
  destruct (decide (j = k + 1)) as [->|Hk1]; [|by rewrite Ho].
  rewrite Hnext, Hnext'. simpl. f_equal.
  unfold dims_of_airplane. apply list_eq. intros i.
  rewrite !list_lookup_fmap.
  destruct (decide (i < length (Airplane.wings this'))) as [Hi|Hi];
    [|by rewrite Hge by lia].
  destruct (Airplane.wings next !! i) as [w|] eqn:Hw.
  - destruct (Hshed i w Hi Hw) as (tw & w' & _ & Hw' & Hs).
    rewrite Hw'. simpl. apply shed_dims in Hs as [-> ->]. reflexivity.
  - apply lookup_ge_None in Hw. rewrite <- Hl in Hw.
    apply lookup_ge_None in Hw. by rewrite Hw.
Qed.

Lemma dims_agree_preserved (s s' : Unsteady.solver) :
  (forall j, dims_of_airplane <$> Unsteady.airplanes s' !! j
             = dims_of_airplane <$> Unsteady.airplanes s !! j) ->
  dims_agree s -> dims_agree s'.
Proof.
  intros Hsame Hd j j' a a' Ha Ha'.
  pose proof (Hsame j) as Hj. pose proof (Hsame j') as Hj'.
  rewrite Ha in Hj. rewrite Ha' in Hj'. simpl in Hj, Hj'.
  symmetry in Hj, Hj'.
  apply fmap_Some in Hj as (b & Hb & ->).
  apply fmap_Some in Hj' as (b' & Hb' & ->). by eapply Hd.
Qed.

Lemma wake_inv_step (n : nat) (s s' : Unsteady.solver) :
  wake_inv n s -> time_step_rel n s s' -> wake_inv (S n) s'.
Proof.
  intros [Hd Hn] Hrel. split.
  { eapply dims_agree_preserved; [|exact Hd].
    by apply (time_step_rel_dims n). }
  destruct Hrel as (_ & Ho & this & this' & next & next' & Hthis & Hthis'
                    & Hnext & Hnext' & Hwake & Hl & Hge & Hshed).
  intros a w'. replace (S n) with (n + 1) by lia. rewrite Hnext'.
  intros Ha Hw'. injection Ha as <-.
  apply list_elem_of_lookup in Hw' as [i Hi].
  pose proof (Hd _ _ _ _ Hthis Hnext) as Hdims.
  pose proof (dims_of_airplane_length _ _ Hdims) as Hlen.
  pose proof (dims_of_airplane_length _ _ (dims_of_wake _ _ Hwake)) as Hlen'.
  assert (i < length (Airplane.wings next)) as Hlt.
  { rewrite <- Hl. by eapply lookup_lt_Some. }
  destruct (lookup_lt_is_Some_2 (Airplane.wings next) i Hlt) as [w Hw].
  destruct (Hshed i w) as (tw & w'' & Htw & Hw'' & Hs); [lia|exact Hw|].
  rewrite Hi in Hw''. injection Hw'' as <-.
  destruct (wake_of_airplane_lookup _ _ _ _ Hwake Htw) as (tw0 & Htw0 & Etw).
  destruct (dims_of_airplane_lookup _ _ _ _ Hdims Htw0) as (w0 & Hw0 & D1 & D2).
  rewrite Hw in Hw0. injection Hw0 as <-.
  unfold wake_of_wing in Etw. injection Etw as T1 T2 T3 T4.
  destruct Hs as (w1 & (A1 & A2 & A3 & A4 & A5 & A6)
                  & (B1 & B2 & B3 & B4 & B5 & B6 & B7 & _)).
  unfold wake_shape. cbv zeta. rewrite B3.
  destruct n as [|m].
  - destruct (decide (0 = 0)) as [_|]; [|done].
    destruct (Hn _ _ w Hnext) as [V0 _]; [by eapply list_elem_of_lookup_2|].
    destruct (Hn _ _ tw0 Hthis) as [_ R0]; [by eapply list_elem_of_lookup_2|].
    rewrite <- T4 in R0.
    repeat split.
    + lia.
    + rewrite A4. lia.
    + apply A6. by apply wf_no_rows.
    + lia.
    + rewrite B4, A4. lia.
    + apply B7. by apply wf_no_rows.
  - destruct (decide (S m = 0)) as [|_]; [done|].
    destruct (Hn this tw0 Hthis) as (V0 & V1 & Vwf & R0 & R1 & Rwf);
      [by eapply list_elem_of_lookup_2|].
    rewrite <- T3 in V0, V1, Vwf. rewrite <- T4 in R0, R1, Rwf.
    repeat split.
    + lia.
    + rewrite A4. lia.
    + by apply A6.
    + lia.
    + rewrite B4, A4. lia.
    + by apply B7.
Qed.

Lemma run_steps_wake_inv (verbose : bool) (n : nat) (s1 s : Unsteady.solver) :
  wake_inv 0 s1 -> n < Unsteady.num_steps s1 ->
  Unsteady.run_steps verbose n s1 = Ok s ->
  wake_inv n s /\ Unsteady.num_steps s = Unsteady.num_steps s1.
Proof.
  intros H0. revert s. induction n as [|n IH]; intros s Hn H.
  - injection H as <-. by split.
  - apply run_steps_S in H as (sn & Hsn & Hstep).
    destruct (IH sn) as [Hinv Hnum]; [lia|exact Hsn|].
    assert (time_step_rel n sn s) as Hrel.
    { eapply time_step_spec; [|exact Hstep]. lia. }
    split; [by eapply wake_inv_step|].
    destruct Hrel as [-> _]. exact Hnum.
Qed.

Lemma initial_movement_initialized (s0 s1 : Unsteady.solver) :
  initial_movement s0 -> Unsteady.initialize_panel_vortices s0 = Ok s1 ->
  wake_inv 0 s1 /\ Unsteady.num_steps s1 = Unsteady.num_steps s0.
Proof.
  intros [Hd Hw] H. apply initialize_panel_vortices_frame in H as [Hset Hs].
  split; [|by destruct Hset as [-> _]]. split.
  - eapply dims_agree_preserved; [|exact Hd]. intros j.
    pose proof (Hs j) as Hj.
    destruct (Unsteady.airplanes s1 !! j) as [a1|],
             (Unsteady.airplanes s0 !! j) as [a0|]; simpl in *;
      try discriminate; [|reflexivity].
    injection Hj as Hj. f_equal. by apply dims_of_wake.
  - intros j a w Ha Hin. pose proof (Hs j) as Hj. rewrite Ha in Hj.
    simpl in Hj. symmetry in Hj. apply fmap_Some in Hj as (a0 & Ha0 & E).
    apply list_elem_of_lookup in Hin as [i Hi].
    destruct (wake_of_airplane_lookup _ _ _ _ E Hi) as (w0 & Hw0 & Ew).
    unfold wake_of_wing in Ew. injection Ew as _ _ -> ->.
    eapply Hw; [exact Ha0|]. by eapply list_elem_of_lookup_2.
Qed.

(** A ring vortex of the wake of the airplane at [n] is, after the time
    step [n], one row further down in the wake of the airplane at
    [n + 1]: the same ring vortex, moved. *)
Lemma wake_ring_moves_on (n wi r c : nat) (s s' : Unsteady.solver)
    (w : Wing.t) (ring : RingVortex.t) :
  dims_agree s -> time_step_rel n s s' ->
  Unsteady.wing_at n wi s = Ok w ->
  get2 (Wing.wake_ring_vortices w) r c = Ok (Some ring) ->
  exists w' ring',
    Unsteady.wing_at (n + 1) wi s' = Ok w' /\
    get2 (Wing.wake_ring_vortices w') (S r) c = Ok (Some ring') /\
    moved ring ring'.
Proof.
  intros Hd (_ & Ho & this & this' & next & next' & Hthis & Hthis'
             & Hnext & Hnext' & Hwake & Hl & Hge & Hshed) Hw Hring.
  apply wing_at_Ok in Hw as (a & Ha & Hw). rewrite Hthis in Ha.
  injection Ha as <-.
  pose proof (Hd _ _ _ _ Hthis Hnext) as Hdims.
  destruct (dims_of_airplane_lookup _ _ _ _ Hdims Hw) as (wn & Hwn & _).
  pose proof (dims_of_airplane_length _ _ (dims_of_wake _ _ Hwake)) as Hlen.
  assert (wi < length (Airplane.wings this')) as Hlt.
  { rewrite Hlen. by eapply lookup_lt_Some. }
  destruct (Hshed wi wn Hlt Hwn) as (tw & w' & Htw & Hw' & Hs).
  destruct (wake_of_airplane_lookup _ _ _ _ Hwake Htw) as (w0 & Hw0 & Etw).
  rewrite Hw in Hw0. injection Hw0 as <-.
  unfold wake_of_wing in Etw. injection Etw as _ _ _ T4.
  destruct Hs as (w1 & _ & (_ & _ & _ & _ & _ & _ & _ & Hrel & _)).
  rewrite <- T4 in Hring.
  destruct (Hrel r c _ Hring) as ([ring'|] & Hget & Hmoved); [|done].
  exists w', ring'. split; [|by split]. apply wing_at_Ok. eauto.
Qed.

(** A ring vortex of the first row of the wake of the airplane at
    [n + 1] has, after the time step [n], the strength of the ring vortex
    of the trailing-edge panel above it. *)
Lemma shed_row_strength (n wi c : nat) (s s' : Unsteady.solver)
    (w' : Wing.t) (ring : RingVortex.t) :
  dims_agree s -> time_step_rel n s s' ->
  Unsteady.wing_at (n + 1) wi s' = Ok w' ->
  get2 (Wing.wake_ring_vortices w') 0 c = Ok (Some ring) ->
  exists this_wing panel,
    Unsteady.wing_at n wi s' = Ok this_wing /\
    get2_py (Wing.panels this_wing) (trailing_edge_position this_wing)
      (Z.of_nat c) = Ok panel /\
    ring_strength panel = Ok (RingVortex.strength ring).
Proof.
  intros Hd (_ & Ho & this & this' & next & next' & Hthis & Hthis'
             & Hnext & Hnext' & Hwake & Hl & Hge & Hshed) Hw Hring.
  apply wing_at_Ok in Hw as (a & Ha & Hw). rewrite Hnext' in Ha.
  injection Ha as <-.
  pose proof (dims_of_airplane_length _ _ (Hd _ _ _ _ Hthis Hnext)) as Hlen.
  pose proof (dims_of_airplane_length _ _ (dims_of_wake _ _ Hwake)) as Hlen'.
  assert (wi < length (Airplane.wings next)) as Hlt.
  { rewrite <- Hl. by eapply lookup_lt_Some. }
  destruct (lookup_lt_is_Some_2 (Airplane.wings next) wi Hlt) as [wn Hwn].
  destruct (Hshed wi wn) as (tw & w'' & Htw & Hw'' & Hs); [lia|exact Hwn|].
  rewrite Hw in Hw''. injection Hw'' as <-.
  destruct Hs as (w1 & _ & (_ & _ & _ & _ & _ & _ & _ & _ & Hrow)).
  destruct (Hrow c ring Hring) as (panel & Hpanel & Hg).
  exists tw, panel. split; [|by split]. apply wing_at_Ok. eauto.
Qed.

Lemma shed_ring_chain (verbose : bool) (j d wi c : nat)
    (s1 sj : Unsteady.solver) (wj : Wing.t) (ring : RingVortex.t) :
  wake_inv 0 s1 ->
  Unsteady.run_steps verbose (j + 1) s1 = Ok sj ->
  Unsteady.wing_at (j + 1) wi sj = Ok wj ->
  get2 (Wing.wake_ring_vortices wj) 0 c = Ok (Some ring) ->
  forall sk,
    j + 1 + d < Unsteady.num_steps s1 ->
    Unsteady.run_steps verbose (j + 1 + d) s1 = Ok sk ->
    exists wk ring',
      Unsteady.wing_at (j + 1 + d) wi sk = Ok wk /\
      get2 (Wing.wake_ring_vortices wk) d c = Ok (Some ring') /\
      moved ring ring'.
Proof.
  intros H0 Hj Hwj Hring. induction d as [|d IH]; intros sk Hlt Hk.
  - rewrite Nat.add_0_r in *. rewrite Hj in Hk. injection Hk as <-.
    exists wj, ring. repeat split; [assumption..|apply moved_refl].
  - rewrite Nat.add_succ_r in Hk. apply run_steps_S in Hk as (sn & Hn & Hstep).
    destruct (IH sn) as (wn & ringn & Hwn & Hgn & Hmn); [lia|exact Hn|].
    assert (j + 1 + d < Unsteady.num_steps s1) as Hlt' by lia.
    destruct (run_steps_wake_inv _ _ _ _ H0 Hlt' Hn) as [[Hd _] Hnum].
    assert (time_step_rel (j + 1 + d) sn sk) as Hrel.
    { eapply time_step_spec; [|exact Hstep]. lia. }
    destruct (wake_ring_moves_on _ _ _ _ _ _ _ _ Hd Hrel Hwn Hgn)
      as (wk & ring' & Hwk & Hgk & Hmk).
    exists wk, ring'. replace (j + 1 + S d) with (j + 1 + d + 1) by lia.
    split; [exact Hwk|]. split; [exact Hgk|]. by eapply moved_trans.
Qed.

(** C3.  Wake grid shape invariant.  In a run of the unsteady solver
    that starts from a movement whose poses have the same wings and no
    wake, after the wake population of the time step [k], for
    [0 <= k <= num_steps - 2], every wing of the next airplane (the one
    at [k + 1]) has an array of wake vertices of [k + 2] rows and
    [num_spanwise_panels + 1] columns and an array of wake ring vortices
    of [k + 1] rows and [num_spanwise_panels] columns, all rows of both
    arrays being complete; so the vertices have one row and one column
    more than the ring vortices. *)
Theorem wake_grid_shape_after_step (verbose : bool) (k : nat)
    (s0 s1 s : Unsteady.solver) :
  initial_movement s0 ->
  Unsteady.initialize_panel_vortices s0 = Ok s1 ->
  k + 2 <= Unsteady.num_steps s0 ->
  Unsteady.run_steps verbose (k + 1) s1 = Ok s ->
  forall wi w,
    Unsteady.wing_at (k + 1) wi s = Ok w ->
    let vertices := Wing.wake_ring_vortex_vertices w in
    let rings := Wing.wake_ring_vortices w in
    shape0 vertices = k + 2 /\
    shape1 vertices = Wing.num_spanwise_panels w + 1 /\
    shape0 rings = k + 1 /\
    shape1 rings = Wing.num_spanwise_panels w /\
    wf_ndarray vertices /\ wf_ndarray rings /\
    shape0 vertices = shape0 rings + 1 /\
    shape1 vertices = shape1 rings + 1.
Proof.
  intros Hinit H1 Hk Hrun wi w Hw.
  destruct (initial_movement_initialized _ _ Hinit H1) as [H0 Hnum].
  assert (k + 1 < Unsteady.num_steps s1) as Hlt by lia.
  destruct (run_steps_wake_inv _ _ _ _ H0 Hlt Hrun) as [[_ Hshape] _].
  apply wing_at_Ok in Hw as (a & Ha & Hw).
  replace (k + 1) with (S k) in Hshape, Ha by lia.
  destruct (Hshape a w Ha) as (V0 & V1 & Vwf & R0 & R1 & Rwf);
    [by eapply list_elem_of_lookup_2|].
  cbv zeta. repeat split; try assumption; lia.
Qed.

(** C2.  Kelvin's theorem for the shed wake.  In a run of the unsteady
    solver, a ring vortex shed by the time step [j] into the first row
    of the wake of a wing has the strength the ring vortex of the
    trailing-edge panel above it has at that step; and after the wake
    population of every later time step [k] it is found [k - j] rows
    further down in the wake of that wing of the next airplane, with
    the same strength and at most other vertices. *)
Theorem shed_ring_strength_frozen (verbose : bool) (j k wi c : nat)
    (s0 s1 sj sk : Unsteady.solver) (wj : Wing.t) (ring : RingVortex.t) :
  initial_movement s0 ->
  Unsteady.initialize_panel_vortices s0 = Ok s1 ->
  j <= k -> k + 2 <= Unsteady.num_steps s0 ->
  Unsteady.run_steps verbose (j + 1) s1 = Ok sj ->
  Unsteady.run_steps verbose (k + 1) s1 = Ok sk ->
  Unsteady.wing_at (j + 1) wi sj = Ok wj ->
  get2 (Wing.wake_ring_vortices wj) 0 c = Ok (Some ring) ->
  (exists this_wing panel,
     Unsteady.wing_at j wi sj = Ok this_wing /\
     get2_py (Wing.panels this_wing) (trailing_edge_position this_wing)
       (Z.of_nat c) = Ok panel /\
     ring_strength panel = Ok (RingVortex.strength ring)) /\
  (exists wk ring',
     Unsteady.wing_at (k + 1) wi sk = Ok wk /\
     get2 (Wing.wake_ring_vortices wk) (k - j) c = Ok (Some ring') /\
     RingVortex.strength ring' = RingVortex.strength ring /\
     moved ring ring').
Proof.
  intros Hinit H1 Hjk Hk Hj Hrun Hwj Hring.
  destruct (initial_movement_initialized _ _ Hinit H1) as [H0 Hnum].
  split.
  - replace (j + 1) with (S j) in Hj by lia.
    apply run_steps_S in Hj as (sn & Hn & Hstep).
    assert (j < Unsteady.num_steps s1) as Hlt by lia.
    destruct (run_steps_wake_inv _ _ _ _ H0 Hlt Hn) as [[Hd _] Hnum'].
    assert (time_step_rel j sn sj) as Hrel.
    { eapply time_step_spec; [|exact Hstep]. lia. }
    by eapply shed_row_strength.
  - assert (j + 1 + (k - j) < Unsteady.num_steps s1) as Hlt by lia.
    replace (k + 1) with (j + 1 + (k - j)) in Hrun |- * by lia.
    destruct (shed_ring_chain _ _ _ _ _ _ _ _ _ H0 Hj Hwj Hring sk Hlt Hrun)
      as (wk & ring' & Hwk & Hgk & Hmk).
    exists wk, ring'. repeat split; try assumption.
    by apply moved_strength.
Qed.

End Shedding.

(** ** The point at which the velocity of a leg is taken *)

Section LegVelocity.
Context {aero : Aerodynamics}.

Lemma steady_panel_at_modify (wi c sp : nat) (f : Panel.t -> Panel.t)
    (s : Steady.solver) (panel : Panel.t) :
  SteadyRing.panel_at wi c sp s = Ok panel ->
  SteadyRing.panel_at wi c sp (SteadyRing.modify_panel_at wi c sp f s)
    = Ok (f panel).
Proof.
  unfold SteadyRing.panel_at. intros H.
  apply bind_Ok_inv in H as (wing & Hwing & Hpanel).
  apply get_item_Ok in Hwing. simpl. unfold get_item.
  rewrite (alter_lookup_Some _ _ _ _ Hwing). simpl.
  by apply get2_modify_panel.
Qed.

(** C1, as the code has it.  In the unsteady solver the force on a leg
    whose strength [g] is not zero is
    [density * g * (velocity x leg.vector)] with the solution velocity at
    the centre of that leg plus the velocity of that point due to the
    motion, and the moment added is [(leg.center - xyz_ref) x force].
    In the steady ring solver the force attached to a leg whose strength
    is not zero is [density * g * (velocity x leg.vector)] with the
    solution velocity at the centre of the right leg of the ring vortex,
    whichever of the three legs the force is for. *)
Theorem leg_force_velocity_point :
  (forall (s : Unsteady.solver) wi c sp name leg g xyz_ref fm fm',
     nonzero g = true ->
     Unsteady.add_leg s wi c sp name leg (Some g) xyz_ref fm = Ok fm' ->
     exists step op velocity,
       Unsteady.current_step s = Some step /\
       Unsteady.current_operating_point s = Some op /\
       Unsteady.calculate_solution_velocity s (LineVortex.center leg)
         = Ok velocity /\
       let force :=
         vscale (OperatingPoint.density op * g)
           (cross (vadd velocity
                     (get_flapping_velocity_at_point_on_panel wi (Z.of_nat c)
                        (Z.of_nat sp) name step))
                  (LineVortex.vector leg)) in
       fm' = (vadd (fst fm) force,
              vadd (snd fm)
                (cross (vsub (LineVortex.center leg) xyz_ref) force))) /\
  (forall (s s' : Steady.solver) wi c sp g get_leg set_leg,
     nonzero g = true ->
     SteadyRing.near_field_leg wi c sp (Some g) get_leg set_leg s = Ok s' ->
     exists panel ring,
       SteadyRing.panel_at wi c sp s = Ok panel /\
       Panel.ring_vortex panel = Some ring /\
       let velocity :=
         Steady.calculate_solution_velocity s
           (LineVortex.center (RingVortex.right_leg ring)) in
       let force :=
         vscale (OperatingPoint.density (Steady.operating_point s) * g)
           (cross velocity (LineVortex.vector (get_leg ring))) in
       SteadyRing.panel_at wi c sp s'
         = Ok (Panel.set_ring_vortex
                 (Some (set_leg
                          (LineVortex.set_near_field_force force
                             (get_leg ring)) ring)) panel)).
Proof.
  split.
  - intros s wi c sp name leg g xyz_ref fm fm' Hg H.
    by eapply unsteady_leg_force.
  - intros s s' wi c sp g get_leg set_leg Hg H.
    unfold SteadyRing.near_field_leg in H. simpl in H. rewrite Hg in H.
    apply bind_Ok_inv in H as (panel & Hpanel & H).
    apply bind_Ok_inv in H as (ring & Hring & H).
    apply of_option_Ok in Hring. injection H as <-.
    exists panel, ring. split; [exact Hpanel|]. split; [exact Hring|].
    cbv zeta. by apply steady_panel_at_modify.
Qed.

End LegVelocity.

(** ** The streamlines *)

Section Streamlines.
Context {aero : Aerodynamics}.

(** *** The arrays of streamline points *)

Lemma column_steps_0 (velocity : Vec3 -> result Vec3) (dt : Q)
    (p0 : ndarray Vec3) (sp : nat) :
  column_steps velocity dt 0 p0 p0 sp.
Proof.
  split; [apply same_shape_refl|]. split; [done|]. intros step Hstep. lia.
Qed.

Lemma column_steps_S (velocity : Vec3 -> result Vec3) (dt : Q) (t : nat)
    (p0 points points' : ndarray Vec3) (sp : nat) (last v : Vec3) :
  column_steps velocity dt t p0 points sp ->
  get2 points t sp = Ok last -> velocity last = Ok v ->
  set2 points (t + 1) sp (vadd last (vscale dt v)) = Ok points' ->
  column_steps velocity dt (S t) p0 points' sp.
Proof.
  intros (I1 & I2 & I3) Hlast Hv Hset. split; [|split].
  - eapply same_shape_trans; [exact I1|by eapply set2_same_shape].
  - intros i j Hij. rewrite <- I2 by exact Hij.
    apply (get2_set2_ne _ _ _ _ _ _ _ Hset).
    intros E. injection E as -> ->. destruct Hij as [Hj|Hi]; [done|lia].
  - intros step Hstep. destruct (decide (step = t)) as [->|Hne].
    + exists last, v. split; [|split; [exact Hv|]].
      * rewrite <- Hlast. apply (get2_set2_ne _ _ _ _ _ _ _ Hset).
        intros E. injection E as E. lia.
      * by apply (get2_set2_eq _ _ _ _ _ Hset).
    + destruct (I3 step) as (l & u & Hl & Hu & Hn); [lia|].
      exists l, u. split; [|split; [exact Hu|]].
      * rewrite <- Hl. apply (get2_set2_ne _ _ _ _ _ _ _ Hset).
        intros E. injection E as E. lia.
      * rewrite <- Hn. apply (get2_set2_ne _ _ _ _ _ _ _ Hset).
        intros E. injection E as E. lia.
Qed.

Lemma column_steps_ext (velocity velocity' : Vec3 -> result Vec3) (dt : Q)
    (t : nat) (p0 points : ndarray Vec3) (sp : nat) :
  (forall x, velocity x = velocity' x) ->
  column_steps velocity dt t p0 points sp ->
  column_steps velocity' dt t p0 points sp.
Proof.
  intros Hv (I1 & I2 & I3). split; [exact I1|]. split; [exact I2|].
  intros step Hstep. destruct (I3 step Hstep) as (l & u & Hl & Hu & Hn).
  exists l, u. by rewrite <- Hv.
Qed.

Lemma columns_done_0 (velocity : Vec3 -> result Vec3)
    (seed : nat -> result Vec3) (dt : Q) (n : nat) (base : ndarray Vec3) :
  columns_done velocity seed dt n 0 base base.
Proof. split; [apply same_shape_refl|]. intros sp Hsp. lia. Qed.

Lemma columns_done_S (velocity : Vec3 -> result Vec3)
    (seed : nat -> result Vec3) (dt : Q) (n i : nat)
    (base points p0 points' : ndarray Vec3) (seed_point : Vec3) :
  columns_done velocity seed dt n i base points ->
  seed i = Ok seed_point ->
  set2 points 0 i seed_point = Ok p0 ->
  column_steps velocity dt n p0 points' i ->
  columns_done velocity seed dt n (S i) base points'.
Proof.
  intros [I1 I2] Hseed Hset (J1 & J2 & J3). split.
  - eapply same_shape_trans; [exact I1|].
    eapply same_shape_trans; [by eapply set2_same_shape|exact J1].
  - intros sp Hsp. destruct (decide (sp = i)) as [->|Hne].
    + exists seed_point. split; [exact Hseed|]. split; [|exact J3].
      rewrite J2 by (by right). by apply (get2_set2_eq _ _ _ _ _ Hset).
    + destruct (I2 sp) as (sd & Hsd & H0 & Hsteps); [lia|].
      assert (forall r, get2 points' r sp = get2 points r sp) as Hsame.
      { intros r. rewrite J2 by (by left).
        apply (get2_set2_ne _ _ _ _ _ _ _ Hset).
        intros E. injection E as E1 E2. done. }
      exists sd. split; [exact Hsd|]. split; [by rewrite Hsame|].
      intros step Hstep. destruct (Hsteps step Hstep) as (l & u & A & B & C).
      exists l, u. by rewrite !Hsame.
Qed.

Lemma columns_done_all (velocity : Vec3 -> result Vec3)
    (seed : nat -> result Vec3) (dt : Q) (n : nat) (w : Wing.t)
    (points : ndarray Vec3) :
  columns_done velocity seed dt n (Wing.num_spanwise_panels w)
    (np_full (n + 1) (Wing.num_spanwise_panels w) vzero) points ->
  streamlines_of velocity seed dt n w (Wing.set_streamline_points points w).
Proof.
  intros [I1 I2]. apply same_shape_np_full in I1 as (S1 & S0 & Swf).
  unfold streamlines_of. simpl. by repeat split.
Qed.

Lemma streamlines_of_ext (velocity velocity' : Vec3 -> result Vec3)
    (seed seed' : nat -> result Vec3) (dt : Q) (n : nat) (w w' : Wing.t) :
  (forall x, velocity x = velocity' x) -> (forall sp, seed sp = seed' sp) ->
  streamlines_of velocity seed dt n w w' ->
  streamlines_of velocity' seed' dt n w w'.
Proof.
  intros Hv Hs (A & B & C & D & E). repeat (split; [assumption|]).
  intros sp Hsp. destruct (E sp Hsp) as (sd & Hsd & H0 & Hsteps).
  exists sd. split; [by rewrite <- Hs|]. split; [exact H0|].
  intros step Hstep. destruct (Hsteps step Hstep) as (l & u & X & Y & Z).
  exists l, u. by rewrite <- Hv.
Qed.

Lemma alter_alter {A : Type} (f g h : A -> A) (i : nat) (l : list A) :
  (forall x, f (g x) = h x) -> alter f i (alter g i l) = alter h i l.
Proof.
  intros Hfg. apply list_eq. intros j.
  destruct (decide (i = j)) as [->|Hne].
  - rewrite !list_lookup_alter. destruct (decide (j = j)); [|done].
    destruct (l !! j); simpl; [by rewrite Hfg|reflexivity].
  - by rewrite !list_lookup_alter_ne.
Qed.

Lemma fold_left_alter {A B : Type} (g : B -> A -> B) (f : A -> A) (i : nat)
    (l : list A) (b : B) :
  (forall acc x, g acc (f x) = g acc x) ->
  fold_left g (alter f i l) b = fold_left g l b.
Proof.
  intros Hg. revert i b. induction l as [|x l IH]; intros i b; [done|].
  destruct i as [|i]; simpl; [by rewrite Hg|apply IH].
Qed.

Lemma fold_left_pointwise {A B : Type} (g : B -> A -> B) (l l' : list A)
    (b : B) :
  length l' = length l ->
  (forall i x x' acc,
     l !! i = Some x -> l' !! i = Some x' -> g acc x' = g acc x) ->
  fold_left g l' b = fold_left g l b.
Proof.
  revert l b. induction l' as [|x' l' IH]; intros [|x l] b Hlen Hg;
    simpl in *; try discriminate; [reflexivity|].
  rewrite (Hg 0 x x' b) by reflexivity. apply IH; [lia|].
  intros i y y' acc Hy Hy'. by apply (Hg (S i)).
Qed.

(** *** The streamlines of the unsteady solver *)

Lemma unsteady_put_put (k wi : nat) (p p' : ndarray Vec3)
    (s : Unsteady.solver) :
  Unsteady.modify_wing_at k wi (Wing.set_streamline_points p')
    (Unsteady.modify_wing_at k wi (Wing.set_streamline_points p) s)
  = Unsteady.modify_wing_at k wi (Wing.set_streamline_points p') s.
Proof.
  unfold Unsteady.modify_wing_at, Unsteady.modify_airplane,
    Unsteady.set_airplanes. simpl.
  rewrite (alter_alter _ _ (modify_wing wi (Wing.set_streamline_points p')));
    [reflexivity|].
  intros a. unfold modify_wing. simpl.
  rewrite (alter_alter _ _ (Wing.set_streamline_points p')); reflexivity.
Qed.

Lemma unsteady_velocity_put (k wi : nat) (p : ndarray Vec3)
    (s : Unsteady.solver) (x : Vec3) :
  Unsteady.calculate_solution_velocity
    (Unsteady.modify_wing_at k wi (Wing.set_streamline_points p) s) x
  = Unsteady.calculate_solution_velocity s x.
Proof.
  unfold Unsteady.calculate_solution_velocity, Unsteady.current_airplane,
    Unsteady.the_step, attr, Unsteady.airplane_at, get_item. simpl.
  destruct (Unsteady.current_step s) as [k'|]; simpl; [|reflexivity].
  destruct (decide (k = k')) as [->|Hne].
  - rewrite list_lookup_alter. destruct (decide (k' = k')); [|done].
    destruct (Unsteady.airplanes s !! k'); simpl; [|reflexivity].
    rewrite fold_left_alter; [reflexivity|]. intros acc w. reflexivity.
  - by rewrite list_lookup_alter_ne.
Qed.

Lemma unsteady_streamline_of_panel (n : nat) (dt : Q) (k wi sp : nat)
    (s s' : Unsteady.solver) (w : Wing.t) :
  Unsteady.wing_at k wi s = Ok w ->
  Unsteady.streamline_of_panel n dt k wi sp s = Ok s' ->
  exists seed p0 points,
    Unsteady.seed_point s w sp = Ok seed /\
    set2 (Wing.streamline_points w) 0 sp seed = Ok p0 /\
    s' = Unsteady.modify_wing_at k wi (Wing.set_streamline_points points) s /\
    column_steps (Unsteady.calculate_solution_velocity s) dt n p0 points sp.
Proof.
  intros Hw H. unfold Unsteady.streamline_of_panel in H.
  apply bind_Ok_inv in H as (w0 & Hw0 & H). rewrite Hw in Hw0.
  injection Hw0 as <-.
  apply bind_Ok_inv in H as (seed & Hseed & H).
  apply bind_Ok_inv in H as (p0 & Hp0 & H). cbv zeta in H.
  exists seed, p0.
  cut (exists points,
         s' = Unsteady.modify_wing_at k wi
                (Wing.set_streamline_points points) s /\
         column_steps (Unsteady.calculate_solution_velocity s) dt n p0
           points sp).
  { intros (points & Hs' & Hsteps). by exists points. }
  refine (for_each_range_inv
            (fun t st =>
               exists points,
                 st = Unsteady.modify_wing_at k wi
                        (Wing.set_streamline_points points) s /\
                 column_steps (Unsteady.calculate_solution_velocity s) dt t
                   p0 points sp) n _ _ _ _ _ H).
  - intros t st st' Ht (points & -> & Hinv) Hst.
    apply bind_Ok_inv in Hst as (w' & Hw' & Hst).
    rewrite (wing_at_modify_wing_at _ _ _ _ _ Hw) in Hw'.
    injection Hw' as <-. simpl in Hst.
    apply bind_Ok_inv in Hst as (last & Hlast & Hst).
    apply bind_Ok_inv in Hst as (v & Hv & Hst).
    rewrite unsteady_velocity_put in Hv.
    apply bind_Ok_inv in Hst as (points' & Hpoints' & Hst).
    injection Hst as <-. exists points'.
    split; [apply unsteady_put_put|]. by eapply column_steps_S.
  - exists p0. split; [reflexivity|apply column_steps_0].
Qed.

Lemma unsteady_streamlines_of_wing (n : nat) (dt : Q) (k wi : nat)
    (s s' : Unsteady.solver) (w : Wing.t) :
  Unsteady.wing_at k wi s = Ok w ->
  Unsteady.streamlines_of_wing n dt k wi s = Ok s' ->
  exists points,
    s' = Unsteady.modify_wing_at k wi (Wing.set_streamline_points points) s /\
    streamlines_of (Unsteady.calculate_solution_velocity s)
      (Unsteady.seed_point s w) dt n w
      (Wing.set_streamline_points points w).
Proof.
  intros Hw H. unfold Unsteady.streamlines_of_wing in H.
  apply bind_Ok_inv in H as (w0 & Hw0 & H). rewrite Hw in Hw0.
  injection Hw0 as <-. cbv zeta in H.
  cut (exists points,
         s' = Unsteady.modify_wing_at k wi
                (Wing.set_streamline_points points) s /\
         columns_done (Unsteady.calculate_solution_velocity s)
           (Unsteady.seed_point s w) dt n (Wing.num_spanwise_panels w)
           (np_full (n + 1) (Wing.num_spanwise_panels w) vzero) points).
  { intros (points & Hs' & Hdone). exists points.
    split; [exact Hs'|]. by apply columns_done_all. }
  refine (for_each_range_inv
            (fun i st =>
               exists points,
                 st = Unsteady.modify_wing_at k wi
                        (Wing.set_streamline_points points) s /\
                 columns_done (Unsteady.calculate_solution_velocity s)
                   (Unsteady.seed_point s w) dt n i
                   (np_full (n + 1) (Wing.num_spanwise_panels w) vzero)
                   points) _ _ _ _ _ _ H).
  - intros i st st' Hi (points & -> & Hinv) Hst.
    pose proof (wing_at_modify_wing_at _ _
                  (Wing.set_streamline_points points) _ _ Hw) as Hw'.
    destruct (unsteady_streamline_of_panel _ _ _ _ _ _ _ _ Hw' Hst)
      as (seed & p0 & points' & Hseed & Hp0 & -> & Hsteps).
    exists points'. split; [apply unsteady_put_put|].
    eapply columns_done_S; [exact Hinv|exact Hseed|exact Hp0|].
    eapply column_steps_ext; [|exact Hsteps].
    intros x. apply unsteady_velocity_put.
  - eexists. split; [reflexivity|apply columns_done_0].
Qed.

Lemma unsteady_velocity_wings_step (K i : nat)
    (R : nat -> Wing.t -> Wing.t -> Prop) (s st : Unsteady.solver)
    (x : Vec3) :
  (forall j w w', R j w w' -> streamlines_only w w') ->
  wings_step K i R s st ->
  Unsteady.calculate_solution_velocity st x
    = Unsteady.calculate_solution_velocity s x.
Proof.
  intros HR ((_ & _ & _ & Hcs & _ & Hfs) & Hlen & Hother & Hk).
  unfold Unsteady.calculate_solution_velocity, Unsteady.current_airplane,
    Unsteady.the_step, attr, Unsteady.airplane_at, get_item,
    Unsteady.the_freestream_velocity.
  rewrite Hcs, Hfs.
  destruct (Unsteady.current_step s) as [k|]; simpl; [|reflexivity].
  destruct (decide (k = K)) as [->|Hne]; [|by rewrite Hother].
  destruct (Unsteady.airplanes s !! K) as [a|] eqn:Ha.
  - destruct (Hk a eq_refl) as (a' & -> & Hl & Hge & Hlt). simpl.
    rewrite (fold_left_pointwise _ (Airplane.wings a) (Airplane.wings a'));
      [reflexivity|exact Hl|].
    intros j w w' acc Hw Hw'. destruct (decide (j < i)) as [Hj|Hj].
    + destruct (Hlt j w Hj Hw) as (w'' & Hw'' & Hrel).
      rewrite Hw' in Hw''. injection Hw'' as <-.
      apply HR in Hrel. rewrite Hrel. reflexivity.
    + rewrite Hge, Hw in Hw' by lia. by injection Hw' as <-.
  - apply lookup_ge_None in Ha. rewrite <- Hlen in Ha.
    apply lookup_ge_None in Ha. by rewrite Ha.
Qed.

Lemma only_wings_refl (s : Unsteady.solver) : only_wings s s.
Proof.
  split; [by destruct s|]. intros j a Ha. exists a.
  split; [exact Ha|by destruct a].
Qed.

Lemma only_wings_trans (s1 s2 s3 : Unsteady.solver) :
  only_wings s1 s2 -> only_wings s2 s3 -> only_wings s1 s3.
Proof.
  intros [A1 A2] [B1 B2]. split.
  - rewrite B1 at 1. rewrite A1 at 1. reflexivity.
  - intros j a Ha. destruct (A2 j a Ha) as (a' & Ha' & Ea).
    destruct (B2 j a' Ha') as (a'' & Ha'' & Ea'). exists a''.
    split; [exact Ha''|]. rewrite Ea' at 1. rewrite Ea at 1. reflexivity.
Qed.

Lemma only_wings_modify (k wi : nat) (f : Wing.t -> Wing.t)
    (s : Unsteady.solver) :
  only_wings s (Unsteady.modify_wing_at k wi f s).
Proof.
  split; [reflexivity|]. intros j a Ha. simpl.
  destruct (decide (j = k)) as [->|Hne].
  - exists (modify_wing wi f a). split; [by apply alter_lookup_Some|].
    reflexivity.
  - exists a. rewrite list_lookup_alter_ne by done.
    split; [exact Ha|by destruct a].
Qed.

Lemma unsteady_calculate_streamlines (n : nat) (dt : Q) (k : nat)
    (a : Airplane.t) (s s' : Unsteady.solver) :
  Unsteady.current_step s = Some k ->
  Unsteady.airplanes s !! k = Some a ->
  Unsteady.calculate_streamlines n dt s = Ok s' ->
  only_wings s s' /\
  wings_step k (length (Airplane.wings a))
    (fun _ w w' =>
       streamlines_of (Unsteady.calculate_solution_velocity s)
         (Unsteady.seed_point s w) dt n w w') s s'.
Proof.
  intros Hk Ha H. unfold Unsteady.calculate_streamlines in H.
  apply bind_Ok_inv in H as (k0 & Hk0 & H). apply of_option_Ok in Hk0.
  rewrite Hk in Hk0. injection Hk0 as <-.
  apply bind_Ok_inv in H as (a0 & Ha0 & H). apply get_item_Ok in Ha0.
  rewrite Ha in Ha0. injection Ha0 as <-. split.
  - eapply (for_each_inv (only_wings s)); [| |exact H];
      [|apply only_wings_refl].
    intros wi st st' _ Hst Hwi. pose proof Hwi as Hwi'.
    unfold Unsteady.streamlines_of_wing in Hwi'.
    apply bind_Ok_inv in Hwi' as (w & Hw & _).
    destruct (unsteady_streamlines_of_wing _ _ _ _ _ _ _ Hw Hwi)
      as (points & -> & _).
    eapply only_wings_trans; [exact Hst|apply only_wings_modify].
  - eapply wings_loop; [|exact H].
    intros wi st st' Hwi Hinv Hst. pose proof Hst as Hst'.
    unfold Unsteady.streamlines_of_wing in Hst'.
    apply bind_Ok_inv in Hst' as (w & Hw & _).
    destruct (unsteady_streamlines_of_wing _ _ _ _ _ _ _ Hw Hst)
      as (points & -> & Hlines).
    apply (wing_step_modify_at _ _ _ _ _ w Hw).
    eapply streamlines_of_ext; [| |exact Hlines].
    + intros x. eapply unsteady_velocity_wings_step; [|exact Hinv].
      simpl. by intros j w1 w2 [Hso _].
    + intros sp. unfold Unsteady.seed_point, Unsteady.the_freestream_velocity.
      destruct Hinv as ((_ & -> & _ & _ & _ & ->) & _). reflexivity.
Qed.

(** *** The streamlines of the steady solvers *)

Lemma steady_put_put (wi : nat) (p p' : ndarray Vec3) (s : Steady.solver) :
  Steady.set_airplane
    (modify_wing wi (Wing.set_streamline_points p')
       (Steady.airplane
          (Steady.set_airplane
             (modify_wing wi (Wing.set_streamline_points p)
                (Steady.airplane s)) s)))
    (Steady.set_airplane
       (modify_wing wi (Wing.set_streamline_points p) (Steady.airplane s)) s)
  = Steady.set_airplane
      (modify_wing wi (Wing.set_streamline_points p') (Steady.airplane s)) s.
Proof.
  unfold Steady.set_airplane, modify_wing. simpl.
  rewrite (alter_alter _ _ (Wing.set_streamline_points p')); reflexivity.
Qed.

Lemma steady_velocity_put (wi : nat) (p : ndarray Vec3) (s : Steady.solver)
    (x : Vec3) :
  Steady.calculate_solution_velocity
    (Steady.set_airplane
       (modify_wing wi (Wing.set_streamline_points p) (Steady.airplane s)) s)
    x
  = Steady.calculate_solution_velocity s x.
Proof.
  unfold Steady.calculate_solution_velocity. simpl.
  rewrite fold_left_alter; [reflexivity|]. intros acc w. reflexivity.
Qed.

Lemma steady_wing_put (wi : nat) (p : ndarray Vec3) (s : Steady.solver)
    (w : Wing.t) :
  get_item (Airplane.wings (Steady.airplane s)) wi = Ok w ->
  get_item
    (Airplane.wings
       (Steady.airplane
          (Steady.set_airplane
             (modify_wing wi (Wing.set_streamline_points p)
                (Steady.airplane s)) s))) wi
  = Ok (Wing.set_streamline_points p w).
Proof.
  intros H. apply get_item_Ok in H. simpl. unfold get_item.
  by rewrite (alter_lookup_Some _ _ _ _ H).
Qed.

Lemma steady_streamline_of_panel (n : nat) (dt : Q) (wi sp : nat)
    (s s' : Steady.solver) (w : Wing.t) :
  get_item (Airplane.wings (Steady.airplane s)) wi = Ok w ->
  Steady.streamline_of_panel n dt wi sp s = Ok s' ->
  exists seed p0 points,
    Steady.seed_point w sp = Ok seed /\
    set2 (Wing.streamline_points w) 0 sp seed = Ok p0 /\
    s' = Steady.set_airplane
           (modify_wing wi (Wing.set_streamline_points points)
              (Steady.airplane s)) s /\
    column_steps (fun x => Ok (Steady.calculate_solution_velocity s x)) dt n
      p0 points sp.
Proof.
  intros Hw H. unfold Steady.streamline_of_panel in H.
  apply bind_Ok_inv in H as (w0 & Hw0 & H). rewrite Hw in Hw0.
  injection Hw0 as <-.
  apply bind_Ok_inv in H as (seed & Hseed & H).
  apply bind_Ok_inv in H as (p0 & Hp0 & H). cbv zeta in H.
  exists seed, p0.
  cut (exists points,
         s' = Steady.set_airplane
                (modify_wing wi (Wing.set_streamline_points points)
                   (Steady.airplane s)) s /\
         column_steps (fun x => Ok (Steady.calculate_solution_velocity s x))
           dt n p0 points sp).
  { intros (points & Hs' & Hsteps). by exists points. }
  refine (for_each_range_inv
            (fun t st =>
               exists points,
                 st = Steady.set_airplane
                        (modify_wing wi (Wing.set_streamline_points points)
                           (Steady.airplane s)) s /\
                 column_steps
                   (fun x => Ok (Steady.calculate_solution_velocity s x))
                   dt t p0 points sp) n _ _ _ _ _ H).
  - intros t st st' Ht (points & -> & Hinv) Hst.
    apply bind_Ok_inv in Hst as (w' & Hw' & Hst).
    rewrite (steady_wing_put _ _ _ _ Hw) in Hw'.
    injection Hw' as <-.
    apply bind_Ok_inv in Hst as (last & Hlast & Hst).
    apply bind_Ok_inv in Hst as (points' & Hpoints' & Hst).
    rewrite steady_velocity_put in Hpoints'.
    injection Hst as <-. exists points'.
    split; [apply steady_put_put|].
    eapply column_steps_S; [exact Hinv|exact Hlast|reflexivity|].
    exact Hpoints'.
  - exists p0. split; [reflexivity|apply column_steps_0].
Qed.

Lemma steady_streamlines_of_wing (n : nat) (dt : Q) (wi : nat)
    (s s' : Steady.solver) (w : Wing.t) :
  get_item (Airplane.wings (Steady.airplane s)) wi = Ok w ->
  Steady.streamlines_of_wing n dt wi s = Ok s' ->
  exists points,
    s' = Steady.set_airplane
           (modify_wing wi (Wing.set_streamline_points points)
              (Steady.airplane s)) s /\
    streamlines_of (fun x => Ok (Steady.calculate_solution_velocity s x))
      (Steady.seed_point w) dt n w (Wing.set_streamline_points points w).
Proof.
  intros Hw H. unfold Steady.streamlines_of_wing in H.
  apply bind_Ok_inv in H as (w0 & Hw0 & H). rewrite Hw in Hw0.
  injection Hw0 as <-. cbv zeta in H.
  cut (exists points,
         s' = Steady.set_airplane
                (modify_wing wi (Wing.set_streamline_points points)
                   (Steady.airplane s)) s /\
         columns_done (fun x => Ok (Steady.calculate_solution_velocity s x))
           (Steady.seed_point w) dt n (Wing.num_spanwise_panels w)
           (np_full (n + 1) (Wing.num_spanwise_panels w) vzero) points).
  { intros (points & Hs' & Hdone). exists points.
    split; [exact Hs'|]. by apply columns_done_all. }
  refine (for_each_range_inv
            (fun i st =>
               exists points,
                 st = Steady.set_airplane
                        (modify_wing wi (Wing.set_streamline_points points)
                           (Steady.airplane s)) s /\
                 columns_done
                   (fun x => Ok (Steady.calculate_solution_velocity s x))
                   (Steady.seed_point w) dt n i
                   (np_full (n + 1) (Wing.num_spanwise_panels w) vzero)
                   points) _ _ _ _ _ _ H).
  - intros i st st' Hi (points & -> & Hinv) Hst.
    pose proof (steady_wing_put _ points _ _ Hw) as Hw'.
    destruct (steady_streamline_of_panel _ _ _ _ _ _ _ Hw' Hst)
      as (seed & p0 & points' & Hseed & Hp0 & -> & Hsteps).
    exists points'. split; [apply steady_put_put|].
    eapply columns_done_S; [exact Hinv|exact Hseed|exact Hp0|].
    eapply column_steps_ext; [|exact Hsteps].
    intros x. simpl. by rewrite steady_velocity_put.
  - eexists. split; [reflexivity|apply columns_done_0].
Qed.

Lemma steady_calculate_streamlines (n : nat) (dt : Q)
    (s s' : Steady.solver) :
  Steady.calculate_streamlines_with n dt s = Ok s' ->
  s' = Steady.set_airplane (Steady.airplane s') s /\
  Steady.airplane s'
    = Airplane.set_wings (Airplane.wings (Steady.airplane s'))
        (Steady.airplane s) /\
  wings_rel (length (Airplane.wings (Steady.airplane s)))
    (fun _ w w' =>
       streamlines_of (fun x => Ok (Steady.calculate_solution_velocity s x))
         (Steady.seed_point w) dt n w w')
    (Airplane.wings (Steady.airplane s))
    (Airplane.wings (Steady.airplane s')).
Proof.
  unfold Steady.calculate_streamlines_with. intros H.
  refine (for_each_range_inv
            (fun i st =>
               st = Steady.set_airplane (Steady.airplane st) s /\
               Steady.airplane st
                 = Airplane.set_wings (Airplane.wings (Steady.airplane st))
                     (Steady.airplane s) /\
               wings_rel i
                 (fun _ w w' =>
                    streamlines_of
                      (fun x => Ok (Steady.calculate_solution_velocity s x))
                      (Steady.seed_point w) dt n w w')
                 (Airplane.wings (Steady.airplane s))
                 (Airplane.wings (Steady.airplane st))) _ _ _ _ _ _ H).
  - intros i st st' Hi (E1 & E2 & Hl & Hge & Hlt) Hst.
    pose proof Hst as Hst'. unfold Steady.streamlines_of_wing in Hst'.
    apply bind_Ok_inv in Hst' as (w & Hw & _).
    destruct (steady_streamlines_of_wing _ _ _ _ _ _ Hw Hst)
      as (points & -> & Hlines).
    apply get_item_Ok in Hw.
    assert (Airplane.wings (Steady.airplane s) !! i = Some w) as Hw0
      by (by rewrite <- Hge).
    split; [by rewrite E1|]. split; [simpl; by rewrite E2|]. simpl.
    split; [by rewrite length_alter|]. split.
    + intros j Hj. rewrite list_lookup_alter_ne by lia. apply Hge. lia.
    + intros j w1 Hj Hw1. destruct (decide (j = i)) as [->|Hne].
      * rewrite Hw0 in Hw1. injection Hw1 as <-.
        exists (Wing.set_streamline_points points w).
        split; [by apply alter_lookup_Some|].
        eapply streamlines_of_ext; [|reflexivity|exact Hlines].
        intros x. simpl. f_equal.
        unfold Steady.calculate_solution_velocity.
        rewrite E1. simpl.
        rewrite (fold_left_pointwise _ (Airplane.wings (Steady.airplane s))
                   (Airplane.wings (Steady.airplane st)));
          [reflexivity|exact Hl|].
        intros m u u' acc Hu Hu'. destruct (decide (m < i)) as [Hm|Hm].
        -- destruct (Hlt m u Hm Hu) as (u'' & Hu'' & (Hso & _)).
           rewrite Hu' in Hu''. injection Hu'' as <-.
           unfold streamlines_only in Hso. rewrite Hso. reflexivity.
        -- rewrite Hge, Hu in Hu' by lia. by injection Hu' as <-.
      * destruct (Hlt j w1) as (w1' & Hw1' & Hrel); [lia|exact Hw1|].
        exists w1'. split; [|exact Hrel]. by rewrite list_lookup_alter_ne.
  - split; [by destruct s|]. split; [by destruct (Steady.airplane s)|].
    split; [reflexivity|]. split; [done|]. intros j w Hj. lia.
Qed.

(** C9, as the code has it.  [calculate_streamlines] of the unsteady
    solver and of the steady horseshoe solver changes nothing but the
    streamline points of the wings of the (current) airplane.  The new
    array of every wing has [num_steps + 1] rows and one column for every
    spanwise position; the first entry of a column is the seed point of
    that position and every further entry is the one above it plus the
    time between the steps times the solution velocity there.  The seed
    point of the steady horseshoe solver is the midpoint of the back of
    the trailing-edge panel; that of the unsteady solver is the centre of
    the back leg of the ring vortex of that panel moved by a quarter of a
    time step of freestream.  The steady horseshoe solver takes a hundred
    steps of a hundredth of a second. *)
Theorem streamlines_from_seed_points :
  (forall n dt k a (s s' : Unsteady.solver),
     Unsteady.current_step s = Some k ->
     Unsteady.airplanes s !! k = Some a ->
     Unsteady.calculate_streamlines n dt s = Ok s' ->
     only_wings s s' /\
     (forall j, j <> k ->
        Unsteady.airplanes s' !! j = Unsteady.airplanes s !! j) /\
     exists a',
       Unsteady.airplanes s' !! k = Some a' /\
       wings_rel (length (Airplane.wings a))
         (fun _ w w' =>
            streamlines_of (Unsteady.calculate_solution_velocity s)
              (Unsteady.seed_point s w) dt n w w')
         (Airplane.wings a) (Airplane.wings a')) /\
  (forall (s : Unsteady.solver) w sp seed,
     Unsteady.seed_point s w sp = Ok seed ->
     exists panel ring freestream,
       get2_py (Wing.panels w) (trailing_edge_position w) (Z.of_nat sp)
         = Ok panel /\
       Panel.ring_vortex panel = Some ring /\
       Unsteady.current_freestream_velocity s = Some freestream /\
       seed = vadd (LineVortex.center (RingVortex.back_leg ring))
                (vscale_r (vscale_r freestream (Unsteady.delta_time s))
                   (1 # 4))) /\
  (forall s s' : Steady.solver,
     SteadyHorseshoe.calculate_streamlines s = Ok s' ->
     s' = Steady.set_airplane (Steady.airplane s') s /\
     Steady.airplane s'
       = Airplane.set_wings (Airplane.wings (Steady.airplane s'))
           (Steady.airplane s) /\
     wings_rel (length (Airplane.wings (Steady.airplane s)))
       (fun _ w w' =>
          streamlines_of
            (fun x => Ok (Steady.calculate_solution_velocity s x))
            (Steady.seed_point w) (1 # 100) 100 w w')
       (Airplane.wings (Steady.airplane s))
       (Airplane.wings (Steady.airplane s'))) /\
  (forall w sp seed,
     Steady.seed_point w sp = Ok seed ->
     exists panel,
       get2_py (Wing.panels w) (trailing_edge_position w) (Z.of_nat sp)
         = Ok panel /\
       seed = vadd (Panel.back_left_vertex panel)
                (vscale (1 # 2)
                   (vsub (Panel.back_right_vertex panel)
                         (Panel.back_left_vertex panel)))).
Proof.
  split; [|split; [|split]].
  - intros n dt k a s s' Hk Ha H.
    destruct (unsteady_calculate_streamlines _ _ _ _ _ _ Hk Ha H)
      as [Honly (_ & _ & Hother & Hwings)].
    split; [exact Honly|]. split; [exact Hother|].
    destruct (Hwings a Ha) as (a' & Ha' & Hl & Hge & Hlt).
    exists a'. split; [exact Ha'|]. by split.
  - intros s w sp seed H. unfold Unsteady.seed_point in H.
    apply bind_Ok_inv in H as (panel & Hpanel & H).
    apply bind_Ok_inv in H as (ring & Hring & H).
    apply of_option_Ok in Hring.
    apply bind_Ok_inv in H as (freestream & Hfs & H).
    apply of_option_Ok in Hfs. injection H as <-.
    by exists panel, ring, freestream.
  - intros s s' H. by apply steady_calculate_streamlines.
  - intros w sp seed H. unfold Steady.seed_point in H.
    apply bind_Ok_inv in H as (panel & Hpanel & H). injection H as <-.
    by exists panel.
Qed.

End Streamlines.

(** * The small problem, run *)

Lemma initial_movement_example : initial_movement Example.unsteady_solver.
Proof.
  split.
  - intros j j' a a' Ha Ha'.
    change (replicate 3 Example.bare_airplane !! j = Some a) in Ha.
    change (replicate 3 Example.bare_airplane !! j' = Some a') in Ha'.
    apply lookup_replicate in Ha as [-> _].
    by apply lookup_replicate in Ha' as [-> _].
  - intros j a w Ha Hw.
    change (replicate 3 Example.bare_airplane !! j = Some a) in Ha.
    apply lookup_replicate in Ha as [-> _].
    apply list_elem_of_singleton in Hw as ->. by split.
Defined.

(** The force on the front leg of the first panel of the steady ring
    problem, as the second part of C1 gives it *)
Lemma leg_force_velocity_point_witness :
  exists panel ring,
    SteadyRing.panel_at 0 0 0 Example.steady_ring_solver = Ok panel /\
    Panel.ring_vortex panel = Some ring /\
    SteadyRing.panel_at 0 0 0 Example.front_leg_done
      = Ok (Panel.set_ring_vortex
              (Some (RingVortex.set_front_leg
                       (LineVortex.set_near_field_force
                          (vscale
                             (OperatingPoint.density
                                (Steady.operating_point
                                   Example.steady_ring_solver) * 1)
                             (cross
                                (Steady.calculate_solution_velocity
                                   (aero := Example.aero)
                                   Example.steady_ring_solver
                                   (LineVortex.center
                                      (RingVortex.right_leg ring)))
                                (LineVortex.vector
                                   (RingVortex.front_leg ring))))
                          (RingVortex.front_leg ring)) ring)) panel).
Proof.
  apply (proj2 (@leg_force_velocity_point Example.aero)
           Example.steady_ring_solver Example.front_leg_done 0 0 0 1%Q
           RingVortex.front_leg RingVortex.set_front_leg).
  - reflexivity.
  - vm_compute. reflexivity.
Defined.

Lemma steady_ring_front_leg_velocity_example :
  exists panel ring force,
    SteadyRing.panel_at 0 0 0 Example.first_panel_done = Ok panel /\
    Panel.ring_vortex panel = Some ring /\
    LineVortex.near_field_force (RingVortex.front_leg ring) = Some force /\
    veqb force (Example.v3 3 0 (-1)) = true /\
    veqb
      (vscale 1
         (cross
            (Steady.calculate_solution_velocity (aero := Example.aero)
               Example.steady_ring_solver
               (LineVortex.center (RingVortex.front_leg ring)))
            (LineVortex.vector (RingVortex.front_leg ring))))
      (Example.v3 4 0 (-1)) = true.
Proof.
  eexists _, _, _. split; [vm_compute; reflexivity|].
  split; [reflexivity|]. split; [reflexivity|].
  split; vm_compute; reflexivity.
Qed.

(** The wake of the wing after two time steps *)
Lemma wake_grid_shape_after_step_witness :
  let w := Example.wing_after 2 in
  shape0 (Wing.wake_ring_vortex_vertices w) = 3 /\
  shape1 (Wing.wake_ring_vortex_vertices w) = 3 /\
  shape0 (Wing.wake_ring_vortices w) = 2 /\
  shape1 (Wing.wake_ring_vortices w) = 2.
Proof.
  destruct (@wake_grid_shape_after_step Example.aero true 1
              Example.unsteady_solver Example.initialized
              (Example.after_steps 2) initial_movement_example)
    with (wi := 0) (w := Example.wing_after 2) as (H1 & H2 & H3 & H4 & _).
  - vm_compute. reflexivity.
  - vm_compute. lia.
  - vm_compute. reflexivity.
  - vm_compute. reflexivity.
  - repeat split; assumption.
Defined.

Lemma shed_ring_strength_frozen_witness :
  exists wk ring',
    Unsteady.wing_at 2 0 (Example.after_steps 2) = Ok wk /\
    get2 (Wing.wake_ring_vortices wk) 1 0 = Ok (Some ring') /\
    RingVortex.strength ring' = RingVortex.strength Example.shed_ring /\
    moved Example.shed_ring ring'.
Proof.
  apply (@shed_ring_strength_frozen Example.aero true 0 1 0 0
           Example.unsteady_solver Example.initialized
           (Example.after_steps 1) (Example.after_steps 2)
           (Example.wing_after 1) Example.shed_ring
           initial_movement_example).
  - vm_compute. reflexivity.
  - lia.
  - vm_compute. lia.
  - vm_compute. reflexivity.
  - vm_compute. reflexivity.
  - vm_compute. reflexivity.
  - vm_compute. reflexivity.
Defined.

(** The run of the unsteady problem with vortices that induce nothing *)
Lemma zero_column_raises_LinAlgError_witness :
  Unsteady.calculate_vortex_strengths Example.degenerate_assembled
    = Raise LinAlgError /\
  Unsteady.time_step (aero := Example.degenerate_aero) false 0
    Example.initialized = Raise LinAlgError /\
  Unsteady.run (aero := Example.degenerate_aero) false Example.unsteady_solver
    = Raise LinAlgError.
Proof.
  apply (proj1 (proj2 (proj2 (proj2 (@zero_column_raises_LinAlgError
                                       Example.degenerate_aero))))
           false Example.unsteady_solver Example.initialized
           Example.initialized Example.degenerate_matrix_done
           Example.degenerate_freestream_done Example.degenerate_assembled
           0 Example.operating_point
           [[0%Q; 0%Q]; [0%Q; 0%Q]] 0).
  - vm_compute. reflexivity.
  - vm_compute. lia.
  - reflexivity.
  - vm_compute. lia.
  - reflexivity.
  - vm_compute. reflexivity.
  - vm_compute. reflexivity.
  - vm_compute. reflexivity.
  - vm_compute. reflexivity.
  - split; [simpl; lia|].
    repeat constructor; exists 0%Q; split; reflexivity.
Defined.

(** The influence matrix of two equal rows *)
Lemma singular_matrix_counterexample :
  is_square [[1%Q; 1%Q]; [1%Q; 1%Q]] = true /\
  Forall (fun row => dotl row [1%Q; (-1)%Q] == 0)%Q
    [[1%Q; 1%Q]; [1%Q; 1%Q]] /\
  Unsteady.current_wing_wing_influences Example.singular
    = Some [[1%Q; 1%Q]; [1%Q; 1%Q]] /\
  Unsteady.calculate_vortex_strengths Example.singular = Raise LinAlgError /\
  Unsteady.calculate_vortex_strengths Example.singular
    <> Raise GeometryDegenerateError.
Proof.
  split; [reflexivity|].
  split; [repeat constructor; vm_compute; reflexivity|].
  split; [reflexivity|].
  assert (Unsteady.calculate_vortex_strengths Example.singular
          = Raise LinAlgError) as E by (vm_compute; reflexivity).
  split; [exact E|]. rewrite E. discriminate.
Qed.

(** The first time step, solved *)
Lemma vortex_strengths_solved_and_scattered_witness :
  exists aic rhs strengths,
    Unsteady.current_wing_wing_influences Example.assembled = Some aic /\
    Unsteady.current_vortex_strengths Example.solved = Some strengths /\
    length strengths = length aic /\
    Forall2 (fun row b => dotl row strengths == b)%Q aic rhs.
Proof.
  destruct (proj1 (@vortex_strengths_solved_and_scattered)
              Example.assembled Example.solved)
    as (aic & wake & fs & rhs & strengths & step & a & a' & Haic & _ & _ & _
        & _ & Hst & Hlen & Hsol & _).
  - vm_compute. reflexivity.
  - by exists aic, rhs, strengths.
Defined.

(** The right leg of the first panel, which is not on the right edge *)
Lemma bound_leg_strengths_witness :
  right_bound_vortex_strength Example.ring_wing 0 0
    Example.first_ring_panel
  = Ok (Some 0%Q).
Proof.
  refine (proj1 (@bound_leg_strengths Example.aero Example.ring_wing 0 0
                   Example.first_ring_panel
                   (Example.ring 0 (Some 1%Q)) 1%Q _ _ _ _)).
  - repeat constructor.
  - reflexivity.
  - reflexivity.
  - reflexivity.
Defined.

Lemma right_leg_strength_counterexample :
  let panel := Example.first_ring_panel in
  right_bound_vortex_strength Example.ring_wing 0 0 panel = Ok (Some 0%Q) /\
  spec_right_bound_vortex_strength Example.ring_wing 0 0 panel = Ok (Some (1 - 3)%Q) /\
  ~ (0 == 1 - 3)%Q.
Proof.
  split; [reflexivity|]. split; [reflexivity|]. intros H. discriminate H.
Qed.


(** The wake vertices after the first time step, moved *)
Lemma wake_vertices_move_at_witness :
  exists freestream,
    Unsteady.the_freestream_velocity (Example.after_steps 1)
      = Ok freestream /\
    get2
      (Example.value Example.shed_vertices
         (Unsteady.convect_in_place
            (Unsteady.current_freestream_velocity (Example.after_steps 1))
            (Unsteady.delta_time (Example.after_steps 1))
            Example.shed_vertices)) 0 0
      = Ok (vadd (mk_vec (5 # 4) (0 # 4) (-1 # 4))
              (vscale_r freestream
                 (Unsteady.delta_time (Example.after_steps 1)))).
Proof.
  apply (proj1 (proj2 (proj2 (@wake_vertices_move_at Example.aero
                                (Example.after_steps 1))))
           Example.shed_vertices
           (Example.value Example.shed_vertices
              (Unsteady.convect_in_place
                 (Unsteady.current_freestream_velocity
                    (Example.after_steps 1))
                 (Unsteady.delta_time (Example.after_steps 1))
                 Example.shed_vertices))).
  - vm_compute. repeat constructor.
  - vm_compute. reflexivity.
  - vm_compute. reflexivity.
Defined.

Lemma free_wake_counterexample :
  exists prescribed free x y,
    Unsteady.convect_in_place
      (Unsteady.current_freestream_velocity (Example.after_steps 1))
      (Unsteady.delta_time (Example.after_steps 1)) Example.shed_vertices
    = Ok prescribed /\
    Legacy.convect_in_place (aero := Example.aero) false
      (Example.after_steps 1) Example.shed_vertices = Ok free /\
    get2 prescribed 0 0 = Ok x /\ get2 free 0 0 = Ok y /\
    veqb x y = false.
Proof.
  eexists _, _, _, _. split; [vm_compute; reflexivity|].
  split; [vm_compute; reflexivity|]. split; [reflexivity|].
  split; [reflexivity|]. vm_compute. reflexivity.
Qed.

(** The seed point behind the first panel *)
Lemma streamlines_from_seed_points_witness :
  exists panel ring freestream,
    get2_py (Wing.panels (Example.wing_after 0))
      (trailing_edge_position (Example.wing_after 0)) (Z.of_nat 0)
    = Ok panel /\
    Panel.ring_vortex panel = Some ring /\
    Unsteady.current_freestream_velocity Example.solved = Some freestream /\
    mk_vec (768 # 512) (4 # 8) (-2 # 8)
    = vadd (LineVortex.center (RingVortex.back_leg ring))
        (vscale_r (vscale_r freestream (Unsteady.delta_time Example.solved))
           (1 # 4)).
Proof.
  apply (proj1 (proj2 (@streamlines_from_seed_points Example.aero))
           Example.solved (Example.wing_after 0) 0).
  vm_compute. reflexivity.
Defined.

Lemma unsteady_seed_point_counterexample :
  exists w points x y,
    Unsteady.wing_at 0 0 Example.solved = Ok w /\
    Unsteady.wing_at 0 0 Example.streamlines_done
      = Ok (Wing.set_streamline_points points w) /\
    get2 points 0 0 = Ok x /\
    Steady.seed_point w 0 = Ok y /\
    veqb x y = false.
Proof.
  eexists _, _, _, _. split; [vm_compute; reflexivity|].
  split; [vm_compute; reflexivity|]. split; [reflexivity|].
  split; [reflexivity|]. vm_compute. reflexivity.
Qed.

(** The freestream influences of the first time step *)
Lemma influence_vectors_indexed_within_wing_witness :
  exists v,
    Unsteady.current_freestream_wing_influences Example.freestream_done
      = Some v /\
    length v = 2.
Proof.
  destruct (proj1 (@influence_vectors_indexed_within_wing Example.aero
                     Example.started
                     (Example.value Example.bare_airplane
                        (Unsteady.airplane_at 0 Example.started))
                     0 (Example.v3 1 0 (-1)) eq_refl eq_refl eq_refl)
              Example.freestream_done)
    as (v & Hv & Hlen & _).
  - vm_compute. reflexivity.
  - exists v. by split.
Defined.

(** * Further properties of the unsteady solver *)

Section TimeSteps.
Context {aero : Aerodynamics}.

(** At the last time step there is no next airplane to shed a wake
    into. *)
Lemma populate_next_airplanes_wake_last (s : Unsteady.solver) (k : nat) :
  Unsteady.current_step s = Some k ->
  Unsteady.num_steps s <= k + 1 ->
  Unsteady.populate_next_airplanes_wake s = Ok s.
Proof.
  intros Hk Hlast. unfold Unsteady.populate_next_airplanes_wake,
    Unsteady.populate_next_airplanes_wake_vortex_vertices,
    Unsteady.populate_next_airplanes_wake_vortices, Unsteady.compared_step.
  rewrite Hk. simpl.
  destruct (decide (k < Unsteady.num_steps s - 1)); [lia|]. simpl.
  rewrite Hk. simpl.
  destruct (decide (k < Unsteady.num_steps s - 1)); [lia|reflexivity].
Qed.

(** What a time step leaves alone, whether it sheds a wake or not *)
Lemma time_step_frame (verbose : bool) (k : nat) (s s' : Unsteady.solver) :
  Unsteady.time_step verbose k s = Ok s' ->
  Unsteady.num_steps s' = Unsteady.num_steps s /\
  Unsteady.current_step s' = Some k /\
  (forall j, j <> k -> j <> k + 1 ->
     Unsteady.airplanes s' !! j = Unsteady.airplanes s !! j) /\
  wake_of_airplane <$> Unsteady.airplanes s' !! k
    = wake_of_airplane <$> Unsteady.airplanes s !! k /\
  (Unsteady.num_steps s <= k + 1 ->
   Unsteady.airplanes s' !! (k + 1) = Unsteady.airplanes s !! (k + 1)).
Proof.
  intros H. unfold Unsteady.time_step in H.
  apply bind_Ok_inv in H as (a0 & Ha0 & H). apply get_item_Ok in Ha0.
  apply bind_Ok_inv in H as (op & _ & H). cbv zeta in H.
  apply bind_Ok_inv in H as (s1 & H1 & H).
  apply bind_Ok_inv in H as (s2 & H2 & H).
  apply bind_Ok_inv in H as (s3 & H3 & H).
  apply bind_Ok_inv in H as (s4 & H4 & H).
  apply bind_Ok_inv in H as (s5 & H5 & H).
  apply bind_Ok_inv in H as (s6 & H6 & H).
  apply bind_Ok_inv in H as (u & _ & H). injection H as <-.
  destruct (influences_frame _ _ (or_introl H1))
    as [(a1 & _ & _ & a4 & _ & _) E1].
  simpl in a1, a4, E1.
  destruct (influences_frame _ _ (or_intror (or_introl H2)))
    as [(b1 & _ & _ & b4 & _ & _) E2].
  destruct (influences_frame _ _ (or_intror (or_intror H3)))
    as [(c1 & _ & _ & c4 & _ & _) E3].
  assert (Unsteady.current_step s3 = Some k) as Hk3 by congruence.
  destruct (vortex_strengths_frame _ _ _ Hk3 H4)
    as ((d1 & _ & _ & d4 & _ & _) & D2 & D3).
  assert (Unsteady.current_step s4 = Some k) as Hk4 by congruence.
  destruct (near_field_forces_frame _ _ _ Hk4 H5)
    as ((e1 & _ & _ & e4 & _ & _) & F2 & F3).
  assert (Unsteady.current_step s5 = Some k) as Hk5 by congruence.
  assert (Unsteady.airplanes s3 = Unsteady.airplanes s) as E by congruence.
  rewrite E in D2, D3.
  assert (wake_of_airplane <$> Unsteady.airplanes s5 !! k
          = wake_of_airplane <$> Unsteady.airplanes s !! k) as Hw5.
  { rewrite <- D3. unfold forces_view in F3.
    destruct (Unsteady.airplanes s5 !! k), (Unsteady.airplanes s4 !! k);
      simpl in *; congruence. }
  destruct (decide (k + 1 < Unsteady.num_steps s)) as [Hlt|Hlast].
  - rewrite Ha0 in D3. simpl in D3.
    apply fmap_Some in D3 as (a4' & Ha4 & _).
    rewrite Ha4 in F3. simpl in F3.
    apply fmap_Some in F3 as (a5 & Ha5 & _).
    assert (k < Unsteady.num_steps s5 - 1) as Hlt5 by lia.
    destruct (populate_next_airplanes_wake_spec _ _ _ _ Hk5 Hlt5 Ha5 H6)
      as [_ ((g1 & _ & _ & g4 & _) & G2 & G3 & G4)].
    split; [lia|]. split; [congruence|]. split.
    { intros j Hj Hj'. by rewrite G3, F2, D2. }
    split; [by rewrite G3 by lia|]. intros Hle. lia.
  - rewrite populate_next_airplanes_wake_last with (k := k) in H6
      by (assumption || lia).
    injection H6 as <-. split; [lia|]. split; [exact Hk5|]. split.
    { intros j Hj Hj'. by rewrite F2, D2. }
    split; [exact Hw5|]. intros _. rewrite F2, D2 by lia. reflexivity.
Qed.

Lemma run_steps_split (verbose : bool) (j n : nat)
    (s s' : Unsteady.solver) :
  j <= n ->
  Unsteady.run_steps verbose n s = Ok s' ->
  exists sj,
    Unsteady.run_steps verbose j s = Ok sj /\
    for_each (seq j (n - j)) (Unsteady.time_step verbose) sj = Ok s'.
Proof.
  intros Hj H. unfold Unsteady.run_steps, range in *.
  replace n with (j + (n - j)) in H at 1 by lia.
  rewrite seq_app, for_each_app in H.
  apply bind_Ok_inv in H as (sj & Hsj & H). by exists sj.
Qed.

Lemma later_steps_keep_wake (verbose : bool) (j m : nat)
    (sj s' : Unsteady.solver) :
  for_each (seq j m) (Unsteady.time_step verbose) sj = Ok s' ->
  Unsteady.num_steps s' = Unsteady.num_steps sj /\
  wake_of_airplane <$> Unsteady.airplanes s' !! j
    = wake_of_airplane <$> Unsteady.airplanes sj !! j.
Proof.
  intros H.
  refine (for_each_seq_inv
            (fun _ st =>
               Unsteady.num_steps st = Unsteady.num_steps sj /\
               wake_of_airplane <$> Unsteady.airplanes st !! j
                 = wake_of_airplane <$> Unsteady.airplanes sj !! j)
            j m _ _ _ _ _ H); [|by split].
  intros i st st' Hi [Hnum Hwake] Hstep.
  apply time_step_frame in Hstep as (N1 & _ & Hother & Hk & _).
  split; [congruence|]. destruct (decide (i = j)) as [->|Hne].
  - by rewrite Hk.
  - rewrite Hother by lia. exact Hwake.
Qed.

Lemma streamlines_keep_wakes (n : nat) (dt : Q) (s s' : Unsteady.solver) :
  Unsteady.calculate_streamlines n dt s = Ok s' -> same_wakes s s'.
Proof.
  intros H. pose proof H as H'. unfold Unsteady.calculate_streamlines in H'.
  apply bind_Ok_inv in H' as (k & Hk & H'). apply of_option_Ok in Hk.
  apply bind_Ok_inv in H' as (a & Ha & _). apply get_item_Ok in Ha.
  destruct (unsteady_calculate_streamlines _ _ _ _ _ _ Hk Ha H)
    as [_ (Hset & _ & Hother & Hwings)].
  split; [exact Hset|]. intros j.
  destruct (decide (j = k)) as [->|Hne]; [|by rewrite Hother].
  destruct (Hwings a Ha) as (a' & Ha' & Hl & Hge & Hlt).
  rewrite Ha, Ha'. simpl. f_equal. unfold wake_of_airplane.
  apply list_eq. intros i. rewrite !list_lookup_fmap.
  destruct (decide (i < length (Airplane.wings a))) as [Hi|Hi];
    [|by rewrite Hge by lia].
  destruct (lookup_lt_is_Some_2 _ _ Hi) as [w Hw].
  destruct (Hlt i w Hi Hw) as (w' & Hw' & Hso & _).
  rewrite Hw, Hw'. simpl. unfold streamlines_only in Hso.
  rewrite Hso. reflexivity.
Qed.

(** X1.  The wakes a run ends with.  When [run] returns for a movement
    whose poses have the same wings and start without wake, the wings of
    the first airplane still have no wake, and every wing of the airplane
    at [j], for [0 < j < num_steps], has a wake of [j + 1] complete rows
    of [num_spanwise_panels + 1] vertices and of [j] complete rows of
    [num_spanwise_panels] ring vortices: the wake shed into an airplane
    by the step before its own is left as it is by all later steps and
    by the streamlines. *)
Theorem run_wake_shapes (verbose : bool) (s0 s' : Unsteady.solver) :
  initial_movement s0 ->
  Unsteady.run verbose s0 = Ok s' ->
  forall j wi w,
    j < Unsteady.num_steps s0 ->
    Unsteady.wing_at j wi s' = Ok w ->
    let vertices := Wing.wake_ring_vortex_vertices w in
    let rings := Wing.wake_ring_vortices w in
    (j = 0 -> shape0 vertices = 0 /\ shape0 rings = 0) /\
    (0 < j ->
     shape0 vertices = j + 1 /\
     shape1 vertices = Wing.num_spanwise_panels w + 1 /\
     shape0 rings = j /\
     shape1 rings = Wing.num_spanwise_panels w /\
     wf_ndarray vertices /\ wf_ndarray rings).
Proof.
  intros Hinit H j wi w Hj Hw. unfold Unsteady.run in H.
  apply bind_Ok_inv in H as (s1 & H1 & H).
  apply bind_Ok_inv in H as (s2 & H2 & H).
  destruct (initial_movement_initialized _ _ Hinit H1) as [H0 Hnum].
  assert (j <= Unsteady.num_steps s1) as Hj' by lia.
  destruct (run_steps_split _ _ _ _ _ Hj' H2) as (sj & Hsj & Hrest).
  assert (j < Unsteady.num_steps s1) as Hj'' by lia.
  destruct (run_steps_wake_inv _ _ _ _ H0 Hj'' Hsj) as [[_ Hshape] _].
  apply later_steps_keep_wake in Hrest as [_ Hkeep].
  apply streamlines_keep_wakes in H as [_ Hlines].
  specialize (Hlines j). rewrite Hkeep in Hlines.
  apply wing_at_Ok in Hw as (a' & Ha' & Hw).
  rewrite Ha' in Hlines. simpl in Hlines. symmetry in Hlines.
  apply fmap_Some in Hlines as (a & Ha & Ea).
  destruct (wake_of_airplane_lookup _ _ _ _ Ea Hw) as (w0 & Hw0 & Ew).
  unfold wake_of_wing in Ew. injection Ew as E1 E2 E3 E4.
  cbv zeta. rewrite E2, E3, E4.
  assert (w0 ∈ Airplane.wings a) as Hin by (by eapply list_elem_of_lookup_2).
  split.
  - intros ->. by apply (Hshape 0 a w0).
  - intros Hpos. destruct j as [|j]; [lia|].
    destruct (Hshape a w0 Ha Hin) as (V0 & V1 & Vwf & R0 & R1 & Rwf).
    by repeat split.
Qed.

Lemma airplane_but_results_modify_panel (wi c sp : nat)
    (f : Panel.t -> Panel.t) (a : Airplane.t) :
  (forall p, panel_but_results (f p) = panel_but_results p) ->
  airplane_but_results (modify_wing wi (modify_panel c sp f) a)
    = airplane_but_results a.
Proof.
  intros Hf. unfold airplane_but_results, modify_wing. simpl.
  f_equal. f_equal. f_equal. f_equal. f_equal.
  apply (fmap_alter_same wing_but_results).
  intros w. unfold wing_but_results. simpl.
  f_equal. f_equal. f_equal. f_equal.
  apply (fmap_alter_same (map panel_but_results)). intros row.
  by apply (fmap_alter_same panel_but_results).
Qed.

(** X2.  [calculate_near_field_forces_and_moments] of the unsteady
    solver stores results and nothing else: the airplanes other than the
    current one are what they were, and in the current airplane the
    geometry, the ring and horseshoe vortices of every panel, the wakes,
    the streamline points and the reference quantities are what they
    were; only the force, the moment and the pressure of the panels and
    the totals of the airplane are written.  The step, the operating
    point and the freestream velocity of the solver stay as well. *)
Theorem near_field_forces_store_results_only (s s' : Unsteady.solver)
    (k : nat) :
  Unsteady.current_step s = Some k ->
  Unsteady.calculate_near_field_forces_and_moments s = Ok s' ->
  (forall j, j <> k ->
     Unsteady.airplanes s' !! j = Unsteady.airplanes s !! j) /\
  airplane_but_results <$> Unsteady.airplanes s' !! k
    = airplane_but_results <$> Unsteady.airplanes s !! k /\
  same_settings s s'.
Proof.
  intros Hk H.
  cut (frame_at airplane_but_results k s s').
  { intros (A1 & A2 & A3). split; [exact A2|]. split; [exact A3|exact A1]. }
  unfold Unsteady.calculate_near_field_forces_and_moments in H.
  apply bind_Ok_inv in H as (step & Hstep & H).
  apply of_option_Ok in Hstep. rewrite Hk in Hstep. injection Hstep as <-.
  apply bind_Ok_inv in H as (last & _ & H).
  apply bind_Ok_inv in H as (airplane & _ & H).
  apply bind_Ok_inv in H as ([s1 [tf tm]] & Hloop & H).
  apply bind_Ok_inv in H as (op & _ & H).
  apply bind_Ok_inv in H as (airplane1 & _ & H). injection H as <-.
  assert (frame_at airplane_but_results k s s1) as Hs1.
  { change (frame_at airplane_but_results k s (fst (s1, (tf, tm)))).
    eapply (for_each_inv
              (fun st => frame_at airplane_but_results k s (fst st)));
      [| |exact Hloop]; [|apply frame_at_refl].
    intros wi st st' _ Hst Hwing. unfold Unsteady.near_field_wing in Hwing.
    apply bind_Ok_inv in Hwing as (step & _ & Hwing).
    apply bind_Ok_inv in Hwing as (wing & _ & Hwing).
    apply bind_Ok_inv in Hwing as (last_wing & _ & Hwing).
    eapply (for_each_inv
              (fun st => frame_at airplane_but_results k s (fst st)));
      [| |exact Hwing]; [|exact Hst].
    intros c st1 st1' _ Hst1 Hrow.
    eapply (for_each_inv
              (fun st => frame_at airplane_but_results k s (fst st)));
      [| |exact Hrow]; [|exact Hst1].
    intros sp [s2 [f2 m2]] st2' _ Hst2 Hpanel. simpl in Hst2.
    unfold Unsteady.near_field_panel in Hpanel.
    apply bind_Ok_inv in Hpanel as (step' & Hstep' & Hpanel).
    apply bind_Ok_inv in Hpanel as ([f m] & _ & Hpanel).
    injection Hpanel as <-. simpl.
    apply of_option_Ok in Hstep'.
    destruct Hst2 as (Hset & Hother & Hview).
    assert (step' = k) as ->.
    { destruct Hset as (_ & _ & _ & Hcs & _). rewrite Hcs, Hk in Hstep'.
      by injection Hstep'. }
    eapply frame_at_trans; [by split|].
    apply frame_at_modify_panel_at. intros a.
    by apply airplane_but_results_modify_panel. }
  eapply frame_at_trans; [exact Hs1|].
  eapply (frame_at_trans _ _ _
            (Unsteady.set_totals _ _ _ _ _ _ _ _ s1));
    [by repeat split|].
  by apply frame_at_modify_airplane.
Qed.

(** X3.  A time step is local.  The time step [k] leaves every airplane
    but those at [k] and [k + 1] as it is and keeps the wake of the
    airplane at [k]; at the last step, when there is no next airplane to
    shed a wake into, it leaves the airplane at [k + 1] alone as well.
    It sets the current step to [k] and keeps the number of steps. *)
Theorem time_step_is_local (verbose : bool) (k : nat)
    (s s' : Unsteady.solver) :
  Unsteady.time_step verbose k s = Ok s' ->
  Unsteady.num_steps s' = Unsteady.num_steps s /\
  Unsteady.current_step s' = Some k /\
  (forall j, j <> k -> j <> k + 1 ->
     Unsteady.airplanes s' !! j = Unsteady.airplanes s !! j) /\
  wake_of_airplane <$> Unsteady.airplanes s' !! k
    = wake_of_airplane <$> Unsteady.airplanes s !! k /\
  (Unsteady.num_steps s <= k + 1 ->
   Unsteady.airplanes s' !! (k + 1) = Unsteady.airplanes s !! (k + 1)).
Proof. apply time_step_frame. Qed.

End TimeSteps.

(** ** The wake ring vortices on the grid of wake vertices *)

Section WakeGrid.
Context {aero : Aerodynamics}.

Lemma grid_filled_skip (this_wing : Wing.t) (vertices : ndarray Vec3)
    (rings0 rings : ndarray (option RingVortex.t)) (cv sv : nat) :
  grid_filled this_wing vertices rings0 rings cv sv ->
  ~ (cv + 1 < shape0 vertices /\ sv + 1 < shape1 vertices) ->
  grid_filled this_wing vertices rings0 rings cv (S sv).
Proof.
  intros (I1 & I2 & I3) Hout. split; [exact I1|]. split.
  - intros r c [Hr|[-> Hc]] Hr1 Hc1; [apply I2; [by left|done..]|].
    destruct (decide (c = sv)) as [->|Hne]; [tauto|].
    apply I2; [right; split; [done|lia]|done..].
  - intros r c Hnb. apply I3. intros [Hr|[-> Hc]]; apply Hnb;
      [by left|right; split; [done|lia]].
Qed.

Lemma populate_vortex_grid (this_wing : Wing.t) (vertices : ndarray Vec3)
    (rings0 rings rings' : ndarray (option RingVortex.t)) (cv sv : nat)
    (row : list (option RingVortex.t)) :
  rows rings0 = row :: rows (Wing.wake_ring_vortices this_wing) ->
  grid_filled this_wing vertices rings0 rings cv sv ->
  Unsteady.populate_vortex this_wing vertices cv sv rings = Ok rings' ->
  grid_filled this_wing vertices rings0 rings' cv (S sv).
Proof.
  intros Hrows Hinv H. unfold Unsteady.populate_vortex in H.
  destruct (bool_decide (sv + 1 < shape1 vertices)) eqn:Hright.
  2: { simpl in H. injection H as <-. apply grid_filled_skip; [exact Hinv|].
       apply bool_decide_eq_false in Hright. tauto. }
  destruct (bool_decide (cv + 1 < shape0 vertices)) eqn:Hback.
  2: { simpl in H. injection H as <-. apply grid_filled_skip; [exact Hinv|].
       apply bool_decide_eq_false in Hback. tauto. }
  simpl in H. destruct Hinv as (I1 & I2 & I3).
  apply bind_Ok_inv in H as (fl & Hfl & H).
  apply bind_Ok_inv in H as (fr & Hfr & H).
  apply bind_Ok_inv in H as (bl & Hbl & H).
  apply bind_Ok_inv in H as (br & Hbr & H).
  apply bind_Ok_inv in H as (rings1 & H1 & H).
  assert (exists g,
            set2 rings cv sv (Some (RingVortex.new fl fr bl br g)) = Ok rings'
            /\ match cv with
               | 0 =>
                   exists panel,
                     get2_py (Wing.panels this_wing)
                       (trailing_edge_position this_wing) (Z.of_nat sv)
                     = Ok panel /\ ring_strength panel = Ok g
               | S r' =>
                   exists ring,
                     get2 (Wing.wake_ring_vortices this_wing) r' sv
                     = Ok (Some ring) /\ g = RingVortex.strength ring
               end) as (g & Hset & Hg).
  { destruct cv as [|r'].
    - rewrite bool_decide_eq_false_2 in H1 by lia. injection H1 as <-.
      rewrite bool_decide_eq_true_2 in H by done.
      apply bind_Ok_inv in H as (panel & Hpanel & H).
      apply bind_Ok_inv in H as (g & Hg & H).
      exists g. split; [exact H|]. by exists panel.
    - rewrite bool_decide_eq_true_2 in H1 by lia.
      rewrite bool_decide_eq_false_2 in H by lia. injection H as <-.
      apply bind_Ok_inv in H1 as (o & Ho & H1).
      apply bind_Ok_inv in H1 as (ring & Hring & H1).
      apply of_option_Ok in Hring. subst o.
      exists (RingVortex.strength ring). split; [exact H1|].
      exists ring. split; [|reflexivity].
      rewrite I3 in Ho by (intros [Hr|[_ Hc]]; lia).
      apply get2_Ok in Ho as (rw & Hrw & Ho). rewrite Hrows in Hrw.
      apply get2_Ok. exists rw. by split. }
  split; [|split].
  - eapply same_shape_trans; [exact I1|by eapply set2_same_shape].
  - intros r c Hb Hr1 Hc1. destruct (decide ((r, c) = (cv, sv))) as [E|Hne].
    + injection E as -> ->. eexists. split; [by eapply get2_set2_eq|].
      exists fl, fr, bl, br, g. by repeat split.
    + rewrite (get2_set2_ne _ _ _ _ _ _ _ Hset Hne). apply I2; [|done..].
      destruct Hb as [Hr|[-> Hc]]; [by left|]. right. split; [done|].
      destruct (decide (c = sv)) as [->|]; [done|lia].
  - intros r c Hnb. rewrite <- I3.
    + apply (get2_set2_ne _ _ _ _ _ _ _ Hset). intros E.
      injection E as -> ->. apply Hnb. right. split; [done|lia].
    + intros [Hr|[-> Hc]]; apply Hnb; [by left|right; split; [done|lia]].
Qed.

Lemma grid_filled_next_row (this_wing : Wing.t) (vertices : ndarray Vec3)
    (rings0 rings : ndarray (option RingVortex.t)) (cv : nat) :
  grid_filled this_wing vertices rings0 rings cv (shape1 vertices) ->
  grid_filled this_wing vertices rings0 rings (S cv) 0.
Proof.
  intros (I1 & I2 & I3). split; [exact I1|]. split.
  - intros r c [Hr|[_ Hc]] Hr1 Hc1; [|lia]. apply I2; [|done..].
    destruct (decide (r = cv)) as [->|Hne]; [right; split; [done|lia]|].
    left. lia.
  - intros r c Hnb. apply I3. intros [Hr|[-> Hc]]; apply Hnb; left; lia.
Qed.

(** The loops over the positions of the wake vertices *)
Lemma populate_vortex_loops_grid (this_wing : Wing.t)
    (vertices : ndarray Vec3) (rings0 rings : ndarray (option RingVortex.t))
    (row : list (option RingVortex.t)) :
  rows rings0 = row :: rows (Wing.wake_ring_vortices this_wing) ->
  for_each (range (shape0 vertices))
    (fun cv =>
       for_each (range (shape1 vertices))
         (fun sv => Unsteady.populate_vortex this_wing vertices cv sv))
    rings0 = Ok rings ->
  forall r c,
    r + 1 < shape0 vertices -> c + 1 < shape1 vertices ->
    exists o, get2 rings r c = Ok o /\ wake_ring_of this_wing vertices r c o.
Proof.
  intros Hrows Hrings.
  assert (grid_filled this_wing vertices rings0 rings (shape0 vertices) 0)
    as (_ & Hfilled & _).
  { refine (for_each_range_inv
              (fun cv st => grid_filled this_wing vertices rings0 st cv 0)
              _ _ _ _ _ _ Hrings).
    - intros cv st st' Hcv Hst Hrow. apply grid_filled_next_row.
      refine (for_each_range_inv
                (fun sv st => grid_filled this_wing vertices rings0 st cv sv)
                _ _ _ _ _ _ Hrow); [|exact Hst].
      intros sv st1 st1' Hsv Hst1 Hcell.
      eapply populate_vortex_grid; [exact Hrows|exact Hst1|exact Hcell].
    - split; [apply same_shape_refl|]. split; [|done].
      intros r c [Hr|[_ Hc]]; lia. }
  intros r c Hr Hc. apply Hfilled; [left; lia|done..].
Qed.

(** X4.  [populate_next_airplanes_wake_vortices], for one wing, replaces
    the array of wake ring vortices of the next wing and nothing else.
    Wherever the grid of wake vertices of the next wing has a cell
    [(r, c)], the new array has at [(r, c)] the ring vortex constructed
    on the four vertices of that cell; in the first row its strength is
    that of the ring vortex of the trailing-edge panel of the current
    wing above it, and in a later row that of the wake ring vortex of
    the current wing one row up. *)
Theorem wake_ring_vortices_on_grid (step wi : nat)
    (this_airplane_copy : Airplane.t) (this_wing next_wing : Wing.t)
    (s s' : Unsteady.solver) :
  Airplane.wings this_airplane_copy !! wi = Some this_wing ->
  Unsteady.wing_at (step + 1) wi s = Ok next_wing ->
  Unsteady.populate_vortices_of_wing step wi this_airplane_copy s = Ok s' ->
  let vertices := Wing.wake_ring_vortex_vertices next_wing in
  exists rings,
    s' = Unsteady.modify_wing_at (step + 1) wi
           (Wing.set_wake_ring_vortices rings) s /\
    Unsteady.wing_at (step + 1) wi s'
      = Ok (Wing.set_wake_ring_vortices rings next_wing) /\
    forall r c,
      r + 1 < shape0 vertices -> c + 1 < shape1 vertices ->
      exists o, get2 rings r c = Ok o /\
                wake_ring_of this_wing vertices r c o.
Proof.
  intros Hthis Hnext H. unfold Unsteady.populate_vortices_of_wing in H.
  unfold get_item in H. rewrite Hthis in H. simpl in H.
  rewrite Hnext in H. simpl in H.
  apply bind_Ok_inv in H as (u & _ & H).
  apply bind_Ok_inv in H as (rings0 & Hrings0 & H).
  apply bind_Ok_inv in H as (rings & Hrings & H). injection H as <-.
  cbv zeta. exists rings. split; [reflexivity|].
  split; [by apply wing_at_modify_wing_at|].
  pose proof (vstack_Ok _ _ _ Hrings0) as [_ U1].
  eapply populate_vortex_loops_grid; [|exact Hrings].
  rewrite U1. reflexivity.
Qed.

End WakeGrid.

(** ** The ring vortices [initialize_panel_vortices] gives the panels *)

Section InitialRings.
Context {aero : Aerodynamics}.

Lemma for_each_range_visit {S : Type} (Pre Post : S -> Prop) (i n : nat)
    (body : nat -> S -> result S) :
  i < n ->
  (forall j st st', j <> i -> body j st = Ok st' ->
     (Pre st -> Pre st') /\ (Post st -> Post st')) ->
  (forall st st', body i st = Ok st' -> Pre st -> Post st') ->
  forall st st', Pre st -> for_each (range n) body st = Ok st' -> Post st'.
Proof.
  intros Hi Hother Hvisit st st' Hpre H.
  cut (n <= i /\ Pre st' \/ i < n /\ Post st'); [intros [[? _]|[_ ?]]; [lia|done]|].
  refine (for_each_range_inv
            (fun j st => j <= i /\ Pre st \/ i < j /\ Post st) n body
            _ _ _ _ H); [|left; split; [lia|done]].
  intros j s1 s2 Hj [[Hle HP]|[Hlt HP]] Hbody.
  - destruct (decide (j = i)) as [->|Hne].
    + right. split; [lia|]. by eapply Hvisit.
    + left. split; [lia|]. by eapply (Hother j).
  - right. split; [lia|]. eapply (Hother j); [lia|exact Hbody|exact HP].
Qed.

Lemma panel_at_modify_eq (k wi c sp : nat) (f : Panel.t -> Panel.t)
    (s : Unsteady.solver) (p : Panel.t) :
  unsteady_panel_at k wi c sp s = Ok p ->
  unsteady_panel_at k wi c sp (Unsteady.modify_panel_at k wi c sp f s)
    = Ok (f p).
Proof.
  unfold unsteady_panel_at. intros H.
  apply bind_Ok_inv in H as (w & Hw & Hp).
  change (Unsteady.modify_panel_at k wi c sp f s)
    with (Unsteady.modify_wing_at k wi (modify_panel c sp f) s).
  rewrite (wing_at_modify_wing_at _ _ _ _ _ Hw). simpl.
  by apply get2_modify_panel.
Qed.

Lemma panel_at_modify_ne (k wi c sp k' wi' c' sp' : nat)
    (f : Panel.t -> Panel.t) (s : Unsteady.solver) :
  (k, wi, c, sp) <> (k', wi', c', sp') ->
  unsteady_panel_at k wi c sp (Unsteady.modify_panel_at k' wi' c' sp' f s)
    = unsteady_panel_at k wi c sp s.
Proof.
  intros Hne. unfold unsteady_panel_at, Unsteady.wing_at,
    Unsteady.airplane_at, get_item, get2. simpl.
  destruct (decide (k = k')) as [->|Hk];
    [|by rewrite list_lookup_alter_ne].
  rewrite list_lookup_alter. destruct (decide (k' = k')); [|done].
  destruct (Unsteady.airplanes s !! k') as [a|]; simpl; [|reflexivity].
  destruct (decide (wi = wi')) as [->|Hwi];
    [|by rewrite list_lookup_alter_ne].
  rewrite list_lookup_alter. destruct (decide (wi' = wi')); [|done].
  destruct (Airplane.wings a !! wi') as [w|]; simpl; [|reflexivity].
  destruct (decide (c = c')) as [->|Hc];
    [|by rewrite list_lookup_alter_ne].
  rewrite list_lookup_alter. destruct (decide (c' = c')); [|done].
  destruct (rows (Wing.panels w) !! c') as [row|]; simpl; [|reflexivity].
  rewrite list_lookup_alter_ne; [reflexivity|]. congruence.
Qed.

Lemma rings_only_refl (s : Unsteady.solver) : rings_only s s.
Proof.
  intros k wi c sp. destruct (unsteady_panel_at k wi c sp s) as [p|e];
    [|exact I].
  exists (Panel.ring_vortex p). by destruct p.
Qed.

Lemma rings_only_modify (s st : Unsteady.solver) (k wi c sp : nat)
    (r : option RingVortex.t) :
  rings_only s st ->
  rings_only s
    (Unsteady.modify_panel_at k wi c sp (Panel.set_ring_vortex r) st).
Proof.
  intros H k0 wi0 c0 sp0. specialize (H k0 wi0 c0 sp0).
  destruct (decide ((k0, wi0, c0, sp0) = (k, wi, c, sp))) as [E|Hne].
  - injection E as -> -> -> ->.
    destruct (unsteady_panel_at k wi c sp s) as [p|e],
      (unsteady_panel_at k wi c sp st) as [p'|e'] eqn:Hst; try done.
    + rewrite (panel_at_modify_eq _ _ _ _ _ _ _ Hst).
      destruct H as [r' ->]. by exists r.
    + unfold unsteady_panel_at in *.
      change (Unsteady.modify_panel_at k wi c sp (Panel.set_ring_vortex r) st)
        with (Unsteady.modify_wing_at k wi
                (modify_panel c sp (Panel.set_ring_vortex r)) st).
      destruct (Unsteady.wing_at k wi st) as [w|e1] eqn:Hw.
      * rewrite (wing_at_modify_wing_at _ _ _ _ _ Hw). simpl in *.
        unfold get2 in *. simpl. rewrite list_lookup_alter.
        destruct (decide (c = c)); [|done].
        destruct (rows (Wing.panels w) !! c) as [row|]; simpl in *;
          [|done].
        rewrite list_lookup_alter. destruct (decide (sp = sp)); [|done].
        by destruct (row !! sp).
      * unfold Unsteady.wing_at, Unsteady.airplane_at, get_item in *.
        simpl. rewrite list_lookup_alter. destruct (decide (k = k)); [|done].
        destruct (Unsteady.airplanes st !! k) as [a|]; simpl in *; [|done].
        rewrite list_lookup_alter. destruct (decide (wi = wi)); [|done].
        by destruct (Airplane.wings a !! wi).
  - by rewrite panel_at_modify_ne.
Qed.

Lemma initialize_panel_keeps (s st st' : Unsteady.solver)
    (k wi c sp : nat) :
  rings_only s st /\ same_wakes s st ->
  Unsteady.initialize_panel k wi c sp st = Ok st' ->
  rings_only s st' /\ same_wakes s st'.
Proof.
  intros [Hr Hw] H. unfold Unsteady.initialize_panel in H.
  apply bind_Ok_inv in H as (wing & _ & H).
  apply bind_Ok_inv in H as (panel & _ & H).
  apply bind_Ok_inv in H as ([bl br] & _ & H). injection H as <-.
  split; [by apply rings_only_modify|].
  eapply same_wakes_trans; [exact Hw|].
  eapply frame_at_same_wakes, frame_at_modify_panel_at.
  intros a. apply wake_of_modify_panel.
Qed.

Lemma initialize_panel_other (st st' : Unsteady.solver)
    (k wi c sp k' wi' c' sp' : nat) :
  (k, wi, c, sp) <> (k', wi', c', sp') ->
  Unsteady.initialize_panel k' wi' c' sp' st = Ok st' ->
  unsteady_panel_at k wi c sp st' = unsteady_panel_at k wi c sp st.
Proof.
  intros Hne H. unfold Unsteady.initialize_panel in H.
  apply bind_Ok_inv in H as (wing & _ & H).
  apply bind_Ok_inv in H as (panel & _ & H).
  apply bind_Ok_inv in H as ([bl br] & _ & H). injection H as <-.
  by apply panel_at_modify_ne.
Qed.

Lemma initialize_panel_at (s st st' : Unsteady.solver) (k wi c sp : nat)
    (w : Wing.t) (p : Panel.t) :
  rings_only s st ->
  Unsteady.wing_at k wi s = Ok w ->
  get2 (Wing.panels w) c sp = Ok p ->
  Unsteady.initialize_panel k wi c sp st = Ok st' ->
  exists ring,
    initial_ring w c sp p ring /\
    unsteady_panel_at k wi c sp st'
      = Ok (Panel.set_ring_vortex (Some ring) p).
Proof.
  intros Hr Hw Hp H. unfold Unsteady.initialize_panel in H.
  apply bind_Ok_inv in H as (w_st & Hw_st & H).
  apply bind_Ok_inv in H as (p_st & Hp_st & H).
  assert (unsteady_panel_at k wi c sp st = Ok p_st) as Hat.
  { unfold unsteady_panel_at. rewrite Hw_st. exact Hp_st. }
  pose proof (Hr k wi c sp) as Hcell. rewrite Hat in Hcell.
  unfold unsteady_panel_at in Hcell at 1. rewrite Hw in Hcell.
  simpl in Hcell. rewrite Hp in Hcell. destruct Hcell as [r0 ->].
  simpl in H.
  apply bind_Ok_inv in H as ([bl br] & Hback & H). injection H as <-.
  exists (RingVortex.new (Panel.front_left_vortex_vertex p)
            (Panel.front_right_vortex_vertex p) bl br None).
  split.
  - exists bl, br. split; [reflexivity|].
    destruct (Panel.is_trailing_edge p); simpl in Hback.
    + by injection Hback as <- <-.
    + apply bind_Ok_inv in Hback as (q_st & Hq_st & Hback).
      injection Hback as <- <-.
      pose proof (Hr k wi (c + 1) sp) as Hnext.
      unfold unsteady_panel_at in Hnext. rewrite Hw, Hw_st in Hnext.
      simpl in Hnext. rewrite Hq_st in Hnext.
      destruct (get2 (Wing.panels w) (c + 1) sp) as [q|e]; [|done].
      destruct Hnext as [r1 ->]. by exists q.
  - rewrite (panel_at_modify_eq _ _ _ _ _ _ _ Hat). reflexivity.
Qed.

Lemma same_wakes_wing (s st : Unsteady.solver) (k wi : nat) (w : Wing.t) :
  same_wakes s st -> Unsteady.wing_at k wi s = Ok w ->
  exists w_st,
    Unsteady.wing_at k wi st = Ok w_st /\
    Wing.num_chordwise_panels w_st = Wing.num_chordwise_panels w /\
    Wing.num_spanwise_panels w_st = Wing.num_spanwise_panels w.
Proof.
  intros [_ Hs] Hw. apply wing_at_Ok in Hw as (a & Ha & Hw).
  specialize (Hs k). rewrite Ha in Hs. simpl in Hs.
  apply fmap_Some in Hs as (a_st & Ha_st & E).
  destruct (wake_of_airplane_lookup _ _ _ _ E Hw) as (w_st & Hw_st & Ew).
  unfold wake_of_wing in Ew. injection Ew as E1 E2 _ _.
  exists w_st. split; [|by split]. apply wing_at_Ok. eauto.
Qed.

Section Cell.
Variables (s : Unsteady.solver) (k wi c sp : nat) (w : Wing.t) (p : Panel.t).
Hypothesis Hw : Unsteady.wing_at k wi s = Ok w.
Hypothesis Hc : c < Wing.num_chordwise_panels w.
Hypothesis Hsp : sp < Wing.num_spanwise_panels w.
Hypothesis Hp : get2 (Wing.panels w) c sp = Ok p.

Let Inv (st : Unsteady.solver) : Prop := rings_only s st /\ same_wakes s st.

Let Post (st : Unsteady.solver) : Prop :=
  Inv st /\
  exists ring,
    initial_ring w c sp p ring /\
    unsteady_panel_at k wi c sp st = Ok (Panel.set_ring_vortex (Some ring) p).

Lemma spanwise_loop_keeps (k' wi' c' n : nat) (st st' : Unsteady.solver) :
  for_each (range n) (fun sp' => Unsteady.initialize_panel k' wi' c' sp') st
    = Ok st' ->
  Inv st -> Inv st'.
Proof.
  intros H Hst. eapply (for_each_inv Inv); [| |exact H]; [|exact Hst].
  intros sp' s1 s2 _ H1 H2. by eapply initialize_panel_keeps.
Qed.

Lemma spanwise_loop_other (k' wi' c' n : nat) (st st' : Unsteady.solver) :
  (k, wi, c) <> (k', wi', c') ->
  for_each (range n) (fun sp' => Unsteady.initialize_panel k' wi' c' sp') st
    = Ok st' ->
  unsteady_panel_at k wi c sp st' = unsteady_panel_at k wi c sp st.
Proof.
  intros Hne H.
  eapply (for_each_inv
            (fun s1 => unsteady_panel_at k wi c sp s1
                       = unsteady_panel_at k wi c sp st));
    [| |exact H]; [|reflexivity].
  intros sp' s1 s2 _ H1 H2. rewrite <- H1.
  eapply initialize_panel_other; [|exact H2]. congruence.
Qed.

Lemma initialize_wing_keeps (k' wi' : nat) (st st' : Unsteady.solver) :
  Unsteady.initialize_wing k' wi' st = Ok st' -> Inv st -> Inv st'.
Proof.
  unfold Unsteady.initialize_wing. intros H Hst.
  apply bind_Ok_inv in H as (w' & _ & H).
  eapply (for_each_inv Inv); [| |exact H]; [|exact Hst].
  intros c' s1 s2 _ H1 H2.
  eapply spanwise_loop_keeps; [exact H2|exact H1].
Qed.

Lemma initialize_wing_other (k' wi' : nat) (st st' : Unsteady.solver) :
  (k, wi) <> (k', wi') ->
  Unsteady.initialize_wing k' wi' st = Ok st' ->
  unsteady_panel_at k wi c sp st' = unsteady_panel_at k wi c sp st.
Proof.
  unfold Unsteady.initialize_wing. intros Hne H.
  apply bind_Ok_inv in H as (w' & _ & H).
  eapply (for_each_inv
            (fun s1 => unsteady_panel_at k wi c sp s1
                       = unsteady_panel_at k wi c sp st));
    [| |exact H]; [|reflexivity].
  intros c' s1 s2 _ H1 H2. rewrite <- H1.
  eapply spanwise_loop_other; [|exact H2]. congruence.
Qed.

Lemma spanwise_loop_visit (n : nat) (st st' : Unsteady.solver) :
  sp < n ->
  for_each (range n) (fun sp' => Unsteady.initialize_panel k wi c sp') st
    = Ok st' ->
  Inv st -> Post st'.
Proof.
  intros Hn H Hst.
  refine (for_each_range_visit Inv Post sp n _ Hn _ _ _ _ Hst H).
  - intros j s1 s2 Hj Hbody. split.
    + intros H1. by eapply initialize_panel_keeps.
    + intros [H1 (ring & Hring & Hat)].
      split; [by eapply initialize_panel_keeps|].
      exists ring. split; [exact Hring|]. rewrite <- Hat.
      eapply initialize_panel_other; [|exact Hbody]. congruence.
  - intros s1 s2 Hbody H1.
    split; [by eapply initialize_panel_keeps|].
    destruct H1 as [H1 _]. by eapply initialize_panel_at.
Qed.

Lemma initialize_wing_visit (st st' : Unsteady.solver) :
  Unsteady.initialize_wing k wi st = Ok st' -> Inv st -> Post st'.
Proof.
  unfold Unsteady.initialize_wing. intros H Hst.
  apply bind_Ok_inv in H as (w_st & Hw_st & H).
  destruct (same_wakes_wing _ _ _ _ _ (proj2 Hst) Hw)
    as (w1 & Hw1 & Hnc & Hns).
  rewrite Hw_st in Hw1. injection Hw1 as <-.
  assert (c < Wing.num_chordwise_panels w_st) as Hc' by lia.
  refine (for_each_range_visit Inv Post c _ _ Hc' _ _ _ _ Hst H).
  - intros j s1 s2 Hj Hbody. split.
    + intros H1. eapply spanwise_loop_keeps; [exact Hbody|exact H1].
    + intros [H1 (ring & Hring & Hat)].
      split; [eapply spanwise_loop_keeps; [exact Hbody|exact H1]|].
      exists ring. split; [exact Hring|]. rewrite <- Hat.
      eapply spanwise_loop_other; [|exact Hbody]. congruence.
  - intros s1 s2 Hbody H1.
    eapply spanwise_loop_visit; [|exact Hbody|exact H1]. lia.
Qed.

Lemma initialize_airplane_visit (st st' : Unsteady.solver) :
  (airplane ← Unsteady.airplane_at k st;
   for_each (range (length (Airplane.wings airplane)))
     (fun wi' => Unsteady.initialize_wing k wi') st) = Ok st' ->
  Inv st -> Post st'.
Proof.
  intros H Hst. apply bind_Ok_inv in H as (a_st & Ha_st & H).
  apply get_item_Ok in Ha_st.
  destruct (same_wakes_wing _ _ _ _ _ (proj2 Hst) Hw) as (w1 & Hw1 & _).
  apply wing_at_Ok in Hw1 as (a1 & Ha1 & Hw1).
  rewrite Ha_st in Ha1. injection Ha1 as <-.
  apply lookup_lt_Some in Hw1.
  refine (for_each_range_visit Inv Post wi _ _ Hw1 _ _ _ _ Hst H).
  - intros j s1 s2 Hj Hbody. split.
    + intros H1. eapply initialize_wing_keeps; [exact Hbody|exact H1].
    + intros [H1 (ring & Hring & Hat)].
      split; [eapply initialize_wing_keeps; [exact Hbody|exact H1]|].
      exists ring. split; [exact Hring|]. rewrite <- Hat.
      eapply initialize_wing_other; [|exact Hbody]. congruence.
  - intros s1 s2 Hbody H1.
    eapply initialize_wing_visit; [exact Hbody|exact H1].
Qed.

Lemma initialize_airplane_other (k' : nat) (st st' : Unsteady.solver) :
  k' <> k ->
  (airplane ← Unsteady.airplane_at k' st;
   for_each (range (length (Airplane.wings airplane)))
     (fun wi' => Unsteady.initialize_wing k' wi') st) = Ok st' ->
  (Inv st -> Inv st') /\
  unsteady_panel_at k wi c sp st' = unsteady_panel_at k wi c sp st.
Proof.
  intros Hne H. apply bind_Ok_inv in H as (a_st & _ & H). split.
  - intros Hst. eapply (for_each_inv Inv); [| |exact H]; [|exact Hst].
    intros wi' s1 s2 _ H1 H2.
    eapply initialize_wing_keeps; [exact H2|exact H1].
  - eapply (for_each_inv
              (fun s1 => unsteady_panel_at k wi c sp s1
                         = unsteady_panel_at k wi c sp st));
      [| |exact H]; [|reflexivity].
    intros wi' s1 s2 _ H1 H2. rewrite <- H1.
    eapply initialize_wing_other; [|exact H2]. congruence.
Qed.

Lemma initialize_panel_vortices_visit (s' : Unsteady.solver) :
  Unsteady.initialize_panel_vortices s = Ok s' -> Post s'.
Proof.
  unfold Unsteady.initialize_panel_vortices. intros H.
  assert (k < length (Unsteady.airplanes s)) as Hk.
  { apply wing_at_Ok in Hw as (a & Ha & _). by eapply lookup_lt_Some. }
  refine (for_each_range_visit Inv Post k _ _ Hk _ _ _ _ _ H).
  - intros j s1 s2 Hj Hbody.
    destruct (initialize_airplane_other _ _ _ Hj Hbody) as [Hkeep Hsame].
    split; [exact Hkeep|]. intros [H1 (ring & Hring & Hat)].
    split; [by apply Hkeep|]. exists ring. by rewrite Hsame.
  - intros s1 s2 Hbody H1.
    eapply initialize_airplane_visit; [exact Hbody|exact H1].
  - split; [apply rings_only_refl|apply same_wakes_refl].
Qed.

End Cell.

(** X5.  [initialize_panel_vortices] of the unsteady solver gives every
    panel of every wing of every airplane of the movement its ring
    vortex and changes nothing else.  The ring vortex of the panel at
    [(c, sp)] has the front vortex vertices of the panel as front
    vertices; its back vertices are the front vortex vertices of the
    panel at [(c + 1, sp)] or, for a trailing-edge panel, the front
    vortex vertices moved by the sides of the panel; its strength is not
    set.  The wakes and the panel counts stay as they are. *)
Theorem initialize_panel_vortices_rings (s s' : Unsteady.solver) :
  Unsteady.initialize_panel_vortices s = Ok s' ->
  rings_only s s' /\ same_wakes s s' /\
  forall k wi c sp w p,
    Unsteady.wing_at k wi s = Ok w ->
    c < Wing.num_chordwise_panels w ->
    sp < Wing.num_spanwise_panels w ->
    get2 (Wing.panels w) c sp = Ok p ->
    exists ring,
      initial_ring w c sp p ring /\
      unsteady_panel_at k wi c sp s'
        = Ok (Panel.set_ring_vortex (Some ring) p).
Proof.
  intros H.
  assert (rings_only s s' /\ same_wakes s s') as [Hr Hs].
  { pose proof H as H'. unfold Unsteady.initialize_panel_vortices in H'.
    eapply (for_each_inv (fun st => rings_only s st /\ same_wakes s st));
      [| |exact H'];
      [|split; [apply rings_only_refl|apply same_wakes_refl]].
    intros j s1 s2 _ H1 Hbody.
    by apply (initialize_airplane_other s (S j) 0 0 0 j s1 s2). }
  split; [exact Hr|]. split; [exact Hs|].
  intros k wi c sp w p Hw Hc Hsp Hp.
  by destruct (initialize_panel_vortices_visit s k wi c sp w p Hw Hc Hsp Hp
                 s' H) as [_ Hring].
Qed.

End InitialRings.

(** ** The wake vertices shed at the trailing edge *)

Section WakeVertices.
Context {aero : Aerodynamics}.

Lemma get2_vstack_top {A : Type} (a b c : ndarray A) (i j : nat) :
  vstack a b = Ok c -> i < shape0 a -> get2 c i j = get2 a i j.
Proof.
  intros H Hi. apply vstack_Ok in H as [_ ->]. unfold get2. simpl.
  by rewrite lookup_app_l.
Qed.

Lemma get2_vstack_under {A : Type} (a b c : ndarray A) (i j : nat) :
  vstack a b = Ok c -> get2 c (shape0 a + i) j = get2 b i j.
Proof.
  intros H. apply vstack_Ok in H as [_ ->]. unfold get2, shape0. simpl.
  rewrite lookup_app_r by lia.
  by replace (length (rows a) + i - length (rows a)) with i by lia.
Qed.

Lemma new_row_of_vertices_entries (s : Unsteady.solver) (step wi : nat)
    (this_wing next_wing : Wing.t) (row : ndarray Vec3) :
  Unsteady.wing_at (step + 1) wi s = Ok next_wing ->
  Unsteady.new_row_of_vertices s step wi this_wing = Ok row ->
  forall sp, sp < Wing.num_spanwise_panels this_wing ->
    exists next_panel freestream,
      get2_py (Wing.panels next_wing) (trailing_edge_position this_wing)
        (Z.of_nat sp) = Ok next_panel /\
      Unsteady.the_freestream_velocity s = Ok freestream /\
      get2 row 0 sp
        = Ok (Unsteady.shed_vertex s freestream step wi
                (trailing_edge_position this_wing) sp "back_left_vertex"
                (Panel.back_left_vertex next_panel)) /\
      (sp = Wing.num_spanwise_panels this_wing - 1 ->
       get2 row 0 (sp + 1)
         = Ok (Unsteady.shed_vertex s freestream step wi
                 (trailing_edge_position this_wing) sp "back_right_vertex"
                 (Panel.back_right_vertex next_panel))).
Proof.
  intros Hnext H. unfold Unsteady.new_row_of_vertices in H.
  cbv zeta in H.
  refine (for_each_range_inv
            (fun i row =>
               forall sp, sp < i ->
                 exists next_panel freestream,
                   get2_py (Wing.panels next_wing)
                     (trailing_edge_position this_wing) (Z.of_nat sp)
                     = Ok next_panel /\
                   Unsteady.the_freestream_velocity s = Ok freestream /\
                   get2 row 0 sp
                     = Ok (Unsteady.shed_vertex s freestream step wi
                             (trailing_edge_position this_wing) sp
                             "back_left_vertex"
                             (Panel.back_left_vertex next_panel)) /\
                   (sp = Wing.num_spanwise_panels this_wing - 1 ->
                    get2 row 0 (sp + 1)
                      = Ok (Unsteady.shed_vertex s freestream step wi
                              (trailing_edge_position this_wing) sp
                              "back_right_vertex"
                              (Panel.back_right_vertex next_panel))))
            _ _ _ _ _ _ H); [|intros sp Hsp; lia].
  clear H row. intros i row row' Hi Hdone H sp Hsp.
  rewrite Hnext in H. simpl in H.
  apply bind_Ok_inv in H as (next_panel & Hpanel & H).
  apply bind_Ok_inv in H as (freestream & Hfs & H).
  apply bind_Ok_inv in H as (row1 & Hrow1 & H).
  destruct (decide (sp = i)) as [->|Hne].
  - exists next_panel, freestream.
    split; [exact Hpanel|]. split; [exact Hfs|].
    destruct (decide (i = Wing.num_spanwise_panels this_wing - 1))
      as [Hlast|Hlast].
    + split.
      * rewrite (get2_set2_ne _ _ _ _ _ _ _ H) by (intros [=]; lia).
        by eapply get2_set2_eq.
      * intros _. by eapply get2_set2_eq.
    + injection H as <-. split; [by eapply get2_set2_eq|]. intros E. lia.
  - destruct (Hdone sp) as (p & f & Hp & Hf & Hl & Hr); [lia|].
    exists p, f. split; [exact Hp|]. split; [exact Hf|].
    assert (get2 row1 0 sp = get2 row 0 sp) as E1
      by (apply (get2_set2_ne _ _ _ _ _ _ _ Hrow1); intros [=]; lia).
    split; [|intros E; lia].
    destruct (decide (i = Wing.num_spanwise_panels this_wing - 1)).
    + rewrite (get2_set2_ne _ _ _ _ _ _ _ H) by (intros [=]; lia).
      by rewrite E1.
    + injection H as <-. by rewrite E1.
Qed.


Lemma panel_at_set_vertices (k wi c sp k' wi' : nat)
    (vertices : ndarray Vec3) (s : Unsteady.solver) :
  unsteady_panel_at k wi c sp
    (Unsteady.modify_wing_at k' wi'
       (Wing.set_wake_ring_vortex_vertices vertices) s)
  = unsteady_panel_at k wi c sp s.
Proof.
  unfold unsteady_panel_at, Unsteady.wing_at, Unsteady.airplane_at,
    get_item. simpl.
  rewrite list_lookup_alter. destruct (decide (k' = k)) as [->|]; [|done].
  destruct (Unsteady.airplanes s !! k) as [a|]; simpl; [|reflexivity].
  rewrite list_lookup_alter. destruct (decide (wi' = wi)) as [->|]; [|done].
  by destruct (Airplane.wings a !! wi) as [w|].
Qed.

Lemma attach_trailing_edge_ring (step wi c j : nat)
    (this_wing next_wing : Wing.t) (new_row : ndarray Vec3)
    (st st' : Unsteady.solver) :
  py_index (shape0 (Wing.panels next_wing)) (trailing_edge_position this_wing)
    = Ok c ->
  (exists w, Unsteady.wing_at (step + 1) wi st = Ok w /\
     shape0 (Wing.panels w) = shape0 (Wing.panels next_wing)) ->
  (next_wing ← Unsteady.wing_at (step + 1) wi st;
   c ← py_index (shape0 (Wing.panels next_wing))
         (trailing_edge_position this_wing);
   _ ← py_index (shape1 (Wing.panels next_wing)) (Z.of_nat j);
   next_panel ← get2 (Wing.panels next_wing) c j;
   new_back_left_vortex_vertex ← get2 new_row 0 j;
   new_back_right_vortex_vertex ← get2 new_row 0 (j + 1);
   next_ring_vortex ← attr (Panel.ring_vortex next_panel);
   Ok (Unsteady.modify_panel_at (step + 1) wi c j
         (Panel.set_ring_vortex
            (Some (RingVortex.update_position
                     (RingVortex.front_left_vertex next_ring_vortex)
                     (RingVortex.front_right_vertex next_ring_vortex)
                     new_back_left_vortex_vertex
                     new_back_right_vortex_vertex next_ring_vortex)))
         st)) = Ok st' ->
  (exists w, Unsteady.wing_at (step + 1) wi st' = Ok w /\
     shape0 (Wing.panels w) = shape0 (Wing.panels next_wing)) /\
  exists p bl br r,
    unsteady_panel_at (step + 1) wi c j st = Ok p /\
    get2 new_row 0 j = Ok bl /\ get2 new_row 0 (j + 1) = Ok br /\
    Panel.ring_vortex p = Some r /\
    st' = Unsteady.modify_panel_at (step + 1) wi c j
            (Panel.set_ring_vortex
               (Some (RingVortex.update_position
                        (RingVortex.front_left_vertex r)
                        (RingVortex.front_right_vertex r) bl br r))) st.
Proof.
  intros Hc (w & Hw & Hshape) Hj.
  rewrite Hw in Hj. simpl in Hj. rewrite Hshape, Hc in Hj. simpl in Hj.
  apply bind_Ok_inv in Hj as (j' & _ & Hj).
  apply bind_Ok_inv in Hj as (p & Hp & Hj).
  apply bind_Ok_inv in Hj as (bl & Hbl & Hj).
  apply bind_Ok_inv in Hj as (br & Hbr & Hj).
  apply bind_Ok_inv in Hj as (r & Hr & Hj).
  apply of_option_Ok in Hr. injection Hj as <-. split.
  - exists (modify_panel c j
              (Panel.set_ring_vortex
                 (Some (RingVortex.update_position
                          (RingVortex.front_left_vertex r)
                          (RingVortex.front_right_vertex r) bl br r))) w).
    split.
    + by apply (wing_at_modify_wing_at (step + 1) wi).
    + rewrite <- Hshape. unfold shape0. simpl. apply length_alter.
  - exists p, bl, br, r. repeat split; try assumption.
    unfold unsteady_panel_at. rewrite Hw. exact Hp.
Qed.

Lemma attach_trailing_edge_rings_others (step wi c c' sp' : nat)
    (this_wing next_wing : Wing.t) (new_row : ndarray Vec3)
    (s s' : Unsteady.solver) :
  Unsteady.wing_at (step + 1) wi s = Ok next_wing ->
  py_index (shape0 (Wing.panels next_wing)) (trailing_edge_position this_wing)
    = Ok c ->
  Unsteady.attach_trailing_edge_rings step wi this_wing new_row s = Ok s' ->
  c' <> c ->
  unsteady_panel_at (step + 1) wi c' sp' s'
  = unsteady_panel_at (step + 1) wi c' sp' s.
Proof.
  intros Hnext Hc H Hne. unfold Unsteady.attach_trailing_edge_rings in H.
  cut ((exists w, Unsteady.wing_at (step + 1) wi s' = Ok w /\
          shape0 (Wing.panels w) = shape0 (Wing.panels next_wing)) /\
       unsteady_panel_at (step + 1) wi c' sp' s'
       = unsteady_panel_at (step + 1) wi c' sp' s); [by intros [_ ?]|].
  eapply (for_each_inv
            (fun st =>
               (exists w, Unsteady.wing_at (step + 1) wi st = Ok w /\
                  shape0 (Wing.panels w) = shape0 (Wing.panels next_wing)) /\
               unsteady_panel_at (step + 1) wi c' sp' st
               = unsteady_panel_at (step + 1) wi c' sp' s));
    [| |exact H]; [|split; [by exists next_wing|reflexivity]].
  intros j st st' _ [Hst Hsame] Hj.
  destruct (attach_trailing_edge_ring _ _ _ _ _ _ _ _ _ Hc Hst Hj)
    as (Hst' & p & bl & br & r & _ & _ & _ & _ & ->).
  split; [exact Hst'|]. rewrite <- Hsame.
  apply panel_at_modify_ne. intros [=]. contradiction.
Qed.

Lemma attach_trailing_edge_rings_at (step wi c sp : nat)
    (this_wing next_wing : Wing.t) (new_row : ndarray Vec3)
    (next_panel : Panel.t) (ring : RingVortex.t) (s s' : Unsteady.solver) :
  Unsteady.wing_at (step + 1) wi s = Ok next_wing ->
  py_index (shape0 (Wing.panels next_wing)) (trailing_edge_position this_wing)
    = Ok c ->
  sp < Wing.num_spanwise_panels this_wing ->
  get2 (Wing.panels next_wing) c sp = Ok next_panel ->
  Panel.ring_vortex next_panel = Some ring ->
  Unsteady.attach_trailing_edge_rings step wi this_wing new_row s = Ok s' ->
  exists bl br,
    get2 new_row 0 sp = Ok bl /\ get2 new_row 0 (sp + 1) = Ok br /\
    unsteady_panel_at (step + 1) wi c sp s'
    = Ok (Panel.set_ring_vortex
            (Some (RingVortex.update_position
                     (RingVortex.front_left_vertex ring)
                     (RingVortex.front_right_vertex ring) bl br ring))
            next_panel).
Proof.
  intros Hnext Hc Hsp Hpanel Hring H.
  unfold Unsteady.attach_trailing_edge_rings in H.
  refine (for_each_range_visit
            (fun st =>
               (exists w, Unsteady.wing_at (step + 1) wi st = Ok w /\
                  shape0 (Wing.panels w) = shape0 (Wing.panels next_wing)) /\
               unsteady_panel_at (step + 1) wi c sp st = Ok next_panel)
            (fun st =>
               exists bl br,
                 get2 new_row 0 sp = Ok bl /\
                 get2 new_row 0 (sp + 1) = Ok br /\
                 unsteady_panel_at (step + 1) wi c sp st
                 = Ok (Panel.set_ring_vortex
                         (Some (RingVortex.update_position
                                  (RingVortex.front_left_vertex ring)
                                  (RingVortex.front_right_vertex ring)
                                  bl br ring))
                         next_panel))
            sp _ _ Hsp _ _ s s' _ H).
  - intros j st st' Hne Hj. split.
    + intros [Hst Hat].
      destruct (attach_trailing_edge_ring _ _ _ _ _ _ _ _ _ Hc Hst Hj)
        as (Hst' & p & bl & br & r & _ & _ & _ & _ & ->).
      split; [exact Hst'|]. rewrite <- Hat.
      apply panel_at_modify_ne. intros [=]. by apply Hne.
    + intros (bl & br & Hbl & Hbr & Hat). exists bl, br.
      split; [exact Hbl|]. split; [exact Hbr|]. rewrite <- Hat.
      apply bind_Ok_inv in Hj as (w & _ & Hj).
      apply bind_Ok_inv in Hj as (c0 & _ & Hj).
      apply bind_Ok_inv in Hj as (j' & _ & Hj).
      apply bind_Ok_inv in Hj as (p & _ & Hj).
      apply bind_Ok_inv in Hj as (bl0 & _ & Hj).
      apply bind_Ok_inv in Hj as (br0 & _ & Hj).
      apply bind_Ok_inv in Hj as (r & _ & Hj). injection Hj as <-.
      apply panel_at_modify_ne. intros [=]. by apply Hne.
  - intros st st' Hj [Hst Hat].
    destruct (attach_trailing_edge_ring _ _ _ _ _ _ _ _ _ Hc Hst Hj)
      as (_ & p & bl & br & r & Hp & Hbl & Hbr & Hr & ->).
    rewrite Hat in Hp. injection Hp as <-.
    rewrite Hring in Hr. injection Hr as <-.
    exists bl, br. split; [exact Hbl|]. split; [exact Hbr|].
    by apply panel_at_modify_eq.
  - split; [by exists next_wing|]. unfold unsteady_panel_at. by rewrite Hnext.
Qed.

Lemma vstack_no_rows {A : Type} (a b c : ndarray A) :
  vstack a b = Ok c -> shape0 a = 0 -> c = b.
Proof.
  intros H H0. apply vstack_Ok in H as [Hs ->].
  unfold shape0 in H0. apply length_zero_iff_nil in H0.
  rewrite H0, Hs. by destruct b.
Qed.

(** The steps of [populate_next_airplanes_wake_vortex_vertices] for one
    wing: the new row at the trailing edge, the trailing-edge ring
    vortices attached to it, and the rows put under it. *)
Lemma populate_vertices_of_wing_Ok (step wi : nat)
    (this_wing next_wing : Wing.t) (s s' : Unsteady.solver) :
  Unsteady.wing_at step wi s = Ok this_wing ->
  Unsteady.wing_at (step + 1) wi s = Ok next_wing ->
  (step = 0 -> shape0 (Wing.wake_ring_vortex_vertices next_wing) = 0) ->
  Unsteady.populate_vertices_of_wing step wi s = Ok s' ->
  exists new_row s1 w1 under vertices,
    Unsteady.new_row_of_vertices s step wi this_wing = Ok new_row /\
    Unsteady.attach_trailing_edge_rings step wi this_wing new_row s = Ok s1 /\
    Unsteady.wing_at (step + 1) wi s1 = Ok w1 /\
    (if decide (step = 0) then
       Unsteady.convect_into_row (Unsteady.current_freestream_velocity s)
         (Unsteady.delta_time s) new_row
         (np_full 1 (Wing.num_spanwise_panels this_wing + 1) vzero)
     else
       Unsteady.convect_in_place (Unsteady.current_freestream_velocity s)
         (Unsteady.delta_time s) (Wing.wake_ring_vortex_vertices this_wing))
    = Ok under /\
    vstack new_row under = Ok vertices /\
    s' = Unsteady.modify_wing_at (step + 1) wi
           (Wing.set_wake_ring_vortex_vertices vertices) s1.
Proof.
  intros Hthis Hnext Hempty H. unfold Unsteady.populate_vertices_of_wing in H.
  rewrite Hthis, Hnext in H. simpl in H.
  destruct (decide (step = 0)) as [Hstep|Hstep].
  - apply bind_Ok_inv in H as (new_row & Hrow & H).
    apply bind_Ok_inv in H as (s1 & Hs1 & H).
    apply bind_Ok_inv in H as (w1 & Hw1 & H).
    apply bind_Ok_inv in H as (v1 & Hv1 & H).
    apply bind_Ok_inv in H as (row2 & Hrow2 & H).
    apply bind_Ok_inv in H as (v2 & Hv2 & H). injection H as <-.
    pose proof (attach_trailing_edge_rings_frame _ _ _ _ _ _ Hs1) as Hframe.
    destruct (wing_step_wing_at _ _ _ _ _ _ Hframe Hnext)
      as (w1' & Hw1' & Hwake).
    rewrite Hw1 in Hw1'. injection Hw1' as <-.
    unfold wake_of_wing in Hwake. injection Hwake as _ _ E _.
    apply vstack_no_rows in Hv1 as ->; [|rewrite E; by apply Hempty].
    destruct Hframe as ((_ & Hdt & _ & _ & _ & Hfs) & _).
    rewrite Hdt, Hfs in Hrow2.
    by exists new_row, s1, w1, row2, v2.
  - apply bind_Ok_inv in H as (conv & Hconv & H).
    apply bind_Ok_inv in H as (new_row & Hrow & H).
    apply bind_Ok_inv in H as (s1 & Hs1 & H).
    apply bind_Ok_inv in H as (v & Hv & H). injection H as <-.
    pose proof (attach_trailing_edge_rings_frame _ _ _ _ _ _ Hs1) as Hframe.
    destruct (wing_step_wing_at _ _ _ _ _ _ Hframe Hnext)
      as (w1 & Hw1 & _).
    by exists new_row, s1, w1, conv, v.
Qed.

(** X6.  The wake vertices [populate_next_airplanes_wake_vortex_vertices]
    gives a wing of the next airplane.  Row 0 holds, for every spanwise
    position, the back left vertex of the trailing-edge panel of the next
    wing, moved over a quarter of a time step at the freestream velocity
    plus the flapping velocity of that vertex; its last entry is the back
    right vertex of the last panel, moved likewise.  At the first step
    row 1 is row 0 moved over one time step at the freestream velocity;
    at a later step the rows under row 0 are the wake vertices of the
    current wing, each moved over one time step at the freestream
    velocity. *)
Theorem next_wake_vertices (step wi : nat) (this_wing next_wing : Wing.t)
    (s s' : Unsteady.solver) :
  Unsteady.wing_at step wi s = Ok this_wing ->
  Unsteady.wing_at (step + 1) wi s = Ok next_wing ->
  (step = 0 -> shape0 (Wing.wake_ring_vortex_vertices next_wing) = 0) ->
  (step <> 0 -> wf_ndarray (Wing.wake_ring_vortex_vertices this_wing)) ->
  Unsteady.populate_vertices_of_wing step wi s = Ok s' ->
  exists next_wing',
    Unsteady.wing_at (step + 1) wi s' = Ok next_wing' /\
    let vertices := Wing.wake_ring_vortex_vertices next_wing' in
    (forall sp, sp < Wing.num_spanwise_panels this_wing ->
       exists next_panel freestream,
         get2_py (Wing.panels next_wing) (trailing_edge_position this_wing)
           (Z.of_nat sp) = Ok next_panel /\
         Unsteady.the_freestream_velocity s = Ok freestream /\
         get2 vertices 0 sp
           = Ok (Unsteady.shed_vertex s freestream step wi
                   (trailing_edge_position this_wing) sp "back_left_vertex"
                   (Panel.back_left_vertex next_panel)) /\
         (sp = Wing.num_spanwise_panels this_wing - 1 ->
          get2 vertices 0 (sp + 1)
            = Ok (Unsteady.shed_vertex s freestream step wi
                    (trailing_edge_position this_wing) sp
                    "back_right_vertex"
                    (Panel.back_right_vertex next_panel)))) /\
    (step = 0 ->
     forall sv x, get2 vertices 0 sv = Ok x ->
       exists freestream,
         Unsteady.the_freestream_velocity s = Ok freestream /\
         get2 vertices 1 sv
           = Ok (vadd x (vscale_r freestream (Unsteady.delta_time s)))) /\
    (step <> 0 ->
     forall cv sv x,
       get2 (Wing.wake_ring_vortex_vertices this_wing) cv sv = Ok x ->
       exists freestream,
         Unsteady.the_freestream_velocity s = Ok freestream /\
         get2 vertices (cv + 1) sv
           = Ok (vadd x (vscale_r freestream (Unsteady.delta_time s)))).
Proof.
  intros Hthis Hnext Hempty Hwf H.
  destruct (populate_vertices_of_wing_Ok _ _ _ _ _ _ Hthis Hnext Hempty H)
    as (new_row & s1 & w1 & under & vertices & Hrow & Hs1 & Hw1 & Hunder
        & Hv & ->).
  exists (Wing.set_wake_ring_vortex_vertices vertices w1).
  split; [by apply wing_at_modify_wing_at|].
  change (Wing.wake_ring_vortex_vertices
            (Wing.set_wake_ring_vortex_vertices vertices w1))
    with vertices. cbv zeta.
  pose proof (new_row_of_vertices_shape _ _ _ _ _ Hrow) as Hshape.
  apply same_shape_np_full in Hshape as (_ & Hrow0 & Hrowwf).
  assert (forall j, get2 vertices 0 j = get2 new_row 0 j) as Htop.
  { intros j. apply (get2_vstack_top _ _ _ _ _ Hv). lia. }
  assert (forall i j, get2 vertices (i + 1) j = get2 under i j) as Hrest.
  { intros i j. replace (i + 1) with (shape0 new_row + i) by lia.
    apply (get2_vstack_under _ _ _ _ _ Hv). }
  split; [|split].
  - intros sp Hsp.
    destruct (new_row_of_vertices_entries _ _ _ _ _ _ Hnext Hrow sp Hsp)
      as (p & f & Hp & Hf & Hl & Hr).
    exists p, f. rewrite !Htop. by repeat split.
  - intros Hstep sv x Hx. destruct (decide (step = 0)); [|contradiction].
    destruct (unsteady_convect_into_row _ _ _ _ _ Hrowwf Hunder)
      as [_ Hmoved].
    rewrite Htop in Hx.
    destruct (Hmoved 0 sv x) as (f & Hf & Hg); [lia|exact Hx|].
    exists f. split.
    + unfold Unsteady.the_freestream_velocity. by rewrite Hf.
    + rewrite <- Hg. exact (Hrest 0 sv).
  - intros Hstep cv sv x Hx. destruct (decide (step = 0)); [contradiction|].
    destruct (unsteady_convect_in_place _ _ _ _ (Hwf Hstep) Hunder)
      as [_ Hmoved].
    destruct (Hmoved cv sv x Hx) as (f & Hf & Hg).
    exists f. split.
    + unfold Unsteady.the_freestream_velocity. by rewrite Hf.
    + by rewrite Hrest.
Qed.

(** X7.  [populate_next_airplanes_wake_vortex_vertices] ties the bound
    ring vortices of the trailing edge of the next wing to the wake: the
    ring vortex of the trailing-edge panel at [sp] keeps its front
    vertices and its strength and gets as back vertices the wake vertices
    at [sp] and at [sp + 1] of row 0 of the new wake; the panels of the
    other chordwise rows stay as they are. *)
Theorem trailing_edge_rings_meet_wake (step wi c : nat)
    (this_wing next_wing : Wing.t) (s s' : Unsteady.solver) :
  Unsteady.wing_at step wi s = Ok this_wing ->
  Unsteady.wing_at (step + 1) wi s = Ok next_wing ->
  (step = 0 -> shape0 (Wing.wake_ring_vortex_vertices next_wing) = 0) ->
  py_index (shape0 (Wing.panels next_wing)) (trailing_edge_position this_wing)
    = Ok c ->
  Unsteady.populate_vertices_of_wing step wi s = Ok s' ->
  exists next_wing',
    Unsteady.wing_at (step + 1) wi s' = Ok next_wing' /\
    (forall sp next_panel ring,
       sp < Wing.num_spanwise_panels this_wing ->
       get2 (Wing.panels next_wing) c sp = Ok next_panel ->
       Panel.ring_vortex next_panel = Some ring ->
       exists bl br,
         get2 (Wing.wake_ring_vortex_vertices next_wing') 0 sp = Ok bl /\
         get2 (Wing.wake_ring_vortex_vertices next_wing') 0 (sp + 1)
           = Ok br /\
         get2 (Wing.panels next_wing') c sp
           = Ok (Panel.set_ring_vortex
                   (Some (RingVortex.new
                            (RingVortex.front_left_vertex ring)
                            (RingVortex.front_right_vertex ring) bl br
                            (RingVortex.strength ring)))
                   next_panel)) /\
    (forall c' sp', c' <> c ->
       get2 (Wing.panels next_wing') c' sp'
       = get2 (Wing.panels next_wing) c' sp').
Proof.
  intros Hthis Hnext Hempty Hc H.
  destruct (populate_vertices_of_wing_Ok _ _ _ _ _ _ Hthis Hnext Hempty H)
    as (new_row & s1 & w1 & under & vertices & Hrow & Hs1 & Hw1 & Hunder
        & Hv & ->).
  exists (Wing.set_wake_ring_vortex_vertices vertices w1).
  split; [by apply wing_at_modify_wing_at|].
  change (Wing.wake_ring_vortex_vertices
            (Wing.set_wake_ring_vortex_vertices vertices w1))
    with vertices.
  change (Wing.panels (Wing.set_wake_ring_vortex_vertices vertices w1))
    with (Wing.panels w1).
  pose proof (new_row_of_vertices_shape _ _ _ _ _ Hrow) as Hshape.
  apply same_shape_np_full in Hshape as (_ & Hrow0 & Hrowwf).
  assert (forall j, get2 vertices 0 j = get2 new_row 0 j) as Htop.
  { intros j. apply (get2_vstack_top _ _ _ _ _ Hv). lia. }
  assert (forall c' sp',
            unsteady_panel_at (step + 1) wi c' sp' s1
            = get2 (Wing.panels w1) c' sp') as Hat1
    by (intros c' sp'; unfold unsteady_panel_at; by rewrite Hw1).
  assert (forall c' sp',
            unsteady_panel_at (step + 1) wi c' sp' s
            = get2 (Wing.panels next_wing) c' sp') as Hat
    by (intros c' sp'; unfold unsteady_panel_at; by rewrite Hnext).
  split.
  - intros sp next_panel ring Hsp Hpanel Hring.
    destruct (attach_trailing_edge_rings_at _ _ _ _ _ _ _ _ _ _ _
                Hnext Hc Hsp Hpanel Hring Hs1)
      as (bl & br & Hbl & Hbr & Hp).
    exists bl, br. rewrite !Htop, <- Hat1. by repeat split.
  - intros c' sp' Hne. rewrite <- Hat1, <- Hat.
    by eapply attach_trailing_edge_rings_others.
Qed.

End WakeVertices.

(** ** The flow tangency the steady solvers solve for *)

Section SteadySolve.
Context {aero : Aerodynamics}.

Lemma fill_matrix_Ok {A : Type} (f : A -> A -> Q) (panels : list A)
    (body : nat * A -> list (list Q) -> result (list (list Q)))
    (m0 m : list (list Q)) :
  (forall i collocation_panel m m',
     body (i, collocation_panel) m = Ok m' ->
     for_each (enumerate panels)
       (fun '(j, vortex_panel) m =>
          set_matrix m i j (f collocation_panel vortex_panel)) m = Ok m') ->
  for_each (enumerate panels) body m0 = Ok m ->
  length m = length m0 /\
  forall i j pi pj,
    panels !! i = Some pi -> panels !! j = Some pj ->
    exists row, m !! i = Some row /\ row !! j = Some (f pi pj).
Proof.
  intros Hbody H.
  set (done (i : nat) (m : list (list Q)) :=
         length m = length m0 /\
         forall i' j pi pj,
           i' < i -> panels !! i' = Some pi -> panels !! j = Some pj ->
           exists row, m !! i' = Some row /\ row !! j = Some (f pi pj)).
  assert (done (length panels) m) as [Hlen Hdone].
  { eapply (for_each_enumerate_inv done); [| |exact H].
    - intros i pi m2 m3 Hpi [Hl Hd] Hrow. apply Hbody in Hrow.
      set (filled (j : nat) (m : list (list Q)) :=
             done i m /\
             forall j' pj, j' < j -> panels !! j' = Some pj ->
               exists row, m !! i = Some row /\ row !! j' = Some (f pi pj)).
      assert (filled (length panels) m3) as [[Hl3 Hd3] Hf3].
      { eapply (for_each_enumerate_inv filled); [| |exact Hrow].
        - intros j pj m5 m6 Hpj [[Hl5 Hd5] Hf5] Hset. simpl in Hset.
          apply set_matrix_Ok in Hset as (row & Hrow5 & Hj & ->).
          split; [split|].
          + by rewrite length_insert.
          + intros i' j' pi' pj' Hi' Hpi' Hpj'.
            destruct (Hd5 i' j' pi' pj' Hi' Hpi' Hpj') as (r & Hr & Hx).
            exists r. split; [|exact Hx].
            rewrite list_lookup_insert_ne by lia. exact Hr.
          + intros j' pj' Hj' Hpj'.
            exists (<[j := f pi pj]> row). split.
            * apply list_lookup_insert_eq. by eapply lookup_lt_Some.
            * destruct (decide (j' = j)) as [->|Hne].
              -- rewrite Hpj in Hpj'. injection Hpj' as <-.
                 by apply list_lookup_insert_eq.
              -- rewrite list_lookup_insert_ne by lia.
                 destruct (Hf5 j' pj') as (r & Hr & Hx); [lia|exact Hpj'|].
                 rewrite Hrow5 in Hr. injection Hr as <-. exact Hx.
        - split; [by split|]. intros j' pj Hj'. lia. }
      split; [exact Hl3|].
      intros i' j pi' pj Hi' Hpi' Hpj.
      destruct (decide (i' = i)) as [->|Hne].
      + rewrite Hpi in Hpi'. injection Hpi' as <-.
        apply (Hf3 j pj); [|exact Hpj]. by eapply lookup_lt_Some.
      + apply Hd3; [lia|exact Hpi'|exact Hpj].
    - split; [reflexivity|]. intros i' j pi pj Hi'. lia. }
  split; [exact Hlen|].
  intros i j pi pj Hpi Hpj.
  eapply Hdone; [|exact Hpi|exact Hpj]. by eapply lookup_lt_Some.
Qed.

Lemma fill_vectors_Ok {A : Type} (f : A -> Vec3) (g : A -> Q)
    (panels : list A) (st0 st : list Vec3 * list Q) :
  for_each (enumerate panels)
    (fun '(i, panel) st =>
       normals ← set_item (fst st) i (f panel);
       influences ← set_item (snd st) i (g panel);
       Ok (normals, influences)) st0 = Ok st ->
  length (fst st) = length (fst st0) /\
  length (snd st) = length (snd st0) /\
  forall i p, panels !! i = Some p ->
    fst st !! i = Some (f p) /\ snd st !! i = Some (g p).
Proof.
  intros H.
  set (done (i : nat) (st : list Vec3 * list Q) :=
         length (fst st) = length (fst st0) /\
         length (snd st) = length (snd st0) /\
         forall i' p, i' < i -> panels !! i' = Some p ->
           fst st !! i' = Some (f p) /\ snd st !! i' = Some (g p)).
  assert (done (length panels) st) as (H1 & H2 & H3).
  { eapply (for_each_enumerate_inv done); [| |exact H].
    - intros i p [n1 v1] st2 Hp (L1 & L2 & Hd) Hbody. simpl in *.
      apply bind_Ok_inv in Hbody as (n2 & Hn2 & Hbody).
      apply bind_Ok_inv in Hbody as (v2 & Hv2 & Hbody).
      injection Hbody as <-.
      apply set_item_Ok in Hn2 as [Hi1 ->].
      apply set_item_Ok in Hv2 as [Hi2 ->].
      unfold done. cbn [fst snd].
      split; [by rewrite length_insert|].
      split; [by rewrite length_insert|].
      intros i' p' Hi' Hp'. destruct (decide (i' = i)) as [->|Hne].
      + rewrite Hp in Hp'. injection Hp' as <-.
        split; by apply list_lookup_insert_eq.
      + rewrite !list_lookup_insert_ne by lia. apply Hd; [lia|exact Hp'].
    - split; [reflexivity|]. split; [reflexivity|]. intros i' p Hi'. lia. }
  split; [exact H1|]. split; [exact H2|].
  intros i p Hp. apply H3; [|exact Hp]. by eapply lookup_lt_Some.
Qed.


(** X8.  The strengths a steady solver finds make the flow tangent to
    the wing.  For an airplane of one wing whose influence matrix has a
    row for every panel, after [set_up_geometry], [set_up_operating_point]
    and [calculate_vortex_strengths] of either steady solver there is one
    strength for every panel, and at the collocation point of every panel
    the normal components of the velocities the vortices of all the
    panels induce at unit strength, weighted by the strengths, cancel the
    normal component of the freestream velocity. *)
Theorem steady_flow_tangency (s s1 s2 s3 : Steady.solver) (wing : Wing.t) :
  Airplane.wings (Steady.airplane s) = [wing] ->
  length (Steady.aerodynamic_influence_coefficients s)
    = length (ravel (Wing.panels wing)) ->
  Steady.set_up_geometry s = Ok s1 ->
  Steady.set_up_operating_point s1 = Ok s2 ->
  SteadyHorseshoe.calculate_vortex_strengths s2 = Ok s3 \/
  SteadyRing.calculate_vortex_strengths s2 = Ok s3 ->
  let panels := ravel (Wing.panels wing) in
  let freestream :=
    OperatingPoint.calculate_freestream_velocity_geometry_axes
      (Steady.operating_point s) in
  length (Steady.vortex_strengths s3) = length panels /\
  forall i collocation_panel,
    panels !! i = Some collocation_panel ->
    (dotl
       (map (fun vortex_panel =>
               dot (panel_normalized_induced_velocity
                      (Panel.ring_vortex vortex_panel)
                      (Panel.horseshoe_vortex vortex_panel)
                      (Panel.collocation_point collocation_panel))
                   (Panel.normal_direction collocation_panel))
          panels)
       (Steady.vortex_strengths s3)
     + dot freestream (Panel.normal_direction collocation_panel) == 0)%Q.
Proof.
  intros Hwings Hsize H1 H2 H3 panels freestream.
  unfold Steady.set_up_geometry in H1. rewrite Hwings in H1.
  apply bind_Ok_inv in H1 as (m & Hm & H1). injection H1 as <-.
  simpl in Hm. apply bind_Ok_inv in Hm as (m' & Hm & E). injection E as ->.
  apply (fill_matrix_Ok
           (fun collocation_panel vortex_panel =>
              dot (panel_normalized_induced_velocity
                     (Panel.ring_vortex vortex_panel)
                     (Panel.horseshoe_vortex vortex_panel)
                     (Panel.collocation_point collocation_panel))
                  (Panel.normal_direction collocation_panel)))
    in Hm as [Hlen Hentries].
  2: { intros i pi m1 m2 Hrow.
       apply bind_Ok_inv in Hrow as (m3 & Hrow & E). by injection E as ->. }
  unfold Steady.set_up_operating_point in H2. simpl in H2.
  rewrite Hwings in H2.
  apply bind_Ok_inv in H2 as ([normals influences] & Hv & H2).
  injection H2 as <-.
  simpl in Hv. apply bind_Ok_inv in Hv as (st & Hv & E). injection E as ->.
  apply (fill_vectors_Ok Panel.normal_direction
           (fun panel => dot freestream (Panel.normal_direction panel)))
    in Hv as (_ & _ & Hv).
  assert (exists strengths,
            linalg_solve m (neg_list influences) = Ok strengths /\
            Steady.vortex_strengths s3 = strengths) as (x & Hsolve & ->).
  { destruct H3 as [H3|H3].
    - unfold SteadyHorseshoe.calculate_vortex_strengths in H3.
      apply bind_Ok_inv in H3 as (x & Hsolve & H3).
      apply bind_Ok_inv in H3 as (wings & _ & H3). injection H3 as <-.
      by exists x.
    - unfold SteadyRing.calculate_vortex_strengths in H3.
      apply bind_Ok_inv in H3 as (x & Hsolve & H3).
      apply bind_Ok_inv in H3 as (wings & _ & H3). injection H3 as <-.
      by exists x. }
  assert (is_square m = true) as Hsq.
  { unfold linalg_solve in Hsolve. by destruct (is_square m). }
  apply is_square_rows in Hsq.
  apply linalg_solve_sound in Hsolve as (Hx & _ & Hsat).
  fold panels in Hsize, Hentries, Hv.
  split; [congruence|].
  intros i pi Hpi.
  destruct (Hv i pi Hpi) as [_ Hinf]. simpl in Hinf.
  assert (exists row, m !! i = Some row) as [row Hrow].
  { apply lookup_lt_is_Some_2. rewrite Hlen, Hsize.
    by eapply lookup_lt_Some. }
  assert (neg_list influences !! i
          = Some (- dot freestream (Panel.normal_direction pi))%Q) as Hb.
  { unfold neg_list. by rewrite list_lookup_fmap, Hinf. }
  pose proof (Forall2_lookup_lr _ _ _ _ _ _ Hsat Hrow Hb) as Hdot.
  simpl in Hdot.
  assert (row = map (fun vortex_panel =>
                       dot (panel_normalized_induced_velocity
                              (Panel.ring_vortex vortex_panel)
                              (Panel.horseshoe_vortex vortex_panel)
                              (Panel.collocation_point pi))
                           (Panel.normal_direction pi)) panels) as <-.
  { apply list_eq. intros j. rewrite list_lookup_fmap.
    destruct (panels !! j) as [pj|] eqn:Hpj; simpl.
    - destruct (Hentries i j pi pj Hpi Hpj) as (row' & Hrow' & Hj).
      rewrite Hrow in Hrow'. by injection Hrow' as <-.
    - apply lookup_ge_None. apply lookup_ge_None in Hpj.
      assert (length row = length m) as ->.
      { eapply list.Forall_forall in Hsq; [exact Hsq|].
        by eapply list_elem_of_lookup_2. }
      lia. }
  rewrite Hdot. ring.
Qed.


Lemma horseshoe_update_wing_strengths_Ok (strengths : list Q)
    (wing wing' : Wing.t) (c sp : nat) (panel : Panel.t) :
  SteadyHorseshoe.update_wing_strengths strengths wing = Ok wing' ->
  wf_ndarray (Wing.panels wing) ->
  get2 (Wing.panels wing) c sp = Ok panel ->
  exists h g,
    strengths !! (c * shape1 (Wing.panels wing) + sp) = Some g /\
    Panel.horseshoe_vortex panel = Some h /\
    get2 (Wing.panels wing') c sp
      = Ok (Panel.set_horseshoe_vortex
              (Some (HorseshoeVortex.update_strength g h)) panel).
Proof.
  unfold SteadyHorseshoe.update_wing_strengths. intros H Hwf Hpanel.
  apply bind_Ok_inv in H as (flat & Hflat & H). injection H as <-.
  apply get2_Ok in Hpanel as (row & Hrow & Hp).
  set (n := shape1 (Wing.panels wing)) in *.
  assert (sp < n) as Hsp.
  { assert (length row = n) as <-.
    { eapply list.Forall_forall in Hwf; [exact Hwf|].
      by eapply list_elem_of_lookup_2. }
    by eapply lookup_lt_Some. }
  pose proof (ravel_lookup n _ c sp row panel Hwf Hrow Hp) as Hravel.
  apply imapM_from_lookup in Hflat as [_ Hflat].
  destruct (Hflat _ _ Hravel) as (panel' & Hupd & Hflat').
  simpl in Hupd. unfold SteadyHorseshoe.update_panel_strength in Hupd.
  apply bind_Ok_inv in Hupd as (h & Hh & Hupd).
  apply bind_Ok_inv in Hupd as (g & Hg & Hupd). injection Hupd as <-.
  apply of_option_Ok in Hh. apply get_item_Ok in Hg.
  exists h, g. split; [exact Hg|]. split; [exact Hh|].
  apply get2_Ok. simpl.
  destruct (unravel_rows_lookup n (rows (Wing.panels wing)) flat c sp row
              Hwf Hrow Hsp) as (row' & Hrow' & Hlk).
  exists row'. split; [exact Hrow'|]. by rewrite Hlk.
Qed.

(** X9.  [calculate_vortex_strengths] of the steady horseshoe solver
    solves the influence matrix against the negated freestream
    influences and gives every panel its strength: the solved vector has
    one entry per row of the matrix and satisfies every equation, and the
    panel at [(c, sp)] of a wing is what it was but for its horseshoe
    vortex, which gets the entry at the raveled index of the panel within
    its wing. *)
Theorem horseshoe_strengths_solved_and_scattered (s s' : Steady.solver) :
  SteadyHorseshoe.calculate_vortex_strengths s = Ok s' ->
  let aic := Steady.aerodynamic_influence_coefficients s in
  let rhs := neg_list (Steady.freestream_influences s) in
  let strengths := Steady.vortex_strengths s' in
  length strengths = length aic /\
  Forall2 (fun row b => dotl row strengths == b)%Q aic rhs /\
  forall wi wing c sp panel,
    Airplane.wings (Steady.airplane s) !! wi = Some wing ->
    wf_ndarray (Wing.panels wing) ->
    get2 (Wing.panels wing) c sp = Ok panel ->
    exists wing' h g,
      Airplane.wings (Steady.airplane s') !! wi = Some wing' /\
      strengths !! (c * shape1 (Wing.panels wing) + sp) = Some g /\
      Panel.horseshoe_vortex panel = Some h /\
      get2 (Wing.panels wing') c sp
        = Ok (Panel.set_horseshoe_vortex
                (Some (HorseshoeVortex.update_strength g h)) panel).
Proof.
  intros H. unfold SteadyHorseshoe.calculate_vortex_strengths in H.
  apply bind_Ok_inv in H as (strengths & Hsolve & H).
  apply bind_Ok_inv in H as (wings & Hwings & H).
  injection H as <-. simpl.
  apply linalg_solve_sound in Hsolve as (Hlen & _ & Hsat).
  split; [exact Hlen|]. split; [exact Hsat|].
  intros wi wing c sp panel Hwing Hwf Hpanel.
  apply mapM_lookup in Hwings as [_ Hwings]. simpl in Hwings.
  destruct (Hwings _ _ Hwing) as (wing' & Hupd & Hwing').
  destruct (horseshoe_update_wing_strengths_Ok _ _ _ c sp panel Hupd Hwf
              Hpanel) as (h & g & Hp).
  by exists wing', h, g.
Qed.

End SteadySolve.

(** ** The flow tangency a time step solves for *)

Section UnsteadySolve.
Context {aero : Aerodynamics}.

Lemma length_ravel {A : Type} (a : ndarray A) :
  wf_ndarray a -> length (ravel a) = shape0 a * shape1 a.
Proof.
  unfold wf_ndarray, ravel, shape0. generalize (shape1 a). intros n.
  induction (rows a) as [|r rs IH]; intros Hwf; simpl; [reflexivity|].
  apply list.Forall_cons in Hwf as [Hr Hwf].
  rewrite length_app, Hr, IH by exact Hwf. reflexivity.
Qed.

(** X10.  The strengths a time step of the unsteady solver finds make the
    flow tangent to the wing.  For an airplane of one wing, after
    [calculate_wing_wing_influences],
    [calculate_freestream_wing_influences],
    [calculate_wake_wing_influences] and [calculate_vortex_strengths]
    there is one strength for every panel, and at the collocation point
    of every panel the normal components of the velocities the vortices
    of all the panels induce at unit strength, weighted by the strengths,
    cancel the normal components of the velocity induced by the wake and
    of the freestream velocity with the flapping velocity. *)
Theorem unsteady_flow_tangency (s s1 s2 s3 s4 : Unsteady.solver)
    (step : nat) (airplane : Airplane.t) (wing : Wing.t)
    (freestream : Vec3) :
  Unsteady.current_step s = Some step ->
  Unsteady.airplanes s !! step = Some airplane ->
  Unsteady.current_freestream_velocity s = Some freestream ->
  Airplane.wings airplane = [wing] ->
  Airplane.num_panels airplane = panel_count wing ->
  wf_ndarray (Wing.panels wing) ->
  shape0 (Wing.panels wing) = Wing.num_chordwise_panels wing ->
  shape1 (Wing.panels wing) = Wing.num_spanwise_panels wing ->
  Unsteady.calculate_wing_wing_influences s = Ok s1 ->
  Unsteady.calculate_freestream_wing_influences s1 = Ok s2 ->
  Unsteady.calculate_wake_wing_influences s2 = Ok s3 ->
  Unsteady.calculate_vortex_strengths s3 = Ok s4 ->
  exists strengths,
    Unsteady.current_vortex_strengths s4 = Some strengths /\
    length strengths = panel_count wing /\
    forall c sp,
      c < Wing.num_chordwise_panels wing ->
      sp < Wing.num_spanwise_panels wing ->
      exists collocation_panel,
        get2 (Wing.panels wing) c sp = Ok collocation_panel /\
        (dotl
           (map (Unsteady.wing_wing_influence collocation_panel)
              (ravel (Wing.panels wing)))
           strengths
         + Unsteady.wake_wing_influence airplane collocation_panel
         + Unsteady.freestream_wing_influence step freestream 0 c sp
             collocation_panel == 0)%Q.
Proof.
  intros Hstep Hairplane Hfs Hwings Hn Hwf Hnc Hns H1 H2 H3 H4.
  assert (Unsteady.current_airplane s = Ok airplane) as Hcur.
  { unfold Unsteady.current_airplane, Unsteady.the_step, attr.
    rewrite Hstep. simpl. unfold Unsteady.airplane_at, get_item.
    by rewrite Hairplane. }
  destruct (wing_wing_influences_of_one_wing _ _ _ _ Hcur Hwings H1)
    as (m & Hm & Hentries).
  unfold Unsteady.calculate_wing_wing_influences in H1.
  rewrite Hcur in H1. simpl in H1.
  apply bind_Ok_inv in H1 as (m' & _ & H1). injection H1 as <-.
  simpl in Hm. injection Hm as ->.
  (* the freestream influences *)
  unfold Unsteady.calculate_freestream_wing_influences in H2.
  change (Unsteady.current_airplane
            (Unsteady.set_wing_wing_influences m s))
    with (Unsteady.current_airplane s) in H2.
  rewrite Hcur in H2. simpl in H2.
  unfold Unsteady.the_step, attr in H2. simpl in H2.
  rewrite Hstep in H2. simpl in H2.
  apply bind_Ok_inv in H2 as (fs & Hv & H2). injection H2 as <-.
  unfold Unsteady.freestream_wing_influences_of in Hv.
  rewrite Hwings, Hfs in Hv. simpl in Hv.
  apply bind_Ok_inv in Hv as (fs' & Hv & E). injection E as ->.
  apply fill_influences_of_wing_Ok in Hv as (Hfslen & Hfsw & _).
  (* the wake influences *)
  unfold Unsteady.calculate_wake_wing_influences in H3.
  change (Unsteady.current_airplane
            (Unsteady.set_freestream_wing_influences fs
               (Unsteady.set_wing_wing_influences m s)))
    with (Unsteady.current_airplane s) in H3.
  rewrite Hcur in H3. simpl in H3.
  apply bind_Ok_inv in H3 as (wake & Hw & H3). injection H3 as <-.
  unfold Unsteady.wake_wing_influences_of in Hw.
  rewrite Hwings in Hw. simpl in Hw.
  apply bind_Ok_inv in Hw as (wake' & Hw & E). injection E as ->.
  apply fill_influences_of_wing_Ok in Hw as (Hwlen & Hww & _).
  (* the solve *)
  unfold Unsteady.calculate_vortex_strengths in H4. simpl in H4.
  apply bind_Ok_inv in H4 as (rhs & Hrhs & H4).
  apply bind_Ok_inv in H4 as (x & Hsolve & H4).
  apply bind_Ok_inv in H4 as (k & _ & H4).
  apply bind_Ok_inv in H4 as (a & _ & H4).
  apply bind_Ok_inv in H4 as (wings & _ & H4). injection H4 as <-.
  exists x. split; [reflexivity|].
  assert (length (neg_list wake) = length fs) as Hlens.
  { unfold neg_list. rewrite length_map. congruence. }
  assert (length rhs = panel_count wing) as Hrhslen.
  { unfold np_sub in Hrhs.
    destruct (decide (length (neg_list wake) = length fs));
      [|contradiction].
    injection Hrhs as <-. rewrite length_zip_with, Hlens, Hfslen.
    unfold np_zeros. rewrite length_replicate. lia. }
  assert (is_square m = true) as Hsq.
  { unfold linalg_solve in Hsolve. by destruct (is_square m). }
  apply is_square_rows in Hsq.
  apply linalg_solve_sound in Hsolve as (Hx & Hb & Hsat).
  split; [congruence|].
  intros c sp Hc Hsp.
  destruct (Hfsw c sp Hc Hsp) as (p & f & Hp & Hf & Hfi).
  destruct (Hww c sp Hc Hsp) as (p' & w & Hp' & Hw' & Hwi).
  rewrite Hp in Hp'. injection Hp' as <-.
  simpl in Hf. injection Hf as <-. injection Hw' as <-.
  exists p. split; [exact Hp|].
  set (i := c * Wing.num_spanwise_panels wing + sp) in *.
  assert (ravel (Wing.panels wing) !! i = Some p) as Hpi.
  { apply get2_Ok in Hp as (row & Hrow & Hcell).
    unfold i. rewrite <- Hns. unfold ravel.
    by eapply (ravel_lookup (shape1 (Wing.panels wing))). }
  assert (rhs !! i
          = Some (- Unsteady.wake_wing_influence airplane p
                  - Unsteady.freestream_wing_influence step freestream 0
                      c sp p)%Q) as Hbi.
  { eapply np_sub_lookup; [exact Hrhs|exact Hlens| |exact Hfi].
    unfold neg_list. by rewrite list_lookup_fmap, Hwi. }
  assert (exists row, m !! i = Some row) as [row Hrow].
  { apply lookup_lt_is_Some_2. rewrite <- Hb. by eapply lookup_lt_Some. }
  pose proof (Forall2_lookup_lr _ _ _ _ _ _ Hsat Hrow Hbi) as Hdot.
  simpl in Hdot.
  assert (row = map (Unsteady.wing_wing_influence p)
                  (ravel (Wing.panels wing))) as <-.
  { apply list_eq. intros j. rewrite list_lookup_fmap.
    destruct (ravel (Wing.panels wing) !! j) as [pj|] eqn:Hpj; simpl.
    - destruct (Hentries i j p pj Hpi Hpj) as (row' & Hrow' & Hj).
      rewrite Hrow in Hrow'. by injection Hrow' as <-.
    - apply lookup_ge_None. apply lookup_ge_None in Hpj.
      assert (length row = length m) as ->.
      { eapply list.Forall_forall in Hsq; [exact Hsq|].
        by eapply list_elem_of_lookup_2. }
      rewrite length_ravel in Hpj by exact Hwf.
      rewrite <- Hb, Hrhslen. unfold panel_count. lia. }
  rewrite Hdot. ring.
Qed.

End UnsteadySolve.

(** ** A run without time steps *)

Section EmptyRun.
Context {aero : Aerodynamics}.

(** X11.  A run without time steps does not return.  With [num_steps]
    zero the loop over the steps is not entered, so that the solver has
    no current airplane when [run] comes to the streamlines: once the
    panel vortices are initialized, [run] raises [AttributeError]. *)
Theorem run_without_steps_raises (verbose : bool) (s : Unsteady.solver) :
  Unsteady.num_steps s = 0 ->
  Unsteady.current_step s = None ->
  (forall s', Unsteady.run verbose s <> Ok s') /\
  (forall s1, Unsteady.initialize_panel_vortices s = Ok s1 ->
     Unsteady.run verbose s = Raise AttributeError).
Proof.
  intros Hnum Hstep.
  assert (forall s1, Unsteady.initialize_panel_vortices s = Ok s1 ->
            Unsteady.run verbose s = Raise AttributeError) as Hraise.
  { intros s1 H1. unfold Unsteady.run. rewrite H1. simpl.
    apply initialize_panel_vortices_frame in H1
      as [(Hn & _ & _ & Hc & _) _].
    rewrite Hn, Hnum. simpl.
    unfold Unsteady.calculate_streamlines, Unsteady.the_step.
    by rewrite Hc, Hstep. }
  split; [|exact Hraise].
  intros s' H.
  destruct (Unsteady.initialize_panel_vortices s) as [s1|e] eqn:H1.
  - rewrite (Hraise s1 eq_refl) in H. discriminate.
  - unfold Unsteady.run in H. rewrite H1 in H. discriminate.
Qed.

End EmptyRun.

(** ** What the run prints *)

Section Verbose.
Context {aero : Aerodynamics}.

Lemma for_each_unit_Ok {X : Type} (xs : list X)
    (body : X -> unit -> result unit) :
  (forall x, x ∈ xs -> body x tt = Ok tt) -> for_each xs body tt = Ok tt.
Proof.
  induction xs as [|x xs IH]; intros H; simpl; [reflexivity|].
  rewrite H by (by left). simpl. apply IH. intros y Hy. apply H. by right.
Qed.

Lemma for_each_each {X S : Type} (xs : list X) (body : X -> S -> result S) :
  forall st st', for_each xs body st = Ok st' ->
    forall x, x ∈ xs -> exists sx sx', body x sx = Ok sx'.
Proof.
  induction xs as [|y xs IH]; intros st st' H x Hx; simpl in H.
  - by apply elem_of_nil in Hx.
  - apply bind_Ok_inv in H as (s1 & H1 & H).
    apply elem_of_cons in Hx as [->|Hx]; [by exists st, s1|].
    by eapply IH.
Qed.

Lemma get2_in_range {A : Type} (a : ndarray A) (i j : nat) :
  wf_ndarray a -> i < shape0 a -> j < shape1 a -> exists x, get2 a i j = Ok x.
Proof.
  intros Hwf Hi Hj.
  destruct (lookup_lt_is_Some_2 (rows a) i Hi) as [row Hrow].
  assert (length row = shape1 a) as Hlen.
  { eapply list.Forall_forall in Hwf; [exact Hwf|].
    by eapply list_elem_of_lookup_2. }
  destruct (lookup_lt_is_Some_2 row j) as [x Hx]; [lia|].
  exists x. apply get2_Ok. by exists row.
Qed.

(** *** What [debug_wake_vortices] reads *)

Lemma debug_wake_vortices_Ok (s : Unsteady.solver) (a : Airplane.t) :
  Unsteady.current_airplane s = Ok a ->
  (forall w, w ∈ Airplane.wings a ->
     panels_in_range w /\ panels_have_strengths w /\
     wf_ndarray (Wing.wake_ring_vortices w) /\ wake_has_strengths w) ->
  Unsteady.debug_wake_vortices s = Ok tt.
Proof.
  intros Ha Hwings. unfold Unsteady.debug_wake_vortices. rewrite Ha. simpl.
  apply for_each_unit_Ok. intros w Hw.
  destruct (Hwings w Hw) as (Hrange & Hpanels & Hwf & Hwake).
  assert (for_each (range (Wing.num_chordwise_panels w))
            (fun c =>
               for_each (range (Wing.num_spanwise_panels w))
                 (fun sp (_ : unit) =>
                    panel ← get2 (Wing.panels w) c sp;
                    strength ← ring_strength panel;
                    _ ← py_float strength;
                    Ok tt)) tt = Ok tt) as ->.
  { apply for_each_unit_Ok. intros c Hc. apply elem_of_seq in Hc.
    apply for_each_unit_Ok. intros sp Hsp. apply elem_of_seq in Hsp.
    destruct (Hrange c sp) as [p Hp]; [lia..|].
    destruct (Hpanels c sp p Hp) as (ring & g & Hring & Hg).
    rewrite Hp. simpl. unfold ring_strength. rewrite Hring. simpl.
    by rewrite Hg. }
  simpl.
  apply for_each_unit_Ok. intros c Hc. apply elem_of_seq in Hc.
  apply for_each_unit_Ok. intros sp Hsp. apply elem_of_seq in Hsp.
  destruct (get2_in_range (Wing.wake_ring_vortices w) c sp)
    as [o Ho]; [exact Hwf|lia..|].
  destruct (Hwake c sp o Ho) as (ring & g & -> & Hg).
  rewrite Ho. simpl. by rewrite Hg.
Qed.


(** *** The strengths the solve gives the panels *)

Lemma unravel_rows_lookup_inv {A : Type} (rs : list (list A)) :
  forall (l : list A) (c sp : nat) (row : list A) (x : A),
    unravel_rows rs l !! c = Some row -> row !! sp = Some x ->
    exists i, l !! i = Some x.
Proof.
  induction rs as [|r rs IH]; intros l c sp row x Hrow Hx; simpl in Hrow;
    [discriminate|].
  destruct c as [|c]; simpl in Hrow.
  - injection Hrow as <-. apply lookup_take_Some in Hx as [Hx _].
    by exists sp.
  - destruct (IH _ _ _ _ _ Hrow Hx) as [i Hi]. rewrite lookup_drop in Hi.
    eauto.
Qed.

Lemma unravel_rows_lengths {A : Type} (rs : list (list A)) :
  forall l : list A,
    length (concat rs) <= length l ->
    length <$> unravel_rows rs l = length <$> rs.
Proof.
  induction rs as [|r rs IH]; intros l Hl; simpl in *; [reflexivity|].
  rewrite length_app in Hl. rewrite length_take_le by lia. f_equal.
  apply IH. rewrite length_drop. lia.
Qed.

Lemma update_wing_strengths_panels (strengths : list Q)
    (wing wing' : Wing.t) :
  update_wing_strengths strengths wing = Ok wing' ->
  panels_have_strengths wing' /\
  same_shape (Wing.panels wing) (Wing.panels wing').
Proof.
  unfold update_wing_strengths. intros H.
  apply bind_Ok_inv in H as (flat & Hflat & H). injection H as <-.
  apply imapM_from_lookup in Hflat as [Hlen Hflat]. split.
  - intros c sp p Hp. apply get2_Ok in Hp as (row & Hrow & Hp).
    simpl in Hrow.
    destruct (unravel_rows_lookup_inv _ _ _ _ _ _ Hrow Hp) as [i Hi].
    destruct (lookup_lt_is_Some_2 (ravel (Wing.panels wing)) i) as [x Hx].
    { rewrite <- Hlen. by eapply lookup_lt_Some. }
    destruct (Hflat _ _ Hx) as (y & Hy & Hi'). rewrite Hi in Hi'.
    injection Hi' as <-. simpl in Hy.
    apply update_panel_strength_Ok in Hy as (r & g & _ & _ & Hr' & _).
    by exists (RingVortex.update_strength g r), g.
  - split; simpl; [reflexivity|]. symmetry. apply unravel_rows_lengths.
    unfold ravel in Hlen. lia.
Qed.

Lemma vortex_strengths_panels (s s' : Unsteady.solver) (k : nat)
    (a : Airplane.t) :
  Unsteady.current_step s = Some k ->
  Unsteady.airplanes s !! k = Some a ->
  Unsteady.calculate_vortex_strengths s = Ok s' ->
  exists a',
    Unsteady.airplanes s' !! k = Some a' /\
    forall wi w',
      Airplane.wings a' !! wi = Some w' ->
      exists w,
        Airplane.wings a !! wi = Some w /\
        panels_have_strengths w' /\
        same_shape (Wing.panels w) (Wing.panels w') /\
        wake_of_wing w' = wake_of_wing w.
Proof.
  intros Hk Ha H. unfold Unsteady.calculate_vortex_strengths in H.
  apply bind_Ok_inv in H as (wake & _ & H).
  apply bind_Ok_inv in H as (fs & _ & H).
  apply bind_Ok_inv in H as (rhs & _ & H).
  apply bind_Ok_inv in H as (aic & _ & H).
  apply bind_Ok_inv in H as (strengths & _ & H).
  apply bind_Ok_inv in H as (step & Hstep & H).
  apply bind_Ok_inv in H as (airplane & Hairplane & H).
  apply bind_Ok_inv in H as (wings & Hwings & H). injection H as <-.
  apply of_option_Ok in Hstep. simpl in Hstep. rewrite Hk in Hstep.
  injection Hstep as <-.
  apply get_item_Ok in Hairplane. simpl in Hairplane.
  rewrite Ha in Hairplane. injection Hairplane as <-.
  exists (Airplane.set_wings wings a). split.
  { simpl. by apply alter_lookup_Some. }
  intros wi w' Hw'. simpl in Hw'.
  apply mapM_lookup in Hwings as [Hlen Hwings].
  destruct (lookup_lt_is_Some_2 (Airplane.wings a) wi) as [w Hw].
  { rewrite <- Hlen. by eapply lookup_lt_Some. }
  destruct (Hwings _ _ Hw) as (w1 & Hupd & Hw1).
  rewrite Hw' in Hw1. injection Hw1 as <-.
  exists w. split; [exact Hw|].
  destruct (update_wing_strengths_panels _ _ _ Hupd) as [Hp Hs].
  split; [exact Hp|]. split; [exact Hs|].
  by eapply update_wing_strengths_wake.
Qed.

Lemma wake_influences_panels_in_range (s s' : Unsteady.solver)
    (a : Airplane.t) :
  Unsteady.current_airplane s = Ok a ->
  Unsteady.calculate_wake_wing_influences s = Ok s' ->
  forall w, w ∈ Airplane.wings a -> panels_in_range w.
Proof.
  intros Ha H. unfold Unsteady.calculate_wake_wing_influences in H.
  rewrite Ha in H. simpl in H.
  apply bind_Ok_inv in H as (v & Hv & _).
  unfold Unsteady.wake_wing_influences_of in Hv.
  intros w Hw. destruct (for_each_each _ _ _ _ Hv w Hw) as (v1 & v2 & Hfill).
  apply fill_influences_of_wing_Ok in Hfill as (_ & Hcells & _).
  intros c sp Hc Hsp. destruct (Hcells c sp Hc Hsp) as (p & x & Hp & _).
  by exists p.
Qed.

(** *** What the near-field forces keep of the panels *)

Lemma rings_of_wing_get2 (w w' : Wing.t) (c sp : nat) (p' : Panel.t) :
  rings_of_wing w' = rings_of_wing w ->
  get2 (Wing.panels w') c sp = Ok p' ->
  exists p, get2 (Wing.panels w) c sp = Ok p /\
            Panel.ring_vortex p = Panel.ring_vortex p'.
Proof.
  unfold rings_of_wing. intros E Hp'. injection E as _ E.
  apply get2_Ok in Hp' as (row' & Hrow' & Hp').
  assert (map (map Panel.ring_vortex) (rows (Wing.panels w)) !! c
          = Some (map Panel.ring_vortex row')) as Hc.
  { rewrite <- E. change (map ?f ?l) with (f <$> l).
    by rewrite list_lookup_fmap, Hrow'. }
  change (map ?f ?l) with (f <$> l) in Hc.
  rewrite list_lookup_fmap in Hc.
  destruct (rows (Wing.panels w) !! c) as [row|] eqn:Hrow; [|discriminate].
  simpl in Hc. injection Hc as Hc.
  assert ((Panel.ring_vortex <$> row) !! sp
          = Some (Panel.ring_vortex p')) as Hsp.
  { change (map ?f ?l) with (f <$> l) in Hc.
    by rewrite Hc, list_lookup_fmap, Hp'. }
  rewrite list_lookup_fmap in Hsp.
  destruct (row !! sp) as [p|] eqn:Hp; [|discriminate].
  simpl in Hsp. injection Hsp as Hsp.
  exists p. split; [|exact Hsp]. apply get2_Ok. by exists row.
Qed.

Lemma forces_view_lookup (a a' : Airplane.t) (wi : nat) (w' : Wing.t) :
  forces_view a' = forces_view a ->
  Airplane.wings a' !! wi = Some w' ->
  exists w, Airplane.wings a !! wi = Some w /\
            wake_of_wing w' = wake_of_wing w /\
            rings_of_wing w' = rings_of_wing w.
Proof.
  unfold forces_view. intros E Hw'. injection E as Ew Er.
  destruct (wake_of_airplane_lookup _ _ _ _ Ew Hw') as (w & Hw & Hwake).
  exists w. split; [exact Hw|]. split; [exact Hwake|].
  unfold rings_of_airplane in Er.
  assert ((rings_of_wing <$> Airplane.wings a') !! wi
          = Some (rings_of_wing w')) as H'
    by (by rewrite list_lookup_fmap, Hw').
  change (map ?f ?l) with (f <$> l) in Er.
  rewrite Er, list_lookup_fmap, Hw in H'. simpl in H'. congruence.
Qed.


(** *** The phases of a time step *)

Lemma time_step_phases (verbose : bool) (k : nat) (s s' : Unsteady.solver) :
  Unsteady.time_step verbose k s = Ok s' ->
  exists a0 s3 s4 s5,
    Unsteady.airplanes s !! k = Some a0 /\
    Unsteady.current_step s3 = Some k /\
    Unsteady.airplanes s3 = Unsteady.airplanes s /\
    Unsteady.num_steps s3 = Unsteady.num_steps s /\
    (forall w, w ∈ Airplane.wings a0 -> panels_in_range w) /\
    Unsteady.calculate_vortex_strengths s3 = Ok s4 /\
    Unsteady.calculate_near_field_forces_and_moments s4 = Ok s5 /\
    Unsteady.populate_next_airplanes_wake s5 = Ok s' /\
    (verbose = true -> Unsteady.debug_wake_vortices s' = Ok tt).
Proof.
  intros H. unfold Unsteady.time_step in H.
  apply bind_Ok_inv in H as (a0 & Ha0 & H). apply get_item_Ok in Ha0.
  apply bind_Ok_inv in H as (op & _ & H). cbv zeta in H.
  apply bind_Ok_inv in H as (s1 & H1 & H).
  apply bind_Ok_inv in H as (s2 & H2 & H).
  apply bind_Ok_inv in H as (s3 & H3 & H).
  apply bind_Ok_inv in H as (s4 & H4 & H).
  apply bind_Ok_inv in H as (s5 & H5 & H).
  apply bind_Ok_inv in H as (s6 & H6 & H).
  apply bind_Ok_inv in H as ([] & Hdebug & H). injection H as <-.
  destruct (influences_frame _ _ (or_introl H1))
    as [(a1 & _ & _ & a4 & _ & _) E1].
  simpl in a1, a4, E1.
  destruct (influences_frame _ _ (or_intror (or_introl H2)))
    as [(b1 & _ & _ & b4 & _ & _) E2].
  destruct (influences_frame _ _ (or_intror (or_intror H3)))
    as [(c1 & _ & _ & c4 & _ & _) E3].
  exists a0, s3, s4, s5.
  split; [exact Ha0|]. split; [congruence|]. split; [congruence|].
  split; [congruence|]. split.
  { eapply wake_influences_panels_in_range; [|exact H3].
    unfold Unsteady.current_airplane, Unsteady.the_step, attr.
    rewrite b4, a4. simpl. unfold Unsteady.airplane_at, get_item.
    rewrite E2, E1. by rewrite Ha0. }
  split; [exact H4|]. split; [exact H5|]. split; [exact H6|].
  intros ->. exact Hdebug.
Qed.

(** The current airplane when the phases of a time step are done: its
    wake is what it was, every panel its panel counts give is there, and
    every panel has a ring vortex with a strength. *)
Lemma time_step_current_airplane (verbose : bool) (k : nat)
    (s s' : Unsteady.solver) :
  Unsteady.time_step verbose k s = Ok s' ->
  exists a a' s5,
    Unsteady.airplanes s !! k = Some a /\
    Unsteady.airplanes s' !! k = Some a' /\
    Unsteady.current_airplane s' = Ok a' /\
    wake_of_airplane a' = wake_of_airplane a /\
    (forall w, w ∈ Airplane.wings a' ->
       panels_in_range w /\ panels_have_strengths w) /\
    Unsteady.current_step s5 = Some k /\
    Unsteady.num_steps s5 = Unsteady.num_steps s /\
    Unsteady.airplanes s5 !! k = Some a' /\
    Unsteady.populate_next_airplanes_wake s5 = Ok s'.
Proof.
  intros H.
  destruct (time_step_frame _ _ _ _ H) as (_ & Hk' & _ & Hwake & _).
  destruct (time_step_phases _ _ _ _ H)
    as (a0 & s3 & s4 & s5 & Ha0 & Hk3 & E3 & N3 & Hrange & H4 & H5 & H6 & _).
  rewrite <- E3 in Ha0.
  destruct (vortex_strengths_panels _ _ _ _ Hk3 Ha0 H4)
    as (a4 & Ha4 & Hwings4).
  destruct (vortex_strengths_frame _ _ _ Hk3 H4)
    as ((d1 & _ & _ & d4 & _ & _) & _ & _).
  assert (Unsteady.current_step s4 = Some k) as Hk4 by congruence.
  destruct (near_field_forces_frame _ _ _ Hk4 H5)
    as ((e1 & _ & _ & e4 & _ & _) & _ & F3).
  rewrite Ha4 in F3. simpl in F3.
  apply fmap_Some in F3 as (a5 & Ha5 & Hview).
  assert (Unsteady.current_step s5 = Some k) as Hk5 by congruence.
  assert (Unsteady.airplanes s' !! k = Some a5) as Ha'.
  { destruct (decide (k < Unsteady.num_steps s5 - 1)) as [Hlt|Hlast].
    - destruct (populate_next_airplanes_wake_spec _ _ _ _ Hk5 Hlt Ha5 H6)
        as [_ (_ & _ & G3 & _)].
      rewrite G3 by lia. exact Ha5.
    - rewrite populate_next_airplanes_wake_last with (k := k) in H6
        by (assumption || lia).
      by injection H6 as <-. }
  rewrite E3 in Ha0. exists a0, a5, s5.
  split; [exact Ha0|]. split; [exact Ha'|]. split.
  { unfold Unsteady.current_airplane, Unsteady.the_step, attr.
    rewrite Hk'. simpl. unfold Unsteady.airplane_at, get_item.
    by rewrite Ha'. }
  split.
  { rewrite Ha', Ha0 in Hwake. simpl in Hwake. by injection Hwake. }
  split; [|split; [exact Hk5|split; [congruence|by split]]].
  intros w5 Hw5. apply list_elem_of_lookup in Hw5 as [wi Hw5].
  destruct (forces_view_lookup _ _ _ _ (eq_sym Hview) Hw5)
    as (w4 & Hw4 & Hwake54 & Hrings54).
  destruct (Hwings4 _ _ Hw4) as (w0 & Hw0 & Hstrengths & Hshape & Hwake40).
  split.
  - intros c sp Hc Hsp.
    unfold wake_of_wing in Hwake54, Hwake40.
    injection Hwake54 as N1 N2 _ _. injection Hwake40 as M1 M2 _ _.
    destruct (Hrange w0) with (c := c) (sp := sp) as [p0 Hp0];
      [by eapply list_elem_of_lookup_2|lia..|].
    destruct (get2_same_shape _ _ _ _ _ Hshape Hp0) as [p4 Hp4].
    destruct (rings_of_wing_get2 w5 w4 c sp p4 (eq_sym Hrings54) Hp4)
      as (p5 & Hp5 & _).
    by exists p5.
  - intros c sp p5 Hp5.
    destruct (rings_of_wing_get2 w4 w5 c sp p5 Hrings54 Hp5)
      as (p4 & Hp4 & Hring).
    destruct (Hstrengths c sp p4 Hp4) as (ring & g & Hr & Hg).
    exists ring, g. split; [congruence|exact Hg].
Qed.

Lemma wake_inv_wf (n : nat) (s : Unsteady.solver) (a : Airplane.t)
    (w : Wing.t) :
  wake_inv n s -> Unsteady.airplanes s !! n = Some a ->
  w ∈ Airplane.wings a -> wf_ndarray (Wing.wake_ring_vortices w).
Proof.
  intros [_ Hn] Ha Hw. destruct n as [|n].
  - destruct (Hn _ _ _ Ha Hw) as [_ H0]. by apply wf_no_rows.
  - by destruct (Hn _ _ Ha Hw) as (_ & _ & _ & _ & _ & Hwf).
Qed.

(** When the phases of a time step return, its printing does. *)
Lemma time_step_debug_Ok (verbose : bool) (k : nat)
    (s s' : Unsteady.solver) :
  wake_inv k s -> wakes_have_strengths k s ->
  Unsteady.time_step verbose k s = Ok s' ->
  Unsteady.debug_wake_vortices s' = Ok tt.
Proof.
  intros Hinv Hstrengths H.
  destruct (time_step_current_airplane _ _ _ _ H)
    as (a & a' & s5 & Ha & Ha' & Hcur & Hwake & Hpanels & _).
  eapply debug_wake_vortices_Ok; [exact Hcur|].
  intros w' Hw'. destruct (Hpanels w' Hw') as [Hrange Hp].
  split; [exact Hrange|]. split; [exact Hp|].
  apply list_elem_of_lookup in Hw' as [wi Hw'].
  destruct (wake_of_airplane_lookup _ _ _ _ Hwake Hw') as (w & Hw & E).
  unfold wake_of_wing in E. injection E as _ _ _ E.
  assert (w ∈ Airplane.wings a) as Hin by (by eapply list_elem_of_lookup_2).
  unfold wake_has_strengths. rewrite E. split.
  - by eapply wake_inv_wf.
  - by apply (Hstrengths a w).
Qed.

(** *** The strengths of the wake a time step sheds *)

Lemma populate_vertices_frame (s s' : Unsteady.solver) (k : nat) :
  Unsteady.current_step s = Some k ->
  Unsteady.populate_next_airplanes_wake_vortex_vertices s = Ok s' ->
  same_settings s s' /\
  forall j, j <> k + 1 -> Unsteady.airplanes s' !! j = Unsteady.airplanes s !! j.
Proof.
  intros Hk H.
  unfold Unsteady.populate_next_airplanes_wake_vortex_vertices,
    Unsteady.compared_step in H.
  rewrite Hk in H. simpl in H.
  destruct (decide (k < Unsteady.num_steps s - 1)).
  2: { injection H as <-. split; [apply same_settings_refl|done]. }
  apply bind_Ok_inv in H as (next & _ & H).
  apply bind_Ok_inv in H as (this & _ & H).
  apply (wings_loop (k + 1) _ (fun _ _ _ => True)) in H.
  - destruct H as (A1 & _ & A3 & _). by split.
  - intros wi st st' Hwi _ Hbody. pose proof Hbody as Hbody'.
    unfold Unsteady.populate_vertices_of_wing in Hbody'.
    apply bind_Ok_inv in Hbody' as (this_wing & Hw & _).
    eapply wing_step_weaken; [|by eapply populate_vertices_of_wing_spec].
    done.
Qed.

Lemma get2_py_get2 {A : Type} (a : ndarray A) (i j : Z) (x : A) :
  get2_py a i j = Ok x -> exists i' j', get2 a i' j' = Ok x.
Proof.
  unfold get2_py. intros H.
  apply bind_Ok_inv in H as (i' & _ & H).
  apply bind_Ok_inv in H as (j' & _ & H). eauto.
Qed.

Lemma wake_ring_of_strength (this_wing : Wing.t) (vertices : ndarray Vec3)
    (r c : nat) (o : option RingVortex.t) :
  panels_have_strengths this_wing -> wake_has_strengths this_wing ->
  wake_ring_of this_wing vertices r c o ->
  exists ring g, o = Some ring /\ RingVortex.strength ring = Some g.
Proof.
  intros Hpanels Hwake (fl & fr & bl & br & g & _ & _ & _ & _ & -> & Hg).
  destruct r as [|r'].
  - destruct Hg as (panel & Hpanel & Hs).
    apply get2_py_get2 in Hpanel as (i & j & Hpanel).
    destruct (Hpanels i j panel Hpanel) as (ring & g' & Hring & Hg').
    unfold ring_strength in Hs. rewrite Hring in Hs. simpl in Hs.
    injection Hs as <-. eexists _, g'. split; [reflexivity|exact Hg'].
  - destruct Hg as (ring & Hring & ->).
    destruct (Hwake r' c _ Hring) as (ring' & g' & E & Hg').
    injection E as <-. eexists _, g'. split; [reflexivity|exact Hg'].
Qed.

Lemma populate_wake_strengths (s s' : Unsteady.solver) (k : nat)
    (this : Airplane.t) :
  Unsteady.current_step s = Some k ->
  k < Unsteady.num_steps s - 1 ->
  Unsteady.airplanes s !! k = Some this ->
  (forall w, w ∈ Airplane.wings this ->
     panels_have_strengths w /\ wake_has_strengths w) ->
  Unsteady.populate_next_airplanes_wake s = Ok s' ->
  forall a' wi w',
    Unsteady.airplanes s' !! (k + 1) = Some a' ->
    Airplane.wings a' !! wi = Some w' ->
    wi < length (Airplane.wings this) ->
    forall r c o,
      r + 1 < shape0 (Wing.wake_ring_vortex_vertices w') ->
      c + 1 < shape1 (Wing.wake_ring_vortex_vertices w') ->
      get2 (Wing.wake_ring_vortices w') r c = Ok o ->
      exists ring g, o = Some ring /\ RingVortex.strength ring = Some g.
Proof.
  intros Hk Hlt Hthis Hstrengths H.
  unfold Unsteady.populate_next_airplanes_wake in H.
  apply bind_Ok_inv in H as (s2 & Hverts & Hrings).
  destruct (populate_vertices_frame _ _ _ Hk Hverts)
    as [(N1 & _ & _ & N4 & _) Hother].
  unfold Unsteady.populate_next_airplanes_wake_vortices,
    Unsteady.compared_step in Hrings.
  rewrite N4, Hk in Hrings. simpl in Hrings. rewrite N1 in Hrings.
  destruct (decide (k < Unsteady.num_steps s - 1)); [|lia].
  apply bind_Ok_inv in Hrings as (next2 & Hnext2 & Hrings).
  apply get_item_Ok in Hnext2.
  apply bind_Ok_inv in Hrings as (this2 & Hthis2 & Hrings).
  apply get_item_Ok in Hthis2. rewrite Hother, Hthis in Hthis2 by lia.
  injection Hthis2 as <-.
  apply (wings_loop (k + 1) _
           (fun i w w' =>
              exists this_wing rings,
                Airplane.wings this !! i = Some this_wing /\
                w' = Wing.set_wake_ring_vortices rings w /\
                forall r c,
                  r + 1 < shape0 (Wing.wake_ring_vortex_vertices w) ->
                  c + 1 < shape1 (Wing.wake_ring_vortex_vertices w) ->
                  exists o, get2 rings r c = Ok o /\
                    wake_ring_of this_wing
                      (Wing.wake_ring_vortex_vertices w) r c o))
    in Hrings.
  2: { intros wi st st' Hwi _ Hbody. pose proof Hbody as Hbody'.
       unfold Unsteady.populate_vortices_of_wing in Hbody'.
       apply bind_Ok_inv in Hbody' as (this_wing & Hw & Hbody').
       apply get_item_Ok in Hw.
       apply bind_Ok_inv in Hbody' as (next_wing & Hnext & Hbody').
       apply bind_Ok_inv in Hbody' as (u & _ & Hbody').
       apply bind_Ok_inv in Hbody' as (rings0 & Hrings0 & Hbody').
       apply bind_Ok_inv in Hbody' as (rings & Hloops & Hbody').
       injection Hbody' as <-.
       apply (wing_step_modify_at _ _ _ _ _ next_wing Hnext).
       exists this_wing, rings. split; [exact Hw|]. split; [reflexivity|].
       pose proof (vstack_Ok _ _ _ Hrings0) as [_ U1].
       eapply populate_vortex_loops_grid; [|exact Hloops].
       rewrite U1. reflexivity. }
  destruct Hrings as (_ & _ & _ & G4).
  intros a' wi w' Ha' Hw' Hwi r c o Hr Hc Ho.
  destruct (G4 next2 Hnext2) as (a'' & Ha'' & Hl & _ & Hw).
  rewrite Ha' in Ha''. injection Ha'' as <-.
  destruct (lookup_lt_is_Some_2 (Airplane.wings next2) wi) as [w Hwi2].
  { rewrite <- Hl. by eapply lookup_lt_Some. }
  destruct (Hw wi w Hwi Hwi2)
    as (w'' & Hw'' & this_wing & rings & Htw & -> & Hgrid).
  rewrite Hw' in Hw''. injection Hw'' as ->.
  simpl in Hr, Hc, Ho.
  destruct (Hgrid r c Hr Hc) as (o' & Ho' & Hring).
  rewrite Ho in Ho'. injection Ho' as <-.
  destruct (Hstrengths this_wing) as [Hp Hwk];
    [by eapply list_elem_of_lookup_2|].
  by eapply wake_ring_of_strength.
Qed.

(** The wake a time step sheds into the next airplane has its
    strengths. *)
Lemma time_step_wake_strengths (verbose : bool) (k : nat)
    (s s' : Unsteady.solver) :
  k + 1 < Unsteady.num_steps s ->
  wakes_have_strengths k s -> wake_inv (k + 1) s' ->
  Unsteady.time_step verbose k s = Ok s' ->
  wakes_have_strengths (k + 1) s'.
Proof.
  intros Hlt Hstrengths Hinv H.
  destruct (time_step_current_airplane _ _ _ _ H)
    as (a & a5 & s5 & Ha & Ha5' & _ & Hwake & Hpanels & Hk5 & N5 & Ha5
        & H6).
  assert (k < Unsteady.num_steps s5 - 1) as Hlt5 by lia.
  intros a' w' Ha' Hw' r c o Ho.
  apply list_elem_of_lookup in Hw' as [wi Hw'].
  assert (w' ∈ Airplane.wings a') as Hin by (by eapply list_elem_of_lookup_2).
  destruct Hinv as [Hdims Hshape].
  replace (k + 1) with (S k) in Hshape by lia.
  replace (k + 1) with (S k) in Ha' by lia.
  destruct (Hshape a' w' Ha' Hin) as (V0 & V1 & _ & R0 & R1 & Rwf).
  destruct (get2_in_shape _ _ _ _ Rwf Ho) as [Hr Hc].
  replace (S k) with (k + 1) in Ha' by lia.
  assert (forall w, w ∈ Airplane.wings a5 ->
            panels_have_strengths w /\ wake_has_strengths w) as Hst.
  { intros w5 Hw5. destruct (Hpanels w5 Hw5) as [_ Hp].
    split; [exact Hp|].
    apply list_elem_of_lookup in Hw5 as [i Hw5].
    destruct (wake_of_airplane_lookup _ _ _ _ Hwake Hw5) as (w & Hw & E).
    unfold wake_of_wing in E. injection E as _ _ _ E.
    unfold wake_has_strengths. rewrite E.
    apply (Hstrengths a w Ha). by eapply list_elem_of_lookup_2. }
  assert (wi < length (Airplane.wings a5)) as Hwi.
  { pose proof (Hdims _ _ _ _ Ha5' Ha') as Hd.
    rewrite (dims_of_airplane_length _ _ Hd). by eapply lookup_lt_Some. }
  apply (populate_wake_strengths s5 s' k a5 Hk5 Hlt5 Ha5 Hst H6 a' wi w'
           Ha' Hw' Hwi r c o); [lia|lia|exact Ho].
Qed.


(** *** The run *)

Lemma run_steps_strengths (verbose : bool) (n : nat)
    (s1 s : Unsteady.solver) :
  wake_inv 0 s1 -> n < Unsteady.num_steps s1 ->
  Unsteady.run_steps verbose n s1 = Ok s ->
  wakes_have_strengths n s.
Proof.
  intros H0. revert s. induction n as [|n IH]; intros s Hn H.
  - injection H as <-. destruct H0 as [_ Hno].
    intros a w Ha Hw r c o Ho.
    destruct (Hno _ _ _ Ha Hw) as [_ Hrows].
    apply get2_Ok in Ho as (row & Hrow & _).
    apply lookup_lt_Some in Hrow. unfold shape0 in Hrows. lia.
  - pose proof (run_steps_wake_inv _ _ _ _ H0 Hn H) as [Hinv _].
    apply run_steps_S in H as (sn & Hsn & Hstep).
    assert (n < Unsteady.num_steps s1) as Hn' by lia.
    destruct (run_steps_wake_inv _ _ _ _ H0 Hn' Hsn) as [_ Hnum].
    replace (S n) with (n + 1) in * by lia.
    eapply time_step_wake_strengths; [|by eapply IH|exact Hinv|exact Hstep].
    lia.
Qed.

Lemma time_step_verbose (k : nat) (s : Unsteady.solver) :
  Unsteady.time_step true k s
  = (s' ← Unsteady.time_step false k s;
     _ ← Unsteady.debug_wake_vortices s';
     Ok s').
Proof.
  unfold Unsteady.time_step.
  destruct (Unsteady.airplane_at k s); simpl; [|reflexivity].
  destruct (get_item (Unsteady.operating_points s) k); simpl;
    [|reflexivity].
  destruct (Unsteady.calculate_wing_wing_influences _) as [s1|];
    simpl; [|reflexivity].
  destruct (Unsteady.calculate_freestream_wing_influences s1) as [s2|];
    simpl; [|reflexivity].
  destruct (Unsteady.calculate_wake_wing_influences s2) as [s3|];
    simpl; [|reflexivity].
  destruct (Unsteady.calculate_vortex_strengths s3) as [s4|];
    simpl; [|reflexivity].
  destruct (Unsteady.calculate_near_field_forces_and_moments s4) as [s5|];
    simpl; [|reflexivity].
  destruct (Unsteady.populate_next_airplanes_wake s5) as [s6|];
    simpl; reflexivity.
Qed.

Lemma time_step_verbose_iff (k : nat) (s s' : Unsteady.solver) :
  wake_inv k s -> wakes_have_strengths k s ->
  Unsteady.time_step true k s = Ok s' <->
  Unsteady.time_step false k s = Ok s'.
Proof.
  intros Hinv Hstrengths. rewrite time_step_verbose. split.
  - intros H. apply bind_Ok_inv in H as (s6 & H6 & H).
    apply bind_Ok_inv in H as (u & _ & H). by injection H as <-.
  - intros H. rewrite H. simpl.
    by rewrite (time_step_debug_Ok false k s s' Hinv Hstrengths H).
Qed.

Lemma run_steps_verbose_iff (n : nat) (s1 s : Unsteady.solver) :
  wake_inv 0 s1 -> n <= Unsteady.num_steps s1 ->
  Unsteady.run_steps true n s1 = Ok s <->
  Unsteady.run_steps false n s1 = Ok s.
Proof.
  intros H0. revert s. induction n as [|n IH]; intros s Hn; [done|].
  rewrite !run_steps_S.
  assert (n < Unsteady.num_steps s1) as Hn' by lia.
  split; intros (sn & Hsn & Hstep); exists sn.
  - split; [apply IH; [lia|exact Hsn]|].
    destruct (run_steps_wake_inv _ _ _ _ H0 Hn' Hsn) as [Hinv _].
    pose proof (run_steps_strengths _ _ _ _ H0 Hn' Hsn) as Hstrengths.
    by apply time_step_verbose_iff.
  - split; [apply IH; [lia|exact Hsn]|].
    destruct (run_steps_wake_inv _ _ _ _ H0 Hn' Hsn) as [Hinv _].
    pose proof (run_steps_strengths _ _ _ _ H0 Hn' Hsn) as Hstrengths.
    by apply time_step_verbose_iff.
Qed.

(** X12.  What [run] prints does not matter.  For a movement whose poses
    have the same wings and start without wake, the run with
    [verbose=True] returns if and only if the run with [verbose=False]
    does, and with the same solver: whenever the phases of a time step
    return, every strength [debug_wake_vortices] prints is there to be
    printed, on the panels of the current airplane and in its wake. *)
Theorem verbose_run_same (s0 s' : Unsteady.solver) :
  initial_movement s0 ->
  Unsteady.run true s0 = Ok s' <-> Unsteady.run false s0 = Ok s'.
Proof.
  intros Hinit. unfold Unsteady.run.
  destruct (Unsteady.initialize_panel_vortices s0) as [s1|e] eqn:H1;
    simpl; [|done].
  destruct (initial_movement_initialized _ _ Hinit H1) as [H0 _].
  split; intros H; apply bind_Ok_inv in H as (s2 & H2 & H).
  - apply run_steps_verbose_iff in H2; [|exact H0|lia].
    rewrite H2. exact H.
  - apply run_steps_verbose_iff in H2; [|exact H0|lia].
    rewrite H2. exact H.
Qed.

End Verbose.

(** ** The wake vertices of the legacy solver *)

Section LegacyWake.
Context {aero : Aerodynamics}.

Lemma legacy_first_row_entries (s : Unsteady.solver) (step wi : nat)
    (this_wing next_wing : Wing.t) (row : ndarray Vec3) :
  Unsteady.wing_at (step + 1) wi s = Ok next_wing ->
  Legacy.first_row_of_vertices s step wi this_wing = Ok row ->
  same_shape (np_full 1 (Wing.num_spanwise_panels this_wing + 1) vzero) row /\
  forall sp, sp < Wing.num_spanwise_panels this_wing ->
    exists next_panel ring,
      get2_py (Wing.panels next_wing) (trailing_edge_position this_wing)
        (Z.of_nat sp) = Ok next_panel /\
      Panel.ring_vortex next_panel = Some ring /\
      get2 row 0 sp = Ok (RingVortex.back_left_vertex ring) /\
      (sp = Wing.num_spanwise_panels this_wing - 1 ->
       get2 row 0 (sp + 1) = Ok (RingVortex.back_right_vertex ring)).
Proof.
  intros Hnext H. unfold Legacy.first_row_of_vertices in H. cbv zeta in H.
  refine (for_each_range_inv
            (fun i row =>
               same_shape
                 (np_full 1 (Wing.num_spanwise_panels this_wing + 1) vzero)
                 row /\
               forall sp, sp < i ->
                 exists next_panel ring,
                   get2_py (Wing.panels next_wing)
                     (trailing_edge_position this_wing) (Z.of_nat sp)
                     = Ok next_panel /\
                   Panel.ring_vortex next_panel = Some ring /\
                   get2 row 0 sp = Ok (RingVortex.back_left_vertex ring) /\
                   (sp = Wing.num_spanwise_panels this_wing - 1 ->
                    get2 row 0 (sp + 1)
                      = Ok (RingVortex.back_right_vertex ring)))
            _ _ _ _ _ _ H);
    [|split; [apply same_shape_refl|intros sp Hsp; lia]].
  clear H row. intros i row row' Hi [Hshape Hdone] H.
  rewrite Hnext in H. simpl in H.
  apply bind_Ok_inv in H as (next_panel & Hpanel & H).
  apply bind_Ok_inv in H as (ring & Hring & H). apply of_option_Ok in Hring.
  apply bind_Ok_inv in H as (row1 & Hrow1 & H).
  assert (same_shape
            (np_full 1 (Wing.num_spanwise_panels this_wing + 1) vzero) row'
          /\ (forall j, j <> i ->
                (i <> Wing.num_spanwise_panels this_wing - 1 \/ j <> i + 1) ->
                get2 row' 0 j = get2 row 0 j)
          /\ get2 row' 0 i = Ok (RingVortex.back_left_vertex ring)
          /\ (i = Wing.num_spanwise_panels this_wing - 1 ->
              get2 row' 0 (i + 1) = Ok (RingVortex.back_right_vertex ring)))
    as (Hshape' & Hother & Hleft & Hright).
  { pose proof (set2_same_shape _ _ _ _ _ Hrow1) as S1.
    destruct (decide (i = Wing.num_spanwise_panels this_wing - 1))
      as [Hlast|Hlast].
    - rewrite Hring in H. simpl in H.
      pose proof (set2_same_shape _ _ _ _ _ H) as S2.
      split; [eapply same_shape_trans; [exact Hshape|];
              by eapply same_shape_trans|].
      split; [|split].
      + intros j Hj [Hc|Hj']; [contradiction|].
        rewrite (get2_set2_ne _ _ _ _ _ _ _ H) by (intros [=]; lia).
        apply (get2_set2_ne _ _ _ _ _ _ _ Hrow1). intros [=]. lia.
      + rewrite (get2_set2_ne _ _ _ _ _ _ _ H) by (intros [=]; lia).
        by eapply get2_set2_eq.
      + intros _. by eapply get2_set2_eq.
    - injection H as <-.
      split; [by eapply same_shape_trans|]. split; [|split].
      + intros j Hj _.
        apply (get2_set2_ne _ _ _ _ _ _ _ Hrow1). intros [=]. lia.
      + by eapply get2_set2_eq.
      + intros E. contradiction. }
  split; [exact Hshape'|].
  intros sp Hsp. destruct (decide (sp = i)) as [->|Hne].
  - by exists next_panel, ring.
  - destruct (Hdone sp) as (p & r & Hp & Hr & Hl & Hrt); [lia|].
    exists p, r. split; [exact Hp|]. split; [exact Hr|].
    split; [|intros E; lia].
    rewrite Hother; [exact Hl|exact Hne|]. right. lia.
Qed.

(** X13.  The wake vertices the legacy solver gives a wing of the next
    airplane.  Row 0 holds the back vertices of the ring vortices of the
    trailing-edge panels of the next wing: at [sp] the back left vertex
    of the ring vortex at [sp], and after the last panel its back right
    vertex.  At the first step these two rows are the whole wake: row 1
    is row 0 moved over one time step; at a later step the row
    [cv + 1] is the row [cv] of the wake vertices of the current wing,
    moved over one time step.  The vertices move at the freestream
    velocity with [prescribed_wake], and at the solution velocity at the
    vertex without it. *)
Theorem legacy_wake_vertices (prescribed_wake : bool) (step wi : nat)
    (this_wing next_wing : Wing.t) (s s' : Unsteady.solver) :
  Unsteady.wing_at step wi s = Ok this_wing ->
  Unsteady.wing_at (step + 1) wi s = Ok next_wing ->
  (step <> 0 -> wf_ndarray (Wing.wake_ring_vortex_vertices this_wing)) ->
  Legacy.populate_vertices_of_wing prescribed_wake step wi s = Ok s' ->
  exists vertices,
    s' = Unsteady.modify_wing_at (step + 1) wi
           (Wing.set_wake_ring_vortex_vertices vertices) s /\
    (forall sp, sp < Wing.num_spanwise_panels this_wing ->
       exists next_panel ring,
         get2_py (Wing.panels next_wing) (trailing_edge_position this_wing)
           (Z.of_nat sp) = Ok next_panel /\
         Panel.ring_vortex next_panel = Some ring /\
         get2 vertices 0 sp = Ok (RingVortex.back_left_vertex ring) /\
         (sp = Wing.num_spanwise_panels this_wing - 1 ->
          get2 vertices 0 (sp + 1)
            = Ok (RingVortex.back_right_vertex ring))) /\
    (step = 0 ->
     shape0 vertices = 2 /\
     forall sv, sv < Wing.num_spanwise_panels this_wing + 1 ->
       exists x velocity,
         get2 vertices 0 sv = Ok x /\
         (if prescribed_wake then Unsteady.the_freestream_velocity s
          else Unsteady.calculate_solution_velocity s x) = Ok velocity /\
         get2 vertices 1 sv
           = Ok (vadd x (vscale_r velocity (Unsteady.delta_time s)))) /\
    (step <> 0 ->
     shape0 vertices
       = shape0 (Wing.wake_ring_vortex_vertices this_wing) + 1 /\
     forall cv sv x,
       get2 (Wing.wake_ring_vortex_vertices this_wing) cv sv = Ok x ->
       exists velocity,
         (if prescribed_wake then Unsteady.the_freestream_velocity s
          else Unsteady.calculate_solution_velocity s x) = Ok velocity /\
         get2 vertices (cv + 1) sv
           = Ok (vadd x (vscale_r velocity (Unsteady.delta_time s)))).
Proof.
  intros Hthis Hnext Hwf H. unfold Legacy.populate_vertices_of_wing in H.
  rewrite Hthis, Hnext in H. simpl in H.
  destruct (decide (step = 0)) as [Hstep|Hstep].
  - apply bind_Ok_inv in H as (first_row & Hfirst & H). cbv zeta in H.
    apply bind_Ok_inv in H as (second_row & Hsecond & H).
    apply bind_Ok_inv in H as (vertices & Hv & H). injection H as <-.
    exists vertices. split; [reflexivity|].
    destruct (legacy_first_row_entries _ _ _ _ _ _ Hnext Hfirst)
      as [Hshape Hentries].
    apply same_shape_np_full in Hshape as (_ & Hrow0 & _).
    destruct (legacy_second_row _ _ _ _ _ Hsecond) as [Hshape2 Hmoved].
    apply same_shape_np_full in Hshape2 as (_ & Hrow2 & _).
    assert (forall j, get2 vertices 0 j = get2 first_row 0 j) as Htop.
    { intros j. apply (get2_vstack_top _ _ _ _ _ Hv). lia. }
    assert (forall j, get2 vertices 1 j = get2 second_row 0 j) as Hunder.
    { intros j. replace 1 with (shape0 first_row + 0) by lia.
      apply (get2_vstack_under _ _ _ _ _ Hv). }
    split; [|split; [|intros Hne; contradiction]].
    + intros sp Hsp.
      destruct (Hentries sp Hsp) as (p & r & Hp & Hr & Hl & Hrt).
      exists p, r. rewrite !Htop. by repeat split.
    + intros _. split.
      { rewrite (vstack_shape0 _ _ _ Hv). lia. }
      intros sv Hsv. destruct (Hmoved sv Hsv) as (x & v & Hx & Hvel & Hg).
      exists x, v. rewrite Htop, Hunder. by repeat split.
  - apply bind_Ok_inv in H as (conv & Hconv & H).
    apply bind_Ok_inv in H as (first_row & Hfirst & H).
    apply bind_Ok_inv in H as (vertices & Hv & H). injection H as <-.
    exists vertices. split; [reflexivity|].
    destruct (legacy_first_row_entries _ _ _ _ _ _ Hnext Hfirst)
      as [Hshape Hentries].
    apply same_shape_np_full in Hshape as (_ & Hrow0 & _).
    destruct (legacy_convect_in_place _ _ _ _ (Hwf Hstep) Hconv)
      as [Hshape2 Hmoved].
    assert (forall j, get2 vertices 0 j = get2 first_row 0 j) as Htop.
    { intros j. apply (get2_vstack_top _ _ _ _ _ Hv). lia. }
    assert (forall i j, get2 vertices (i + 1) j = get2 conv i j) as Hunder.
    { intros i j. replace (i + 1) with (shape0 first_row + i) by lia.
      apply (get2_vstack_under _ _ _ _ _ Hv). }
    split; [|split; [intros E; contradiction|]].
    + intros sp Hsp.
      destruct (Hentries sp Hsp) as (p & r & Hp & Hr & Hl & Hrt).
      exists p, r. rewrite !Htop. by repeat split.
    + intros _. split.
      { rewrite (vstack_shape0 _ _ _ Hv).
        rewrite <- (same_shape_shape0 _ _ Hshape2). lia. }
      intros cv sv x Hx. destruct (Hmoved cv sv x Hx) as (v & Hvel & Hg).
      exists v. rewrite Hunder. by split.
Qed.

End LegacyWake.

(** ** The totals of the near-field forces *)

Section Totals.
Context {aero : Aerodynamics}.

Lemma fold_left_ext_in {A B : Type} (f g : B -> A -> B) (l : list A) :
  (forall x acc, x ∈ l -> f acc x = g acc x) ->
  forall b, fold_left f l b = fold_left g l b.
Proof.
  induction l as [|x l IH]; intros H b; simpl; [reflexivity|].
  rewrite H by (by left). apply IH. intros y acc Hy. apply H. by right.
Qed.

Lemma fold_left_range_S {B : Type} (f : B -> nat -> B) (n : nat) (b : B) :
  fold_left f (range (S n)) b = f (fold_left f (range n) b) n.
Proof. unfold range. rewrite seq_S, fold_left_app. reflexivity. Qed.

Lemma get2_modify_panel_ne (w : Wing.t) (c sp c' sp' : nat)
    (f : Panel.t -> Panel.t) :
  (c', sp') <> (c, sp) ->
  get2 (Wing.panels (modify_panel c sp f w)) c' sp'
  = get2 (Wing.panels w) c' sp'.
Proof.
  intros Hne. unfold get2. simpl.
  destruct (decide (c' = c)) as [->|Hc]; [|by rewrite list_lookup_alter_ne].
  rewrite list_lookup_alter. destruct (decide (c = c)); [|done].
  destruct (rows (Wing.panels w) !! c) as [row|]; simpl; [|reflexivity].
  rewrite list_lookup_alter_ne; [reflexivity|]. congruence.
Qed.

(** The results of the cells other than [(c, sp)] of a wing, and of the
    wing as it was up to that cell *)
Lemma add_cell_results_modify (w : Wing.t) (c sp c' sp' : nat)
    (f : Panel.t -> Panel.t) (totals : Vec3 * Vec3) :
  (c', sp') <> (c, sp) ->
  add_cell_results (modify_panel c sp f w) c' totals sp'
  = add_cell_results w c' totals sp'.
Proof.
  intros Hne. unfold add_cell_results. by rewrite get2_modify_panel_ne.
Qed.

Lemma add_row_results_modify (w : Wing.t) (c sp c' : nat)
    (f : Panel.t -> Panel.t) (totals : Vec3 * Vec3) :
  c' <> c ->
  add_row_results (modify_panel c sp f w) totals c'
  = add_row_results w totals c'.
Proof.
  intros Hne. unfold add_row_results. simpl.
  apply fold_left_ext_in. intros sp' acc _.
  apply add_cell_results_modify. congruence.
Qed.

Lemma add_row_results_eq (w : Wing.t) (totals : Vec3 * Vec3) (c : nat) :
  add_row_results w totals c
  = fold_left (add_cell_results w c) (range (Wing.num_spanwise_panels w))
      totals.
Proof. reflexivity. Qed.

Lemma add_wing_results_eq (totals : Vec3 * Vec3) (w : Wing.t) :
  add_wing_results totals w
  = fold_left (add_row_results w) (range (Wing.num_chordwise_panels w))
      totals.
Proof. reflexivity. Qed.

(** One pass of the loops over the panels: the panel is there, it gets a
    force and a moment, and they are added to the totals. *)
Lemma near_field_panel_Ok (k wi c sp : nat) (s s' : Unsteady.solver)
    (totals totals' : Vec3 * Vec3) (w : Wing.t) :
  Unsteady.current_step s = Some k ->
  Unsteady.wing_at k wi s = Ok w ->
  Unsteady.near_field_panel wi c sp (s, totals) = Ok (s', totals') ->
  exists p f m,
    get2 (Wing.panels w) c sp = Ok p /\
    s' = Unsteady.modify_panel_at k wi c sp
           (Unsteady.store_panel_results f m) s /\
    totals' = (vadd (fst totals) f, vadd (snd totals) m).
Proof.
  intros Hk Hw H. unfold Unsteady.near_field_panel in H.
  destruct totals as [tf tm].
  unfold Unsteady.the_step, attr in H. rewrite Hk in H. simpl in H.
  apply bind_Ok_inv in H as ([f m] & Hfm & H). injection H as <- <-.
  unfold Unsteady.panel_near_field in Hfm.
  unfold Unsteady.the_step, attr in Hfm. rewrite Hk in Hfm. simpl in Hfm.
  rewrite Hw in Hfm. simpl in Hfm.
  apply bind_Ok_inv in Hfm as (last_wing & _ & Hfm).
  apply bind_Ok_inv in Hfm as (airplane & _ & Hfm).
  apply bind_Ok_inv in Hfm as (p & Hp & _).
  by exists p, f, m.
Qed.


Lemma totals_so_far_panel (k n nc ns wi c sp : nat)
    (st st' : Unsteady.solver * (Vec3 * Vec3)) :
  totals_so_far k n nc ns wi c sp st ->
  Unsteady.near_field_panel wi c sp st = Ok st' ->
  totals_so_far k n nc ns wi c (S sp) st'.
Proof.
  destruct st as [s totals], st' as [s' totals'].
  intros (Hk & a & w & Ha & Hn & Hw & Hnc & Hns & Ht & Hj & Hrows & Hcells) H.
  simpl in Hk, Ha, Ht.
  assert (Unsteady.wing_at k wi s = Ok w) as Hwing.
  { unfold Unsteady.wing_at, Unsteady.airplane_at, get_item.
    rewrite Ha. simpl. by rewrite Hw. }
  destruct (near_field_panel_Ok _ _ _ _ _ _ _ _ _ Hk Hwing H)
    as (p & f & m & Hp & -> & ->).
  set (g := Unsteady.store_panel_results f m).
  split; [exact Hk|].
  exists (modify_wing wi (modify_panel c sp g) a), (modify_panel c sp g w).
  split; [simpl; by apply alter_lookup_Some|].
  split; [simpl; by rewrite length_alter|].
  split; [simpl; by apply alter_lookup_Some|].
  split; [exact Hnc|]. split; [exact Hns|]. split; [|split; [|split]].
  - cbn [snd Airplane.wings modify_wing Airplane.set_wings].
    rewrite take_alter_ge by lia. rewrite fold_left_range_S.
    rewrite (fold_left_ext_in (add_row_results (modify_panel c sp g w))
               (add_row_results w)).
    2:{ intros c' acc Hc'. apply add_row_results_modify.
        apply elem_of_seq in Hc'. lia. }
    rewrite (fold_left_ext_in (add_cell_results (modify_panel c sp g w) c)
               (add_cell_results w c)).
    2:{ intros sp' acc Hsp'. apply add_cell_results_modify.
        apply elem_of_seq in Hsp'. intros [=]. lia. }
    rewrite <- Ht. unfold add_cell_results.
    rewrite (get2_modify_panel _ _ _ _ _ Hp). reflexivity.
  - intros j w' Hlt Hw'. apply (Hj j w' Hlt).
    simpl in Hw'. rewrite list_lookup_alter_ne in Hw' by lia. exact Hw'.
  - intros c' sp' Hc' Hsp'. rewrite get2_modify_panel_ne by (intros [=]; lia).
    by apply Hrows.
  - intros sp' Hsp'. destruct (decide (sp' = sp)) as [->|Hne].
    + exists (g p). by apply get2_modify_panel.
    + rewrite get2_modify_panel_ne by congruence. apply Hcells. lia.
Qed.

Lemma totals_so_far_row (k n nc ns wi c : nat)
    (st : Unsteady.solver * (Vec3 * Vec3)) :
  totals_so_far k n nc ns wi c ns st ->
  totals_so_far k n nc ns wi (S c) 0 st.
Proof.
  intros (Hk & a & w & Ha & Hn & Hw & Hnc & Hns & Ht & Hj & Hrows & Hcells).
  split; [exact Hk|]. exists a, w. repeat (split; [done|]).
  split; [|split; [exact Hj|split]].
  - rewrite fold_left_range_S, Ht.
    change (range 0) with (@nil nat). cbn [fold_left].
    rewrite add_row_results_eq, Hns. reflexivity.
  - intros c' sp' Hc' Hsp'. destruct (decide (c' = c)) as [->|Hne].
    + by apply Hcells.
    + apply Hrows; [lia|done].
  - intros sp' Hsp'. lia.
Qed.

Lemma wings_so_far_wing (k n wi : nat)
    (st st' : Unsteady.solver * (Vec3 * Vec3)) :
  wings_so_far k n wi st ->
  Unsteady.near_field_wing wi st = Ok st' ->
  wings_so_far k n (S wi) st'.
Proof.
  intros (Hk & a & Ha & Hn & Ht & Hj) H.
  unfold Unsteady.near_field_wing in H.
  apply bind_Ok_inv in H as (step & Hstep & H).
  apply of_option_Ok in Hstep. rewrite Hk in Hstep. injection Hstep as <-.
  apply bind_Ok_inv in H as (wing & Hwing & H).
  apply bind_Ok_inv in H as (last_wing & _ & H).
  assert (Airplane.wings a !! wi = Some wing) as Hw.
  { unfold Unsteady.wing_at, Unsteady.airplane_at, get_item in Hwing.
    rewrite Ha in Hwing. simpl in Hwing. by apply of_option_Ok in Hwing. }
  set (nc := Wing.num_chordwise_panels wing) in *.
  set (ns := Wing.num_spanwise_panels wing) in *.
  assert (totals_so_far k n nc ns wi nc 0 st')
    as (Hk' & a' & w' & Ha' & Hn' & Hw' & Hnc' & Hns' & Ht' & Hj' & Hrows' & _).
  { refine (for_each_range_inv
              (fun c st => totals_so_far k n nc ns wi c 0 st) nc _
              _ _ _ _ H).
    - intros c st1 st1' _ Hst1 Hrow. apply totals_so_far_row.
      refine (for_each_range_inv
                (fun sp st => totals_so_far k n nc ns wi c sp st) ns _
                _ _ _ Hst1 Hrow).
      intros sp st2 st2' _. apply totals_so_far_panel.
    - split; [exact Hk|]. exists a, wing.
      repeat split; try done; intros; lia. }
  split; [exact Hk'|]. exists a'. split; [exact Ha'|]. split; [exact Hn'|].
  split.
  - rewrite (take_S_r _ _ _ Hw'), fold_left_app. simpl.
    rewrite Ht'. change (range 0) with (@nil nat). cbn [fold_left].
    rewrite add_wing_results_eq, Hnc'. reflexivity.
  - intros j w2 Hlt Hw2. destruct (decide (j = wi)) as [->|Hne].
    + rewrite Hw' in Hw2. injection Hw2 as <-.
      intros c sp Hc Hsp. apply Hrows'; lia.
    + apply (Hj' j); [lia|done].
Qed.

(** X14.  The totals [calculate_near_field_forces_and_moments] of the
    unsteady solver reports are the sums of what it has stored on the
    panels.  After the call every position of every wing of the current
    airplane holds a panel, and the total force and the total moment in
    wind axes, on the solver and on the airplane, are the transposed
    rotation matrix applied to the sum of the forces and of the moments
    stored on those panels.  Where the dynamic pressure and the
    reference area are not zero, the force coefficients are the
    components of the total force over their product, the drag and lift
    coefficients with the sign changed; the moment coefficients are the
    components of the total moment over that product and the reference
    span (rolling, yawing) or the reference chord (pitching), where these
    are not zero either. *)
Theorem near_field_totals (s s' : Unsteady.solver) (k : nat) :
  Unsteady.current_step s = Some k ->
  Unsteady.calculate_near_field_forces_and_moments s = Ok s' ->
  exists airplane op,
    Unsteady.airplanes s' !! k = Some airplane /\
    Unsteady.current_operating_point s' = Some op /\
    (forall wing, wing ∈ Airplane.wings airplane -> panels_in_range wing) /\
    let rotation :=
      transpose3
        (OperatingPoint.calculate_rotation_matrix_wind_axes_to_geometry_axes
           op) in
    let force := mat3_vec rotation (fst (sum_of_panel_results airplane)) in
    let moment := mat3_vec rotation (snd (sum_of_panel_results airplane)) in
    let q := OperatingPoint.calculate_dynamic_pressure op in
    let s_ref := Airplane.s_ref airplane in
    let b_ref := Airplane.b_ref airplane in
    let c_ref := Airplane.c_ref airplane in
    Unsteady.total_near_field_force_wind_axes s' = force /\
    Unsteady.total_near_field_moment_wind_axes s' = moment /\
    Airplane.total_near_field_force_wind_axes airplane = force /\
    Airplane.total_near_field_moment_wind_axes airplane = moment /\
    (~ q == 0 -> ~ s_ref == 0 ->
     Unsteady.CDi s' = Some (- vx force / q / s_ref)%Q /\
     Unsteady.CY s' = Some (vy force / q / s_ref)%Q /\
     Unsteady.CL s' = Some (- vz force / q / s_ref)%Q /\
     Airplane.total_near_field_force_coefficients_wind_axes airplane
       = mk_vec (- vx force / q / s_ref)%Q (vy force / q / s_ref)%Q
           (- vz force / q / s_ref)%Q) /\
    (~ q == 0 -> ~ s_ref == 0 -> ~ b_ref == 0 ->
     Unsteady.Cl s' = Some (vx moment / q / s_ref / b_ref)%Q /\
     Unsteady.Cn s' = Some (vz moment / q / s_ref / b_ref)%Q) /\
    (~ q == 0 -> ~ s_ref == 0 -> ~ c_ref == 0 ->
     Unsteady.Cm s' = Some (vy moment / q / s_ref / c_ref)%Q) /\
    (~ q == 0 -> ~ s_ref == 0 -> ~ b_ref == 0 -> ~ c_ref == 0 ->
     Airplane.total_near_field_moment_coefficients_wind_axes airplane
       = mk_vec (vx moment / q / s_ref / b_ref)%Q
           (vy moment / q / s_ref / c_ref)%Q
           (vz moment / q / s_ref / b_ref)%Q).
Proof.
  intros Hk H.
  unfold Unsteady.calculate_near_field_forces_and_moments in H.
  apply bind_Ok_inv in H as (step & Hstep & H).
  apply of_option_Ok in Hstep. rewrite Hk in Hstep. injection Hstep as <-.
  apply bind_Ok_inv in H as (last & _ & H).
  apply bind_Ok_inv in H as (airplane & Hairplane & H).
  apply bind_Ok_inv in H as ([s1 [tf tm]] & Hloop & H).
  apply bind_Ok_inv in H as (op & Hop & H).
  apply bind_Ok_inv in H as (airplane1 & Hairplane1 & H). injection H as <-.
  unfold Unsteady.current_airplane, Unsteady.the_step, attr in Hairplane.
  rewrite Hk in Hairplane. simpl in Hairplane.
  apply of_option_Ok in Hairplane.
  set (n := length (Airplane.wings airplane)) in *.
  assert (wings_so_far k n n (s1, (tf, tm)))
    as (Hk1 & a1 & Ha1 & Hn1 & Ht1 & Hj1).
  { refine (for_each_range_inv (fun wi st => wings_so_far k n wi st) n _
              _ _ _ _ Hloop).
    - intros wi st st' _. apply wings_so_far_wing.
    - split; [exact Hk|]. exists airplane.
      repeat split; try done; intros; lia. }
  simpl in Hk1, Ha1, Ht1.
  unfold Unsteady.current_airplane, Unsteady.the_step, attr in Hairplane1.
  rewrite Hk1 in Hairplane1. simpl in Hairplane1.
  apply of_option_Ok in Hairplane1. rewrite Ha1 in Hairplane1.
  injection Hairplane1 as <-.
  rewrite take_ge in Ht1 by lia.
  assert (tf = fst (sum_of_panel_results a1)) as ->
    by (unfold sum_of_panel_results; by rewrite <- Ht1).
  assert (tm = snd (sum_of_panel_results a1)) as ->
    by (unfold sum_of_panel_results; by rewrite <- Ht1).
  clear Ht1.
  apply of_option_Ok in Hop.
  eexists _, op. split; [simpl; by apply alter_lookup_Some|].
  split; [exact Hop|]. split.
  - intros wing Hwing. apply list_elem_of_lookup in Hwing as [j Hwing].
    apply (Hj1 j); [|exact Hwing]. apply lookup_lt_Some in Hwing.
    simpl in Hwing. lia.
  - simpl. repeat split; reflexivity.
Qed.

End Totals.

(** ** The panel numbers of the steady solvers *)

Section PanelNumbers.
Context {aero : Aerodynamics}.

(** Loops over the wings and over the numbered items of each wing, whose
    body writes at the number of the item: what is found at a number
    afterwards was written for the last wing that has that number. *)
Lemma for_each_last_writer {W X S : Type} (items : W -> list X)
    (body : nat * X -> S -> result S) (Q : nat -> X -> S -> Prop)
    (pre post : list W) (w : W) (i : nat) (x : X) (st st' : S) :
  (forall j y st1 st2, body (j, y) st1 = Ok st2 ->
     Q j y st2 /\ (j <> i -> Q i x st1 -> Q i x st2)) ->
  items w !! i = Some x ->
  (forall w', w' ∈ post -> length (items w') <= i) ->
  for_each (pre ++ w :: post)
    (fun w => for_each (enumerate (items w)) body) st = Ok st' ->
  Q i x st'.
Proof.
  intros Hbody Hx Hpost H.
  rewrite for_each_app in H. apply bind_Ok_inv in H as (st1 & _ & H).
  simpl in H. apply bind_Ok_inv in H as (st2 & Hw & H).
  assert (Q i x st2) as Hst2.
  { cut (i < length (items w) -> Q i x st2);
      [intros Hcut; apply Hcut; by eapply lookup_lt_Some|].
    refine (for_each_enumerate_inv (fun n st => i < n -> Q i x st)
              (items w) body _ _ _ _ Hw); [|lia].
    intros n y s1 s2 Hy Hn Hs Hlt.
    destruct (Hbody n y s1 s2 Hs) as [Hnew Hkeep].
    destruct (decide (n = i)) as [->|Hne].
    - rewrite Hx in Hy. by injection Hy as <-.
    - apply Hkeep; [exact Hne|]. apply Hn. lia. }
  refine (for_each_inv (fun st => Q i x st) post _ _ _ _ Hst2 H).
  intros w' s1 s2 Hw' Hs1 Hloop.
  cut (Q i x s2); [done|].
  refine (for_each_enumerate_inv (fun _ st => Q i x st) (items w') body
            _ _ _ Hs1 Hloop).
  intros n y s3 s4 Hy Hs3 Hs.
  destruct (Hbody n y s3 s4 Hs) as [_ Hkeep]. apply Hkeep; [|exact Hs3].
  apply lookup_lt_Some in Hy. specialize (Hpost w' Hw'). lia.
Qed.

(** X15.  [set_up_operating_point] of the steady solvers numbers the
    panels within their wing.  The normal direction and the freestream
    influence found at a number afterwards are those of the panel with
    that number of the last wing that has such a panel: a wing after
    another one writes over the entries of the panels of the same
    numbers of the wing before. *)
Theorem steady_vectors_by_panel_number (s s' : Steady.solver)
    (pre post : list Wing.t) (wing : Wing.t) (i : nat) (panel : Panel.t) :
  Airplane.wings (Steady.airplane s) = pre ++ wing :: post ->
  ravel (Wing.panels wing) !! i = Some panel ->
  (forall w, w ∈ post -> length (ravel (Wing.panels w)) <= i) ->
  Steady.set_up_operating_point s = Ok s' ->
  Steady.normal_directions s' !! i = Some (Panel.normal_direction panel) /\
  Steady.freestream_influences s' !! i
  = Some (dot (OperatingPoint.calculate_freestream_velocity_geometry_axes
                 (Steady.operating_point s))
            (Panel.normal_direction panel)).
Proof.
  intros Hwings Hpanel Hpost H.
  unfold Steady.set_up_operating_point in H. rewrite Hwings in H.
  apply bind_Ok_inv in H as ([normals influences] & Hv & H).
  injection H as <-. simpl.
  set (freestream :=
         OperatingPoint.calculate_freestream_velocity_geometry_axes
           (Steady.operating_point s)) in *.
  refine (for_each_last_writer (fun w => ravel (Wing.panels w)) _
            (fun j p (st : list Vec3 * list Q) =>
               fst st !! j = Some (Panel.normal_direction p) /\
               snd st !! j = Some (dot freestream (Panel.normal_direction p)))
            pre post wing i panel _ (normals, influences) _ Hpanel Hpost Hv).
  intros j p [n1 v1] st2 Hbody. cbn [fst snd] in *.
  apply bind_Ok_inv in Hbody as (n2 & Hn2 & Hbody).
  apply bind_Ok_inv in Hbody as (v2 & Hv2 & Hbody). injection Hbody as <-.
  apply set_item_Ok in Hn2 as [Hj1 ->]. apply set_item_Ok in Hv2 as [Hj2 ->].
  cbn [fst snd]. split.
  - split; by apply list_lookup_insert_eq.
  - intros Hne. by rewrite !list_lookup_insert_ne.
Qed.

(** X16.  [set_up_geometry] of the steady solvers numbers the panels
    within their wing as well.  The entry of the influence matrix at row
    [i] and column [j] is the normal component, at the collocation point
    of the panel of number [i] of the last wing that has such a panel, of
    the velocity the vortex of the panel of number [j] of the last wing
    that has such a panel induces at unit strength. *)
Theorem steady_matrix_by_panel_number (s s' : Steady.solver)
    (pre post pre' post' : list Wing.t)
    (collocation_panel_wing vortex_panel_wing : Wing.t) (i j : nat)
    (collocation_panel vortex_panel : Panel.t) :
  Airplane.wings (Steady.airplane s)
    = pre ++ collocation_panel_wing :: post ->
  ravel (Wing.panels collocation_panel_wing) !! i = Some collocation_panel ->
  (forall w, w ∈ post -> length (ravel (Wing.panels w)) <= i) ->
  Airplane.wings (Steady.airplane s)
    = pre' ++ vortex_panel_wing :: post' ->
  ravel (Wing.panels vortex_panel_wing) !! j = Some vortex_panel ->
  (forall w, w ∈ post' -> length (ravel (Wing.panels w)) <= j) ->
  Steady.set_up_geometry s = Ok s' ->
  exists row,
    Steady.aerodynamic_influence_coefficients s' !! i = Some row /\
    row !! j
    = Some (dot (panel_normalized_induced_velocity
                   (Panel.ring_vortex vortex_panel)
                   (Panel.horseshoe_vortex vortex_panel)
                   (Panel.collocation_point collocation_panel))
              (Panel.normal_direction collocation_panel)).
Proof.
  intros Hwings Hcp Hpost Hwings' Hvp Hpost' H.
  unfold Steady.set_up_geometry in H.
  apply bind_Ok_inv in H as (m & Hm & H). injection H as <-. simpl.
  set (F := fun cp vp : Panel.t =>
         dot (panel_normalized_induced_velocity (Panel.ring_vortex vp)
                (Panel.horseshoe_vortex vp) (Panel.collocation_point cp))
           (Panel.normal_direction cp)).
  rewrite Hwings in Hm at 1.
  refine (for_each_last_writer (fun w => ravel (Wing.panels w)) _
            (fun i' cp (m : list (list Q)) =>
               exists row, m !! i' = Some row /\
                           row !! j = Some (F cp vortex_panel))
            pre post collocation_panel_wing i collocation_panel _ m _
            Hcp Hpost Hm).
  intros i' cp m1 m2 Hrow. cbn beta iota in Hrow. split.
  - rewrite Hwings' in Hrow.
    refine (for_each_last_writer (fun w => ravel (Wing.panels w)) _
              (fun j' vp (m : list (list Q)) =>
                 exists row, m !! i' = Some row /\
                             row !! j' = Some (F cp vp))
              pre' post' vortex_panel_wing j vortex_panel _ m2 _
              Hvp Hpost' Hrow).
    intros j' vp m3 m4 Hset. cbn beta iota in Hset.
    apply set_matrix_Ok in Hset as (row & Hr & Hj' & ->). split.
    + exists (<[j' := F cp vp]> row). split.
      * apply list_lookup_insert_eq. by eapply lookup_lt_Some.
      * by apply list_lookup_insert_eq.
    + intros Hne (row' & Hr' & Hx). rewrite Hr in Hr'. injection Hr' as <-.
      exists (<[j' := F cp vp]> row). split.
      * apply list_lookup_insert_eq. by eapply lookup_lt_Some.
      * by rewrite list_lookup_insert_ne.
  - intros Hne Hi.
    refine (for_each_inv
              (fun m => exists row, m !! i = Some row /\
                          row !! j = Some (F collocation_panel vortex_panel))
              _ _ _ _ _ Hi Hrow).
    intros vw m3 m4 _ Hm3 Hloop.
    refine (for_each_inv
              (fun m => exists row, m !! i = Some row /\
                          row !! j = Some (F collocation_panel vortex_panel))
              _ _ _ _ _ Hm3 Hloop).
    intros [j' vp] m5 m6 _ Hm5 Hset. cbn beta iota in Hset.
    apply set_matrix_Ok in Hset as (row & Hr & Hj' & ->).
    by rewrite list_lookup_insert_ne.
Qed.

End PanelNumbers.

(** ** The further properties on the small problem *)

Lemma initial_movement_two_steps : initial_movement Example.two_step_solver.
Proof.
  split.
  - intros j j' a a' Ha Ha'.
    change (replicate 2 Example.bare_airplane !! j = Some a) in Ha.
    change (replicate 2 Example.bare_airplane !! j' = Some a') in Ha'.
    apply lookup_replicate in Ha as [-> _].
    by apply lookup_replicate in Ha' as [-> _].
  - intros j a w Ha Hw.
    change (replicate 2 Example.bare_airplane !! j = Some a) in Ha.
    apply lookup_replicate in Ha as [-> _].
    apply list_elem_of_singleton in Hw as ->. by split.
Defined.

(** The wake of the second of two poses after the run *)
Lemma run_wake_shapes_witness :
  let w := Example.value Example.ring_wing
             (Unsteady.wing_at 1 0 Example.two_steps_run) in
  shape0 (Wing.wake_ring_vortex_vertices w) = 2 /\
  shape1 (Wing.wake_ring_vortex_vertices w) = 3 /\
  shape0 (Wing.wake_ring_vortices w) = 1 /\
  shape1 (Wing.wake_ring_vortices w) = 2.
Proof.
  destruct (@run_wake_shapes Example.aero true Example.two_step_solver
              Example.two_steps_run initial_movement_two_steps)
    with (j := 1) (wi := 0)
         (w := Example.value Example.ring_wing
                 (Unsteady.wing_at 1 0 Example.two_steps_run))
    as [_ H].
  - vm_compute. reflexivity.
  - vm_compute. lia.
  - vm_compute. reflexivity.
  - destruct H as (H1 & H2 & H3 & H4 & _); [lia|]. by repeat split.
Defined.

(** The wake ring vortices the first time step makes for the next wing *)
Lemma wake_ring_vortices_on_grid_witness :
  exists rings,
    Unsteady.wing_at 1 0
      (Example.value Example.vertices_shed
         (Unsteady.populate_vortices_of_wing 0 0 Example.this_airplane
            Example.vertices_shed))
    = Ok (Wing.set_wake_ring_vortices rings Example.next_wing) /\
    exists o,
      get2 rings 0 1 = Ok o /\
      wake_ring_of Example.this_wing
        (Wing.wake_ring_vortex_vertices Example.next_wing) 0 1 o.
Proof.
  destruct (@wake_ring_vortices_on_grid 0 0 Example.this_airplane
              Example.this_wing Example.next_wing Example.vertices_shed
              (Example.value Example.vertices_shed
                 (Unsteady.populate_vortices_of_wing 0 0
                    Example.this_airplane Example.vertices_shed)))
    as (rings & _ & Hw & Hcells).
  - vm_compute. reflexivity.
  - vm_compute. reflexivity.
  - vm_compute. reflexivity.
  - exists rings. split; [exact Hw|]. apply Hcells; vm_compute; lia.
Defined.

(** The forces of the first time step *)
Lemma near_field_forces_store_results_only_witness :
  (forall j, j <> 0 ->
     Unsteady.airplanes Example.forces_done !! j
     = Unsteady.airplanes Example.solved !! j) /\
  airplane_but_results <$> Unsteady.airplanes Example.forces_done !! 0
    = airplane_but_results <$> Unsteady.airplanes Example.solved !! 0 /\
  same_settings Example.solved Example.forces_done.
Proof.
  apply (@near_field_forces_store_results_only Example.aero Example.solved
           Example.forces_done 0).
  - vm_compute. reflexivity.
  - vm_compute. reflexivity.
Defined.

(** The first time step of the three poses *)
Lemma time_step_is_local_witness :
  Unsteady.num_steps (Example.after_steps 1)
    = Unsteady.num_steps Example.initialized /\
  Unsteady.current_step (Example.after_steps 1) = Some 0 /\
  (forall j, j <> 0 -> j <> 0 + 1 ->
     Unsteady.airplanes (Example.after_steps 1) !! j
     = Unsteady.airplanes Example.initialized !! j) /\
  wake_of_airplane <$> Unsteady.airplanes (Example.after_steps 1) !! 0
    = wake_of_airplane <$> Unsteady.airplanes Example.initialized !! 0 /\
  (Unsteady.num_steps Example.initialized <= 0 + 1 ->
   Unsteady.airplanes (Example.after_steps 1) !! (0 + 1)
   = Unsteady.airplanes Example.initialized !! (0 + 1)).
Proof.
  apply (@time_step_is_local Example.aero true 0 Example.initialized
           (Example.after_steps 1)).
  vm_compute. reflexivity.
Defined.

(** The ring vortex of the second panel of the last pose *)
Lemma initialize_panel_vortices_rings_witness :
  exists ring,
    initial_ring (Example.wing (Example.panel 0 None None)
                    (Example.panel 1 None None)) 0 1
      (Example.panel 1 None None) ring /\
    unsteady_panel_at 2 0 0 1 Example.initialized
      = Ok (Panel.set_ring_vortex (Some ring) (Example.panel 1 None None)).
Proof.
  destruct (initialize_panel_vortices_rings
              Example.unsteady_solver Example.initialized)
    as (_ & _ & H).
  - vm_compute. reflexivity.
  - apply (H 2 0 0 1).
    + vm_compute. reflexivity.
    + vm_compute. lia.
    + vm_compute. lia.
    + vm_compute. reflexivity.
Defined.

(** The wake vertex shed behind the second panel by the first time step *)
Lemma next_wake_vertices_witness :
  exists next_wing' next_panel freestream,
    Unsteady.wing_at 1 0 Example.vertices_shed = Ok next_wing' /\
    get2_py
      (Wing.panels
         (Example.value Example.ring_wing
            (Unsteady.wing_at 1 0 Example.forces_done)))
      (trailing_edge_position Example.this_wing) 1 = Ok next_panel /\
    Unsteady.the_freestream_velocity Example.forces_done = Ok freestream /\
    get2 (Wing.wake_ring_vortex_vertices next_wing') 0 1
      = Ok (Unsteady.shed_vertex (aero := Example.aero) Example.forces_done
              freestream 0 0 (trailing_edge_position Example.this_wing) 1
              "back_left_vertex" (Panel.back_left_vertex next_panel)).
Proof.
  destruct (@next_wake_vertices Example.aero 0 0 Example.this_wing
              (Example.value Example.ring_wing
                 (Unsteady.wing_at 1 0 Example.forces_done))
              Example.forces_done Example.vertices_shed)
    as (next_wing' & Hw & Hrow & _ & _).
  - vm_compute. reflexivity.
  - vm_compute. reflexivity.
  - intros _. vm_compute. reflexivity.
  - intros H. exfalso. apply H. reflexivity.
  - vm_compute. reflexivity.
  - destruct (Hrow 1) as (p & f & Hp & Hf & Hl & _); [vm_compute; lia|].
    exists next_wing', p, f. by repeat split.
Defined.

(** The ring vortex of the first panel of the next wing after the first
    time step has shed its vertices *)
Lemma trailing_edge_rings_meet_wake_witness :
  exists next_wing' bl br,
    Unsteady.wing_at 1 0 Example.vertices_shed = Ok next_wing' /\
    get2 (Wing.wake_ring_vortex_vertices next_wing') 0 0 = Ok bl /\
    get2 (Wing.wake_ring_vortex_vertices next_wing') 0 1 = Ok br /\
    get2 (Wing.panels next_wing') 0 0
      = Ok (Panel.set_ring_vortex
              (Some (RingVortex.new (mk_vec (1 # 4) 0 0) (mk_vec (1 # 4) 1 0)
                       bl br None))
              (Example.panel 0 (Some (Example.ring 0 None)) None)).
Proof.
  destruct (@trailing_edge_rings_meet_wake Example.aero 0 0 0
              Example.this_wing
              (Example.value Example.ring_wing
                 (Unsteady.wing_at 1 0 Example.forces_done))
              Example.forces_done Example.vertices_shed)
    as (next_wing' & Hw & Hring & _).
  - vm_compute. reflexivity.
  - vm_compute. reflexivity.
  - intros _. vm_compute. reflexivity.
  - vm_compute. reflexivity.
  - vm_compute. reflexivity.
  - destruct (Hring 0 (Example.panel 0 (Some (Example.ring 0 None)) None)
                (Example.ring 0 None))
      as (bl & br & Hbl & Hbr & Hp).
    + vm_compute. lia.
    + vm_compute. reflexivity.
    + reflexivity.
    + exists next_wing', bl, br. by repeat split.
Defined.

(** The steady horseshoe problem of the two panels *)
Lemma steady_flow_tangency_witness :
  let panels :=
    ravel (Wing.panels
             (Example.wing (Example.panel 0 None (Some (Example.horseshoe 0 None)))
                (Example.panel 1 None (Some (Example.horseshoe 1 None))))) in
  let freestream :=
    OperatingPoint.calculate_freestream_velocity_geometry_axes
      (Steady.operating_point Example.steady_horseshoe_solver) in
  length (Steady.vortex_strengths Example.horseshoe_solved) = length panels /\
  forall i collocation_panel,
    panels !! i = Some collocation_panel ->
    (dotl
       (map (fun vortex_panel =>
               dot (panel_normalized_induced_velocity (Aerodynamics := Example.aero)
                      (Panel.ring_vortex vortex_panel)
                      (Panel.horseshoe_vortex vortex_panel)
                      (Panel.collocation_point collocation_panel))
                   (Panel.normal_direction collocation_panel))
          panels)
       (Steady.vortex_strengths Example.horseshoe_solved)
     + dot freestream (Panel.normal_direction collocation_panel) == 0)%Q.
Proof.
  apply (@steady_flow_tangency Example.aero Example.steady_horseshoe_solver
           Example.geometry_set_up Example.operating_point_set_up
           Example.horseshoe_solved).
  - reflexivity.
  - vm_compute. reflexivity.
  - vm_compute. reflexivity.
  - vm_compute. reflexivity.
  - left. vm_compute. reflexivity.
Defined.

(** The horseshoe vortex of the second panel after the solve *)
Lemma horseshoe_strengths_solved_and_scattered_witness :
  exists wing' h g,
    Airplane.wings (Steady.airplane Example.horseshoe_solved) !! 0
      = Some wing' /\
    Steady.vortex_strengths Example.horseshoe_solved !! 1 = Some g /\
    Panel.horseshoe_vortex
      (Example.panel 1 None (Some (Example.horseshoe 1 None))) = Some h /\
    get2 (Wing.panels wing') 0 1
      = Ok (Panel.set_horseshoe_vortex
              (Some (HorseshoeVortex.update_strength g h))
              (Example.panel 1 None (Some (Example.horseshoe 1 None)))).
Proof.
  destruct (horseshoe_strengths_solved_and_scattered
              Example.operating_point_set_up Example.horseshoe_solved)
    as (_ & _ & H).
  - vm_compute. reflexivity.
  - apply (H 0 (Example.wing
                  (Example.panel 0 None (Some (Example.horseshoe 0 None)))
                  (Example.panel 1 None (Some (Example.horseshoe 1 None))))
             0 1).
    + vm_compute. reflexivity.
    + vm_compute. repeat constructor.
    + vm_compute. reflexivity.
Defined.

(** The second panel in the first time step *)
Lemma unsteady_flow_tangency_witness :
  exists strengths collocation_panel,
    Unsteady.current_vortex_strengths Example.solved = Some strengths /\
    get2 (Wing.panels
            (Example.wing (Example.panel 0 (Some (Example.ring 0 None)) None)
               (Example.panel 1 (Some (Example.ring 1 None)) None))) 0 1
      = Ok collocation_panel /\
    (dotl
       (map (Unsteady.wing_wing_influence (aero := Example.aero)
               collocation_panel)
          (ravel
             (Wing.panels
                (Example.wing
                   (Example.panel 0 (Some (Example.ring 0 None)) None)
                   (Example.panel 1 (Some (Example.ring 1 None)) None)))))
       strengths
     + Unsteady.wake_wing_influence (aero := Example.aero)
         (Example.airplane (Example.panel 0 (Some (Example.ring 0 None)) None)
            (Example.panel 1 (Some (Example.ring 1 None)) None))
         collocation_panel
     + Unsteady.freestream_wing_influence (aero := Example.aero) 0
         (Example.v3 1 0 (-1)) 0 0 1 collocation_panel == 0)%Q.
Proof.
  destruct (@unsteady_flow_tangency Example.aero Example.started
              Example.matrix_done Example.freestream_after_matrix
              Example.assembled Example.solved 0
              (Example.airplane
                 (Example.panel 0 (Some (Example.ring 0 None)) None)
                 (Example.panel 1 (Some (Example.ring 1 None)) None))
              (Example.wing
                 (Example.panel 0 (Some (Example.ring 0 None)) None)
                 (Example.panel 1 (Some (Example.ring 1 None)) None))
              (Example.v3 1 0 (-1)))
    as (strengths & Hs & _ & H).
  - reflexivity.
  - vm_compute. reflexivity.
  - vm_compute. reflexivity.
  - reflexivity.
  - reflexivity.
  - vm_compute. repeat constructor.
  - reflexivity.
  - reflexivity.
  - vm_compute. reflexivity.
  - vm_compute. reflexivity.
  - vm_compute. reflexivity.
  - vm_compute. reflexivity.
  - destruct (H 0 1) as (p & Hp & Hdot); [vm_compute; lia..|].
    exists strengths, p. split; [exact Hs|]. split; [exact Hp|exact Hdot].
Defined.

(** Three poses and no time step *)
Lemma run_without_steps_raises_witness :
  Unsteady.run (aero := Example.aero) true
    (Unsteady.init (replicate 3 Example.bare_airplane)
       (replicate 3 Example.operating_point) 0 1)
  = Raise AttributeError.
Proof.
  refine (proj2 (@run_without_steps_raises Example.aero true
                   (Unsteady.init (replicate 3 Example.bare_airplane)
                      (replicate 3 Example.operating_point) 0 1) _ _)
            (Example.value Example.unsteady_solver
               (Unsteady.initialize_panel_vortices
                  (Unsteady.init (replicate 3 Example.bare_airplane)
                     (replicate 3 Example.operating_point) 0 1))) _).
  - reflexivity.
  - reflexivity.
  - vm_compute. reflexivity.
Defined.

(** The run of two poses without its printing *)
Lemma verbose_run_same_witness :
  Unsteady.run (aero := Example.aero) false Example.two_step_solver
  = Ok Example.two_steps_run.
Proof.
  refine (proj1 (@verbose_run_same Example.aero Example.two_step_solver
                   Example.two_steps_run initial_movement_two_steps) _).
  vm_compute. reflexivity.
Defined.

(** The wake vertices the legacy solver sheds at the first step, moved at
    the solution velocity *)
Lemma legacy_wake_vertices_witness :
  exists vertices x velocity,
    Example.value Example.forces_done
      (Legacy.populate_vertices_of_wing (aero := Example.aero) false 0 0
         Example.forces_done)
    = Unsteady.modify_wing_at 1 0
        (Wing.set_wake_ring_vortex_vertices vertices) Example.forces_done /\
    get2 vertices 0 2 = Ok x /\
    Unsteady.calculate_solution_velocity (aero := Example.aero)
      Example.forces_done x = Ok velocity /\
    get2 vertices 1 2
      = Ok (vadd x
              (vscale_r velocity (Unsteady.delta_time Example.forces_done))).
Proof.
  destruct (@legacy_wake_vertices Example.aero false 0 0 Example.this_wing
              (Example.value Example.ring_wing
                 (Unsteady.wing_at 1 0 Example.forces_done))
              Example.forces_done
              (Example.value Example.forces_done
                 (Legacy.populate_vertices_of_wing (aero := Example.aero)
                    false 0 0 Example.forces_done)))
    as (vertices & Hs & _ & H0 & _).
  - vm_compute. reflexivity.
  - vm_compute. reflexivity.
  - intros H. exfalso. apply H. reflexivity.
  - vm_compute. reflexivity.
  - destruct H0 as [_ H0]; [reflexivity|].
    destruct (H0 2) as (x & velocity & Hx & Hv & Hg); [vm_compute; lia|].
    exists vertices, x, velocity. split; [exact Hs|]. by repeat split.
Defined.

(** The totals of the forces of the first time step *)
Lemma near_field_totals_witness :
  exists airplane op,
    Unsteady.airplanes Example.forces_done !! 0 = Some airplane /\
    Unsteady.current_operating_point Example.forces_done = Some op /\
    let rotation :=
      transpose3
        (OperatingPoint.calculate_rotation_matrix_wind_axes_to_geometry_axes
           op) in
    let force := mat3_vec rotation (fst (sum_of_panel_results airplane)) in
    let moment := mat3_vec rotation (snd (sum_of_panel_results airplane)) in
    let q := OperatingPoint.calculate_dynamic_pressure op in
    let s_ref := Airplane.s_ref airplane in
    let b_ref := Airplane.b_ref airplane in
    let c_ref := Airplane.c_ref airplane in
    ~ q == 0 /\ ~ s_ref == 0 /\ ~ b_ref == 0 /\ ~ c_ref == 0 /\
    Unsteady.total_near_field_force_wind_axes Example.forces_done = force /\
    Unsteady.total_near_field_moment_wind_axes Example.forces_done = moment /\
    Unsteady.CDi Example.forces_done = Some (- vx force / q / s_ref)%Q /\
    Unsteady.CL Example.forces_done = Some (- vz force / q / s_ref)%Q /\
    Unsteady.Cm Example.forces_done
      = Some (vy moment / q / s_ref / c_ref)%Q /\
    Unsteady.Cn Example.forces_done
      = Some (vz moment / q / s_ref / b_ref)%Q.
Proof.
  destruct (@near_field_totals Example.aero Example.solved
              Example.forces_done 0)
    as (airplane & op & Ha & Hop & _ & H).
  - vm_compute. reflexivity.
  - vm_compute. reflexivity.
  - cbv zeta in H.
    destruct H as (Hf & Hm & _ & _ & Hforce & Hroll & Hpitch & _).
    assert (Airplane.s_ref airplane = 2%Q /\
            Airplane.b_ref airplane = 2%Q /\
            Airplane.c_ref airplane = 1%Q) as (Hs & Hb & Hc).
    { vm_compute in Ha. injection Ha as <-. by repeat split. }
    assert (OperatingPoint.calculate_dynamic_pressure op = 1%Q) as Hq.
    { vm_compute in Hop. by injection Hop as <-. }
    assert (~ OperatingPoint.calculate_dynamic_pressure op == 0) as Hq0
      by (rewrite Hq; discriminate).
    assert (~ Airplane.s_ref airplane == 0) as Hs0
      by (rewrite Hs; discriminate).
    assert (~ Airplane.b_ref airplane == 0) as Hb0
      by (rewrite Hb; discriminate).
    assert (~ Airplane.c_ref airplane == 0) as Hc0
      by (rewrite Hc; discriminate).
    destruct (Hforce Hq0 Hs0) as (Hcdi & _ & Hcl & _).
    destruct (Hroll Hq0 Hs0 Hb0) as (_ & Hcn).
    pose proof (Hpitch Hq0 Hs0 Hc0) as Hcm.
    exists airplane, op. cbv zeta. by repeat split.
Defined.

(** The second panel of the second of two wings *)
Lemma steady_vectors_by_panel_number_witness :
  Steady.normal_directions Example.two_wing_operating_point !! 1
  = Some (Panel.normal_direction
            (Example.panel 3 None (Some (Example.horseshoe 3 None)))) /\
  Steady.freestream_influences Example.two_wing_operating_point !! 1
  = Some (dot (OperatingPoint.calculate_freestream_velocity_geometry_axes
                 (Steady.operating_point Example.two_wing_solver))
            (Panel.normal_direction
               (Example.panel 3 None (Some (Example.horseshoe 3 None))))).
Proof.
  apply (steady_vectors_by_panel_number
           Example.two_wing_solver Example.two_wing_operating_point
           [Example.wing
              (Example.panel 0 None (Some (Example.horseshoe 0 None)))
              (Example.panel 1 None (Some (Example.horseshoe 1 None)))]
           []
           (Example.wing
              (Example.panel 2 None (Some (Example.horseshoe 2 None)))
              (Example.panel 3 None (Some (Example.horseshoe 3 None))))).
  - reflexivity.
  - reflexivity.
  - intros w Hw. by apply elem_of_nil in Hw.
  - vm_compute. reflexivity.
Defined.

(** The second panel of the second wing as the collocation panel, its
    first panel as the vortex panel *)
Lemma steady_matrix_by_panel_number_witness :
  exists row,
    Steady.aerodynamic_influence_coefficients Example.two_wing_geometry !! 1
    = Some row /\
    row !! 0
    = Some (dot (@panel_normalized_induced_velocity Example.aero
                   (Panel.ring_vortex
                      (Example.panel 2 None
                         (Some (Example.horseshoe 2 None))))
                   (Panel.horseshoe_vortex
                      (Example.panel 2 None
                         (Some (Example.horseshoe 2 None))))
                   (Panel.collocation_point
                      (Example.panel 3 None
                         (Some (Example.horseshoe 3 None)))))
              (Panel.normal_direction
                 (Example.panel 3 None (Some (Example.horseshoe 3 None))))).
Proof.
  apply (@steady_matrix_by_panel_number Example.aero
           Example.two_wing_solver Example.two_wing_geometry
           [Example.wing
              (Example.panel 0 None (Some (Example.horseshoe 0 None)))
              (Example.panel 1 None (Some (Example.horseshoe 1 None)))]
           []
           [Example.wing
              (Example.panel 0 None (Some (Example.horseshoe 0 None)))
              (Example.panel 1 None (Some (Example.horseshoe 1 None)))]
           []
           (Example.wing
              (Example.panel 2 None (Some (Example.horseshoe 2 None)))
              (Example.panel 3 None (Some (Example.horseshoe 3 None))))
           (Example.wing
              (Example.panel 2 None (Some (Example.horseshoe 2 None)))
              (Example.panel 3 None (Some (Example.horseshoe 3 None))))).
  - reflexivity.
  - reflexivity.
  - intros w Hw. by apply elem_of_nil in Hw.
  - reflexivity.
  - reflexivity.
  - intros w Hw. by apply elem_of_nil in Hw.
  - vm_compute. reflexivity.
Defined.
